(* ===== verification/_CoqProject ===== *)
-Q . S2P
Prelude.v
Heap.v
CString.v
Snprintf.v
CDouble.v
Env.v
EnvInst.v
ProtoHttp.v
Unified.v
Stack.v
StackMem.v
Framework.v
Registry.v
RegistryMem.v
Catalog.v
Detect.v
Transform.v
McpFrame.v
McpHttp.v
McpTransport.v
McpContext.v
McpServer.v
McpClient.v
McpLife.v
McpPeers.v
McpCb.v
McpSession.v
Sha256.v
A2aAuth.v
A2aCore.v
A2aTask.v
A2aRoute.v
A2aCb.v
A2aMem.v
McpMem.v
ClientMem.v
ServerMem.v
ServerLife.v
TransportMem.v
UnifiedMem.v
Types.v
Adapters.v
