(* ===== verification/Prelude.v ===== *)
(** * The AgentRT unified protocol layer: prelude and overview

    The library lets an agent runtime speak several protocols: the Model Context
    Protocol (MCP, as client and as server) and Agent-to-Agent (A2A), both
    carried as JSON-RPC.  A message of any protocol is a [unified_message_t].  A
    protocol stack keeps one adapter, a table of callbacks, per protocol and
    forwards messages to it.  A registry holds what is known of the protocols,
    the catalog fills it at start-up, and transforms turn a message of one
    protocol into one of another.  The MCP and A2A code implements the adapters
    and can also be called directly.

    ** The parts and their files (all paths under src/)

    - Unified: common/src/unified_protocol.c (messages, JSON, text helpers),
      common/src/unified_decode.c.
    - Stack: the rest of common/src/unified_protocol.c (stacks),
      src/protocol_toplevel_impl.c (single adapters), the manager of
      common/src/protocols_impl.c.  [NeedsContext] is what an adapter that
      rejects a null context promises to a stack.
    - Framework: the static state and the HTTP adapter of
      common/src/protocols_impl.c.  ProtoHttp: common/src/proto_http.c.
    - Registry: core/registry/src/protocol_registry.c.  Catalog: catalog/,
      standards/src/protocol_std_providers.c, src/airy_protocol_interface.c.
    - Detect: core/router/src/protocol_detect.c.  Transform:
      core/transformers/ and catalog/src/protocol_catalog_transforms.c.
    - The MCP client, standards/mcp/src/: McpFrame (mcp_client_frame.c,
      mcp_client_stdio.c), McpHttp (mcp_client_http.c), McpClient
      (mcp_client_rpc.c, mcp_client_tool.c), McpLife (mcp_client.c and the
      argument vector of mcp_client_stdio.c).
    - The MCP server, standards/mcp/src/: McpContext (mcp_v1_adapter.c),
      McpServer (mcp_v1_adapter_tool.c, _resource, _prompt, _route, _sampling,
      _stream), McpTransport (mcp_transport.c), McpCb (mcp_v1_adapter_cb.c, the
      adapter).  McpSession and McpPeers have no code of their own: the calls a
      server can get in its life, and a client and a server on one pipe.
    - A2A, standards/a2a/src/: A2aCore (a2a_v03_adapter.c,
      a2a_v03_adapter_agent.c, _internal.h), A2aTask (_task.c, _msg.c), A2aAuth
      and Sha256 (_auth.c), A2aRoute (_route.c), A2aCb (_cb.c, the adapter).
    - Adapters: the A2A and MCP adapters in a stack.
    - Memory: StackMem, RegistryMem, A2aMem, McpMem, ServerMem, TransportMem,
      ClientMem and UnifiedMem run the code of Stack, Registry, A2aCore, A2aTask,
      A2aRoute, McpContext, of the MCP server's requests (McpServer, McpCb), of
      McpTransport, of the MCP client and of the codec of Unified that allocates
      and releases over the heap of Heap; [erase] functions give back the values
      of the other files.  ServerLife has no code of its own: sessions of a
      server on the heap.  Types: the C types of an A2A context.
    - Prelude, CString, Snprintf, CDouble: byte strings and outcomes, the C
      library functions the code calls, the accumulating [snprintf] idiom,
      IEEE floating point.  Env: the interfaces of the code that is not in the
      repository (error codes, [AIRY_STRNCPY_TERM], cJSON) as classes; EnvInst:
      an instance of each, on which the witnesses are evaluated.

    ** How code becomes definitions

    A structure is a record with one field per member, an enumeration an
    inductive type or its integer values where the code computes with them.  A
    C function keeps its name; its result is the return code, the updated
    state, and what it stores through its out parameters.  An array with a count
    is the list of the elements in use (with the capacity, where the code keeps
    one, and with the stale slots, where the code can see them).  Integers are
    [Z], wrapped explicitly ([u32], [u64]) where they can overflow.  [outcome]
    is [Done] or [Fault], undefined behaviour such as a read or a write outside
    an object or a call through a null pointer.  Callbacks and handlers are
    functions on a type [W], the state of the world; the ones of a server or an
    A2A context do not change that context.  The system answers system calls by
    scripts: lists of what [read], [write], [poll], [connect] and the clock
    return, so that theorems about all scripts are about every way the bytes can
    be cut up, interrupted or cut short.  A boolean [alloc], or a function from
    the number of an allocation, says which allocations succeed.  Buffers and
    contexts whose ownership matters have addresses.

    Heap models the allocator: a multiset of live blocks, and an oracle that
    says which requests are granted.  Releasing a block that is not live faults.
    [own x] is the multiset of blocks a structure owns, and [spec m X Q] says
    that [m], owning [X], does not fault, touches no other block, and ends with
    a result and blocks of which [Q] holds.  Every rule is for all oracles; what
    is claimed of the values is claimed when every request is granted
    ([grants]).  [follows] is the same for calls that wait for the peer as well.
    What callbacks allocate for themselves is part of the world; what the
    handlers of an MCP server allocate and hand over is a parameter ([Handlers])
    with its contract ([HandlersOk]), and handlers that copy their values are
    an instance ([handlers_ok]).

    ** Fuel and bounds

    [dec] has 20 digits, enough for 64 bits.  The buffer of the frame parser is
    doubled at most 64 times, more than from 4 KB to its limit.
    [rpc_wait] and [recv_http] get one turn per byte that is still to come, and
    one more; [rpc_terminates] shows that this is enough and that more changes
    nothing.  [poll_child] has the 20 polls of the code.  The JSON reader of
    EnvInst has one unit per character.

    ** What the theorems show

    - The wire: frames survive any way of cutting them up
      ([frame_stream_roundtrip], [transport_roundtrip]), buffers stay bounded
      ([frame_buffer_bounded]), a request sent by the client is what the
      server reads and the server's response is what the exchange returns
      ([mcp_exchange_end_to_end], [rpc_delivers]), exchanges end
      ([rpc_terminates]).
    - Tables: the registry and the agent table implement finite maps
      ([registry_refines_map], [agents_refine_map]), the stack's adapter list
      stays consistent ([stack_invariant]), tasks keep their identity
      ([tasks_keep_identity]), a server's arrays stay consistent and its tools
      stable whatever is called ([server_invariant]), activation respects
      dependencies ([registry_activate_spec]), an A2A context inhabits its C
      types ([a2a_context_typed]).
    - Requests: what a stack does on every branch of sending and receiving
      ([stack_send_spec], [stack_receive_spec]), A2A requests are atomic
      ([a2a_request_atomic]), MCP tool calls and routing ([tools_call_spec],
      [route_request_spec]), streaming ([tool_stream_chunks]).
    - Security: SHA-256 and HMAC against their references ([sha256_streaming],
      [hmac_sha256_spec]), lockout, tokens, signatures and array bounds of
      authentication ([auth_lockout], [token_lifecycle], [signature_spec],
      [auth_bounds]).
    - Encodings: unified messages ([unified_roundtrip]), dispatch of transforms and detection
      ([auto_transform_dispatch], [detect_envelope]).
    - Resources: a client connection closes each descriptor once and ends its
      child ([client_resources]), an HTTP post keeps its contract
      ([http_post_contract]).
    - Memory: over any sequence of calls and whatever requests are refused, an
      A2A context, an MCP context and an MCP client with its connection fault
      nowhere and leave the heap as it was, and do what the calls on values do
      ([a2a_memory_safe], [mcp_memory_safe], [client_memory_safe]); a request to
      the MCP server leaves its response, and the messages of a prompt
      ([server_request_memory]), and so a server's whole life leaves exactly
      those messages ([server_life_memory]); what a streaming call and a refused message
      leave ([streaming_leaves_lines], [dropped_responses]); what a stack
      leaves behind ([stack_memory_exact]).  Without a number: a transport of the
      server and the codec leave what they hand out ([transport_memory_safe],
      [unified_codec_memory]), where the MCP context leaks ([mcp_leaks]), and
      what a registration without its copies does later ([refused_name_faults]).
    - Composition: start-up makes all protocols discoverable
      ([builtins_startup]), the standard adapters do not work in a stack
      ([standard_adapters_refused]).
    - Where the code does something else than it means to, theorems without a
      number say what, next to the definitions they are about.

    ** Assumptions

    [AIRY_MEMCPY] within one buffer moves overlapping ranges correctly.  Outside
    the memory files, copies of strings whose result the code does not check are
    allocated, and structures are released when their owner goes.  The nodes
    cJSON builds are allocated.  A null pointer prints as (null), which C leaves
    undefined and glibc defines.  Threads do not interleave inside a call.

    ** Not modelled

    Logging and the error stack; name lookup, sockets and processes beyond their
    answers; the blocks of HTTP posts, which are lists; the Windows branches, which
    return errors; the table entries no function of the repository calls through
    a stack; tests, build files and documents. *)

From Stdlib Require Export ZArith Lia Ascii.
From Stdlib Require Import Strings.Byte.
From stdpp Require Export base option strings numbers sets tactics list_numbers list.

#[global] Open Scope Z_scope.

(** ** Byte strings

    A C string or a byte buffer is the list of its characters, without the
    terminating NUL.  In a literal an apostrophe stands for the double quote
    of the C literal, and a backslash followed by [n] or [r] for LF or CR. *)

Definition bytes : Type := list ascii.

Inductive lit : Type :=
| lit_nil
| lit_cons (c : ascii) (l : lit).

Fixpoint lit_parse (l : list Byte.byte) : lit :=
  match l with
  | [] => lit_nil
  | x5c :: x6e :: r => lit_cons (ascii_of_byte x0a) (lit_parse r)
  | x5c :: x72 :: r => lit_cons (ascii_of_byte x0d) (lit_parse r)
  | x27 :: r => lit_cons (ascii_of_byte x22) (lit_parse r)
  | b :: r => lit_cons (ascii_of_byte b) (lit_parse r)
  end.

Definition lit_char (b : Byte.byte) : list Byte.byte :=
  match b with
  | x22 => [x27]
  | x0a => [x5c; x6e]
  | x0d => [x5c; x72]
  | _ => [b]
  end.

Fixpoint lit_print (l : lit) : list Byte.byte :=
  match l with
  | lit_nil => []
  | lit_cons c r => lit_char (byte_of_ascii c) ++ lit_print r
  end.

Declare Scope cs_scope.
Delimit Scope cs_scope with cs.
Bind Scope cs_scope with bytes.

#[warnings="-via-type-mismatch"]
String Notation list lit_parse lit_print
  (via lit mapping [[nil] => lit_nil, [cons] => lit_cons]) : cs_scope.

(** The characters the code names. *)
Definition NUL : ascii := "000"%char.
Definition LF : ascii := "010"%char.
Definition CR : ascii := "013"%char.
Definition TAB : ascii := "009"%char.
Definition QUOTE : ascii := "034"%char.
Definition BACKSLASH : ascii := "092"%char.

(** ** Outcomes

    [Fault] is a step C leaves undefined: a write or read outside an object,
    a call through a null function pointer, a null string given to [strcmp]. *)

Inductive outcome (A : Type) : Type :=
| Done (a : A)
| Fault.
Arguments Done {A} a.
Arguments Fault {A}.

#[export] Instance outcome_ret : MRet outcome := fun A a => Done a.
#[export] Instance outcome_bind : MBind outcome :=
  fun A B f o => match o with Done a => f a | Fault => Fault end.
#[export] Instance outcome_fmap : FMap outcome :=
  fun A B f o => match o with Done a => Done (f a) | Fault => Fault end.

#[export] Instance outcome_eq_dec {A} `{!EqDecision A} : EqDecision (outcome A).
Proof. solve_decision. Defined.

Lemma Done_inj {A} (a b : A) : Done a = Done b -> a = b.
Proof. by intros [=]. Qed.

Lemma outcome_bind_inv {A B} (o : outcome A) (f : A -> outcome B) b :
  (o ≫= f) = Done b -> exists a, o = Done a /\ f a = Done b.
Proof. destruct o as [a|]; [eauto | done]. Qed.

(** ** Record update

    [r <| f := v |>] is [r] with field [f] replaced, [r <| f ::= g |>] with
    [g] applied to it.  A record type opts in with an [Eta] instance that
    rebuilds a value from its projections. *)

Class Eta (R : Type) := eta : R -> R.

Class Updater {R E : Type} (proj : R -> E) := updater : (E -> E) -> R -> R.

Ltac build_updater proj :=
  lazymatch type of proj with
  | ?R -> ?E =>
      let inst := constr:(_ : Eta R) in
      exact (fun (f : E -> E) (r : R) =>
        ltac:(let e := (eval hnf in inst) in
              let b := (eval cbv beta in (e r)) in
              lazymatch b with
              | context C [proj r] => let t := context C [f (proj r)] in exact t
              end))
  end.

#[export] Hint Extern 1 (Updater ?proj) => build_updater proj : typeclass_instances.

Definition upd {R E : Type} (proj : R -> E) {U : Updater proj} (f : E -> E) (r : R) : R :=
  U f r.
Arguments upd {R E} proj {U} f r /.

Declare Scope record_scope.
Open Scope record_scope.
Notation "r <| proj ::= f |>" := (upd proj f r)
  (at level 1, left associativity, proj constr at level 1, f constr at level 99) : record_scope.
Notation "r <| proj := v |>" := (upd proj (fun _ => v) r)
  (at level 1, left associativity, proj constr at level 1, v constr at level 99) : record_scope.

(** ** Machine integers *)

Definition u8 (z : Z) : Z := z mod 2 ^ 8.
Definition u32 (z : Z) : Z := z mod 2 ^ 32.
Definition u64 (z : Z) : Z := z mod 2 ^ 64.

(** [size_t] is the 64-bit unsigned type of the platforms the code builds for. *)
Definition SIZE_MAX : Z := 2 ^ 64 - 1.
Definition INT_MAX : Z := 2 ^ 31 - 1.

Lemma u64_small z : 0 <= z < 2 ^ 64 -> u64 z = z.
Proof. apply Z.mod_small. Qed.
Lemma u32_small z : 0 <= z < 2 ^ 32 -> u32 z = z.
Proof. apply Z.mod_small. Qed.
Lemma u8_small z : 0 <= z < 2 ^ 8 -> u8 z = z.
Proof. apply Z.mod_small. Qed.
Lemma u8_range z : 0 <= u8 z < 2 ^ 8.
Proof. by apply Z.mod_pos_bound. Qed.

Create Rewrite HintDb airy.
#[export] Hint Rewrite u64_small u32_small u8_small using lia : airy.

(** The length of a list as a C size. *)
Definition lenZ {A} (l : list A) : Z := Z.of_nat (length l).

Lemma lenZ_nil {A} : lenZ (@nil A) = 0.
Proof. done. Qed.
Lemma lenZ_cons {A} (x : A) l : lenZ (x :: l) = 1 + lenZ l.
Proof. unfold lenZ. cbn [length]. lia. Qed.
Lemma lenZ_app {A} (l k : list A) : lenZ (l ++ k) = lenZ l + lenZ k.
Proof. unfold lenZ. rewrite length_app. lia. Qed.
Lemma lenZ_fmap {A B} (f : A -> B) l : lenZ (f <$> l) = lenZ l.
Proof. unfold lenZ. by rewrite length_fmap. Qed.
Lemma lenZ_nonneg {A} (l : list A) : 0 <= lenZ l.
Proof. unfold lenZ. lia. Qed.
Lemma lenZ_take {A} (l : list A) n : lenZ (take n l) = Z.min (Z.of_nat n) (lenZ l).
Proof. unfold lenZ. rewrite length_take. lia. Qed.
Lemma lenZ_drop {A} (l : list A) n : lenZ (drop n l) = Z.max 0 (lenZ l - Z.of_nat n).
Proof. unfold lenZ. rewrite length_drop. lia. Qed.

#[export] Hint Rewrite @lenZ_nil @lenZ_cons @lenZ_app @lenZ_take @lenZ_drop : airy.

(** ** Lists *)

(** The first index whose element satisfies [p]: the [for] loops that scan an
    array and stop at the first hit. *)
Fixpoint find_idx {A} (p : A -> bool) (l : list A) : option nat :=
  match l with
  | [] => None
  | x :: r => if p x then Some 0%nat else S <$> find_idx p r
  end.

Lemma find_idx_Some {A} (p : A -> bool) l i :
  find_idx p l = Some i <->
  (exists x, l !! i = Some x /\ p x = true) /\
  (forall j y, (j < i)%nat -> l !! j = Some y -> p y = false).
Proof.
  revert i; induction l as [|x l IH]; intros i; cbn [find_idx].
  - split; [done|]. by intros [(? & ? & _) _].
  - destruct (p x) eqn:Hp.
    + split.
      * intros [= <-]. split; [by exists x|]. intros j y ?; lia.
      * intros [Hi Hmin]. destruct i as [|i]; [done|].
        specialize (Hmin 0%nat x ltac:(lia) eq_refl). congruence.
    + split.
      * intros (i' & Hi' & ->)%fmap_Some. apply IH in Hi' as [Hx Hmin].
        split; [exact Hx|]. intros [|j] y Hj Hy; [by injection Hy as ->|].
        apply (Hmin j y); [lia | done].
      * intros [(y & Hy & Hpy) Hmin]. destruct i as [|i]; [cbn in Hy; congruence|].
        apply fmap_Some. exists i. split; [|done]. apply IH. split; [by exists y|].
        intros j z Hj Hz. apply (Hmin (S j) z); [lia | done].
Qed.

Lemma find_idx_None {A} (p : A -> bool) l :
  find_idx p l = None <-> Forall (fun x => p x = false) l.
Proof.
  induction l as [|x l IH]; cbn [find_idx]; [done|].
  rewrite Forall_cons. destruct (p x) eqn:Hp.
  - split; [done|]. by intros [? _].
  - rewrite <- IH. destruct (find_idx p l); cbn; intuition discriminate.
Qed.

Lemma find_idx_lt {A} (p : A -> bool) l i :
  find_idx p l = Some i -> (i < length l)%nat.
Proof. intros [(x & Hx & _) _]%find_idx_Some. by eapply lookup_lt_Some. Qed.

Lemma find_idx_app_r {A} (p : A -> bool) l k :
  Forall (fun x => p x = false) l ->
  find_idx p (l ++ k) = Nat.add (length l) <$> find_idx p k.
Proof.
  induction 1 as [|x l Hx _ IH]; cbn [find_idx app length].
  - by destruct (find_idx p k).
  - rewrite Hx, IH. by destruct (find_idx p k).
Qed.

Lemma find_idx_app_l {A} (p : A -> bool) l k i :
  find_idx p l = Some i -> find_idx p (l ++ k) = Some i.
Proof.
  revert i. induction l as [|x l IH]; intros i; cbn [find_idx app]; [done|].
  destruct (p x); [done|]. destruct (find_idx p l) as [j|]; [|done]. by rewrite (IH j).
Qed.

(** Replacing the first hit by another hit. *)
Lemma find_idx_insert {A} (p : A -> bool) l i y :
  find_idx p l = Some i -> p y = true -> find_idx p (<[i := y]> l) = Some i.
Proof.
  intros Hi Hy. pose proof (find_idx_lt _ _ _ Hi). apply find_idx_Some in Hi as [_ Hmin].
  apply find_idx_Some. split.
  - exists y. split; [by apply list_lookup_insert_eq | done].
  - intros j z Hj. rewrite list_lookup_insert_ne by lia. by apply Hmin.
Qed.

(** Changing an element without changing its image. *)
Lemma fmap_alter_same {A B} (f : A -> B) (g : A -> A) (i : nat) (l : list A) :
  (forall x, f (g x) = f x) -> f <$> alter g i l = f <$> l.
Proof. intros Hg. revert i. induction l as [|x l IH]; intros [|i]; cbn; [done..| |]; f_equal; auto. Qed.

(** Deleting position [i]: the [memmove] that closes the gap. *)
Definition remove_at {A} (i : nat) (l : list A) : list A := take i l ++ drop (S i) l.

Lemma length_remove_at {A} i (l : list A) :
  (i < length l)%nat -> length (remove_at i l) = (length l - 1)%nat.
Proof. intros ?. unfold remove_at. rewrite length_app, length_take, length_drop. lia. Qed.

Lemma remove_at_perm {A} i (l : list A) x :
  l !! i = Some x -> l ≡ₚ x :: remove_at i l.
Proof.
  intros Hi. unfold remove_at. rewrite <- (take_drop_middle l i x Hi) at 1.
  by rewrite Permutation_middle.
Qed.

Lemma elem_of_remove_at {A} i (l : list A) y : y ∈ remove_at i l -> y ∈ l.
Proof.
  unfold remove_at. rewrite elem_of_app.
  intros [Hy|Hy]; [by eapply elem_of_take in Hy as (?&?&_); eapply list_elem_of_lookup_2|].
  apply list_elem_of_lookup in Hy as [j Hj]. rewrite lookup_drop in Hj.
  by eapply list_elem_of_lookup_2.
Qed.

(** Case analysis on the conditionals and matches of an unfolded definition. *)
Ltac case_all :=
  repeat (case_match; simplify_eq; try done).
