(* ===== verification/Heap.v ===== *)
(** * Blocks of memory and who owns them

    The allocator as a state: which blocks are live, and which requests it will
    grant.  Programs over it form a monad in which releasing a block that is not
    live is a fault.  [spec m X Q] says what [m] does when it owns the blocks
    [X]: it does not fault, it touches no other block, and [Q] describes its
    result and the blocks it owns afterwards.  Every rule holds whatever requests
    are granted; what holds when all of them are is stated under [grants]. *)

From S2P Require Export Prelude.
From stdpp Require Export gmap gmultiset.
#[local] Open Scope Z_scope.

(** An address that is not null. *)
Abbreviation addr := nat.

Record heap := mkHeap {
  hp_live : gmultiset addr;
  hp_next : addr;
  hp_oracle : addr -> bool
}.

(** Addresses not given out yet are not live, and no block is live twice. *)
Definition heap_wf (h : heap) : Prop :=
  forall p, (multiplicity p (hp_live h) <= 1)%nat /\ (p ∈ hp_live h -> (p < hp_next h)%nat).

Definition mem (A : Type) : Type := heap -> outcome (A * heap).

#[export] Instance mem_ret : MRet mem := fun A a h => Done (a, h).
#[export] Instance mem_bind : MBind mem := fun A B f m h => '(a, h') ← m h; f a h'.

(** Undefined behaviour. *)
Definition fault {A} : mem A := fun _ => Fault.

(** A step on values. *)
Definition lift {A} (o : outcome A) : mem A := match o with Done a => mret a | Fault => fault end.

(** [malloc] and [calloc]: the next address, if the request is granted. *)
Definition malloc : mem (option addr) := fun h =>
  let p := hp_next h in
  Done (if hp_oracle h p
        then (Some p, mkHeap ({[+ p +]} ⊎ hp_live h) (S p) (hp_oracle h))
        else (None, mkHeap (hp_live h) (S p) (hp_oracle h))).

(** [free]; a null pointer is accepted. *)
Definition free (p : option addr) : mem unit := fun h =>
  match p with
  | None => Done (tt, h)
  | Some p =>
      if decide (p ∈ hp_live h)
      then Done (tt, mkHeap (hp_live h ∖ {[+ p +]}) (hp_next h) (hp_oracle h))
      else Fault
  end.

(** A string in a block of its own, or a null pointer. *)
Definition hstr : Type := option (addr * bytes).

Definition strdup (s : bytes) : mem hstr :=
  p ← malloc; mret ((fun p => (p, s)) <$> p).

(** [s ? strdup(s) : NULL] *)
Definition strdup_opt (s : option bytes) : mem hstr :=
  match s with Some s => strdup s | None => mret None end.

Definition free_str (s : hstr) : mem unit := free (fst <$> s).

(** The string at the address, if any. *)
Definition str (s : hstr) : option bytes := snd <$> s.
#[global] Arguments str _ : simpl never.

(** [realloc]: the old block is released when the request is granted. *)
Definition realloc (p : option addr) : mem (option addr) :=
  q ← malloc;
  match q with Some _ => _ ← free p; mret q | None => mret None end.

(** Running [f] on each element in turn. *)
Fixpoint each {A} (f : A -> mem unit) (l : list A) : mem unit :=
  match l with [] => mret tt | a :: r => _ ← f a; each f r end.

(** [AIRY_FREE(x); x = AIRY_STRDUP(s)]. *)
Definition replace_str (old : hstr) (s : bytes) : mem hstr :=
  _ ← free_str old; strdup s.

(** ** Ownership *)

(** The blocks a value owns. *)
Class Owns (A : Type) := own : A -> gmultiset addr.
#[global] Arguments own {_ _} _ : simpl never.

#[export] Instance own_addr : Owns addr := fun p => {[+ p +]}.
#[export] Instance own_option `{Owns A} : Owns (option A) := fun o =>
  match o with Some a => own a | None => ∅ end.
#[export] Instance own_str : Owns hstr := fun s =>
  match s with Some (p, _) => {[+ p +]} | None => ∅ end.
#[export] Instance own_list `{Owns A} : Owns (list A) := fun l => ⋃+ (own <$> l).
#[export] Instance own_pair `{Owns A, Owns B} : Owns (A * B) := fun p => own p.1 ⊎ own p.2.

(** What may be assumed when every request is granted. *)
Class Grants := grants : Prop.

Definition heap_ok `{Grants} (h : heap) : Prop :=
  heap_wf h /\ (grants -> forall p, hp_oracle h p = true).

Definition spec `{Grants} {A} (m : mem A) (X : gmultiset addr)
    (Q : A -> gmultiset addr -> Prop) : Prop :=
  forall F h, heap_ok h -> hp_live h = X ⊎ F ->
  exists a h' Y, m h = Done (a, h') /\ heap_ok h' /\ hp_live h' = Y ⊎ F /\ Q a Y.

(** A destructor releases exactly what the value owns. *)
Class Destroys `{Grants} {A} `{Owns A} (d : A -> mem unit) :=
  destroys a : spec (d a) (own a) (fun _ Y => Y = ∅).

(** A constructor owns nothing at first, and afterwards what its result owns. *)
Definition constructs `{Grants} {A} `{Owns A} (m : mem A) (Q : A -> Prop) : Prop :=
  spec m ∅ (fun a Y => Y = own a /\ Q a).

Section rules.
Context `{Grants} {A B : Type}.
Implicit Types (m : mem A) (X Y F : gmultiset addr).

Lemma spec_ret (a : A) X (Q : A -> gmultiset addr -> Prop) : Q a X -> spec (mret a) X Q.
Proof. intros HQ F h Hok Hl. by exists a, h, X. Qed.

Lemma spec_bind m (f : A -> mem B) X Q R :
  spec m X Q -> (forall a Y, Q a Y -> spec (f a) Y R) -> spec (m ≫= f) X R.
Proof.
  intros Hm Hf F h Hok Hl. destruct (Hm F h Hok Hl) as (a & h1 & Y & Hr & Hok1 & Hl1 & HQ).
  destruct (Hf a Y HQ F h1 Hok1 Hl1) as (b & h2 & Z & Hr2 & Hok2 & Hl2 & HR).
  exists b, h2, Z. split; [|done]. unfold mbind, mem_bind. by rewrite Hr.
Qed.

Lemma spec_conseq m X X' Q Q' :
  spec m X Q -> X' = X -> (forall a Y, Q a Y -> Q' a Y) -> spec m X' Q'.
Proof.
  intros Hm -> HQ F h Hok Hl. destruct (Hm F h Hok Hl) as (a & h1 & Y & Hr & Hok1 & Hl1 & Ha).
  exists a, h1, Y. auto.
Qed.

(** Running the first step of a program. *)
Lemma mem_bind_done m (f : A -> mem B) h a h' : m h = Done (a, h') -> (m ≫= f) h = f a h'.
Proof. intros Hm. unfold mbind, mem_bind. by rewrite Hm. Qed.

(** What is not touched stays. *)
Lemma spec_frame m X R Q :
  spec m X Q -> spec m (X ⊎ R) (fun a Y => exists Z, Y = Z ⊎ R /\ Q a Z).
Proof.
  intros Hm F h Hok Hl. destruct (Hm (R ⊎ F) h Hok) as (a & h1 & Y & Hr & Hok1 & Hl1 & HQ).
  { rewrite Hl. multiset_solver. }
  exists a, h1, (Y ⊎ R). split; [done|]. split; [done|]. split; [rewrite Hl1; multiset_solver|].
  by exists Y.
Qed.
End rules.

(** A step of a program that leaves the blocks [R] alone. *)
Lemma spec_step `{Grants} {A B} (m : mem A) (f : A -> mem B) X X0 R Q Q' :
  spec m X0 Q -> X = X0 ⊎ R -> (forall a Z, Q a Z -> spec (f a) (Z ⊎ R) Q') ->
  spec (m ≫= f) X Q'.
Proof.
  intros Hm -> Hf. eapply spec_bind; [by apply spec_frame|]. intros a Y (Z & -> & HQ). by apply Hf.
Qed.

(** Making a value, then going on with it. *)
Lemma spec_new `{Grants} {A B} `{Owns A} (m : mem A) (f : A -> mem B) X P Q :
  constructs m P -> (forall a, P a -> spec (f a) (own a ⊎ X) Q) -> spec (m ≫= f) X Q.
Proof.
  intros Hm Hf. eapply spec_step; [exact Hm|symmetry; apply (left_id_L ∅ (⊎))|].
  intros a Z [-> Ha]. by apply Hf.
Qed.

(** Releasing a value, then going on without it. *)
Lemma spec_destroy `{Grants} {A B} `{Owns A} (d : A -> mem unit) `{!Destroys d} a (m : mem B) X R Q :
  X = own a ⊎ R -> spec m R Q -> spec (_ ← d a; m) X Q.
Proof.
  intros -> Hm. eapply spec_step; [apply (destroys a)|reflexivity|]. intros _ Z ->.
  eapply spec_conseq; [exact Hm|multiset_solver|done].
Qed.

Lemma heap_wf_spec h :
  heap_wf h <-> forall p, multiplicity p (hp_live h) = 0%nat \/
                  (multiplicity p (hp_live h) = 1 /\ p < hp_next h)%nat.
Proof.
  unfold heap_wf. setoid_rewrite elem_of_multiplicity.
  split; intros Hwf p; destruct (Hwf p); lia.
Qed.

Section rules2.
Context `{Grants}.

Lemma spec_malloc : constructs malloc (fun p => grants -> is_Some p).
Proof.
  intros F h [Hwf Hg] Hl. unfold malloc. rewrite heap_wf_spec in Hwf.
  destruct (hp_oracle h (hp_next h)) eqn:Ho.
  - exists (Some (hp_next h)). eexists _, _. split; [done|]. split; [|split; [|by split]]; [split; [|done]|].
    + apply heap_wf_spec. intros p. pose proof (Hwf p) as Hp. pose proof (Hwf (hp_next h)) as Hn.
      cbn [hp_live hp_next]. rewrite multiplicity_disj_union.
      destruct (decide (p = hp_next h)) as [->|Hne].
      * rewrite multiplicity_singleton_eq. lia.
      * rewrite multiplicity_singleton_ne by done. lia.
    + cbn [hp_live]. rewrite Hl. unfold own, own_option, own_addr. multiset_solver.
  - exists None. eexists _, ∅. split; [done|]. split; [split; [|done]|split; [|split; [done|]]].
    + apply heap_wf_spec. intros p. destruct (Hwf p); cbn; lia.
    + by cbn [hp_live]; rewrite Hl.
    + intros HG. by rewrite (Hg HG) in Ho.
Qed.

#[export] Instance destroys_free : Destroys free.
Proof.
  intros [p|] F h [Hwf Hg] Hl; cbn [free].
  - unfold own, own_option, own_addr in Hl. rewrite decide_True by (rewrite Hl; multiset_solver).
    eexists _, _, ∅. split; [done|]. split; [split; [|done]|split; [|done]].
    + apply heap_wf_spec. rewrite heap_wf_spec in Hwf. intros q. pose proof (Hwf q) as Hq.
      cbn [hp_live hp_next]. rewrite multiplicity_difference. lia.
    + cbn [hp_live]. rewrite Hl. multiset_solver.
  - eexists _, _, ∅. split; [done|]. by rewrite Hl.
Qed.

Lemma spec_free_block (p : addr) : spec (free (Some p)) (own p) (fun _ Y => Y = ∅).
Proof. exact (destroys (Some p)). Qed.

Lemma own_str_addr (s : hstr) : own s = own (fst <$> s).
Proof. by destruct s as [[p b]|]. Qed.

#[export] Instance destroys_str : Destroys free_str.
Proof. intros s. rewrite own_str_addr. apply destroys_free. Qed.

Lemma own_nil `{Owns A} : own (A:=list A) [] = ∅.
Proof. done. Qed.

Lemma own_none `{Owns A} : own (A:=option A) None = ∅.
Proof. done. Qed.

Lemma own_str_none : own (A:=hstr) None = ∅.
Proof. done. Qed.

Lemma own_some `{Owns A} (a : A) : own (Some a) = own a.
Proof. done. Qed.

Lemma own_pair_eq `{Owns A, Owns B} (a : A) (b : B) : own (a, b) = own a ⊎ own b.
Proof. done. Qed.

Lemma own_cons `{Owns A} (a : A) l : own (a :: l) = own a ⊎ own l.
Proof. done. Qed.

Lemma own_app `{Owns A} (l k : list A) : own (l ++ k) = own l ⊎ own k.
Proof. induction l as [|a l IH]; [by rewrite own_nil, (left_id_L ∅ (⊎))|]. cbn [app]. rewrite !own_cons, IH. multiset_solver. Qed.

Lemma spec_lift {A} (o : outcome A) a X : o = Done a -> spec (lift o) X (fun r Y => Y = X /\ r = a).
Proof. intros ->. by apply spec_ret. Qed.

(** Going on with a value an outcome has. *)
Lemma spec_lift_bind {A B} (o : outcome A) a (f : A -> mem B) X Q :
  o = Done a -> spec (f a) X Q -> spec (lift o ≫= f) X Q.
Proof. intros Ho Hf. eapply spec_bind; [by apply spec_lift|]. by intros ? Y [-> ->]. Qed.

(** Replacing an element of a list. *)
Lemma own_insert `{Owns A} (l : list A) i a :
  l !! i = Some a -> exists R, own l = own a ⊎ R /\ forall b, own (<[i := b]> l) = own b ⊎ R.
Proof.
  intros Hi. exists (own (take i l) ⊎ own (drop (S i) l)). split.
  - rewrite <- (take_drop_middle l i a Hi) at 1. rewrite own_app, own_cons. multiset_solver.
  - intros b. apply lookup_lt_Some in Hi. rewrite insert_take_drop by done.
    rewrite own_app, own_cons. multiset_solver.
Qed.

#[export] Instance destroys_each `{Owns A} (d : A -> mem unit) `{!Destroys d} : Destroys (each d).
Proof.
  intros l. induction l as [|a r IH]; cbn [each]; [by apply spec_ret|].
  eapply spec_destroy; [apply _|apply own_cons|exact IH].
Qed.

(** A refused reallocation leaves the block. *)
Lemma spec_realloc p :
  spec (realloc p) (own p) (fun q Y => match q with
    | Some _ => Y = own q
    | None => Y = own p /\ ~ grants
    end).
Proof.
  eapply spec_new; [apply spec_malloc|]. intros [q|] Hq.
  - eapply (spec_destroy free p); [apply (comm_L (⊎))|]. by apply spec_ret.
  - apply spec_ret. split; [apply (left_id_L ∅ (⊎))|]. intros Hg. by destruct (Hq Hg).
Qed.

(** A copy is the string, or null when memory runs out. *)
Definition copy_of (s : option bytes) (r : hstr) : Prop :=
  (str r = None \/ str r = s) /\ (grants -> str r = s).

Lemma spec_strdup s : constructs (strdup s) (copy_of (Some s)).
Proof.
  eapply spec_bind; [apply spec_malloc|]. intros p Y [-> Hg]. apply spec_ret.
  destruct p as [p|]; (split; [done|]); (split; [by (left + right)|]); intros HG; [done|].
  by destruct (Hg HG).
Qed.

Lemma spec_strdup_opt s : constructs (strdup_opt s) (copy_of s).
Proof.
  destruct s as [s|]; cbn [strdup_opt]; [apply spec_strdup|]. apply spec_ret.
  split; [done|]. split; [by left|done].
Qed.

Lemma spec_replace_str old s :
  spec (replace_str old s) (own old) (fun r Y => Y = own r /\ copy_of (Some s) r).
Proof.
  eapply (spec_destroy free_str); [symmetry; apply (right_id_L ∅ (⊎))|apply spec_strdup].
Qed.
End rules2.

(** ** Whole programs *)

(** [m] does not fault and releases the blocks [X] and nothing else. *)
Definition frees_exactly (m : mem unit) (X : gmultiset addr) : Prop :=
  forall F h, heap_wf h -> hp_live h = X ⊎ F ->
  exists h', m h = Done (tt, h') /\ heap_wf h' /\ hp_live h' = F.

Lemma spec_releases (G : Grants := False) (m : mem unit) X :
  spec m X (fun _ Y => Y = ∅) -> frees_exactly m X.
Proof.
  intros Hm F h Hwf Hl. destruct (Hm F h) as ([] & h' & Y & Hr & [Hwf' _] & Hl' & ->); [by split|done|].
  exists h'. split; [done|]. split; [done|]. rewrite Hl'. apply (left_id_L ∅ (⊎)).
Qed.

(** A run from a heap of which the program owns nothing. *)
Lemma spec_run {A} (m : mem A) Q h :
  let G : Grants := forall p, hp_oracle h p = true in
  heap_wf h -> spec m ∅ Q ->
  exists a h' Y, m h = Done (a, h') /\ heap_wf h' /\ hp_live h' = Y ⊎ hp_live h /\ Q a Y.
Proof.
  intros G Hwf Hm. destruct (Hm (hp_live h) h) as (a & h' & Y & Hr & [Hwf' _] & Hl & HQ).
  { split; [done|]. by intros HG. }
  { symmetry. apply (left_id_L ∅ (⊎)). }
  by exists a, h', Y.
Qed.

(** A program that owns nothing before and after leaves the heap as it was. *)
Lemma spec_closed {A} (m : mem A) (Q : A -> Prop) h :
  let G : Grants := forall p, hp_oracle h p = true in
  heap_wf h -> spec m ∅ (fun a Y => Y = ∅ /\ Q a) ->
  exists a h', m h = Done (a, h') /\ hp_live h' = hp_live h /\ Q a.
Proof.
  intros G Hwf Hm. destruct (spec_run m _ h Hwf Hm) as (a & h' & Y & Hr & _ & Hl & -> & HQ).
  exists a, h'. split; [done|]. split; [|done]. rewrite Hl. apply (left_id_L ∅ (⊎)).
Qed.

(** The heap a program starts with. *)
Definition heap_init (oracle : addr -> bool) : heap := mkHeap ∅ 0 oracle.

Lemma heap_init_wf oracle : heap_wf (heap_init oracle).
Proof. apply heap_wf_spec. intros p. left. apply multiplicity_empty. Qed.

Create Rewrite HintDb own.
#[export] Hint Rewrite @own_none @own_str_none @own_some @own_pair_eq @own_nil @own_cons @own_app : own.

(** Equations between multisets of blocks. *)
Ltac blocks := autorewrite with own; multiset_solver.

(** Equations between the blocks of named values. *)
Ltac names_blocks :=
  change (option (addr * bytes)) with hstr;
  repeat match goal with |- context [@own ?A ?I ?x] => generalize (@own A I x) end;
  intros; multiset_solver.
