(* ===== verification/CString.v ===== *)
(** * C strings: the functions of <string.h>, <ctype.h> and <stdlib.h> the code calls

    A [char *] that points to a C string is the byte string up to its NUL; a
    pointer into it is the suffix that starts there.  Offsets are [nat], sizes
    and numbers [Z].  [strtol] and its relatives saturate as the C library's
    do; [dec] prints as [%u], [%zu] and [%llu]. *)

From S2P Require Export Prelude.

(** ** Characters *)

Definition code (c : ascii) : Z := Z.of_N (N_of_ascii c).
Definition chr (z : Z) : ascii := ascii_of_N (Z.to_N (z mod 256)).

Definition isdigit (c : ascii) : bool := (48 <=? code c) && (code c <=? 57).
Definition isspace (c : ascii) : bool := (code c =? 32) || ((9 <=? code c) && (code c <=? 13)).
Definition isupper (c : ascii) : bool := (65 <=? code c) && (code c <=? 90).
Definition islower (c : ascii) : bool := (97 <=? code c) && (code c <=? 122).
Definition isalnum (c : ascii) : bool := isdigit c || isupper c || islower c.
Definition tolower (c : ascii) : ascii := if isupper c then chr (code c + 32) else c.

(** ** Strings *)

(** The C string a buffer holds: its characters before the first NUL. *)
Fixpoint cstr_of (buf : bytes) : bytes :=
  match buf with
  | [] => []
  | c :: r => if Ascii.eqb c NUL then [] else c :: cstr_of r
  end.

Definition no_nul (s : bytes) : Prop := NUL ∉ s.

Definition strlen (s : bytes) : Z := lenZ s.
Definition streq (s t : bytes) : bool := bool_decide (s = t).
Definition strneq (n : nat) (s t : bytes) : bool := bool_decide (take n s = take n t).
Definition strcaseeq (s t : bytes) : bool := streq (tolower <$> s) (tolower <$> t).

Fixpoint starts_with (p s : bytes) : bool :=
  match p, s with
  | [], _ => true
  | a :: p', b :: s' => Ascii.eqb a b && starts_with p' s'
  | _ :: _, [] => false
  end.

(** [strstr(s, p)]: the suffix of [s] that starts at the first occurrence of [p]. *)
Fixpoint strstr (s p : bytes) : option bytes :=
  if starts_with p s then Some s
  else match s with
       | [] => None
       | _ :: r => strstr r p
       end.

(** [strchr(s, c) - s] for a character other than NUL. *)
Definition strchr (s : bytes) (c : ascii) : option nat := find_idx (Ascii.eqb c) s.

(** ["%s"] printed into a buffer of [n] bytes with [snprintf]. *)
Definition fits (n : nat) (s : bytes) : bytes := take (n - 1) s.

(** ** Numbers *)

Fixpoint skip_ws (s : bytes) : bytes :=
  match s with
  | c :: r => if isspace c then skip_ws r else s
  | [] => []
  end.

Fixpoint digits_val (acc : Z) (s : bytes) : Z :=
  match s with
  | c :: r => if isdigit c then digits_val (acc * 10 + (code c - 48)) r else acc
  | [] => acc
  end.

Definition LONG_MAX : Z := 2 ^ 63 - 1.
Definition LONG_MIN : Z := - 2 ^ 63.

Definition strtol (s : bytes) : Z :=
  match skip_ws s with
  | c :: r =>
      if Ascii.eqb c "-" then Z.max LONG_MIN (- digits_val 0 r)
      else if Ascii.eqb c "+" then Z.min LONG_MAX (digits_val 0 r)
      else Z.min LONG_MAX (digits_val 0 (c :: r))
  | [] => 0
  end.

Definition atol (s : bytes) : Z := strtol s.

Definition sat_u64 (v : Z) : Z := if v <=? SIZE_MAX then v else SIZE_MAX.

(** [strtoul] and [strtoull] with 64-bit results. *)
Definition strtoull (s : bytes) : Z :=
  match skip_ws s with
  | c :: r =>
      if Ascii.eqb c "-"
      then (let v := digits_val 0 r in if v <=? SIZE_MAX then u64 (- v) else SIZE_MAX)
      else if Ascii.eqb c "+" then sat_u64 (digits_val 0 r)
      else sat_u64 (digits_val 0 (c :: r))
  | [] => 0
  end.

Definition digit (z : Z) : ascii := chr (48 + z).

Fixpoint dec_digits (fuel : nat) (n : Z) : bytes :=
  match fuel with
  | O => []
  | S f => if n <? 10 then [digit n] else dec_digits f (n / 10) ++ [digit (n mod 10)]
  end.

(** Twenty digits print every unsigned 64-bit number. *)
Definition dec (n : Z) : bytes := dec_digits 20 n.

(** ["%d"] of an [int]. *)
Definition dec_signed (n : Z) : bytes :=
  if n <? 0 then ("-"%char : ascii) :: dec (- n) else dec n.

Definition hexdigit (z : Z) : ascii := if z <? 10 then chr (48 + z) else chr (87 + z).

(** [n] hexadecimal digits of [z], most significant first: ["%08x"] is [hex 8]. *)
Fixpoint hex (n : nat) (z : Z) : bytes :=
  match n with
  | O => []
  | S m => hex m (z / 16) ++ [hexdigit (z mod 16)]
  end.

(** ** Lemmas *)

Lemma code_range c : 0 <= code c < 256.
Proof.
  unfold code. split; [lia|].
  pose proof (N_ascii_bounded c). lia.
Qed.

Lemma code_chr z : 0 <= z < 256 -> code (chr z) = z.
Proof.
  intros Hz. unfold code, chr. rewrite Z.mod_small by lia.
  rewrite N_ascii_embedding by lia. lia.
Qed.

Lemma chr_code c : chr (code c) = c.
Proof.
  unfold code, chr. rewrite Z.mod_small by (pose proof (N_ascii_bounded c); lia).
  rewrite N2Z.id. apply ascii_N_embedding.
Qed.

Lemma cstr_of_no_nul s : no_nul (cstr_of s).
Proof.
  unfold no_nul. induction s as [|c r IH]; cbn; [apply not_elem_of_nil|].
  destruct (Ascii.eqb_spec c NUL); [apply not_elem_of_nil|].
  apply not_elem_of_cons. done.
Qed.

Lemma cstr_of_app_nul s r : no_nul s -> cstr_of (s ++ NUL :: r) = s.
Proof.
  unfold no_nul. induction s as [|c s IH]; cbn; [done|].
  rewrite not_elem_of_cons. intros [Hc Hs].
  destruct (Ascii.eqb_spec c NUL); [done|]. by rewrite IH.
Qed.

Lemma cstr_of_id s : no_nul s -> cstr_of s = s.
Proof.
  unfold no_nul. induction s as [|c s IH]; cbn; [done|].
  rewrite not_elem_of_cons. intros [Hc Hs].
  destruct (Ascii.eqb_spec c NUL); [done|]. by rewrite IH.
Qed.

Lemma no_nul_app s t : no_nul (s ++ t) <-> no_nul s /\ no_nul t.
Proof. unfold no_nul. rewrite elem_of_app. tauto. Qed.

Lemma starts_with_spec p s : starts_with p s = true <-> exists r, s = p ++ r.
Proof.
  revert s; induction p as [|a p IH]; intros s; cbn.
  - split; [by exists s|done].
  - destruct s as [|b s]; [split; [done|by intros [? [=]]]|].
    rewrite andb_true_iff, IH. split.
    + intros [->%Ascii.eqb_eq [r ->]]. by exists r.
    + intros [r [= -> ->]]. split; [apply Ascii.eqb_refl|by exists r].
Qed.

Lemma starts_with_app p r : starts_with p (p ++ r) = true.
Proof. apply starts_with_spec. by exists r. Qed.

(** Two delimited words that match are equal. *)
Lemma starts_with_delimited c k s t :
  c ∉ k -> c ∉ s -> starts_with (k ++ [c]) (s ++ c :: t) = true -> s = k.
Proof.
  revert s; induction k as [|a k IH]; intros s Hk Hs; destruct s as [|b s]; cbn [app starts_with].
  - done.
  - rewrite andb_true_r. intros ->%Ascii.eqb_eq. by destruct Hs; apply list_elem_of_here.
  - intros [->%Ascii.eqb_eq _]%andb_true_iff. by destruct Hk; apply list_elem_of_here.
  - intros [->%Ascii.eqb_eq H]%andb_true_iff. f_equal. apply IH; [..|done];
      intros ?; [apply Hk|apply Hs]; by apply list_elem_of_further.
Qed.

(** [strstr] finds an occurrence. *)
Lemma strstr_Some s p r :
  strstr s p = Some r -> starts_with p r = true /\ exists pre, s = pre ++ r.
Proof.
  induction s as [|c s IH]; cbn.
  - destruct (starts_with p []) eqn:H; [|done]. intros [= <-]. split; [done|by exists []].
  - destruct (starts_with p (c :: s)) eqn:H.
    + intros [= <-]. split; [done|by exists []].
    + intros [? [pre ->]]%IH. split; [done|by exists (c :: pre)].
Qed.

(** Text without the needle's first character is skipped. *)
Lemma strstr_skip c p s t : c ∉ s -> strstr (s ++ t) (c :: p) = strstr t (c :: p).
Proof.
  induction s as [|a s IH]; [done|].
  rewrite not_elem_of_cons. intros [Ha Hs]. cbn [app strstr starts_with].
  destruct (Ascii.eqb_spec c a); [done|]. cbn [andb]. by apply IH.
Qed.

Lemma strstr_here p r : p <> [] -> strstr (p ++ r) p = Some (p ++ r).
Proof.
  intros Hp. pose proof (starts_with_app p r) as H.
  destruct p as [|c p]; [done|]. cbn [app strstr] in *. by rewrite H.
Qed.

Lemma strstr_none c p s : c ∉ s -> strstr s (c :: p) = None.
Proof.
  intros Hs. rewrite <- (app_nil_r s), strstr_skip by done. done.
Qed.

Lemma strchr_skip s c r : c ∉ s -> strchr (s ++ c :: r) c = Some (length s).
Proof.
  intros Hs. unfold strchr. rewrite find_idx_app_r.
  - cbn [find_idx]. rewrite Ascii.eqb_refl. cbn. by rewrite Nat.add_0_r.
  - apply Forall_forall. intros x Hx. apply Ascii.eqb_neq. intros ->. by apply Hs.
Qed.

Lemma strchr_none s c : c ∉ s -> strchr s c = None.
Proof.
  intros Hs. apply find_idx_None, Forall_forall.
  intros x Hx. apply Ascii.eqb_neq. intros ->. by apply Hs.
Qed.

Lemma strchr_Some s c k :
  strchr s c = Some k -> s !! k = Some c /\ c ∉ take k s.
Proof.
  intros [(x & Hx & ->%Ascii.eqb_eq) Hmin]%find_idx_Some. split; [done|].
  intros (j & Hj & Hlt)%elem_of_take.
  specialize (Hmin j x Hlt Hj). by rewrite Ascii.eqb_refl in Hmin.
Qed.

Lemma streq_true s t : streq s t = true <-> s = t.
Proof. apply bool_decide_eq_true. Qed.
Lemma streq_false s t : streq s t = false <-> s <> t.
Proof. apply bool_decide_eq_false. Qed.
Lemma streq_refl s : streq s s = true.
Proof. by apply streq_true. Qed.
#[export] Hint Rewrite streq_refl : airy.

(** Compares the literal strings of a dispatch. *)
Ltac eval_streq :=
  repeat match goal with
  | |- context [streq ?a ?b] =>
      let v := eval vm_compute in (streq a b) in
      lazymatch v with true => idtac | false => idtac end;
      change (streq a b) with v; cbv iota
  end.

(** *** Decimal numbers *)

Lemma isdigit_digit z : 0 <= z < 10 -> isdigit (digit z) = true.
Proof. intros ?. unfold isdigit, digit. rewrite code_chr by lia. lia. Qed.

Lemma code_digit z : 0 <= z < 10 -> code (digit z) = 48 + z.
Proof. intros ?. unfold digit. apply code_chr. lia. Qed.

Definition all_digits (s : bytes) : Prop := Forall (fun c => isdigit c = true) s.

Lemma dec_digits_all f n : 0 <= n -> all_digits (dec_digits f n).
Proof.
  revert n; induction f as [|f IH]; intros n Hn; cbn; [constructor|].
  destruct (Z.ltb_spec n 10).
  - constructor; [|constructor]. apply isdigit_digit; lia.
  - apply Forall_app. split; [apply IH; apply Z.div_pos; lia|].
    constructor; [|constructor]. apply isdigit_digit.
    apply Z.mod_pos_bound; lia.
Qed.

Lemma digits_val_app s t acc :
  all_digits s -> digits_val acc (s ++ t) = digits_val (digits_val acc s) t.
Proof.
  intros Hs. revert acc; induction Hs as [|c s Hc Hs IH]; intros acc; [done|].
  cbn [app digits_val]. by rewrite Hc, IH.
Qed.

Lemma digits_val_stop acc t :
  match t with [] => True | c :: _ => isdigit c = false end -> digits_val acc t = acc.
Proof. destruct t as [|c t]; [done|]. cbn. by intros ->. Qed.

Lemma dec_digits_val f n :
  0 <= n < 10 ^ Z.of_nat f -> digits_val 0 (dec_digits f n) = n.
Proof.
  revert n; induction f as [|f IH]; intros n Hn.
  - cbn in Hn |- *. lia.
  - cbn [dec_digits]. destruct (Z.ltb_spec n 10).
    + cbn [digits_val]. rewrite isdigit_digit, code_digit by lia. lia.
    + assert (0 <= n / 10 < 10 ^ Z.of_nat f) as Hq.
      { split; [apply Z.div_pos; lia|]. apply Z.div_lt_upper_bound; [lia|].
        replace (Z.of_nat (S f)) with (Z.succ (Z.of_nat f)) in Hn by lia.
        rewrite Z.pow_succ_r in Hn by lia. lia. }
      rewrite digits_val_app by (apply dec_digits_all; lia).
      rewrite IH by done. cbn [digits_val].
      pose proof (Z.mod_pos_bound n 10 ltac:(lia)).
      rewrite isdigit_digit, code_digit by lia.
      pose proof (Z.div_mod n 10 ltac:(lia)). lia.
Qed.

(** Printing then reading back, whatever follows the number. *)
Lemma digits_val_dec n t :
  0 <= n < 2 ^ 64 ->
  match t with [] => True | c :: _ => isdigit c = false end ->
  digits_val 0 (dec n ++ t) = n.
Proof.
  intros Hn Ht. unfold dec. rewrite digits_val_app by (apply dec_digits_all; lia).
  rewrite dec_digits_val by (change (10 ^ Z.of_nat 20) with 100000000000000000000; lia).
  by apply digits_val_stop.
Qed.

Lemma dec_all_digits n : 0 <= n -> all_digits (dec n).
Proof. apply dec_digits_all. Qed.

Lemma dec_length_pos n : (0 < length (dec n))%nat.
Proof.
  unfold dec. cbn [dec_digits]. destruct (n <? 10); [cbn; lia|].
  rewrite length_app. cbn. lia.
Qed.

Lemma dec_digits_length f n : (length (dec_digits f n) <= f)%nat.
Proof.
  revert n; induction f as [|f IH]; intros n; cbn; [lia|].
  destruct (n <? 10); cbn; [lia|]. rewrite length_app. cbn. specialize (IH (n / 10)). lia.
Qed.

Lemma dec_length n : (length (dec n) <= 20)%nat.
Proof. apply dec_digits_length. Qed.

Lemma dec_digits_short f k n : n < 10 ^ Z.of_nat (S k) -> (length (dec_digits f n) <= S k)%nat.
Proof.
  revert k n. induction f as [|f IH]; intros k n Hn; cbn [dec_digits]; [cbn; lia|].
  destruct (Z.ltb_spec n 10); [cbn; lia|]. rewrite length_app. cbn [length].
  destruct k as [|k]; [change (10 ^ Z.of_nat 1) with 10 in Hn; lia|].
  enough (length (dec_digits f (n / 10)) <= S k)%nat by lia. apply IH.
  apply Z.div_lt_upper_bound; [lia|].
  replace (Z.of_nat (S (S k))) with (Z.succ (Z.of_nat (S k))) in Hn by lia.
  by rewrite Z.pow_succ_r in Hn by lia.
Qed.

(** A number below [10 ^ k] has at most [k] digits. *)
Lemma dec_short k n : n < 10 ^ Z.of_nat (S k) -> (length (dec n) <= S k)%nat.
Proof. apply dec_digits_short. Qed.

Lemma lenZ_dec n : 1 <= lenZ (dec n) <= 20.
Proof. pose proof (dec_length_pos n). pose proof (dec_length n). unfold lenZ. lia. Qed.

(** The first character of a printed number is a digit. *)
Lemma dec_head n : 0 <= n -> exists c r, dec n = c :: r /\ isdigit c = true.
Proof.
  intros Hn. pose proof (dec_length_pos n) as Hl. pose proof (dec_all_digits n Hn) as Hd.
  destruct (dec n) as [|c r]; [cbn in Hl; lia|]. exists c, r. split; [done|].
  by apply Forall_cons in Hd as [? _].
Qed.

Lemma digit_not_space c : isdigit c = true -> isspace c = false.
Proof. unfold isdigit, isspace. lia. Qed.

Lemma digit_neq c d : isdigit c = true -> isdigit d = false -> Ascii.eqb c d = false.
Proof. intros Hc Hd. apply Ascii.eqb_neq. intros ->. congruence. Qed.

Lemma skip_ws_digit c r : isdigit c = true -> skip_ws (c :: r) = c :: r.
Proof. intros Hc. cbn. by rewrite (digit_not_space c Hc). Qed.

Lemma strtol_dec n t :
  0 <= n < 2 ^ 63 ->
  match t with [] => True | c :: _ => isdigit c = false end ->
  strtol (dec n ++ t) = n.
Proof.
  intros Hn Ht. destruct (dec_head n ltac:(lia)) as (c & r & Hd & Hc).
  pose proof (digits_val_dec n t ltac:(lia) Ht) as Hv.
  unfold strtol. rewrite Hd in Hv |- *. cbn [app] in Hv |- *.
  rewrite (skip_ws_digit _ _ Hc), !(digit_neq _ _ Hc) by done.
  rewrite Hv. unfold LONG_MAX. lia.
Qed.

Lemma strtoull_dec n t :
  0 <= n < 2 ^ 64 ->
  match t with [] => True | c :: _ => isdigit c = false end ->
  strtoull (dec n ++ t) = n.
Proof.
  intros Hn Ht. destruct (dec_head n ltac:(lia)) as (c & r & Hd & Hc).
  pose proof (digits_val_dec n t Hn Ht) as Hv.
  unfold strtoull, sat_u64. rewrite Hd in Hv |- *. cbn [app] in Hv |- *.
  rewrite (skip_ws_digit _ _ Hc), !(digit_neq _ _ Hc) by done.
  rewrite Hv. unfold SIZE_MAX. by rewrite (proj2 (Z.leb_le n (2 ^ 64 - 1)) ltac:(lia)).
Qed.

Lemma digits_val_nonneg acc s : 0 <= acc -> 0 <= digits_val acc s.
Proof.
  revert acc. induction s as [|c s IH]; intros acc Ha; [done|]. cbn [digits_val].
  destruct (isdigit c) eqn:Hc; [|done]. apply IH.
  unfold isdigit in Hc. apply andb_prop in Hc as [Hc _]. apply Z.leb_le in Hc. lia.
Qed.

Lemma strtoull_nonneg s : 0 <= strtoull s.
Proof.
  unfold strtoull, sat_u64, u64, SIZE_MAX. destruct (skip_ws s) as [|c r]; [done|].
  pose proof (digits_val_nonneg 0 r ltac:(lia)). pose proof (digits_val_nonneg 0 (c :: r) ltac:(lia)).
  repeat case_match; try lia; apply Z.mod_pos_bound; lia.
Qed.

Lemma all_digits_notin s c : all_digits s -> isdigit c = false -> c ∉ s.
Proof.
  unfold all_digits. rewrite Forall_forall. intros Hs Hc Hin.
  specialize (Hs c Hin). congruence.
Qed.

Lemma dec_notin n c : 0 <= n -> isdigit c = false -> c ∉ dec n.
Proof. intros Hn. apply all_digits_notin. by apply dec_all_digits. Qed.

Lemma length_hex n z : length (hex n z) = n.
Proof.
  revert z; induction n as [|n IH]; intros z; cbn; [done|].
  rewrite length_app, IH. cbn. lia.
Qed.
