(* ===== verification/Snprintf.v ===== *)
(** * The accumulating [snprintf] idiom

    Most JSON the library emits is built by
    [offset += snprintf(buf + offset, size - offset, ...)].  [snprintf] returns
    the length the text would have had, so after a truncated call [offset] may
    exceed [size]; [size - offset] then wraps around in [size_t] and the next
    call writes outside [buf].  [sn_put] is one such call, [sn_run] a sequence
    of them on a fresh buffer. *)

From S2P Require Export CString.

Record sbuf := mkSbuf { sb_cap : Z; sb_off : Z; sb_text : bytes }.

Definition sb_new (cap : Z) : sbuf := mkSbuf cap 0 [].

(** One call that prints [s]: nothing is written with a size of zero, and a
    position past the end is outside the object. *)
Definition sn_put (s : bytes) (b : sbuf) : outcome sbuf :=
  let room := sb_cap b - sb_off b in
  if room <? 0 then Fault
  else Done (mkSbuf (sb_cap b) (sb_off b + strlen s)
                    (sb_text b ++ take (Z.to_nat (room - 1)) s)).

Fixpoint sn_puts (ss : list bytes) (b : sbuf) : outcome sbuf :=
  match ss with
  | [] => Done b
  | s :: r => b' ← sn_put s b; sn_puts r b'
  end.

(** The string left in a buffer of [cap] bytes after the calls [ss]. *)
Definition sn_run (cap : Z) (ss : list bytes) : outcome bytes :=
  sb_text <$> sn_puts ss (sb_new cap).

(** ** What the idiom computes *)

Lemma sn_put_room s b :
  sb_off b <= sb_cap b ->
  sn_put s b = Done (mkSbuf (sb_cap b) (sb_off b + strlen s)
                       (sb_text b ++ take (Z.to_nat (sb_cap b - sb_off b - 1)) s)).
Proof. intros ?. unfold sn_put. by rewrite (proj2 (Z.ltb_ge _ _)) by lia. Qed.

Lemma sn_put_over s b : sb_cap b < sb_off b -> sn_put s b = Fault.
Proof. intros ?. unfold sn_put. by rewrite (proj2 (Z.ltb_lt _ _)) by lia. Qed.

Lemma sn_puts_app ss ss' b :
  sn_puts (ss ++ ss') b = (sn_puts ss b ≫= sn_puts ss').
Proof.
  revert b; induction ss as [|s ss IH]; intros b; [done|].
  cbn [app sn_puts]. destruct (sn_put s b) as [b'|]; [apply IH|done].
Qed.

(** The state after calls that all fitted strictly, then one more call. *)
Lemma sn_puts_fits ss cap :
  lenZ (concat ss) < cap ->
  sn_puts ss (sb_new cap) = Done (mkSbuf cap (lenZ (concat ss)) (concat ss)).
Proof.
  induction ss as [|s ss IH] using rev_ind; intros H; [done|].
  rewrite concat_app in H |- *. cbn [concat] in H |- *. rewrite app_nil_r in H |- *.
  rewrite lenZ_app in H. pose proof (lenZ_nonneg s).
  rewrite sn_puts_app, IH by lia. cbn [mbind outcome_bind sn_puts].
  unfold sn_put, strlen. cbn [sb_cap sb_off sb_text].
  rewrite (proj2 (Z.ltb_ge _ _)) by lia. cbn [mbind outcome_bind].
  rewrite take_ge by (unfold lenZ in *; lia). by rewrite lenZ_app.
Qed.

Lemma sn_run_fits ss cap :
  lenZ (concat ss) < cap -> sn_run cap ss = Done (concat ss).
Proof. intros H. unfold sn_run. by rewrite sn_puts_fits. Qed.

(** A buffer of [cap] bytes holds at most the first [cap - 1] characters. *)
Lemma sn_puts_text ss cap b :
  0 < cap -> sn_puts ss (sb_new cap) = Done b ->
  b = mkSbuf cap (lenZ (concat ss)) (take (Z.to_nat (cap - 1)) (concat ss)).
Proof.
  intros Hcap. revert b; induction ss as [|s ss IH] using rev_ind; intros b.
  - intros [= <-]. unfold sb_new. cbn [concat]. by rewrite take_nil.
  - rewrite sn_puts_app. intros (b' & Hb' & H)%outcome_bind_inv.
    apply IH in Hb'. subst b'. rewrite concat_app. cbn [concat]. rewrite app_nil_r.
    revert H. cbn [sn_puts]. unfold sn_put, strlen. cbn [sb_cap sb_off sb_text].
    destruct (Z.ltb_spec (cap - lenZ (concat ss)) 0); [done|].
    cbn [mbind outcome_bind]. intros [= <-]. f_equal; [by rewrite lenZ_app|].
    rewrite take_app. f_equal. f_equal. unfold lenZ in *. lia.
Qed.

(** Once the text is longer than the buffer, the next call writes outside it. *)
Lemma sn_run_overflow ss s ss' cap :
  0 < cap < lenZ (concat ss) -> sn_run cap (ss ++ s :: ss') = Fault.
Proof.
  intros Hcap. unfold sn_run. rewrite sn_puts_app.
  destruct (sn_puts ss (sb_new cap)) as [b|] eqn:H; [|done].
  apply sn_puts_text in H as ->; [|lia].
  cbn [mbind outcome_bind sn_puts]. unfold sn_put. cbn [sb_cap sb_off].
  rewrite (proj2 (Z.ltb_lt _ _)) by lia. done.
Qed.

(** The calls are defined exactly when everything but the last text fits. *)
Lemma sn_run_defined ss s cap :
  0 < cap ->
  (exists t, sn_run cap (ss ++ [s]) = Done t) <-> lenZ (concat ss) <= cap.
Proof.
  intros Hcap. split.
  - intros [t Ht]. destruct (Z.le_gt_cases (lenZ (concat ss)) cap) as [?|Hgt]; [done|].
    by rewrite sn_run_overflow in Ht by lia.
  - intros Hle. unfold sn_run. rewrite sn_puts_app.
    enough (exists b, sn_puts ss (sb_new cap) = Done b) as [b Hb].
    { rewrite Hb. cbn [mbind outcome_bind sn_puts].
      apply sn_puts_text in Hb as ->; [|done]. unfold sn_put. cbn [sb_cap sb_off].
      rewrite (proj2 (Z.ltb_ge _ _)) by lia. by eexists. }
    clear s. induction ss as [|s ss IH] using rev_ind; [by eexists|].
    rewrite concat_app in Hle. cbn [concat] in Hle.
    rewrite app_nil_r, lenZ_app in Hle. pose proof (lenZ_nonneg s).
    destruct IH as [b Hb]; [lia|]. rewrite sn_puts_app, Hb. cbn [mbind outcome_bind sn_puts].
    apply sn_puts_text in Hb as ->; [|done]. unfold sn_put. cbn [sb_cap sb_off].
    rewrite (proj2 (Z.ltb_ge _ _)) by lia. by eexists.
Qed.

(** Items separated by a one-call comma: [if (i > 0) put ","; put item]. *)
Definition comma_sep {A} (item : A -> bytes) (l : list A) : list bytes :=
  match l with
  | [] => []
  | x :: r => item x :: concat ((fun y => [","%cs; item y]) <$> r)
  end.
