(* ===== verification/CDouble.v ===== *)
(** * Floating point

    [double] and [float] arithmetic as IEEE 754 binary64 and binary32 with
    round-to-nearest-even, computed on the specification floats of the
    standard library. *)

From Stdlib Require Export Floats.SpecFloat.
From S2P Require Export Prelude.

Definition double : Type := spec_float.
Definition float : Type := spec_float.

Definition f64_add : double -> double -> double := SFadd 53 1024.
Definition f64_mul : double -> double -> double := SFmul 53 1024.
Definition f64_div : double -> double -> double := SFdiv 53 1024.
Definition f64_of_Z (z : Z) : double := binary_normalize 53 1024 z 0 false.
Definition f64_zero : double := S754_zero false.
Definition f64_ltb (x y : double) : bool := SFltb x y.

Definition f32_mul : float -> float -> float := SFmul 24 128.
Definition f32_div : float -> float -> float := SFdiv 24 128.
Definition f32_of_Z (z : Z) : float := binary_normalize 24 128 z 0 false.
Definition f32_zero : float := S754_zero false.
Definition f32_ltb (x y : float) : bool := SFltb x y.
Definition f32_leb (x y : float) : bool := SFleb x y.

(** The binary32 value nearest to [n / d], for [n / d] a decimal constant. *)
Definition f32_const (n d : Z) : float := f32_div (f32_of_Z n) (f32_of_Z d).

(** [(double)x] of a [float]: exact. *)
Definition f64_of_f32 (x : float) : double :=
  match x with
  | S754_finite s m e => binary_normalize 53 1024 (if s then Zneg m else Zpos m) e s
  | _ => x
  end.

(** The integer part of a float, none for infinities and NaN. *)
Definition sf_trunc (d : spec_float) : option Z :=
  match d with
  | S754_zero _ => Some 0
  | S754_finite s m e =>
      let v := if 0 <=? e then Z.pos m * 2 ^ e else Z.pos m / 2 ^ (- e) in
      Some (if s then - v else v)
  | _ => None
  end.

(** [(int)x] and [(uint64_t)x], undefined when the result is out of range. *)
Definition sf_to_int (d : spec_float) : outcome Z :=
  match sf_trunc d with
  | Some v => if (- 2 ^ 31 <=? v) && (v <? 2 ^ 31) then Done v else Fault
  | None => Fault
  end.
Definition sf_to_u64 (d : spec_float) : outcome Z :=
  match sf_trunc d with
  | Some v => if (0 <=? v) && (v <? 2 ^ 64) then Done v else Fault
  | None => Fault
  end.

(** Division rounded to the nearest integer, ties to even. *)
Definition div_round (n d : Z) : Z :=
  let q := n / d in
  let r := 2 * (n mod d) in
  if r <? d then q else if d <? r then q + 1 else if Z.even q then q else q + 1.

(** The hundredths ["%.2f"] prints of a finite magnitude [m * 2 ^ e]. *)
Definition hundredths (m : positive) (e : Z) : Z :=
  if 0 <=? e then Z.pos m * 2 ^ e * 100 else div_round (Z.pos m * 100) (2 ^ (- e)).
