(* ===== verification/Env.v ===== *)
(** * Code the library links against

    The error codes and string macros of AgentRT's commons and the cJSON
    library are not part of this repository.  They are interfaces here: what
    the code uses of them is a field, what it relies on is a law. *)

From S2P Require Export CString CDouble.

(** ** error.h

    Functions return 0 on success and a negative code on failure. *)

Class AiryErr := {
  AIRY_SUCCESS : Z;
  AIRY_OK : Z;
  AIRY_ERR_UNKNOWN : Z;
  AIRY_ERR_NULL_POINTER : Z;
  AIRY_ERR_INVALID_PARAM : Z;
  AIRY_ERR_OUT_OF_MEMORY : Z;
  AIRY_ERR_NOT_FOUND : Z;
  AIRY_ERR_OVERFLOW : Z;
  AIRY_ERR_IO : Z;
  AIRY_ERR_TIMEOUT : Z;
  AIRY_ERR_BUFFER_TOO_SMALL : Z;
  AIRY_ERR_STATE_ERROR : Z;
  AIRY_ERR_PERMISSION_DENIED : Z;
  AIRY_ERR_NOT_SUPPORTED : Z;
  AIRY_ERR_PARSE_ERROR : Z;
  AIRY_EINVAL : Z;
  AIRY_EIO : Z;
  AIRY_ENOTCONN : Z;
  airy_success_zero : AIRY_SUCCESS = 0;
  airy_ok_zero : AIRY_OK = 0;
  airy_err_negative :
    Forall (fun c => c < 0)
      [AIRY_ERR_UNKNOWN; AIRY_ERR_NULL_POINTER; AIRY_ERR_INVALID_PARAM;
       AIRY_ERR_OUT_OF_MEMORY; AIRY_ERR_NOT_FOUND; AIRY_ERR_OVERFLOW; AIRY_ERR_IO;
       AIRY_ERR_TIMEOUT; AIRY_ERR_BUFFER_TOO_SMALL; AIRY_ERR_STATE_ERROR;
       AIRY_ERR_PERMISSION_DENIED; AIRY_ERR_NOT_SUPPORTED; AIRY_ERR_PARSE_ERROR;
       AIRY_EINVAL; AIRY_EIO; AIRY_ENOTCONN]
}.

(** [airy_codes] puts the sign of every code in the context. *)
Ltac airy_codes :=
  pose proof airy_success_zero; pose proof airy_ok_zero;
  let H := fresh "Hneg" in
  pose proof airy_err_negative as H;
  repeat (let Hc := fresh "Hc" in apply Forall_cons in H as [Hc H]); clear H.

Ltac errlia := airy_codes; lia.

(** ** types.h

    [AIRY_STRNCPY_TERM(dst, src, n)] leaves in [dst] the first [n - 1]
    characters of [src], terminated. *)

Class AiryString := {
  AIRY_STRNCPY_TERM : bytes -> nat -> bytes;
  strncpy_term_spec s n : (0 < n)%nat -> AIRY_STRNCPY_TERM s n = take (n - 1) s
}.

(** ** cJSON

    Trees are abstract.  The predicates and lookups accept a null tree, as the
    C functions do. *)

Class CJson := {
  cJSON : Type;
  cJSON_Parse : bytes -> option cJSON;
  cJSON_ParseWithLength : bytes -> option cJSON;
  cJSON_PrintUnformatted : cJSON -> option bytes;
  cJSON_GetObjectItem : cJSON -> bytes -> option cJSON;
  cJSON_GetObjectItemCaseSensitive : cJSON -> bytes -> option cJSON;
  cJSON_GetArraySize : cJSON -> Z;
  cJSON_GetArrayItem : cJSON -> Z -> option cJSON;
  cJSON_IsString : option cJSON -> bool;
  cJSON_IsNumber : option cJSON -> bool;
  cJSON_IsObject : option cJSON -> bool;
  cJSON_IsArray : option cJSON -> bool;
  cJSON_IsTrue : option cJSON -> bool;
  valuestring : cJSON -> option bytes;
  valueint : cJSON -> Z;
  valuedouble : cJSON -> double;
  cJSON_CreateObject : cJSON;
  cJSON_CreateArray : cJSON;
  cJSON_AddStringToObject : cJSON -> bytes -> bytes -> cJSON;
  cJSON_AddNumberToObject : cJSON -> bytes -> double -> cJSON;
  cJSON_AddBoolToObject : cJSON -> bytes -> bool -> cJSON;
  cJSON_AddNullToObject : cJSON -> bytes -> cJSON;
  cJSON_AddItemToObject : cJSON -> bytes -> cJSON -> cJSON;
  cJSON_AddItemToArray : cJSON -> cJSON -> cJSON
}.

(** [cJSON_IsString(j) && j->valuestring], the string if both hold. *)
Definition json_string `{CJson} (j : option cJSON) : option bytes :=
  if cJSON_IsString j then j ≫= valuestring else None.
