(* ===== verification/EnvInst.v ===== *)
(** * Concrete instances of the external interfaces

    Every statement of the development quantifies over the interfaces of
    [Env]; the witnesses evaluate them on the instances below.  The JSON
    instance is a small reader and printer of JSON with integer numbers, the
    error codes are distinct negative numbers. *)

From S2P Require Export Env.

Definition inst_err : AiryErr.
Proof.
  refine {|
    AIRY_SUCCESS := 0; AIRY_OK := 0; AIRY_ERR_UNKNOWN := -1; AIRY_ERR_NULL_POINTER := -2;
    AIRY_ERR_INVALID_PARAM := -3; AIRY_ERR_OUT_OF_MEMORY := -4; AIRY_ERR_NOT_FOUND := -5;
    AIRY_ERR_OVERFLOW := -6; AIRY_ERR_IO := -7; AIRY_ERR_TIMEOUT := -8;
    AIRY_ERR_BUFFER_TOO_SMALL := -9; AIRY_ERR_STATE_ERROR := -10;
    AIRY_ERR_PERMISSION_DENIED := -11; AIRY_ERR_NOT_SUPPORTED := -12;
    AIRY_ERR_PARSE_ERROR := -13; AIRY_EINVAL := -22; AIRY_EIO := -23; AIRY_ENOTCONN := -24
  |}; [done | done | by repeat constructor].
Defined.

Definition inst_string : AiryString.
Proof.
  refine {| AIRY_STRNCPY_TERM s n := take (n - 1) s |}. done.
Defined.

Inductive jv : Type :=
| JNull
| JBool (b : bool)
| JNum (z : Z)
| JStr (s : bytes)
| JArr (l : list jv)
| JObj (l : list (bytes * jv)).

Fixpoint jskip (s : bytes) : bytes :=
  match s with
  | c :: r => if isspace c then jskip r else s
  | [] => []
  end.

Fixpoint jstring (s : bytes) : option (bytes * bytes) :=
  match s with
  | [] => None
  | c :: r =>
      if Ascii.eqb c QUOTE then Some ([], r)
      else if Ascii.eqb c BACKSLASH then
        match r with
        | d :: r' =>
            let d := if Ascii.eqb d "n" then LF else if Ascii.eqb d "r" then CR
                     else if Ascii.eqb d "t" then TAB else d in
            '(t, rest) ← jstring r'; Some (d :: t, rest)
        | [] => None
        end
      else '(t, rest) ← jstring r; Some (c :: t, rest)
  end.

Fixpoint jdigits (s : bytes) : bytes :=
  match s with
  | c :: r => if isdigit c then c :: jdigits r else []
  | [] => []
  end.

(** [fuel] bounds the nesting and the number of members. *)
Fixpoint jvalue (fuel : nat) (s : bytes) : option (jv * bytes) :=
  match fuel with
  | O => None
  | S f =>
      match jskip s with
      | [] => None
      | c :: r =>
          if Ascii.eqb c QUOTE then '(t, rest) ← jstring r; Some (JStr t, rest)
          else if Ascii.eqb c "{" then
            match jskip r with
            | d :: r' => if Ascii.eqb d "}" then Some (JObj [], r') else
                '(l, rest) ← jmembers f r; Some (JObj l, rest)
            | [] => None
            end
          else if Ascii.eqb c "[" then
            match jskip r with
            | d :: r' => if Ascii.eqb d "]" then Some (JArr [], r') else
                '(l, rest) ← jelems f r; Some (JArr l, rest)
            | [] => None
            end
          else if starts_with "true"%cs (c :: r) then Some (JBool true, drop 3 r)
          else if starts_with "false"%cs (c :: r) then Some (JBool false, drop 4 r)
          else if starts_with "null"%cs (c :: r) then Some (JNull, drop 3 r)
          else if Ascii.eqb c "-" then
            let d := jdigits r in
            if bool_decide (d = []) then None
            else Some (JNum (- digits_val 0 d), drop (length d) r)
          else
            let d := jdigits (c :: r) in
            if bool_decide (d = []) then None
            else Some (JNum (digits_val 0 d), drop (length d) (c :: r))
      end
  end
with jmembers (fuel : nat) (s : bytes) : option (list (bytes * jv) * bytes) :=
  match fuel with
  | O => None
  | S f =>
      match jskip s with
      | c :: r =>
          if negb (Ascii.eqb c QUOTE) then None else
          '(k, r) ← jstring r;
          match jskip r with
          | c :: r =>
              if negb (Ascii.eqb c ":") then None else
              '(v, r) ← jvalue f r;
              match jskip r with
              | c :: r =>
                  if Ascii.eqb c "}" then Some ([(k, v)], r)
                  else if Ascii.eqb c "," then '(l, r) ← jmembers f r; Some ((k, v) :: l, r)
                  else None
              | [] => None
              end
          | [] => None
          end
      | [] => None
      end
  end
with jelems (fuel : nat) (s : bytes) : option (list jv * bytes) :=
  match fuel with
  | O => None
  | S f =>
      '(v, r) ← jvalue f s;
      match jskip r with
      | c :: r =>
          if Ascii.eqb c "]" then Some ([v], r)
          else if Ascii.eqb c "," then '(l, r) ← jelems f r; Some (v :: l, r)
          else None
      | [] => None
      end
  end.

Definition jparse (s : bytes) : option jv :=
  fst <$> jvalue (S (S (length s))) s.

Definition jescape (s : bytes) : bytes :=
  QUOTE :: concat ((fun c =>
    if Ascii.eqb c QUOTE then [BACKSLASH; QUOTE]
    else if Ascii.eqb c BACKSLASH then [BACKSLASH; BACKSLASH]
    else if Ascii.eqb c LF then BACKSLASH :: "n"%cs
    else if Ascii.eqb c CR then BACKSLASH :: "r"%cs
    else if Ascii.eqb c TAB then BACKSLASH :: "t"%cs
    else [c]) <$> s) ++ [QUOTE].

Definition jcommas (l : list bytes) : bytes :=
  match l with
  | [] => []
  | x :: r => x ++ concat (app ","%cs <$> r)
  end.

Fixpoint jprint (v : jv) : bytes :=
  match v with
  | JNull => "null"%cs
  | JBool b => if b then "true"%cs else "false"%cs
  | JNum z => if z <? 0 then "-"%cs ++ dec (- z) else dec z
  | JStr s => jescape s
  | JArr l => "["%cs ++ jcommas (map jprint l) ++ "]"%cs
  | JObj l => "{"%cs ++ jcommas (map (fun kv => jescape kv.1 ++ ":"%cs ++ jprint kv.2) l) ++ "}"%cs
  end.

Definition jget (eq : bytes -> bytes -> bool) (v : jv) (k : bytes) : option jv :=
  match v with
  | JObj l => snd <$> (find_idx (fun kv => eq kv.1 k) l ≫= fun i => l !! i)
  | _ => None
  end.

Definition jadd (v : jv) (k : bytes) (x : jv) : jv :=
  match v with JObj l => JObj (l ++ [(k, x)]) | _ => v end.

(** The integer part of a finite float. *)
Definition f64_trunc (d : double) : Z := default 0 (sf_trunc d).

Definition inst_cjson : CJson := {|
  cJSON := jv;
  cJSON_Parse := jparse;
  cJSON_ParseWithLength := jparse;
  cJSON_PrintUnformatted v := Some (jprint v);
  cJSON_GetObjectItem := jget strcaseeq;
  cJSON_GetObjectItemCaseSensitive := jget streq;
  cJSON_GetArraySize v := match v with JArr l => lenZ l | JObj l => lenZ l | _ => 0 end;
  cJSON_GetArrayItem v i :=
    match v with JArr l => l !! Z.to_nat i | JObj l => snd <$> l !! Z.to_nat i | _ => None end;
  cJSON_IsString o := match o with Some (JStr _) => true | _ => false end;
  cJSON_IsNumber o := match o with Some (JNum _) => true | _ => false end;
  cJSON_IsObject o := match o with Some (JObj _) => true | _ => false end;
  cJSON_IsArray o := match o with Some (JArr _) => true | _ => false end;
  cJSON_IsTrue o := match o with Some (JBool true) => true | _ => false end;
  valuestring v := match v with JStr s => Some s | _ => None end;
  valueint v := match v with JNum z => z | _ => 0 end;
  valuedouble v := match v with JNum z => f64_of_Z z | _ => f64_zero end;
  cJSON_CreateObject := JObj [];
  cJSON_CreateArray := JArr [];
  cJSON_AddStringToObject v k s := jadd v k (JStr s);
  cJSON_AddNumberToObject v k d := jadd v k (JNum (f64_trunc d));
  cJSON_AddBoolToObject v k b := jadd v k (JBool b);
  cJSON_AddNullToObject v k := jadd v k JNull;
  cJSON_AddItemToObject v k x := jadd v k x;
  cJSON_AddItemToArray v x := match v with JArr l => JArr (l ++ [x]) | _ => v end
|}.

(** The reader reads what the printer prints, on a sample. *)
Example jparse_sample :
  jprint <$> jparse "{'id':'a\nb','n':[1,-20,true],'o':{}}"%cs
  = Some (("{'id':'a"%cs ++ BACKSLASH :: "nb','n':[1,-20,true],'o':{}}"%cs)).
Proof. vm_compute. reflexivity. Qed.
