(* ===== verification/ProtoHttp.v ===== *)
(** * HTTP posts: common/src/proto_http.c

    The write callback and the sequence of calls around a transfer.  libcurl is
    the parameter [transfer]: the pieces of the response body it would deliver
    for a request, in order, the code it ends with when they are all taken, and
    the HTTP status. *)

From S2P Require Export CString.
From stdpp Require Import gmap.
#[local] Open Scope Z_scope.

Inductive proto_http_result_t := PROTO_HTTP_OK | PROTO_HTTP_E_INIT | PROTO_HTTP_E_TRANSPORT.

(** The buffer [data] without the NUL after its [size] bytes. *)
Record proto_http_body_t := mkHttpBody { hb_data : option bytes; hb_size : Z }.

Definition CURLE_OK : Z := 0.
Definition CURLE_WRITE_ERROR : Z := 23.

(** The options set before the transfer. *)
Record http_post_options := mkPost {
  po_url : bytes;
  po_headers : list bytes;
  po_body : bytes;
  po_timeout : Z;
  po_verify_peer : bool
}.

Definition proto_http_write_cb (alloc : bool) (ptr : bytes) (buf : proto_http_body_t)
    : Z * proto_http_body_t :=
  if negb alloc then (0, buf)
  else (lenZ ptr, mkHttpBody (Some (default [] (hb_data buf) ++ ptr)) (u64 (hb_size buf + lenZ ptr))).

(** The transfer hands the pieces to the callback; it is aborted when the
    callback does not take a whole piece.  [alloc i] is the allocation for
    piece [i]. *)
Fixpoint deliver (alloc : nat -> bool) (i : nat) (chunks : list bytes) (buf : proto_http_body_t)
    : bool * proto_http_body_t :=
  match chunks with
  | [] => (true, buf)
  | c :: r =>
      let '(n, buf) := proto_http_write_cb (alloc i) c buf in
      if n =? lenZ c then deliver alloc (S i) r buf else (false, buf)
  end.

(** The result: the code, what [out_body] and [out_code] hold after the call,
    and what was freed.  [init] is whether libcurl gives a handle; [has_body]
    and [has_code] are whether the pointers are not null. *)
Definition proto_http_post (alloc : nat -> bool) (init : bool)
    (transfer : http_post_options -> list bytes * Z * Z)
    (url : bytes) (hdrs : option (list bytes)) (body : bytes) (has_body has_code : bool)
    : outcome (proto_http_result_t * option bytes * Z * option bytes) :=
  if negb init then Done (PROTO_HTTP_E_INIT, None, 0, None)
  else
    let '(chunks, res, http_code) := transfer (mkPost url (default [] hdrs) body 60 true) in
    let '(taken, buf) := deliver alloc 0%nat chunks (mkHttpBody None 0) in
    let res := if taken then res else CURLE_WRITE_ERROR in
    if negb (res =? CURLE_OK) then Done (PROTO_HTTP_E_TRANSPORT, None, 0, hb_data buf)
    else if negb has_body then Fault
    else Done (PROTO_HTTP_OK, hb_data buf, if has_code then http_code else 0, None).

(** Without libcurl there is no transport. *)
Definition proto_http_post_without_curl : proto_http_result_t * option bytes * Z :=
  (PROTO_HTTP_E_INIT, None, 0).

(** The buffer while pieces arrive: their concatenation, or null before the
    first. *)
Definition collected (chunks : list bytes) : option bytes :=
  match chunks with [] => None | _ => Some (concat chunks) end.

Lemma collected_snoc l c : Some (default [] (collected l) ++ c) = collected (l ++ [c]).
Proof. destruct l as [|a l]; cbn; [by rewrite app_nil_r|]. by rewrite concat_app, <- app_assoc, concat_cons, app_nil_r. Qed.

(** What a transfer leaves in the buffer.  A piece no memory was left for is
    passed over exactly when it is empty, so all the bytes are there. *)
Lemma deliver_spec alloc i chunks done_ size ok buf :
  deliver alloc i chunks (mkHttpBody (collected done_) size) = (ok, buf) ->
  (ok = true -> exists taken, hb_data buf = collected (done_ ++ taken) /\ concat taken = concat chunks) /\
  ((forall j, alloc j = true) -> ok = true /\ hb_data buf = collected (done_ ++ chunks)).
Proof.
  revert i done_ size. induction chunks as [|c r IH]; intros i done_ size; cbn [deliver].
  { intros [= <- <-]. cbn. split; [exists []|]; by rewrite app_nil_r. }
  unfold proto_http_write_cb. destruct (alloc i) eqn:Ha; cbn [negb hb_data hb_size].
  - rewrite Z.eqb_refl, collected_snoc. intros Hr. apply IH in Hr as [H1 H2]. split.
    + intros Hok. destruct (H1 Hok) as (taken & Hb & Hc). exists (c :: taken).
      by rewrite Hb, <- app_assoc, !concat_cons, Hc.
    + intros Hall. by rewrite <- app_assoc in H2; apply H2.
  - intros Hr. split; [|intros Hall; by rewrite Hall in Ha].
    destruct (Z.eqb_spec 0 (lenZ c)) as [Hc|]; [|by injection Hr as <- <-].
    assert (c = []) as -> by (unfold lenZ in Hc; destruct c; [done|cbn in Hc; lia]).
    by apply IH in Hr as [H1 _].
Qed.


