(* ===== verification/Unified.v ===== *)
(** * The unified message: common/src/unified_protocol.c, unified_decode.c

    The message model shared by all adapters, its JSON encoding and decoding,
    and the small text helpers of the facade. *)

From S2P Require Export Env.
From S2P Require Import EnvInst.

(** ** Data *)

(** [airy_protocol_type_t] as its integer value. *)
Definition airy_protocol_type_t : Type := Z.
Definition AIRY_PROTOCOL_JSON_RPC : airy_protocol_type_t := 0.
Definition AIRY_PROTOCOL_MCP : airy_protocol_type_t := 1.
Definition AIRY_PROTOCOL_A2A : airy_protocol_type_t := 2.
Definition AIRY_PROTOCOL_VENDOR_BASE : airy_protocol_type_t := 3.
Definition AIRY_PROTOCOL_CUSTOM : airy_protocol_type_t := 63.
Definition AIRY_PROTOCOL_MAX : airy_protocol_type_t := 64.
Definition AIRY_PROTOCOL_COUNT : airy_protocol_type_t := AIRY_PROTOCOL_MAX.
Definition AIRY_PROTOCOL_LLM : airy_protocol_type_t := AIRY_PROTOCOL_VENDOR_BASE.
Definition PROTOCOL_CUSTOM : airy_protocol_type_t := AIRY_PROTOCOL_CUSTOM.
Definition PROTOCOL_HTTP : airy_protocol_type_t := AIRY_PROTOCOL_JSON_RPC.

Definition proto_is_llm (type : airy_protocol_type_t) : bool :=
  (AIRY_PROTOCOL_VENDOR_BASE <=? type) && (type <? AIRY_PROTOCOL_CUSTOM).

(** [message_direction_t] as its integer value. *)
Definition message_direction_t : Type := Z.
Definition DIRECTION_REQUEST : message_direction_t := 0.
Definition DIRECTION_RESPONSE : message_direction_t := 1.
Definition DIRECTION_NOTIFICATION : message_direction_t := 2.
Definition DIRECTION_ERROR : message_direction_t := 3.

(** Fixed [char] arrays hold C strings; [payload] and [body] are the bytes of
    the object the pointer designates, [None] for a null pointer. *)
Record unified_message_t := mkMessage {
  um_protocol : airy_protocol_type_t;
  um_protocol_type : airy_protocol_type_t;
  um_protocol_name : bytes;
  um_endpoint : bytes;
  um_method : bytes;
  um_direction : message_direction_t;
  um_message_id : Z;
  um_payload : option bytes;
  um_payload_size : Z;
  um_timestamp : Z;
  um_is_error : bool;
  um_error_code : Z;
  um_status : Z;
  um_error_msg : bytes;
  um_body : option bytes;
  um_body_length : Z;
  um_payload_length : Z;
  um_correlation_id : bytes;
  um_sender_id : bytes;
  um_source_agent : bytes;
  um_target_agent : bytes;
  um_trace_id : bytes;
  um_session_id : bytes
}.

#[export] Instance eta_message : Eta unified_message_t := fun m =>
  mkMessage (um_protocol m) (um_protocol_type m) (um_protocol_name m) (um_endpoint m)
    (um_method m) (um_direction m) (um_message_id m) (um_payload m) (um_payload_size m)
    (um_timestamp m) (um_is_error m) (um_error_code m) (um_status m) (um_error_msg m)
    (um_body m) (um_body_length m) (um_payload_length m) (um_correlation_id m)
    (um_sender_id m) (um_source_agent m) (um_target_agent m) (um_trace_id m)
    (um_session_id m).

(** What [AIRY_MEMSET(&message, 0, sizeof(message))] leaves. *)
Definition um_zero : unified_message_t :=
  mkMessage 0 0 [] [] [] 0 0 None 0 0 false 0 0 [] None 0 0 [] [] [] [] [] [].

(** ** Construction *)

(** [next_id] is the function-local static counter; [now] is [airy_time_ns()]. *)
Definition unified_message_create `{AiryString} (next_id now : Z)
    (protocol : airy_protocol_type_t) (direction : message_direction_t)
    (endpoint : option bytes) (payload : option bytes) (payload_size : Z)
    : unified_message_t * Z :=
  let m := um_zero <| um_message_id := next_id |>
                   <| um_protocol := protocol |>
                   <| um_direction := direction |> in
  let m := match endpoint with
           | Some e => m <| um_endpoint := AIRY_STRNCPY_TERM e 256 |>
           | None => m
           end in
  (m <| um_payload := payload |> <| um_payload_size := payload_size |>
     <| um_timestamp := now |>, u64 (next_id + 1)).

Definition unified_message_destroy (message : option unified_message_t)
    : option unified_message_t :=
  match message with
  | None => None
  | Some _ => Some um_zero
  end.

(** ** Encoding *)

(** A conversion to [int]. *)
Definition to_int (z : Z) : Z := (z + 2 ^ 31) mod 2 ^ 32 - 2 ^ 31.

(** The characters ["%.*s"] prints from the object [buf] with precision
    [prec]: up to a NUL or [prec] characters (a negative precision is none).
    Running off the object is undefined. *)
Definition print_prec (prec : Z) (buf : bytes) : outcome bytes :=
  if bool_decide (NUL ∈ buf) then
    Done (if prec <? 0 then cstr_of buf else take (Z.to_nat prec) (cstr_of buf))
  else if (0 <=? prec) && (prec <=? lenZ buf) then Done (take (Z.to_nat prec) buf)
  else Fault.

Definition umsg_text (m : unified_message_t) (payload : bytes) : bytes :=
  "{'protocol':"%cs ++ dec_signed (to_int (um_protocol m))
  ++ ",'direction':"%cs ++ dec_signed (to_int (um_direction m))
  ++ ",'timestamp':"%cs ++ dec (um_timestamp m)
  ++ ",'payload':'"%cs ++ payload ++ "'}"%cs.

(** [alloc] is whether the allocation of the buffer succeeds.  [snprintf]
    fails when the length is no [int]. *)
Definition umsg_to_json `{AiryErr} (alloc : bool) (umsg : unified_message_t)
    : outcome (Z * option bytes) :=
  let payload := match um_payload umsg with Some p => p | None => [NUL] end in
  let payload_len := um_payload_size umsg in
  let buf_size := u64 (256 + payload_len) in
  if negb alloc then Done (AIRY_ERR_OUT_OF_MEMORY, None)
  else
    p ← print_prec (to_int payload_len) payload;
    let text := umsg_text umsg p in
    let written := strlen text in
    if (INT_MAX <? written) || (buf_size <=? written) then Done (AIRY_ERR_IO, None)
    else Done (0, Some text).

(** ** Decoding *)

(** A conversion from [long] to an enumeration type without negative values. *)
Definition to_enum (z : Z) : Z := u32 z.

Definition decode_number (copy key : bytes) (skip : nat) (conv : bytes -> Z) (dflt : Z) : Z :=
  match strstr copy key with
  | Some p => conv (drop skip p)
  | None => dflt
  end.

(** The payload field: up to the next quote, copied with a NUL.  A failed
    allocation leaves a null payload and the size the message had. *)
Definition decode_payload (alloc : bool) (copy : bytes) (m : unified_message_t)
    : unified_message_t :=
  match strstr copy "'payload':'"%cs with
  | Some p =>
      let p := drop 11 p in
      let plen := match strchr p QUOTE with Some k => k | None => length p end in
      if alloc
      then m <| um_payload := Some (take plen p ++ [NUL]) |>
             <| um_payload_size := Z.of_nat plen |>
      else m <| um_payload := None |>
  | None => m <| um_payload := Some [NUL] |> <| um_payload_size := 0 |>
  end.

(** [alloc 0] is the allocation of the copy, [alloc 1] that of the payload;
    [now] is [time(NULL)]. *)
Definition unified_decode `{AiryErr} (now : Z) (alloc : nat -> bool)
    (data : option bytes) (size : Z) (message : option unified_message_t)
    (default_protocol : airy_protocol_type_t) : Z * option unified_message_t :=
  match data, message with
  | Some data, Some m =>
      if size =? 0 then (AIRY_ERR_INVALID_PARAM, Some m)
      else if negb (alloc 0%nat) then (AIRY_ERR_OUT_OF_MEMORY, Some m)
      else
        let copy := cstr_of (take (Z.to_nat size) data) in
        let m := m <| um_protocol :=
          decode_number copy "'protocol':"%cs 11 (fun s => to_enum (strtol s)) default_protocol |> in
        let m := m <| um_direction :=
          decode_number copy "'direction':"%cs 12 (fun s => to_enum (strtol s)) DIRECTION_RESPONSE |> in
        let m := m <| um_timestamp :=
          decode_number copy "'timestamp':"%cs 12 strtoull (u64 now) |> in
        (0, Some (decode_payload (alloc 1%nat) copy m))
  | _, _ => (AIRY_ERR_INVALID_PARAM, message)
  end.

(** ** Text helpers *)

(** A character that counts as part of a word: alphanumeric, or a byte of a
    multi-byte sequence. *)
Definition word_char (c : ascii) : bool := isalnum c || (128 <=? code c).

Fixpoint uword_loop (text : bytes) (words : Z) (in_word : bool) : Z :=
  match text with
  | [] => words
  | c :: r =>
      if word_char c
      then if in_word then uword_loop r words true else uword_loop r (words + 1) true
      else uword_loop r words false
  end.

Definition uword_count (text : option bytes) : Z :=
  match text with
  | None | Some [] => 0
  | Some t => let words := uword_loop t 0 false in if 0 <? words then words else 1
  end.

(** [ullm_round]: [cb] maps the prompt and model to a return code and the
    response it allocated, if any.  The result is the return code and what is
    left in [out_buf], [None] where the function does not touch it. *)
Definition ullm_round `{AiryErr}
    (cb : option (option bytes -> option bytes -> Z * option bytes))
    (model prompt : option bytes) (has_out : bool) (buf_len : Z) : Z * option bytes :=
  if negb has_out || (buf_len =? 0) then (AIRY_ERR_NULL_POINTER, None)
  else match cb with
  | None => (AIRY_ERR_OUT_OF_MEMORY, Some [])
  | Some cb =>
      let '(rc, resp) := cb prompt model in
      match resp with
      | Some r =>
          if rc =? 0 then
            let n := strlen r in
            let n := if buf_len <=? n then buf_len - 1 else n in
            (0, Some (take (Z.to_nat n) r))
          else (AIRY_ERR_NULL_POINTER, None)
      | None => (AIRY_ERR_NULL_POINTER, None)
      end
  end.

Definition protocol_type_from_string (str : option bytes) : airy_protocol_type_t :=
  match str with
  | None => PROTOCOL_CUSTOM
  | Some s =>
      if strcaseeq s "json-rpc"%cs || strcaseeq s "http"%cs then AIRY_PROTOCOL_JSON_RPC
      else if strcaseeq s "mcp"%cs || strcaseeq s "mcp_v1"%cs then AIRY_PROTOCOL_MCP
      else if strcaseeq s "a2a"%cs || strcaseeq s "a2a_v03"%cs then AIRY_PROTOCOL_A2A
      else PROTOCOL_CUSTOM
  end.

Definition protocol_type_name (type : airy_protocol_type_t) : bytes :=
  if type =? AIRY_PROTOCOL_JSON_RPC then "JSON-RPC"%cs
  else if type =? AIRY_PROTOCOL_MCP then "MCP"%cs
  else if type =? AIRY_PROTOCOL_A2A then "A2A"%cs
  else "Unknown"%cs.

(** ** Encoding and decoding agree *)

Lemma to_int_range z : - 2 ^ 31 <= to_int z < 2 ^ 31.
Proof. unfold to_int. pose proof (Z.mod_pos_bound (z + 2 ^ 31) (2 ^ 32) ltac:(lia)). lia. Qed.

Lemma to_int_id z : - 2 ^ 31 <= z < 2 ^ 31 -> to_int z = z.
Proof. intros ?. unfold to_int. rewrite Z.mod_small by lia. lia. Qed.

Lemma to_enum_to_int z : 0 <= z < 2 ^ 32 -> to_enum (to_int z) = z.
Proof.
  intros Hz. unfold to_enum, to_int, u32.
  rewrite Zminus_mod_idemp_l. replace (z + 2 ^ 31 - 2 ^ 31) with z by lia.
  apply Z.mod_small. lia.
Qed.

Lemma dec_signed_notin n c :
  isdigit c = false -> c <> ("-"%char : ascii) -> c ∉ dec_signed n.
Proof.
  intros Hc Hm. unfold dec_signed. destruct (Z.ltb_spec n 0).
  - apply not_elem_of_cons. split; [done|]. apply dec_notin; [lia|done].
  - apply dec_notin; [lia|done].
Qed.

Lemma strtol_dec_signed n t :
  - 2 ^ 31 <= n < 2 ^ 31 ->
  match t with [] => True | c :: _ => isdigit c = false end ->
  strtol (dec_signed n ++ t) = n.
Proof.
  intros Hn Ht. unfold dec_signed. destruct (Z.ltb_spec n 0).
  - unfold strtol. cbn [app skip_ws].
    change (isspace "-") with false. cbn match. rewrite Ascii.eqb_refl.
    rewrite digits_val_dec by (done || lia). unfold LONG_MIN. lia.
  - apply strtol_dec; [lia|done].
Qed.

Lemma dec_signed_length n : lenZ (dec_signed n) <= 21.
Proof.
  unfold dec_signed, lenZ. destruct (n <? 0); cbn [length].
  - pose proof (dec_length (- n)). lia.
  - pose proof (dec_length n). lia.
Qed.

(** The buffer [umsg_to_json] allocates is large enough. *)
Lemma umsg_text_length m p : strlen (umsg_text m p) < 256 + lenZ p.
Proof.
  unfold strlen, umsg_text. rewrite !lenZ_app.
  pose proof (dec_signed_length (to_int (um_protocol m))).
  pose proof (dec_signed_length (to_int (um_direction m))).
  assert (lenZ (dec (um_timestamp m)) <= 20) by (pose proof (dec_length (um_timestamp m)); unfold lenZ; lia).
  repeat match goal with
  | |- context [@lenZ ascii (cons ?c ?l)] =>
      let n := eval vm_compute in (@lenZ ascii (cons c l)) in
      change (@lenZ ascii (cons c l)) with n
  end. lia.
Qed.

Section text_fields.
Context (m : unified_message_t) (p : bytes).

Lemma quote_notin_signed n : QUOTE ∉ dec_signed n.
Proof. by apply dec_signed_notin. Qed.

Lemma text_protocol :
  strstr (umsg_text m p) "'protocol':"%cs = Some (drop 1 (umsg_text m p)).
Proof. reflexivity. Qed.

Lemma text_direction :
  exists t, strstr (umsg_text m p) "'direction':"%cs
    = Some ("'direction':"%cs ++ dec_signed (to_int (um_direction m)) ++ ","%cs ++ t).
Proof.
  eexists. unfold umsg_text.
  etransitivity; [apply (strstr_skip QUOTE _ (dec_signed _)), quote_notin_signed|].
  reflexivity.
Qed.

Lemma text_timestamp :
  0 <= um_timestamp m ->
  exists t, strstr (umsg_text m p) "'timestamp':"%cs
    = Some ("'timestamp':"%cs ++ dec (um_timestamp m) ++ ","%cs ++ t).
Proof.
  intros Ht. eexists. unfold umsg_text.
  etransitivity; [apply (strstr_skip QUOTE _ (dec_signed _)), quote_notin_signed|].
  etransitivity; [apply (strstr_skip QUOTE _ (dec_signed _)), quote_notin_signed|].
  reflexivity.
Qed.

Lemma text_payload :
  0 <= um_timestamp m ->
  strstr (umsg_text m p) "'payload':'"%cs = Some ("'payload':'"%cs ++ p ++ "'}"%cs).
Proof.
  intros Ht. unfold umsg_text.
  etransitivity; [apply (strstr_skip QUOTE _ (dec_signed _)), quote_notin_signed|].
  etransitivity; [apply (strstr_skip QUOTE _ (dec_signed _)), quote_notin_signed|].
  etransitivity; [apply (strstr_skip QUOTE _ (dec _)); by apply dec_notin|].
  reflexivity.
Qed.
End text_fields.

(** The part of a string before its first double quote. *)
Fixpoint until_quote (s : bytes) : bytes :=
  match s with
  | [] => []
  | c :: r => if Ascii.eqb QUOTE c then [] else c :: until_quote r
  end.

Lemma until_quote_id s : QUOTE ∉ s -> until_quote s = s.
Proof.
  induction s as [|c r IH]; cbn [until_quote]; [done|].
  rewrite not_elem_of_cons. intros [Hc Hr].
  destruct (Ascii.eqb_spec QUOTE c); [done|]. by rewrite IH.
Qed.

Lemma strchr_until_quote s t :
  exists k, strchr (s ++ QUOTE :: t) QUOTE = Some k /\
            take k (s ++ QUOTE :: t) = until_quote s /\ k = length (until_quote s).
Proof.
  induction s as [|c r IH].
  - exists 0%nat. by cbn.
  - destruct IH as (k & Hk & Htk & Hlen). unfold strchr in *.
    cbn [app find_idx until_quote]. destruct (Ascii.eqb QUOTE c) eqn:E.
    + exists 0%nat. by cbn.
    + exists (S k). rewrite Hk. cbn [take length]. by rewrite Htk, Hlen.
Qed.

Lemma umsg_text_no_nul m p : no_nul p -> 0 <= um_timestamp m -> no_nul (umsg_text m p).
Proof.
  intros Hp Ht. unfold umsg_text. rewrite !no_nul_app.
  repeat split;
    first [ exact Hp | by apply dec_signed_notin | by apply dec_notin
          | by apply (bool_decide_eq_true_1 (NUL ∉ _)) ].
Qed.

(** What comes back from an encoded message: the four fields, the payload cut
    at its first quote. *)
Lemma unified_decode_text `{AiryErr} now alloc m p m0 dflt :
  0 <= um_protocol m < 2 ^ 32 -> 0 <= um_direction m < 2 ^ 32 ->
  0 <= um_timestamp m < 2 ^ 64 -> no_nul p -> (forall i, alloc i = true) ->
  unified_decode now alloc (Some (umsg_text m p)) (lenZ (umsg_text m p)) (Some m0) dflt
  = (0, Some (m0 <| um_protocol := um_protocol m |>
                 <| um_direction := um_direction m |>
                 <| um_timestamp := um_timestamp m |>
                 <| um_payload := Some (until_quote p ++ [NUL]) |>
                 <| um_payload_size := lenZ (until_quote p) |>)).
Proof.
  intros Hpr Hd Ht Hp Hal. unfold unified_decode. rewrite !Hal. cbn [negb].
  rewrite (proj2 (Z.eqb_neq _ _)) by (unfold umsg_text, lenZ; rewrite length_app; cbn [length]; lia).
  rewrite take_ge by (unfold lenZ; lia).
  rewrite cstr_of_id by (apply umsg_text_no_nul; [done|lia]).
  unfold decode_number, decode_payload.
  rewrite text_protocol. destruct (text_direction m p) as [t2 ->].
  destruct (text_timestamp m p ltac:(lia)) as [t3 ->].
  rewrite text_payload by lia.
  change (drop 11 (drop 1 (umsg_text m p)))
    with (dec_signed (to_int (um_protocol m)) ++ ",'direction':"%cs
          ++ dec_signed (to_int (um_direction m)) ++ ",'timestamp':"%cs
          ++ dec (um_timestamp m) ++ ",'payload':'"%cs ++ p ++ "'}"%cs).
  rewrite strtol_dec_signed by (apply to_int_range || done).
  change (drop 12 ("'direction':"%cs ++ ?x)) with x. change (drop 12 ("'timestamp':"%cs ++ ?x)) with x.
  change (drop 11 ("'payload':'"%cs ++ ?x)) with x.
  rewrite strtol_dec_signed by (apply to_int_range || done).
  rewrite strtoull_dec by (lia || done).
  rewrite !to_enum_to_int by lia.
  destruct (strchr_until_quote p "}"%cs) as (k & Hk & Htk & ->).
  change (p ++ "'}"%cs) with (p ++ QUOTE :: "}"%cs). rewrite Hk. by rewrite Htk.
Qed.

Lemma print_prec_whole p : no_nul p -> lenZ p <= INT_MAX -> print_prec (to_int (lenZ p)) p = Done p.
Proof.
  intros Hp Hl. pose proof (lenZ_nonneg p). unfold INT_MAX in Hl.
  rewrite to_int_id by lia. unfold print_prec. rewrite bool_decide_eq_false_2 by done.
  rewrite (proj2 (Z.leb_le 0 _)), (proj2 (Z.leb_le _ (lenZ p))) by lia. cbn [andb].
  by rewrite take_ge by (unfold lenZ; lia).
Qed.

Lemma umsg_to_json_text `{AiryErr} m p :
  um_payload m = Some p -> um_payload_size m = lenZ p -> lenZ p <= INT_MAX - 256 -> no_nul p ->
  umsg_to_json true m = Done (0, Some (umsg_text m p)).
Proof.
  intros Hpay Hsize Hl Hp. unfold umsg_to_json. rewrite Hpay, Hsize. cbn [negb].
  rewrite print_prec_whole by (done || lia). cbn [mbind outcome_bind].
  pose proof (umsg_text_length m p). pose proof (lenZ_nonneg p). unfold INT_MAX in *.
  rewrite u64_small by lia.
  by rewrite (proj2 (Z.ltb_ge _ _)), (proj2 (Z.leb_gt _ _)) by lia.
Qed.

(** C26. Round trip.  Whatever protocol id, direction and timestamp a message
    carries, and whatever quote-free text its payload holds, decoding the JSON
    that [umsg_to_json] produces restores the four fields: [unified_decode]
    returns 0 and the payload comes back byte for byte. *)
Theorem unified_roundtrip `{AiryErr} now alloc m p m0 dflt :
  0 <= um_protocol m < 2 ^ 32 -> 0 <= um_direction m < 2 ^ 32 ->
  0 <= um_timestamp m < 2 ^ 64 ->
  um_payload m = Some p -> um_payload_size m = lenZ p -> lenZ p <= INT_MAX - 256 ->
  no_nul p -> QUOTE ∉ p -> (forall i, alloc i = true) ->
  exists text,
    umsg_to_json true m = Done (0, Some text) /\
    unified_decode now alloc (Some text) (lenZ text) (Some m0) dflt
    = (0, Some (m0 <| um_protocol := um_protocol m |>
                   <| um_direction := um_direction m |>
                   <| um_timestamp := um_timestamp m |>
                   <| um_payload := Some (p ++ [NUL]) |>
                   <| um_payload_size := lenZ p |>)).
Proof.
  intros. exists (umsg_text m p). split; [by apply umsg_to_json_text|].
  rewrite unified_decode_text by done. by rewrite until_quote_id.
Qed.

Definition sample_message : unified_message_t :=
  um_zero <| um_protocol := 2 |> <| um_direction := 3 |> <| um_timestamp := 1700000000 |>
          <| um_payload := Some "hello"%cs |> <| um_payload_size := 5 |>.

Lemma unified_roundtrip_witness :
  exists text,
    @umsg_to_json inst_err true sample_message = Done (0, Some text) /\
    @unified_decode inst_err 7 (fun _ => true) (Some text) (lenZ text) (Some um_zero) 0
    = (0, Some (um_zero <| um_protocol := 2 |> <| um_direction := 3 |>
                        <| um_timestamp := 1700000000 |>
                        <| um_payload := Some ("hello"%cs ++ [NUL]) |>
                        <| um_payload_size := 5 |>)).
Proof.
  refine (@unified_roundtrip inst_err 7 (fun _ => true) sample_message "hello"%cs um_zero 0
            _ _ _ eq_refl eq_refl _ _ _ (fun _ => eq_refl)); try (by vm_compute);
    by apply (bool_decide_eq_true_1 (_ ∉ _)).
Defined.

(** A payload with a quote does not survive: the encoder does not escape
    it, and the decoder stops at the first one.  The decoded payload is
    exactly the text before it, so everything after it is lost. *)
Theorem unified_payload_cut `{AiryErr} now alloc m a b m0 dflt :
  0 <= um_protocol m < 2 ^ 32 -> 0 <= um_direction m < 2 ^ 32 ->
  0 <= um_timestamp m < 2 ^ 64 ->
  um_payload m = Some (a ++ QUOTE :: b) -> um_payload_size m = lenZ (a ++ QUOTE :: b) ->
  lenZ (a ++ QUOTE :: b) <= INT_MAX - 256 -> no_nul (a ++ QUOTE :: b) -> QUOTE ∉ a ->
  (forall i, alloc i = true) ->
  exists text m',
    umsg_to_json true m = Done (0, Some text) /\
    unified_decode now alloc (Some text) (lenZ text) (Some m0) dflt = (0, Some m') /\
    um_payload m' = Some (a ++ [NUL]) /\ um_payload_size m' = lenZ a.
Proof.
  intros Hpr Hd Ht Hpay Hsize Hl Hp Ha Hal.
  assert (until_quote (a ++ QUOTE :: b) = a) as Hu.
  { clear -Ha. induction a as [|c a IH]; cbn [app until_quote]; [by rewrite Ascii.eqb_refl|].
    apply not_elem_of_cons in Ha as [Hc Ha].
    destruct (Ascii.eqb_spec QUOTE c); [done|]. by rewrite IH. }
  eexists (umsg_text m _), _. split; [by apply umsg_to_json_text|].
  split; [by apply unified_decode_text|]. cbn. by rewrite Hu.
Qed.

Lemma unified_payload_cut_witness :
  exists text m',
    @umsg_to_json inst_err true
      (sample_message <| um_payload := Some "a'b"%cs |> <| um_payload_size := 3 |>)
    = Done (0, Some text) /\
    @unified_decode inst_err 7 (fun _ => true) (Some text) (lenZ text) (Some um_zero) 0
    = (0, Some m') /\
    um_payload m' = Some ("a"%cs ++ [NUL]) /\ um_payload_size m' = 1.
Proof.
  refine (@unified_payload_cut inst_err 7 (fun _ => true)
    (sample_message <| um_payload := Some "a'b"%cs |> <| um_payload_size := 3 |>)
    "a"%cs "b"%cs um_zero 0 _ _ _ eq_refl eq_refl _ _ _ (fun _ => eq_refl)); try (by vm_compute);
    by apply (bool_decide_eq_true_1 (_ ∉ _)).
Defined.

(** The specification of [uword_count]: a word starts at a word character that
    is the first character or follows a separator. *)
Fixpoint word_starts (prev : bool) (text : bytes) : nat :=
  match text with
  | [] => 0
  | c :: r =>
      ((if word_char c && negb prev then 1 else 0) + word_starts (word_char c) r)%nat
  end.

Lemma uword_loop_spec text w b : uword_loop text w b = w + Z.of_nat (word_starts b text).
Proof.
  revert w b; induction text as [|c r IH]; intros w b; cbn [uword_loop word_starts]; [lia|].
  destruct (word_char c), b; cbn [andb negb]; rewrite IH; lia.
Qed.

(** [uword_count] counts the maximal runs of word characters, except that
    a non-empty text without any counts as one word. *)
Theorem uword_count_spec t :
  uword_count (Some t)
  = match t with [] => 0 | _ => Z.max 1 (Z.of_nat (word_starts false t)) end.
Proof.
  unfold uword_count. destruct t as [|c t]; [done|]. rewrite uword_loop_spec.
  destruct (Z.ltb_spec 0 (0 + Z.of_nat (word_starts false (c :: t)))); lia.
Qed.

(** Buffer safety of [ullm_round]: whatever the callback returns, what is
    left in the caller's buffer is a prefix of the response that fits with its
    NUL, and it is the whole response when that fits. *)
Theorem ullm_round_bounded `{AiryErr} cb model prompt buf_len rc out :
  0 < buf_len ->
  ullm_round (Some cb) model prompt true buf_len = (rc, Some out) ->
  exists resp, cb prompt model = (0, Some resp) /\ rc = 0 /\
    out `prefix_of` resp /\ strlen out < buf_len /\
    (strlen resp < buf_len -> out = resp).
Proof.
  intros Hl. unfold ullm_round. rewrite (proj2 (Z.eqb_neq _ _)) by lia. cbn [negb orb].
  destruct (cb prompt model) as [r [resp|]]; [|done].
  destruct (Z.eqb_spec r 0) as [->|]; [|done]. intros [= <- <-]. exists resp.
  pose proof (lenZ_nonneg resp). unfold strlen.
  repeat split.
  - by eexists; symmetry; apply take_drop.
  - rewrite lenZ_take. destruct (Z.leb_spec buf_len (lenZ resp)); lia.
  - intros Hf. rewrite (proj2 (Z.leb_gt _ _)) by lia. apply take_ge. unfold lenZ. lia.
Qed.

Lemma ullm_round_bounded_witness :
  exists resp, (fun _ _ : option bytes => (0, Some "hello"%cs)) None None = (0, Some resp) /\
    0 = 0 /\ "hel"%cs `prefix_of` resp /\ strlen "hel"%cs < 4 /\
    (strlen resp < 4 -> "hel"%cs = resp).
Proof.
  apply (@ullm_round_bounded inst_err (fun _ _ => (0, Some "hello"%cs)) None None 4 0 "hel"%cs);
    [lia | reflexivity].
Defined.
