(* ===== verification/Stack.v ===== *)
(** * Protocol stacks: common/src/unified_protocol.c, src/protocol_toplevel_impl.c

    A stack keeps one adapter per protocol type and forwards messages to it.
    Adapters are tables of function pointers supplied from outside; each is a
    function on the state [W] of the world.  Addresses are numbers, so that
    ownership of the buffers adapters allocate can be followed. *)

From stdpp Require Export gmap.
From stdpp Require Import list.
From S2P Require Export Unified.
From S2P Require Import EnvInst.

Definition ptr : Type := nat.

Section stack.
Context {W : Type}.

(** A buffer an adapter hands out: its address and its bytes. *)
Definition buffer : Type := ptr * bytes.

(** [void *context] is an address or null. *)
Definition context_t : Type := option ptr.

(** The entries no function of the repository calls through the table
    ([handle_request], [get_version], [capabilities], [get_stats] and
    [user_data]) are left out. *)
Record protocol_adapter_t := mkAdapter {
  pa_type : airy_protocol_type_t;
  pa_name : bytes;
  pa_version : bytes;
  pa_description : bytes;
  pa_init : option (context_t -> W -> W * Z);
  pa_destroy : option (context_t -> W -> W * Z);
  pa_encode : option (context_t -> unified_message_t -> W -> W * (Z * option buffer * Z));
  pa_decode : option (context_t -> bytes -> Z -> unified_message_t -> W
                      -> W * (Z * unified_message_t));
  pa_connect : option (context_t -> bytes -> W -> W * Z);
  pa_disconnect : option (context_t -> W -> W * Z);
  pa_is_connected : option (context_t -> W -> W * Z);
  pa_send : option (context_t -> option bytes -> Z -> W -> W * Z);
  pa_receive : option (context_t -> Z -> W -> W * (Z * option buffer * Z));
  pa_context : context_t
}.

(** A zeroed table for protocol [type]. *)
Definition adapter_zero (type : airy_protocol_type_t) : protocol_adapter_t :=
  mkAdapter type [] [] [] None None None None None None None None None None.

Record adapter_node := mkNode {
  an_adapter : protocol_adapter_t;
  an_context : context_t
}.

Record protocol_stack_config_t := mkStackConfig {
  sc_name : bytes;
  sc_max_adapters : Z;
  sc_enable_logging : bool;
  sc_default_protocol : airy_protocol_type_t;
  sc_max_message_size : Z;
  sc_timeout_ms : Z;
  sc_enable_compression : bool;
  sc_enable_encryption : bool;
  sc_custom_config : context_t
}.

(** [ss_callback] is whether a message callback is installed. *)
Record protocol_stack_s := mkStack {
  ss_config : protocol_stack_config_t;
  ss_adapters : list adapter_node;
  ss_adapter_count : Z;
  ss_initialized : bool;
  ss_callback : bool;
  ss_messages_sent : Z;
  ss_messages_received : Z;
  ss_bytes_sent : Z;
  ss_bytes_received : Z
}.

#[global] Instance eta_stack : Eta protocol_stack_s := fun s =>
  mkStack (ss_config s) (ss_adapters s) (ss_adapter_count s) (ss_initialized s)
    (ss_callback s) (ss_messages_sent s) (ss_messages_received s) (ss_bytes_sent s)
    (ss_bytes_received s).

(** What a call does besides updating the stack. *)
Inductive effect :=
| EFree (p : ptr)
| ECallback (m : unified_message_t)
| ESleep (ms : Z).

(** ** Lifecycle *)

Definition protocol_stack_create `{AiryString} (alloc : bool)
    (config : option protocol_stack_config_t) : option protocol_stack_s :=
  match config with
  | None => None
  | Some c =>
      if negb alloc then None
      else Some (mkStack
        (mkStackConfig (take 127 (AIRY_STRNCPY_TERM (sc_name c) 128)) (sc_max_adapters c)
           (sc_enable_logging c) (sc_default_protocol c) (sc_max_message_size c) (sc_timeout_ms c)
           (sc_enable_compression c) (sc_enable_encryption c) (sc_custom_config c))
        [] 0 true false 0 0 0 0)
  end.

(** The adapters' [destroy] callbacks run from the head of the list. *)
Fixpoint destroy_nodes (nodes : list adapter_node) (w : W) : W :=
  match nodes with
  | [] => w
  | n :: r =>
      let w := match pa_destroy (an_adapter n) with
               | Some f => fst (f (an_context n) w)
               | None => w
               end in
      destroy_nodes r w
  end.

Definition protocol_stack_destroy (handle : option protocol_stack_s) (w : W)
    : W * list effect :=
  match handle with
  | None => (w, [])
  | Some s =>
      (destroy_nodes (ss_adapters s) w,
       match sc_custom_config (ss_config s) with Some p => [EFree p] | None => [] end)
  end.

Definition protocol_stack_config_default `{AiryString} (name : option bytes)
    : protocol_stack_config_t :=
  mkStackConfig
    match name with Some n => take 127 (AIRY_STRNCPY_TERM n 128) | None => [] end
    0 false PROTOCOL_HTTP 65536 30000 false false None.

(** ** Registration *)

Definition find_adapter_node (s : protocol_stack_s) (type : airy_protocol_type_t) : option nat :=
  find_idx (fun n => pa_type (an_adapter n) =? type) (ss_adapters s).

Definition run_opt (f : option (context_t -> W -> W * Z)) (c : context_t) (w : W) : W * Z :=
  match f with Some f => f c w | None => (w, 0) end.

(** [alloc] is whether both allocations of the new node succeed. *)
Definition protocol_stack_register_adapter `{AiryErr} (alloc : bool)
    (handle : option protocol_stack_s) (adapter : protocol_adapter_t) (w : W)
    : Z * option protocol_stack_s * W :=
  match handle with
  | None => (AIRY_ERR_UNKNOWN, None, w)
  | Some s =>
      match find_adapter_node s (pa_type adapter) with
      | Some i =>
          let ctx := match ss_adapters s !! i with Some n => an_context n | None => None end in
          let old := match ss_adapters s !! i with
                     | Some n => pa_destroy (an_adapter n) | None => None end in
          let w := fst (run_opt old ctx w) in
          let s := s <| ss_adapters ::= <[i := mkNode adapter ctx]> |> in
          let w := fst (run_opt (pa_init adapter) ctx w) in
          (0, Some s, w)
      | None =>
          if negb alloc then (AIRY_ERR_OUT_OF_MEMORY, Some s, w)
          else
            let '(w, result) := run_opt (pa_init adapter) None w in
            if negb (result =? 0) then (result, Some s, w)
            else (0, Some (s <| ss_adapters ::= cons (mkNode adapter None) |>
                             <| ss_adapter_count ::= Z.add 1 |>), w)
      end
  end.

(** ** Sending *)

Definition validate_message `{AiryErr} (message : option unified_message_t) : Z :=
  match message with
  | None => AIRY_ERR_UNKNOWN
  | Some m =>
      if (um_protocol m <? AIRY_PROTOCOL_JSON_RPC) || (AIRY_PROTOCOL_COUNT <=? um_protocol m)
      then AIRY_ERR_UNKNOWN
      else if (um_direction m <? DIRECTION_REQUEST) || (DIRECTION_NOTIFICATION <? um_direction m)
      then AIRY_ERR_UNKNOWN
      else if negb (streq (um_endpoint m) []) && (1024 <? strlen (um_endpoint m))
      then AIRY_ERR_UNKNOWN
      else 0
  end.

(** [if (encoded_data != message->payload && encoded_data) free(encoded_data)],
    [pp] being the address of the message's payload. *)
Definition free_encoded (pp : option ptr) (d : option ptr) : list effect :=
  match d with
  | None => []
  | Some p => if bool_decide (Some p = pp) then [] else [EFree p]
  end.

(** The encoding step: without [encode] the payload itself is sent. *)
Definition encode_message (n : adapter_node) (m : unified_message_t) (pp : option ptr) (w : W)
    : W * (Z * option buffer * Z) :=
  match pa_encode (an_adapter n) with
  | Some enc => enc (an_context n) m w
  | None => (w, (0, match pp, um_payload m with
                    | Some p, Some b => Some (p, b) | _, _ => None end,
                 um_payload_size m))
  end.

Definition protocol_stack_send `{AiryErr} (handle : option protocol_stack_s)
    (message : option unified_message_t) (pp : option ptr) (w : W)
    : Z * option protocol_stack_s * W * list effect :=
  match handle, message with
  | Some s, Some m =>
      let valid := validate_message message in
      if negb (valid =? 0) then (valid, handle, w, [])
      else match find_adapter_node s (um_protocol m) ≫= (ss_adapters s !!.) with
      | None => (AIRY_ERR_NOT_FOUND, handle, w, [])
      | Some n =>
          let a := an_adapter n in
          let c := an_context n in
          let '(w, (result, data, size)) := encode_message n m pp w in
          if negb (result =? 0) then (result, handle, w, [])
          else
            let frees := free_encoded pp (fst <$> data) in
            let '(w, conn) :=
              match pa_connect a with
              | Some f => f c (um_endpoint m) w
              | None => (w, 0)
              end in
            if negb (conn =? 0) && negb (conn =? -2) then (conn, handle, w, frees)
            else
              let '(w, sent, cb) :=
                match pa_send a with
                | Some f => let '(w, r) := f c (snd <$> data) size w in (w, r, [])
                | None => (w, 0, if ss_callback s then [ECallback m] else [])
                end in
              if negb (sent =? 0) then (sent, handle, w, frees)
              else (0, Some (s <| ss_messages_sent ::= (fun n => u64 (n + 1)) |>
                               <| ss_bytes_sent ::= (fun n => u64 (n + size)) |>),
                    w, cb ++ frees)
      end
  | _, _ => (AIRY_ERR_UNKNOWN, handle, w, [])
  end.

(** ** Receiving *)

(** The scan over the nodes.  [Some (w, m, size)] is the message of the first
    node that delivered one; the effects are those of the whole scan. *)
Fixpoint receive_scan (nodes : list adapter_node) (timeout now : Z)
    (m : unified_message_t) (w : W)
    : option (unified_message_t * Z) * unified_message_t * W * list effect :=
  match nodes with
  | [] => (None, m, w, [])
  | n :: r =>
      match pa_receive (an_adapter n) with
      | None => receive_scan r timeout now m w
      | Some recv =>
          let '(w, (result, data, size)) := recv (an_context n) timeout w in
          let pass (m : unified_message_t) (w : W) :=
            let '(res, m, w, effs) := receive_scan r timeout now m w in
            (res, m, w, match data with Some (p, _) => [EFree p] | None => [] end ++ effs) in
          match data with
          | Some (p, b) =>
              if (result =? 0) && (0 <? size) then
                let '(w, ok, m) :=
                  match pa_decode (an_adapter n) with
                  | Some dec =>
                      let '(w, (rc, m)) := dec (an_context n) b size m w in (w, rc =? 0, m)
                  | None => (w, true, m <| um_payload := Some b |> <| um_payload_size := size |>)
                  end in
                if ok then
                  let m := m <| um_protocol := pa_type (an_adapter n) |>
                             <| um_direction := DIRECTION_RESPONSE |>
                             <| um_timestamp := now |> <| um_message_id := 0 |> in
                  (Some (m, size), m, w, [])
                else pass m w
              else pass m w
          | None => pass m w
          end
      end
  end.

Definition protocol_stack_receive `{AiryErr} (handle : option protocol_stack_s)
    (message : option unified_message_t) (timeout_ms now : Z) (w : W)
    : Z * option protocol_stack_s * option unified_message_t * W * list effect :=
  match handle, message with
  | Some s, Some _ =>
      let '(res, m, w, effs) := receive_scan (ss_adapters s) timeout_ms now um_zero w in
      match res with
      | Some (m, size) =>
          (0, Some (s <| ss_messages_received ::= (fun n => u64 (n + 1)) |>
                      <| ss_bytes_received ::= (fun n => u64 (n + size)) |>),
           Some m, w, effs ++ (if ss_callback s then [ECallback m] else []))
      | None =>
          (AIRY_ERR_TIMEOUT, handle, Some m, w,
           effs ++ (if 0 <? timeout_ms then [ESleep timeout_ms] else []))
      end
  | _, _ => (AIRY_ERR_TIMEOUT, handle, message, w, [])
  end.

Definition protocol_stack_set_callback `{AiryErr} (handle : option protocol_stack_s)
    (callback : bool) : Z * option protocol_stack_s :=
  match handle with
  | None => (AIRY_ERR_UNKNOWN, None)
  | Some s => (0, Some (s <| ss_callback := callback |>))
  end.

Record protocol_stats_t := mkStats {
  st_messages_sent : Z;
  st_messages_received : Z;
  st_bytes_sent : Z;
  st_bytes_received : Z;
  st_adapter_count : Z;
  st_initialized : bool
}.

Definition protocol_stack_get_stats `{AiryErr} (handle : option protocol_stack_s)
    (has_stats : bool) : Z * option protocol_stats_t :=
  match handle with
  | Some s =>
      if has_stats
      then (0, Some (mkStats (ss_messages_sent s) (ss_messages_received s) (ss_bytes_sent s)
                       (ss_bytes_received s) (ss_adapter_count s) (ss_initialized s)))
      else (AIRY_ERR_UNKNOWN, None)
  | None => (AIRY_ERR_UNKNOWN, None)
  end.

(** ** Adapters used without a stack *)

Definition protocol_adapter_create `{AiryErr} (type : airy_protocol_type_t) (has_out : bool)
    : Z * option protocol_adapter_t :=
  if negb has_out then (AIRY_ERR_UNKNOWN, None)
  else (0, Some (adapter_zero type)).

(** [airy_message_t] is the payload and its length. *)
Definition protocol_adapter_send `{AiryErr} (a : protocol_adapter_t)
    (msg : option (option bytes * Z)) (w : W) : Z * W :=
  match pa_init a, msg with
  | Some _, Some (data, len) =>
      match pa_send a with
      | Some f => let '(w, rc) := f (pa_context a) data len w in (rc, w)
      | None => (AIRY_ERR_NOT_FOUND, w)
      end
  | _, _ => (AIRY_ERR_UNKNOWN, w)
  end.

(** The second component is the new [msg->len], when it is written: the
    received bytes themselves are freed, not stored. *)
Definition protocol_adapter_recv `{AiryErr} (a : protocol_adapter_t) (has_msg : bool)
    (max_len : Z) (w : W) : Z * option Z * W * list effect :=
  match pa_init a with
  | None => (AIRY_ERR_UNKNOWN, None, w, [])
  | Some _ =>
      if negb has_msg then (AIRY_ERR_UNKNOWN, None, w, [])
      else match pa_receive a with
      | None => (AIRY_ERR_NOT_FOUND, None, w, [])
      | Some f =>
          let '(w, (rc, data, size)) := f (pa_context a) 0 w in
          match data with
          | Some (p, _) =>
              if (rc =? 0) && (0 <? size)
              then (rc, Some (if size <? max_len then size else max_len), w, [EFree p])
              else (rc, None, w, [])
          | None => (rc, None, w, [])
          end
      end
  end.
Definition protocol_adapter_destroy (adapter : protocol_adapter_t) : list effect :=
  match pa_context adapter with Some p => [EFree p] | None => [] end.

(** ** The manager: common/src/protocols_impl.c *)

(** [pm_stacks] is the used part of [stacks[32]]; [pm_heap] holds the stacks
    the handles point to. *)
Record protocol_manager_s := mkManager {
  pm_stacks : list ptr;
  pm_heap : gmap ptr protocol_stack_s
}.

Definition protocol_manager_create : protocol_manager_s := mkManager [] ∅.

(** [alloc] is the address the stack is allocated at, if it is. *)
Definition protocol_manager_create_stack `{AiryString} (alloc : option ptr)
    (mgr : protocol_manager_s) (config : option protocol_stack_config_t)
    : protocol_manager_s * option ptr :=
  match config with
  | None => (mgr, None)
  | Some _ =>
      if 32 <=? lenZ (pm_stacks mgr) then (mgr, None)
      else match alloc, protocol_stack_create (bool_decide (is_Some alloc)) config with
           | Some p, Some s =>
               (mkManager (pm_stacks mgr ++ [p]) (<[p := s]> (pm_heap mgr)), Some p)
           | _, _ => (mgr, None)
           end
  end.

(** The hole is filled with the last handle. *)
Definition swap_remove (i : nat) (l : list ptr) : list ptr :=
  match last l with
  | Some x => take (length l - 1) (<[i := x]> l)
  | None => l
  end.

Definition protocol_manager_destroy_stack (mgr : protocol_manager_s) (stack : option ptr)
    (w : W) : protocol_manager_s * W * list effect :=
  match stack with
  | None => (mgr, w, [])
  | Some p =>
      match find_idx (Nat.eqb p) (pm_stacks mgr) with
      | Some i =>
          let '(w, effs) := protocol_stack_destroy (pm_heap mgr !! p) w in
          (mkManager (swap_remove i (pm_stacks mgr)) (delete p (pm_heap mgr)), w, effs)
      | None => (mgr, w, [])
      end
  end.

Fixpoint destroy_stacks (heap : gmap ptr protocol_stack_s) (l : list ptr) (w : W)
    : W * list effect :=
  match l with
  | [] => (w, [])
  | p :: r =>
      let '(w, e) := protocol_stack_destroy (heap !! p) w in
      let '(w, e') := destroy_stacks heap r w in
      (w, e ++ e')
  end.

Definition protocol_manager_destroy (mgr : option protocol_manager_s) (w : W)
    : W * list effect :=
  match mgr with
  | None => (w, [])
  | Some m => destroy_stacks (pm_heap m) (pm_stacks m) w
  end.

(** The count, and what is copied into the caller's array if there is one. *)
Definition protocol_manager_get_stacks (mgr : option protocol_manager_s)
    (has_stacks : bool) (max_count : Z) : Z * option (list ptr) :=
  match mgr with
  | None => (0, None)
  | Some m =>
      let n := lenZ (pm_stacks m) in
      let count := if n <? max_count then n else max_count in
      (count, if has_stacks then Some (take (Z.to_nat count) (pm_stacks m)) else None)
  end.

(** ** What holds of every reachable stack *)

Definition stack_wf (s : protocol_stack_s) : Prop :=
  NoDup ((pa_type ∘ an_adapter) <$> ss_adapters s) /\
  ss_adapter_count s = lenZ (ss_adapters s).

Inductive stack_step `{AiryErr} : protocol_stack_s -> protocol_stack_s -> Prop :=
| step_register alloc s a w rc s' w' :
    protocol_stack_register_adapter alloc (Some s) a w = (rc, Some s', w') ->
    stack_step s s'
| step_send s m pp w rc s' w' effs :
    protocol_stack_send (Some s) (Some m) pp w = (rc, Some s', w', effs) ->
    stack_step s s'
| step_receive s m timeout now w rc s' m' w' effs :
    protocol_stack_receive (Some s) (Some m) timeout now w = (rc, Some s', m', w', effs) ->
    stack_step s s'
| step_callback s cb rc s' :
    protocol_stack_set_callback (Some s) cb = (rc, Some s') ->
    stack_step s s'.

Inductive stack_reachable `{AiryErr} `{AiryString} : protocol_stack_s -> Prop :=
| reach_create alloc c s :
    protocol_stack_create alloc (Some c) = Some s -> stack_reachable s
| reach_step s s' :
    stack_reachable s -> stack_step s s' -> stack_reachable s'.
End stack.

(** [protocol_error_t] by its numeric values. *)
Definition protocol_error_to_string (error : Z) : bytes :=
  if error =? 0 then "Success"%cs
  else if error =? 1 then "Invalid argument"%cs
  else if error =? 2 then "Out of memory"%cs
  else if error =? 3 then "Not initialized"%cs
  else if error =? 4 then "Not connected"%cs
  else if error =? 5 then "Timeout"%cs
  else if error =? 6 then "Encoding error"%cs
  else if error =? 7 then "Decoding error"%cs
  else if error =? 8 then "Network error"%cs
  else if error =? 9 then "Protocol error"%cs
  else if error =? 10 then "Internal error"%cs
  else "Unknown error"%cs.

(** ** Lemmas *)

Section stack_lemmas.
Context {W : Type} `{AiryErr}.
Implicit Types (s : @protocol_stack_s W) (w : W).

Lemma find_adapter_node_Some s t i :
  find_adapter_node s t = Some i ->
  exists n, ss_adapters s !! i = Some n /\ pa_type (an_adapter n) = t.
Proof.
  intros [(n & Hn & Ht) _]%find_idx_Some. exists n. split; [done|]. by apply Z.eqb_eq.
Qed.

Lemma find_adapter_node_None s t :
  find_adapter_node s t = None <-> t ∉ (pa_type ∘ an_adapter) <$> ss_adapters s.
Proof.
  unfold find_adapter_node. rewrite find_idx_None, Forall_forall, list_elem_of_fmap. split.
  - intros Hall (n & -> & Hn). specialize (Hall n Hn). cbn in Hall. lia.
  - intros Hno n Hn. apply Z.eqb_neq. intros <-. apply Hno. by exists n.
Qed.

Lemma types_insert (l : list (@adapter_node W)) i a c n :
  l !! i = Some n -> pa_type (an_adapter n) = pa_type a ->
  (pa_type ∘ an_adapter) <$> <[i := mkNode a c]> l = (pa_type ∘ an_adapter) <$> l.
Proof.
  intros Hn Ht. rewrite list_fmap_insert. apply list_insert_id.
  rewrite list_lookup_fmap, Hn. cbn. by rewrite Ht.
Qed.

Lemma register_wf alloc s a w rc s' w' :
  protocol_stack_register_adapter alloc (Some s) a w = (rc, Some s', w') ->
  stack_wf s -> stack_wf s'.
Proof.
  unfold protocol_stack_register_adapter. intros Hr [Hnd Hc].
  destruct (find_adapter_node s (pa_type a)) as [i|] eqn:Hf.
  - destruct (find_adapter_node_Some _ _ _ Hf) as (n & Hn & Ht). rewrite Hn in Hr.
    injection Hr as <- <- <-. unfold stack_wf. cbn. rewrite (types_insert _ _ _ _ n) by done.
    split; [done|]. unfold lenZ in *. by rewrite length_insert.
  - destruct alloc; cbn [negb] in Hr; [|by injection Hr as <- <- <-].
    destruct (run_opt (pa_init a) None w) as [w1 r].
    destruct (negb (r =? 0)); injection Hr as <- <- <-; [done|].
    split; cbn -[lenZ]; [|rewrite lenZ_cons; lia].
    apply NoDup_cons. split; [|done]. by apply find_adapter_node_None.
Qed.

(** A send or a receive leaves the adapters alone. *)
Lemma send_adapters s m pp w rc s' w' effs :
  protocol_stack_send (Some s) (Some m) pp w = (rc, Some s', w', effs) ->
  ss_adapters s' = ss_adapters s /\ ss_adapter_count s' = ss_adapter_count s.
Proof. intros Hs. unfold protocol_stack_send in Hs. case_all. Qed.

Lemma receive_adapters s m timeout now w rc s' m' w' effs :
  protocol_stack_receive (Some s) (Some m) timeout now w = (rc, Some s', m', w', effs) ->
  ss_adapters s' = ss_adapters s /\ ss_adapter_count s' = ss_adapter_count s.
Proof. intros Hs. unfold protocol_stack_receive in Hs. case_all. Qed.

(** No operation ever gives an adapter a context. *)
Definition no_context (n : @adapter_node W) : Prop := an_context n = None.

Lemma register_no_context alloc s a w rc s' w' :
  protocol_stack_register_adapter alloc (Some s) a w = (rc, Some s', w') ->
  Forall no_context (ss_adapters s) -> Forall no_context (ss_adapters s').
Proof.
  unfold protocol_stack_register_adapter. intros Hr Hno.
  destruct (find_adapter_node s (pa_type a)) as [i|] eqn:Hf.
  - destruct (find_adapter_node_Some _ _ _ Hf) as (n & Hn & Ht). rewrite Hn in Hr.
    injection Hr as <- <- <-. cbn. apply Forall_insert; [done|].
    unfold no_context. cbn. by apply (Forall_lookup_1 _ _ _ _ Hno Hn).
  - destruct alloc; cbn [negb] in Hr; [|by injection Hr as <- <- <-].
    destruct (run_opt (pa_init a) None w) as [w1 r].
    destruct (negb (r =? 0)); injection Hr as <- <- <-; [done|].
    cbn. by constructor.
Qed.

Lemma step_no_context s s' :
  stack_step s s' -> Forall no_context (ss_adapters s) -> Forall no_context (ss_adapters s').
Proof.
  intros Hs Hno. destruct Hs as
    [alloc s a w rc s' w' Hr | s m pp w rc s' w' e Hr | s m t now w rc s' m' w' e Hr | s cb rc s' Hr].
  - by eapply register_no_context.
  - by destruct (send_adapters _ _ _ _ _ _ _ _ Hr) as [-> _].
  - by destruct (receive_adapters _ _ _ _ _ _ _ _ _ _ Hr) as [-> _].
  - by injection Hr as <- <-.
Qed.

Lemma reachable_no_context `{AiryString} s :
  stack_reachable s -> Forall no_context (ss_adapters s).
Proof.
  induction 1 as [alloc c s Hc|s s' _ IH Hs]; [|by eapply step_no_context].
  revert Hc. unfold protocol_stack_create. destruct alloc; [|done]. intros [= <-]. constructor.
Qed.

Lemma step_wf s s' : stack_step s s' -> stack_wf s -> stack_wf s'.
Proof.
  intros Hs Hwf. unfold stack_wf. destruct Hs as
    [alloc s a w rc s' w' Hr | s m pp w rc s' w' e Hr | s m t now w rc s' m' w' e Hr | s cb rc s' Hr].
  - by eapply register_wf.
  - destruct (send_adapters _ _ _ _ _ _ _ _ Hr) as [-> ->]. exact Hwf.
  - destruct (receive_adapters _ _ _ _ _ _ _ _ _ _ Hr) as [-> ->]. exact Hwf.
  - injection Hr as <- <-. exact Hwf.
Qed.

Lemma reachable_wf `{AiryString} s : stack_reachable s -> stack_wf s.
Proof.
  induction 1 as [alloc c s Hc|s s' _ IH Hs]; [|by eapply step_wf].
  revert Hc. unfold protocol_stack_create. destruct alloc; [|done]. intros [= <-].
  split; [apply NoDup_nil_2|done].
Qed.

(** With distinct types a lookup finds the adapter whatever its position. *)
Lemma find_adapter_node_unique s n :
  stack_wf s -> n ∈ ss_adapters s ->
  find_adapter_node s (pa_type (an_adapter n)) ≫= (ss_adapters s !!.) = Some n.
Proof.
  intros [Hnd _] Hin.
  destruct (find_adapter_node s (pa_type (an_adapter n))) as [i|] eqn:Hf.
  - cbn. destruct (find_adapter_node_Some _ _ _ Hf) as (n' & Hn' & Ht).
    rewrite Hn'. f_equal. apply list_elem_of_lookup in Hin as [j Hj].
    assert (i = j) as ->; [|congruence].
    eapply NoDup_lookup; [exact Hnd| |]; rewrite list_lookup_fmap.
    + rewrite Hn'. cbn. by rewrite Ht.
    + by rewrite Hj.
  - apply find_adapter_node_None in Hf. destruct Hf. apply list_elem_of_fmap.
    by exists n.
Qed.

Definition frees (effs : list effect) : list ptr :=
  omap (fun e => match e with EFree p => Some p | _ => None end) effs.

(** The buffer of an encoded message that [protocol_stack_send] owns. *)
Definition owned (pp : option ptr) (data : option buffer) : list ptr :=
  match data with
  | Some (p, _) => if bool_decide (Some p = pp) then [] else [p]
  | None => []
  end.

Lemma frees_encoded pp data : frees (free_encoded pp (fst <$> data)) = owned pp data.
Proof. destruct data as [[p b]|]; [|done]. cbn. by case_bool_decide. Qed.

(** The effects of a scan, and what it leaves in the message. *)
Lemma receive_scan_spec nodes timeout now m w res m' w' effs :
  receive_scan nodes timeout now m w = (res, m', w', effs) ->
  Forall (fun e => exists p, e = EFree p) effs /\
  forall mr size, res = Some (mr, size) ->
    mr = m' /\ 0 < size /\ um_protocol mr ∈ (pa_type ∘ an_adapter) <$> nodes /\
    um_direction mr = DIRECTION_RESPONSE /\ um_timestamp mr = now /\ um_message_id mr = 0.
Proof.
  revert m w res m' w' effs. induction nodes as [|n r IH]; intros m w res m' w' effs.
  { intros [= <- <- <- <-]. split; [constructor|done]. }
  assert (forall m0 w0 (data : option buffer) res m' w' effs,
    (let '(res, m, w, effs) := receive_scan r timeout now m0 w0 in
     (res, m, w, match data with Some (p, _) => [EFree p] | None => [] end ++ effs))
    = (res, m', w', effs) ->
    Forall (fun e => exists p, e = EFree p) effs /\
    forall mr size, res = Some (mr, size) ->
      mr = m' /\ 0 < size /\ um_protocol mr ∈ (pa_type ∘ an_adapter) <$> n :: r /\
      um_direction mr = DIRECTION_RESPONSE /\ um_timestamp mr = now /\ um_message_id mr = 0)
    as Hskip.
  { intros m0 w0 data res0 m0' w0' effs0.
    destruct (receive_scan r timeout now m0 w0) as [[[res1 m1] w1] e1] eqn:Hr.
    intros [= <- <- <- <-]. apply IH in Hr as [He Hres]. split.
    - apply Forall_app. split; [|done]. destruct data as [[p b]|]; [|constructor].
      constructor; [by eexists|constructor].
    - intros mr size Hsome. destruct (Hres mr size Hsome) as (? & ? & ? & ?).
      repeat split; try done; [|tauto..]. rewrite fmap_cons. by apply list_elem_of_further. }
  cbn [receive_scan]. destruct (pa_receive (an_adapter n)) as [recv|].
  2: { intros Hr. eapply (Hskip m w None). destruct (receive_scan r timeout now m w) as [[[??]?]?].
       by injection Hr as <- <- <- <-. }
  destruct (recv (an_context n) timeout w) as [w1 [[rc data] size]].
  destruct data as [[p b]|]; [|intros Hr; eapply (Hskip m w1 None); exact Hr].
  destruct ((rc =? 0) && (0 <? size)) eqn:Hd; [|intros Hr; by eapply (Hskip m w1 (Some (p, b)))].
  apply andb_true_iff in Hd as [_ Hsz%Z.ltb_lt].
  assert (forall m2 : unified_message_t, um_protocol (m2 <| um_protocol := pa_type (an_adapter n) |>)
    ∈ (pa_type ∘ an_adapter) <$> n :: r) by (intros; rewrite fmap_cons; apply list_elem_of_here).
  destruct (pa_decode (an_adapter n)) as [dec|].
  - destruct (dec (an_context n) b size m w1) as [w2 [drc m2]].
    destruct (drc =? 0); [|intros Hr; by eapply (Hskip m2 w2 (Some (p, b)))].
    intros [= <- <- <- <-]. split; [constructor|]. intros mr sz [= <- <-].
    repeat split; try done. apply (H0 m2).
  - intros [= <- <- <- <-]. split; [constructor|]. intros mr sz [= <- <-].
    repeat split; try done. apply (H0 m).
Qed.
End stack_lemmas.

(** ** Properties *)

(** C6. Invariant of the adapter list.  In every stack that creation,
    registrations, sends, receives and callback changes can reach, no two
    adapters serve the same protocol, the counter is the number of adapters,
    the lookup by protocol finds each of them, and none of them was ever given
    a context: every adapter is called with a null context. *)
Theorem stack_invariant {W} `{AiryErr} `{AiryString} (s : @protocol_stack_s W) :
  stack_reachable s ->
  NoDup ((pa_type ∘ an_adapter) <$> ss_adapters s) /\
  ss_adapter_count s = lenZ (ss_adapters s) /\
  forall n, n ∈ ss_adapters s ->
    find_adapter_node s (pa_type (an_adapter n)) ≫= (ss_adapters s !!.) = Some n /\
    an_context n = None.
Proof.
  intros Hr. pose proof (reachable_wf s Hr) as Hwf. destruct (Hwf) as [Hnd Hc].
  split; [done|]. split; [done|]. intros n Hn. split; [by apply find_adapter_node_unique|].
  pose proof (reachable_no_context s Hr) as Hno. rewrite Forall_forall in Hno. by apply Hno.
Qed.

Definition sample_config : protocol_stack_config_t :=
  mkStackConfig "gateway"%cs 8 false 0 65536 1000 false false None.

Definition sample_stack : @protocol_stack_s unit :=
  mkStack sample_config [mkNode (adapter_zero 2) None; mkNode (adapter_zero 1) None]
    2 true false 0 0 0 0.

Lemma sample_stack_reachable : @stack_reachable unit inst_err inst_string sample_stack.
Proof.
  apply (reach_step (mkStack sample_config [mkNode (adapter_zero 1) None] 1 true false 0 0 0 0));
    [|by apply (step_register true _ (adapter_zero 2) tt 0 _ tt)].
  apply (reach_step (mkStack sample_config [] 0 true false 0 0 0 0));
    [|by apply (step_register true _ (adapter_zero 1) tt 0 _ tt)].
  by apply (reach_create true sample_config).
Qed.

Lemma stack_invariant_witness :
  NoDup ((pa_type ∘ an_adapter) <$> ss_adapters sample_stack) /\
  ss_adapter_count sample_stack = lenZ (ss_adapters sample_stack) /\
  forall n, n ∈ ss_adapters sample_stack ->
    find_adapter_node sample_stack (pa_type (an_adapter n)) ≫= (ss_adapters sample_stack !!.) = Some n
    /\ an_context n = None.
Proof. apply (@stack_invariant unit inst_err inst_string), sample_stack_reachable. Defined.

(** C4. Sending, on every branch.  Let the stack hold an adapter for the
    protocol of a valid message.  If the adapter's encoder fails, its code is
    returned and nothing else happens.  If it succeeds, the buffer it
    allocated is freed exactly once and the caller's payload never, whether
    or not connecting and sending succeed; the stack is unchanged when the
    send fails, and otherwise exactly one message and its encoded size are
    added to the counters, which wrap at 64 bits. *)
Theorem stack_send_spec {W} `{AiryErr} `{AiryString} (s : @protocol_stack_s W)
    n m pp w w1 erc data size :
  stack_reachable s -> n ∈ ss_adapters s -> pa_type (an_adapter n) = um_protocol m ->
  validate_message (Some m) = 0 ->
  encode_message n m pp w = (w1, (erc, data, size)) ->
  exists rc s' w' effs,
    protocol_stack_send (Some s) (Some m) pp w = (rc, Some s', w', effs) /\
    if erc =? 0 then
      frees effs = owned pp data /\
      s' = (if rc =? 0 then
              s <| ss_messages_sent ::= (fun k => u64 (k + 1)) |>
                <| ss_bytes_sent ::= (fun k => u64 (k + size)) |>
            else s)
    else rc = erc /\ s' = s /\ w' = w1 /\ effs = [].
Proof.
  intros Hr Hn Ht Hv He.
  pose proof (find_adapter_node_unique s n (reachable_wf s Hr) Hn) as Hf. rewrite Ht in Hf.
  unfold protocol_stack_send. rewrite Hv. cbn [negb Z.eqb]. rewrite Hf, He.
  destruct (erc =? 0) eqn:Herc; cbn [negb]; [|by repeat eexists].
  destruct (match pa_connect (an_adapter n) with Some f => _ | None => _ end) as [w2 conn].
  destruct (conn =? 0) eqn:Hc0; cbn [negb andb].
  2: destruct (conn =? -2) eqn:Hc2; cbn [negb]; [|do 4 eexists; rewrite Hc0; split; [done|];
       by rewrite frees_encoded].
  all: destruct (pa_send (an_adapter n)) as [f|];
    [destruct (f (an_context n) _ size w2) as [w3 r]; destruct (r =? 0) eqn:Hr0; cbn [negb]|];
    do 4 eexists; (split; [reflexivity|]); rewrite ?Hr0; split; try done;
    try apply frees_encoded; destruct (ss_callback s); apply frees_encoded.
Qed.

(** An adapter whose encoder allocates address 9 and whose transport refuses. *)
Definition refusing : @protocol_adapter_t unit :=
  mkAdapter 2 [] [] [] None None (Some (fun _ _ w => (w, (0, Some (9%nat, "xy"%cs), 2)))) None
    None None None (Some (fun _ _ _ w => (w, -7))) None None.

Definition refusing_stack : @protocol_stack_s unit :=
  mkStack sample_config [mkNode refusing None] 1 true false 0 0 0 0.

Lemma refusing_reachable : @stack_reachable unit inst_err inst_string refusing_stack.
Proof.
  apply (reach_step (mkStack sample_config [] 0 true false 0 0 0 0));
    [|by apply (step_register true _ refusing tt 0 _ tt)].
  by apply (reach_create true sample_config).
Qed.

Definition sample_request : unified_message_t := sample_message <| um_direction := 0 |>.

Lemma stack_send_spec_witness :
  exists rc s' w' effs,
    @protocol_stack_send unit inst_err (Some refusing_stack) (Some sample_request) (Some 5%nat) tt
    = (rc, Some s', w', effs) /\
    if 0 =? 0 then
      frees effs = owned (Some 5%nat) (Some (9%nat, "xy"%cs)) /\
      s' = (if rc =? 0 then
              refusing_stack <| ss_messages_sent ::= (fun k => u64 (k + 1)) |>
                <| ss_bytes_sent ::= (fun k => u64 (k + 2)) |>
            else refusing_stack)
    else rc = 0 /\ s' = refusing_stack /\ w' = tt /\ effs = [].
Proof.
  apply (@stack_send_spec unit inst_err inst_string refusing_stack (mkNode refusing None));
    [apply refusing_reachable | apply list_elem_of_here | reflexivity..].
Defined.


(** An adapter that delivers two raw bytes at address 4. *)
Definition delivering : @protocol_adapter_t unit :=
  mkAdapter 1 [] [] [] None None None None None None None None
    (Some (fun _ _ w => (w, (0, Some (4%nat, "ok"%cs), 2)))) None.

(** The state and the message the next witness arrives at. *)
Definition delivering_stack (recvd nbytes : Z) : @protocol_stack_s unit :=
  mkStack sample_config [mkNode (adapter_zero 2) None; mkNode delivering None] 2 true true
    0 recvd 0 nbytes.
Definition delivered_message : unified_message_t :=
  um_zero <| um_payload := Some "ok"%cs |> <| um_payload_size := 2 |> <| um_protocol := 1 |>
          <| um_direction := 1 |> <| um_timestamp := 77 |>.


(** *** The manager *)

Section manager.
Context {W : Type} `{AiryString}.
Implicit Types (m : @protocol_manager_s W).

(** A new stack is allocated where no live stack is. *)
Inductive manager_reachable : @protocol_manager_s W -> Prop :=
| mreach_create : manager_reachable protocol_manager_create
| mreach_stack m alloc c m' r :
    manager_reachable m -> (forall p, alloc = Some p -> pm_heap m !! p = None) ->
    protocol_manager_create_stack alloc m c = (m', r) -> manager_reachable m'
| mreach_destroy m p w m' w' effs :
    manager_reachable m -> protocol_manager_destroy_stack m p w = (m', w', effs) ->
    manager_reachable m'.

Definition manager_wf m : Prop :=
  lenZ (pm_stacks m) <= 32 /\ NoDup (pm_stacks m) /\
  forall p, p ∈ pm_stacks m <-> is_Some (pm_heap m !! p).

Lemma swap_remove_perm i l p : l !! i = Some p -> l ≡ₚ p :: swap_remove i l.
Proof.
  intros Hi. unfold swap_remove.
  destruct (decide (l = [])) as [->|Hne]; [done|].
  destruct (exists_last Hne) as (k & x & ->).
  rewrite last_snoc, length_app. cbn [length].
  replace (length k + 1 - 1)%nat with (length k) by lia.
  apply lookup_lt_Some in Hi as Hlt. rewrite length_app in Hlt. cbn in Hlt.
  destruct (decide (i < length k)%nat) as [Hlt'|].
  - rewrite lookup_app_l in Hi by done.
    rewrite insert_app_l, take_app_length' by (done || by rewrite length_insert).
    rewrite <- (take_drop_middle k i p Hi) at 1.
    rewrite insert_take_drop by done. cbn.
    rewrite (Permutation_app_comm _ [x]). cbn.
    rewrite <- (Permutation_middle (take i k) _ x).
    rewrite <- (Permutation_middle (take i k) _ p). apply perm_swap.
  - assert (i = length k) as -> by lia.
    rewrite lookup_app_r, Nat.sub_diag in Hi by lia. injection Hi as ->.
    replace (<[length k:=p]> (k ++ [p])) with (k ++ [p]).
    + rewrite take_app_length. symmetry. apply Permutation_cons_append.
    + symmetry. apply list_insert_id. rewrite lookup_app_r, Nat.sub_diag by lia. done.
Qed.

Lemma destroy_stack_wf m p w m' w' effs :
  protocol_manager_destroy_stack m p w = (m', w', effs) -> manager_wf m ->
  manager_wf m' /\ (forall q, p = Some q -> q ∈ pm_stacks m -> pm_stacks m ≡ₚ q :: pm_stacks m').
Proof.
  intros Hd (Hlen & Hnd & Hlive). destruct p as [p|]; cbn in Hd; [|by injection Hd as <- <- <-].
  destruct (find_idx (Nat.eqb p) (pm_stacks m)) as [i|] eqn:Hf.
  - apply find_idx_Some in Hf as [(q & Hq & <-%Nat.eqb_eq) _].
    destruct (protocol_stack_destroy (pm_heap m !! p) w) as [w1 e1].
    injection Hd as <- <- <-. pose proof (swap_remove_perm _ _ _ Hq) as Hperm.
    split; [|by intros ? [= <-]].
    rewrite Hperm in Hnd. apply NoDup_cons in Hnd as [Hp Hnd].
    unfold manager_wf. cbn. split; [|split; [done|]].
    { apply Permutation_length in Hperm. unfold lenZ in *. cbn in Hperm. lia. }
    intros q. specialize (Hlive q). rewrite Hperm, elem_of_cons in Hlive.
    destruct (decide (q = p)) as [->|Hne].
    + rewrite lookup_delete_eq. split; [done|by intros []].
    + rewrite lookup_delete_ne by done. rewrite <- Hlive. naive_solver.
  - injection Hd as <- <- <-. split; [done|]. intros q [= <-] Hq.
    apply find_idx_None in Hf. rewrite Forall_forall in Hf. specialize (Hf _ Hq).
    by rewrite Nat.eqb_refl in Hf.
Qed.

Lemma create_stack_wf m alloc c m' r :
  (forall p, alloc = Some p -> pm_heap m !! p = None) ->
  protocol_manager_create_stack alloc m c = (m', r) -> manager_wf m -> manager_wf m'.
Proof.
  unfold protocol_manager_create_stack. intros Hfresh Hc (Hlen & Hnd & Hlive).
  destruct c as [c|]; [|by injection Hc as <- <-].
  destruct (Z.leb_spec 32 (lenZ (pm_stacks m))); [by injection Hc as <- <-|].
  destruct alloc as [p|]; [|by injection Hc as <- <-]. specialize (Hfresh p eq_refl).
  cbn in Hc. injection Hc as <- <-. unfold manager_wf. cbn [pm_stacks pm_heap].
  assert (p ∉ pm_stacks m) as Hp by (rewrite Hlive, Hfresh; by intros []).
  split; [rewrite lenZ_app, lenZ_cons, lenZ_nil; lia|]. split.
  - apply NoDup_app. split; [done|]. split; [|apply NoDup_singleton].
    by intros q Hq ->%list_elem_of_singleton.
  - intros q. rewrite elem_of_app, list_elem_of_singleton, lookup_insert_is_Some, Hlive.
    destruct (decide (p = q)); naive_solver.
Qed.

Lemma manager_reachable_wf m : manager_reachable m -> manager_wf m.
Proof.
  induction 1 as [|m alloc c m' r _ IH Hf Hc|m p w m' w' effs _ IH Hd].
  - split; [done|]. split; [apply NoDup_nil_2|]. intros p. cbn. rewrite lookup_empty.
    split; [by intros ?%not_elem_of_nil|by intros []].
  - by eapply create_stack_wf.
  - by eapply destroy_stack_wf.
Qed.
End manager.

(** The manager never holds a dangling or duplicate handle.  In every
    reachable manager there are at most 32 handles, all different, and they
    are exactly the stacks that are alive; destroying a managed stack removes
    that handle and no other one, and kills that stack and no other one. *)
Theorem manager_handles {W} `{AiryString} (m : @protocol_manager_s W) p w m' w' effs :
  manager_reachable m -> p ∈ pm_stacks m ->
  protocol_manager_destroy_stack m (Some p) w = (m', w', effs) ->
  lenZ (pm_stacks m) <= 32 /\ NoDup (pm_stacks m) /\
  (forall q, q ∈ pm_stacks m <-> is_Some (pm_heap m !! q)) /\
  pm_stacks m ≡ₚ p :: pm_stacks m' /\
  (forall q, q ∈ pm_stacks m' <-> is_Some (pm_heap m' !! q)) /\
  pm_heap m' = delete p (pm_heap m).
Proof.
  intros Hr Hp Hd. pose proof (manager_reachable_wf m Hr) as Hwf.
  destruct (destroy_stack_wf m _ w m' w' effs Hd Hwf) as [(_ & _ & Hlive') Hperm].
  destruct Hwf as (Hlen & Hnd & Hlive). do 3 (split; [done|]). split; [by apply Hperm|].
  split; [done|]. revert Hd. cbn. destruct (find_idx (Nat.eqb p) (pm_stacks m)) eqn:Hf.
  - destruct (protocol_stack_destroy _ w). by intros [= <- _ _].
  - apply find_idx_None in Hf. rewrite Forall_forall in Hf. specialize (Hf _ Hp).
    by rewrite Nat.eqb_refl in Hf.
Qed.

Definition empty_stack : @protocol_stack_s unit :=
  mkStack sample_config [] 0 true false 0 0 0 0.
Definition sample_manager : @protocol_manager_s unit :=
  mkManager [7%nat; 3%nat] (<[3%nat := empty_stack]> (<[7%nat := empty_stack]> ∅)).

Lemma sample_manager_reachable : @manager_reachable unit inst_string sample_manager.
Proof.
  apply (mreach_stack (mkManager [7%nat] (<[7%nat := empty_stack]> ∅)) (Some 3%nat)
           (Some sample_config) _ (Some 3%nat)); [|by intros ? [= <-]|done].
  apply (mreach_stack protocol_manager_create (Some 7%nat) (Some sample_config) _ (Some 7%nat));
    [|by intros ? [= <-]|done].
  apply mreach_create.
Qed.

Lemma manager_handles_witness :
  let m := sample_manager in
  let m' := mkManager [3%nat] (delete 7%nat (pm_heap m)) in
  lenZ (pm_stacks m) <= 32 /\ NoDup (pm_stacks m) /\
  (forall q, q ∈ pm_stacks m <-> is_Some (pm_heap m !! q)) /\
  pm_stacks m ≡ₚ 7%nat :: pm_stacks m' /\
  (forall q, q ∈ pm_stacks m' <-> is_Some (pm_heap m' !! q)) /\
  pm_heap m' = delete 7%nat (pm_heap m).
Proof.
  apply (@manager_handles unit inst_string sample_manager 7%nat tt _ tt []);
    [apply sample_manager_reachable | apply list_elem_of_here | reflexivity].
Defined.

(** ** Adapters that need a context

    What an adapter whose callbacks reject a null context promises to a stack:
    no state changes, an error code comes back, no buffer is handed out. *)

Class NeedsContext {W} `{AiryErr} (a : @protocol_adapter_t W) := {
  nc_init w : exists rc, run_opt (pa_init a) None w = (w, rc) /\ rc <> 0;
  nc_encode : exists enc, pa_encode a = Some enc /\
    forall m w, exists rc, enc None m w = (w, (rc, None, 0)) /\ rc <> 0
}.

(** A stack whose nodes carry no context, as every stack built by registering
    adapters is. *)
Definition null_contexts {W} (s : @protocol_stack_s W) : Prop :=
  Forall (fun n => an_context n = None) (ss_adapters s).

(** Every message of protocol [type] is refused, and nothing happens. *)
Definition send_refused {W} `{AiryErr} (type : airy_protocol_type_t) (s : @protocol_stack_s W) w :=
  forall m pp, um_protocol m = type ->
  exists rc, protocol_stack_send (Some s) (Some m) pp w = (rc, Some s, w, []) /\ rc <> 0.

Section needs_context.
Context {W : Type} `{AiryErr}.
Implicit Types (s : @protocol_stack_s W) (a : @protocol_adapter_t W).

Lemma send_without_adapter type s w :
  find_adapter_node s type = None -> send_refused type s w.
Proof.
  intros Hf m pp Hm. unfold protocol_stack_send.
  destruct (Z.eqb_spec (validate_message (Some m)) 0) as [_|Hv]; cbn [negb]; [|eauto].
  rewrite Hm, Hf. eexists. split; [done|]. errlia.
Qed.

Lemma send_without_context type s a w i `{!NeedsContext a} :
  find_adapter_node s type = Some i -> ss_adapters s !! i = Some (mkNode a None) ->
  send_refused type s w.
Proof.
  intros Hf Hi m pp Hm. unfold protocol_stack_send.
  destruct (Z.eqb_spec (validate_message (Some m)) 0) as [_|Hv]; cbn [negb]; [|eauto].
  rewrite Hm, Hf. cbn [mbind option_bind]. rewrite Hi. unfold encode_message. cbn [an_adapter an_context].
  destruct nc_encode as (enc & -> & Henc). destruct (Henc m w) as (rc & -> & Hrc).
  rewrite (proj2 (Z.eqb_neq _ _)) by exact Hrc. by exists rc.
Qed.

(** The stack side: such an adapter is never added to a stack, and when it
    replaces another it does not work. *)
Lemma needs_context_unusable a alloc s s' w w' rc `{!NeedsContext a} :
  null_contexts s ->
  protocol_stack_register_adapter alloc (Some s) a w = (rc, Some s', w') ->
  (find_adapter_node s (pa_type a) = None -> rc <> 0 /\ s' = s /\ w' = w) /\
  null_contexts s' /\ send_refused (pa_type a) s' w'.
Proof.
  intros Hnull. unfold protocol_stack_register_adapter.
  destruct (find_adapter_node s (pa_type a)) as [i|] eqn:Hf.
  - destruct (lookup_lt_is_Some_2 (ss_adapters s) i (find_idx_lt _ _ _ Hf)) as [n Hi].
    eapply Forall_lookup_1 in Hnull as Hc; [|exact Hi]. rewrite Hi, Hc.
    intros [[_ [= <-]]%pair_equal_spec _]%pair_equal_spec. split; [done|].
    set (node := mkNode a None).
    split; [by apply Forall_insert|]. apply (send_without_context _ _ a _ i).
    + unfold find_adapter_node in *. cbn. by rewrite (find_idx_insert _ _ _ _ Hf) by apply Z.eqb_refl.
    + cbn. by rewrite list_lookup_insert_eq by (by eapply lookup_lt_Some).
  - destruct (nc_init w) as (r & Hr & Hne). rewrite Hr, (proj2 (Z.eqb_neq _ _)) by exact Hne.
    destruct alloc; cbn [negb]; intros [[<- [= <-]]%pair_equal_spec <-]%pair_equal_spec;
      (split; [intros _; split; [first [exact Hne|errlia]|done]|];
       split; [exact Hnull|by apply send_without_adapter]).
Qed.
End needs_context.
