(* ===== verification/StackMem.v ===== *)
(** * Memory of protocol stacks: common/src/unified_protocol.c

    A stack over the heap of [Heap]: its block, and for each adapter a node and
    a copy of the adapter's table, each in a block of its own.  Erasing the
    blocks gives the stacks of [Stack].  What adapters do in their callbacks is
    in the world [W]; they do not touch the blocks of the stack. *)

From S2P Require Export Heap Stack.
From S2P Require Import EnvInst.
#[local] Open Scope Z_scope.

(** ** Stacks in memory *)

(** The block of the custom configuration. *)
Definition custom_block (c : protocol_stack_config_t) : option addr := sc_custom_config c.

Section stack_h.
Context {W : Type}.

(** [protocol_adapter_node_t]: its block and that of the adapter's table. *)
Record node_h := mkNodeH {
  nh_block : addr;
  nh_table : addr;
  nh_node : @adapter_node W
}.

(** The nodes are kept beside the other fields. *)
Record stack_h := mkStackH {
  sk_block : addr;
  sk_fields : @protocol_stack_s W;
  sk_nodes : list node_h
}.

Definition erase_stack (s : stack_h) : @protocol_stack_s W :=
  (sk_fields s) <| ss_adapters := nh_node <$> sk_nodes s |>.

#[global] Instance own_node : Owns node_h := fun n => own (nh_table n) ⊎ own (nh_block n).

(** A stack owns the custom configuration it was given. *)
#[global] Instance own_stack : Owns stack_h := fun s =>
  own (sk_nodes s) ⊎ (own (custom_block (ss_config (sk_fields s))) ⊎ own (sk_block s)).

(** The copy of the name goes through a buffer of its own. *)
Definition stack_create_mem `{AiryString} (config : option protocol_stack_config_t)
    : mem (option stack_h) :=
  match config with
  | None => mret None
  | Some c =>
      stack ← malloc;
      match stack with
      | None => mret None
      | Some p =>
          name_copy ← malloc;
          _ ← free name_copy;
          let name := match name_copy with
                      | Some _ => take 127 (AIRY_STRNCPY_TERM (sc_name c) 128)
                      | None => sc_name c
                      end in
          mret (Some (mkStackH p
            (mkStack (mkStackConfig name (sc_max_adapters c) (sc_enable_logging c)
                        (sc_default_protocol c) (sc_max_message_size c) (sc_timeout_ms c)
                        (sc_enable_compression c) (sc_enable_encryption c) (sc_custom_config c))
               [] 0 true false 0 0 0 0) []))
      end
  end.

(** The table is released only if it has a [destroy] entry. *)
Definition destroy_node_mem (n : node_h) (w : W) : mem W :=
  match pa_destroy (an_adapter (nh_node n)) with
  | Some f =>
      let w := fst (f (an_context (nh_node n)) w) in
      _ ← free (Some (nh_table n));
      _ ← free (Some (nh_block n));
      mret w
  | None => _ ← free (Some (nh_block n)); mret w
  end.

Fixpoint destroy_nodes_mem (nodes : list node_h) (w : W) : mem W :=
  match nodes with
  | [] => mret w
  | n :: r => w ← destroy_node_mem n w; destroy_nodes_mem r w
  end.

Definition stack_destroy_mem (handle : option stack_h) (w : W) : mem W :=
  match handle with
  | None => mret w
  | Some s =>
      w ← destroy_nodes_mem (sk_nodes s) w;
      _ ← free (custom_block (ss_config (sk_fields s)));
      _ ← free (Some (sk_block s));
      mret w
  end.

Definition register_adapter_mem `{AiryErr} (s : stack_h) (adapter : @protocol_adapter_t W) (w : W)
    : mem (Z * stack_h * W) :=
  match i ← find_adapter_node (erase_stack s) (pa_type adapter); n ← sk_nodes s !! i; Some (i, n) with
  | Some (i, n) =>
      let ctx := an_context (nh_node n) in
      let w := fst (run_opt (pa_destroy (an_adapter (nh_node n))) ctx w) in
      let n := mkNodeH (nh_block n) (nh_table n) (mkNode adapter ctx) in
      let w := fst (run_opt (pa_init adapter) ctx w) in
      mret (0, mkStackH (sk_block s) (sk_fields s) (<[i := n]> (sk_nodes s)), w)
  | None =>
      node ← malloc;
      match node with
      | None => mret (AIRY_ERR_OUT_OF_MEMORY, s, w)
      | Some node =>
          table ← malloc;
          match table with
          | None => _ ← free (Some node); mret (AIRY_ERR_OUT_OF_MEMORY, s, w)
          | Some table =>
              let '(w, result) := run_opt (pa_init adapter) None w in
              if negb (result =? 0)
              then _ ← free (Some table); _ ← free (Some node); mret (result, s, w)
              else
                mret (0, mkStackH (sk_block s)
                           ((sk_fields s) <| ss_adapter_count ::= Z.add 1 |>)
                           (mkNodeH node table (mkNode adapter None) :: sk_nodes s), w)
          end
      end
  end.
End stack_h.
Arguments node_h : clear implicits.
Arguments stack_h : clear implicits.

(** ** What each operation owns *)

Section stack_mem_spec.
Context `{Grants} {W : Type} `{AiryErr} `{AiryString}.
Implicit Types (s : stack_h W) (n : node_h W) (a : @protocol_adapter_t W).

Lemma own_stack_eq s :
  own s = own (sk_nodes s) ⊎ (own (custom_block (ss_config (sk_fields s))) ⊎ own (sk_block s)).
Proof. done. Qed.

Lemma own_node_eq n : own n = own (nh_table n) ⊎ own (nh_block n).
Proof. done. Qed.

(** A new stack owns its block; the custom configuration is only pointed to. *)
Definition new_stack (c : protocol_stack_config_t) (s : stack_h W) : Prop :=
  sk_nodes s = [] /\ custom_block (ss_config (sk_fields s)) = custom_block c /\
  (grants -> protocol_stack_create true (Some c) = Some (erase_stack s)).

Lemma own_new_stack c s : new_stack c s -> own s = own (sk_block s) ⊎ own (custom_block c).
Proof. intros (Hn & Hc & _). rewrite own_stack_eq, Hn, Hc. blocks. Qed.

Lemma spec_stack_shell c :
  spec (stack_create_mem (W:=W) (Some c)) ∅ (fun r Y =>
    match r with
    | Some s => Y = own (sk_block s) /\ new_stack c s
    | None => Y = ∅ /\ ~ grants
    end).
Proof.
  cbn [stack_create_mem]. eapply spec_new; [apply spec_malloc|]. intros [p|] Hp.
  2:{ apply spec_ret. split; [done|]. intros Hg. by destruct (Hp Hg). }
  eapply spec_new; [apply spec_malloc|]. intros q Hq.
  eapply (spec_destroy free q); [reflexivity|]. apply spec_ret.
  split; [change (own p ⊎ ∅ = own p); multiset_solver|].
  split; [done|]. split; [done|]. intros Hg. destruct (Hq Hg) as [x ->]. done.
Qed.

Lemma spec_stack_create c :
  spec (stack_create_mem (W:=W) (Some c)) (own (custom_block c)) (fun r Y =>
    match r with
    | Some s => Y = own s /\ new_stack c s
    | None => Y = own (custom_block c) /\ ~ grants
    end).
Proof.
  eapply spec_conseq; [apply (spec_frame _ ∅ (own (custom_block c))), spec_stack_shell| |].
  - symmetry. apply (left_id_L ∅ (⊎)).
  - intros [s|] Y (Z & -> & ->  & Hs).
    + split; [symmetry; by apply own_new_stack|done].
    + split; [apply (left_id_L ∅ (⊎))|done].
Qed.

(** The tables that destroying the nodes leaves behind. *)
Definition kept_tables (nodes : list (node_h W)) : list addr :=
  nh_table <$> filter (fun n => pa_destroy (an_adapter (nh_node n)) = None) nodes.

Lemma spec_destroy_nodes nodes w :
  spec (destroy_nodes_mem nodes w) (own nodes) (fun w' Y =>
    Y = own (kept_tables nodes) /\ w' = destroy_nodes (nh_node <$> nodes) w).
Proof.
  revert w. induction nodes as [|n r IH]; intros w; cbn [destroy_nodes_mem]; [by apply spec_ret|].
  unfold destroy_node_mem, kept_tables. rewrite own_cons, own_node_eq. cbn [fmap list_fmap destroy_nodes].
  destruct (pa_destroy (an_adapter (nh_node n))) as [f|] eqn:Hd.
  - rewrite filter_cons_False by (by rewrite Hd).
    eapply (spec_bind _ _ _ (fun w' Y => w' = fst (f (an_context (nh_node n)) w) /\ Y = own r)).
    + eapply (spec_destroy free (Some (nh_table n)) _ _ (own (nh_block n) ⊎ own r)); [blocks|].
      eapply (spec_destroy free (Some (nh_block n))); [reflexivity|]. by apply spec_ret.
    + intros w' Y [-> ->]. apply IH.
  - rewrite filter_cons_True by done.
    eapply (spec_bind _ _ _ (fun w' Y => w' = w /\ Y = own r ⊎ own (nh_table n))).
    + eapply (spec_destroy free (Some (nh_block n)) _ _ (own r ⊎ own (nh_table n))); [blocks|]. by apply spec_ret.
    + intros w' Y [-> ->]. eapply spec_conseq; [apply spec_frame, IH|done|].
      intros w' Y (Z & -> & -> & ->). split; [|done]. unfold kept_tables. cbn. blocks.
Qed.

Lemma spec_stack_destroy s w :
  spec (stack_destroy_mem (Some s) w) (own s) (fun w' Y =>
    Y = own (kept_tables (sk_nodes s)) /\ w' = (protocol_stack_destroy (Some (erase_stack s)) w).1).
Proof.
  cbn [stack_destroy_mem]. eapply spec_step; [apply spec_destroy_nodes|apply own_stack_eq|].
  intros w' Z [-> ->].
  eapply (spec_destroy free (custom_block (ss_config (sk_fields s))) _ _
            (own (kept_tables (sk_nodes s)) ⊎ own (sk_block s))); [multiset_solver|].
  eapply (spec_destroy free (Some (sk_block s)) _ _ (own (kept_tables (sk_nodes s)))); [blocks|].
  by apply spec_ret.
Qed.

(** The configuration and the block never change. *)
Definition same_shell s s' : Prop :=
  sk_block s' = sk_block s /\ ss_config (sk_fields s') = ss_config (sk_fields s).

Lemma spec_register_adapter s a w :
  spec (register_adapter_mem s a w) (own s) (fun r Y =>
    Y = own r.1.2 /\
    (grants -> protocol_stack_register_adapter true (Some (erase_stack s)) a w =
               (r.1.1, Some (erase_stack r.1.2), r.2)) /\
    (forall P : protocol_adapter_t -> Prop, P a ->
       Forall (fun n => P (an_adapter (nh_node n))) (sk_nodes s) ->
       Forall (fun n => P (an_adapter (nh_node n))) (sk_nodes r.1.2))).
Proof.
  unfold register_adapter_mem, protocol_stack_register_adapter.
  destruct (find_adapter_node (erase_stack s) (pa_type a)) as [i|] eqn:Hi; cbn [mbind option_bind].
  - assert (exists n, sk_nodes s !! i = Some n) as [n Hn].
    { apply find_idx_Some in Hi as [(x & Hx & _) _]. cbn in Hx. rewrite list_lookup_fmap in Hx.
      apply fmap_Some in Hx as (n & Hn & _). by exists n. }
    rewrite Hn. cbn [mbind option_bind]. cbn [erase_stack ss_adapters upd]. cbn [ss_adapters].
    rewrite list_lookup_fmap, Hn. cbn [fmap option_fmap option_map].
    apply spec_ret. destruct (own_insert _ _ _ Hn) as (R & HR & Hins). split; [|split].
    + rewrite !own_stack_eq. cbn [fst snd sk_nodes sk_fields sk_block]. rewrite Hins, HR.
      rewrite !own_node_eq. done.
    + intros _. unfold erase_stack. cbn. by rewrite list_fmap_insert.
    + intros P Ha Hs. cbn. by apply Forall_insert.
  - eapply spec_new; [apply spec_malloc|]. intros [node|] Hno.
    2:{ apply spec_ret. split; [apply (left_id_L ∅ (⊎))|]. split; [|done]. intros Hg. by destruct (Hno Hg). }
    eapply spec_new; [apply spec_malloc|]. intros [table|] Hta.
    2:{ eapply (spec_destroy free (Some node) _ _ (own s)); [blocks|]. apply spec_ret. split; [done|].
        split; [|done]. intros Hg. by destruct (Hta Hg). }
    cbn [negb]. destruct (run_opt (pa_init a) None w) as [w' rc]. destruct (Z.eqb_spec rc 0) as [->|Hrc]; cbn [negb].
    + apply spec_ret. split; [|split].
      * rewrite !own_stack_eq. cbn [fst snd sk_nodes sk_fields sk_block]. rewrite own_cons, own_node_eq. cbn. blocks.
      * done.
      * intros P Ha Hs. by constructor.
    + eapply (spec_destroy free (Some table)); [reflexivity|].
      eapply (spec_destroy free (Some node)); [reflexivity|]. by apply spec_ret.
Qed.
End stack_mem_spec.

(** ** A life of a stack *)

Section stack_life.
Context {W : Type} `{AiryErr} `{AiryString}.

Fixpoint register_list_mem (l : list (@protocol_adapter_t W)) (s : stack_h W) (w : W)
    : mem (list Z * stack_h W * W) :=
  match l with
  | [] => mret ([], s, w)
  | a :: r =>
      '(rc, s, w) ← register_adapter_mem s a w;
      '(rcs, s, w) ← register_list_mem r s w;
      mret (rc :: rcs, s, w)
  end.

(** Creating a stack, registering adapters and destroying it; null when the
    stack could not be created. *)
Definition stack_life (c : protocol_stack_config_t) (l : list (@protocol_adapter_t W)) (w : W)
    : mem (option (list Z) * W) :=
  stack ← stack_create_mem (Some c);
  match stack with
  | None => mret (None, w)
  | Some s =>
      '(rcs, s, w) ← register_list_mem l s w;
      w ← stack_destroy_mem (Some s) w;
      mret (Some rcs, w)
  end.

(** The same on values: the codes, the stack before it is destroyed, and the
    world after it. *)
Fixpoint register_list (l : list (@protocol_adapter_t W)) (s : @protocol_stack_s W) (w : W)
    : list Z * @protocol_stack_s W * W :=
  match l with
  | [] => ([], s, w)
  | a :: r =>
      let '(rc, s', w) := protocol_stack_register_adapter true (Some s) a w in
      let '(rcs, s, w) := register_list r (default s s') w in
      (rc :: rcs, s, w)
  end.

Definition stack_value_life (c : protocol_stack_config_t) (l : list (@protocol_adapter_t W)) (w : W)
    : option (list Z * @protocol_stack_s W * W) :=
  s ← protocol_stack_create true (Some c);
  let '(rcs, s, w) := register_list l s w in
  Some (rcs, s, (protocol_stack_destroy (Some s) w).1).

(** The adapters whose table has no [destroy] entry. *)
Definition without_destroy (s : @protocol_stack_s W) : list (@adapter_node W) :=
  filter (fun n => pa_destroy (an_adapter n) = None) (ss_adapters s).
End stack_life.

Section stack_life_spec.
Context `{Grants} {W : Type} `{AiryErr} `{AiryString}.

Lemma spec_register_list l (s : stack_h W) w :
  spec (register_list_mem l s w) (own s) (fun r Y =>
    Y = own r.1.2 /\
    (grants -> register_list l (erase_stack s) w = (r.1.1, erase_stack r.1.2, r.2)) /\
    (forall P : protocol_adapter_t -> Prop, Forall P l ->
       Forall (fun n => P (an_adapter (nh_node n))) (sk_nodes s) ->
       Forall (fun n => P (an_adapter (nh_node n))) (sk_nodes r.1.2))).
Proof.
  revert s w. induction l as [|a l IH]; intros s w; cbn [register_list_mem]; [by apply spec_ret|].
  eapply spec_bind; [apply spec_register_adapter|]. intros [[rc s1] w1] Y (-> & Hv1 & HP1).
  cbn [fst snd] in *. eapply spec_bind; [apply IH|]. intros [[rcs s2] w2] Y (-> & Hv2 & HP2).
  cbn [fst snd] in *. apply spec_ret. cbn [fst snd]. split; [done|]. split.
  - intros Hg. cbn [register_list]. rewrite (Hv1 Hg). cbn [default from_option Datatypes.id].
    by rewrite (Hv2 Hg).
  - intros P [Ha Hl]%Forall_cons Hs. auto.
Qed.

Lemma kept_tables_length (s : stack_h W) :
  length (kept_tables (sk_nodes s)) = length (without_destroy (erase_stack s)).
Proof.
  unfold kept_tables, without_destroy, erase_stack. rewrite length_fmap. cbn.
  induction (sk_nodes s) as [|n r IH]; [done|]. cbn [fmap list_fmap].
  rewrite !filter_cons. case_decide; cbn [length]; by rewrite IH.
Qed.

Lemma kept_tables_none (nodes : list (node_h W)) :
  Forall (fun n => is_Some (pa_destroy (an_adapter (nh_node n)))) nodes -> kept_tables nodes = [].
Proof.
  intros Hn. unfold kept_tables. induction Hn as [|n r [f Hf] Hr IH]; [done|].
  by rewrite filter_cons_False by (by rewrite Hf).
Qed.

Lemma spec_stack_life c l w :
  spec (stack_life (W:=W) c l w) (own (custom_block c)) (fun r Y =>
    match r.1 with
    | Some rcs => exists leaked : list addr, Y = own leaked /\
        (Forall (fun a => is_Some (pa_destroy a)) l -> leaked = []) /\
        (grants -> exists s, stack_value_life c l w = Some (rcs, s, r.2) /\
                   length leaked = length (without_destroy s))
    | None => Y = own (custom_block c) /\ ~ grants
    end).
Proof.
  unfold stack_life. eapply spec_bind; [apply spec_stack_create|]. intros [s|] Y HY; [|by apply spec_ret].
  destruct HY as (-> & Hnil & _ & Hc).
  eapply spec_bind; [apply spec_register_list|]. intros [[rcs s'] w'] Y (-> & Hv & HP). cbn [fst snd] in *.
  eapply spec_bind; [apply spec_stack_destroy|]. intros w2 Y [-> ->]. apply spec_ret. cbn [fst snd].
  exists (kept_tables (sk_nodes s')). split; [done|]. split.
  - intros Hl. apply kept_tables_none, (HP (fun a => is_Some (pa_destroy a))); [done|].
    rewrite Hnil. constructor.
  - intros Hg. exists (erase_stack s'). unfold stack_value_life. rewrite (Hc Hg). cbn [mbind option_bind].
    rewrite (Hv Hg). split; [done|]. apply kept_tables_length.
Qed.
End stack_life_spec.

(** C16. A stack and its memory.  Create a stack, register any adapters and
    destroy it, whatever requests for memory are refused: nothing faults, and
    what the caller had stays live, except the custom configuration, which the
    stack releases.  Left over are the tables of the registered adapters that
    have no [destroy] entry, and nothing else: when every adapter has one, the
    stack leaks nothing.  If the stack could not be created the heap is
    unchanged.  With memory for every request the codes and the world are those
    of the operations on values, and one block is left for each adapter without
    [destroy] the stack held at the end. *)
Theorem stack_memory_exact {W} `{AiryErr} `{AiryString} (c : protocol_stack_config_t)
    (l : list (@protocol_adapter_t W)) w h F :
  heap_wf h -> hp_live h = own (custom_block c) ⊎ F ->
  exists r w' h', stack_life c l w h = Done (r, w', h') /\
    match r with
    | Some rcs => exists leaked : list addr, hp_live h' = own leaked ⊎ F /\
        (Forall (fun a => is_Some (pa_destroy a)) l -> leaked = []) /\
        ((forall p, hp_oracle h p = true) -> exists s,
           stack_value_life c l w = Some (rcs, s, w') /\
           length leaked = length (without_destroy s))
    | None => hp_live h' = hp_live h /\ ~ (forall p, hp_oracle h p = true)
    end.
Proof.
  intros Hwf Hl.
  destruct (spec_stack_life (H:=forall p, hp_oracle h p = true) c l w F h)
    as ([r w'] & h' & Y & Hr & _ & Hl' & HQ); [split; [done|by intros HG]|done|].
  exists r, w', h'. split; [done|]. cbn [fst snd] in HQ. destruct r as [rcs|].
  - destruct HQ as (leaked & -> & HQ). by exists leaked.
  - destruct HQ as [-> Hn]. by rewrite Hl'.
Qed.

Definition bare_adapter : @protocol_adapter_t unit := adapter_zero AIRY_PROTOCOL_MCP.

Lemma stack_memory_exact_witness :
  let h := mkHeap {[+ 0%nat +]} 1 (fun _ => true) in
  let c := mkStackConfig "s"%cs 0 false PROTOCOL_HTTP 65536 30000 false false (Some 0%nat) in
  exists r w' h', @stack_life unit inst_err inst_string c [bare_adapter] tt h = Done (r, w', h') /\
    match r with
    | Some rcs => exists leaked : list addr, hp_live h' = own leaked ⊎ ∅ /\
        (Forall (fun a => is_Some (pa_destroy a)) [bare_adapter] -> leaked = []) /\
        ((forall p, hp_oracle h p = true) -> exists s,
           @stack_value_life unit inst_err inst_string c [bare_adapter] tt = Some (rcs, s, w') /\
           length leaked = length (without_destroy s))
    | None => hp_live h' = hp_live h /\ ~ (forall p, hp_oracle h p = true)
    end.
Proof.
  intros h c. apply (@stack_memory_exact unit inst_err inst_string c [bare_adapter] tt h ∅).
  - apply heap_wf_spec. intros p. cbn [hp_live hp_next h].
    destruct (decide (p = 0%nat)) as [->|Hne].
    + right. rewrite multiplicity_singleton_eq. lia.
    + left. by rewrite multiplicity_singleton_ne.
  - symmetry. apply (right_id_L ∅ (⊎)).
Defined.

(** Two stacks made from one configuration. *)
Definition two_stacks {W} `{AiryString} (c : protocol_stack_config_t) (w : W) : mem W :=
  first ← stack_create_mem (Some c);
  second ← stack_create_mem (Some c);
  w ← stack_destroy_mem first w;
  stack_destroy_mem second w.

(** A custom configuration belongs to one stack.  Creating two stacks from
    a configuration that has one and destroying both releases its block twice,
    because a stack takes the pointer over without copying what it points to. *)
Theorem shared_config_double_free {W} `{AiryString} (c : protocol_stack_config_t) p (w : W) h F :
  sc_custom_config c = Some p -> heap_wf h -> (forall q, hp_oracle h q = true) ->
  hp_live h = {[+ p +]} ⊎ F -> two_stacks c w h = Fault.
Proof.
  intros Hc Hwf Hg Hl. set (G := True : Grants).
  assert (heap_ok (H:=G) h) as Hok by by split.
  destruct (spec_stack_shell (H:=G) (W:=W) c (hp_live h) h Hok)
    as ([s1|] & h1 & Y1 & Hr1 & Hok1 & Hl1 & HQ1); [symmetry; apply (left_id_L ∅ (⊎))| |by destruct HQ1 as [_ []]].
  destruct HQ1 as [-> Hs1].
  destruct (spec_stack_shell (H:=G) (W:=W) c (hp_live h1) h1 Hok1)
    as ([s2|] & h2 & Y2 & Hr2 & Hok2 & Hl2 & HQ2); [symmetry; apply (left_id_L ∅ (⊎))| |by destruct HQ2 as [_ []]].
  destruct HQ2 as [-> Hs2]. assert (own (custom_block c) = {[+ p +]}) as Hp by (unfold custom_block; by rewrite Hc).
  destruct (spec_stack_destroy (H:=G) s1 w (own (sk_block s2) ⊎ F) h2 Hok2)
    as (w' & h3 & Y3 & Hr3 & [Hwf3 _] & Hl3 & -> & _).
  { rewrite Hl2, Hl1, Hl, (own_new_stack (H:=G) c s1 Hs1), Hp. multiset_solver. }
  destruct Hs1 as (Hn1 & _). rewrite Hn1 in Hl3.
  assert (p ∉ hp_live h3) as Hnot.
  { rewrite Hl3, elem_of_multiplicity, !multiplicity_disj_union.
    assert (multiplicity p (hp_live h2) <= 1)%nat as Hm by (apply Hok2).
    rewrite Hl2, Hl1, Hl, !multiplicity_disj_union, multiplicity_singleton_eq in Hm.
    change (own (kept_tables (W:=W) [])) with (∅ : gmultiset addr). rewrite multiplicity_empty. lia. }
  unfold two_stacks.
  rewrite (mem_bind_done _ _ _ _ _ Hr1), (mem_bind_done _ _ _ _ _ Hr2), (mem_bind_done _ _ _ _ _ Hr3).
  destruct Hs2 as (Hn2 & Hc2 & _). unfold stack_destroy_mem. rewrite Hn2, Hc2. unfold custom_block.
  rewrite Hc. cbn [destroy_nodes_mem]. unfold mbind, mem_bind, mret, mem_ret. cbn [mbind outcome_bind free].
  by rewrite decide_False.
Qed.

Lemma shared_config_double_free_witness :
  let c := mkStackConfig "s"%cs 0 false PROTOCOL_HTTP 65536 30000 false false (Some 0%nat) in
  @two_stacks unit inst_string c tt (mkHeap {[+ 0%nat +]} 1 (fun _ => true)) = Fault.
Proof.
  intros c. apply (@shared_config_double_free unit inst_string c 0%nat tt _ ∅).
  - reflexivity.
  - apply heap_wf_spec. intros p. cbn [hp_live hp_next].
    destruct (decide (p = 0%nat)) as [->|Hne].
    + right. rewrite multiplicity_singleton_eq. lia.
    + left. by rewrite multiplicity_singleton_ne.
  - reflexivity.
  - symmetry. apply (right_id_L ∅ (⊎)).
Defined.
