(* ===== verification/Framework.v ===== *)
(** * The framework around stacks: common/src/protocols_impl.c

    The static state of the file: whether the framework is initialised, the
    HTTP adapter, which is a table without callbacks, the last error. *)

From S2P Require Export Stack.
From S2P Require Import EnvInst.
From stdpp Require Import gmap.
#[local] Open Scope Z_scope.

Section framework.
Context {W : Type}.

Record framework := mkFramework {
  fw_last_error : bytes;
  fw_initialized : bool;
  fw_http_adapter : @protocol_adapter_t W;
  fw_adapters_init : bool
}.

#[global] Instance eta_framework : Eta framework := fun f =>
  mkFramework (fw_last_error f) (fw_initialized f) (fw_http_adapter f) (fw_adapters_init f).

(** The state when the program starts. *)
Definition framework_boot : framework := mkFramework [] false (adapter_zero 0) false.

Definition protocols_framework_init (f : framework) : framework * Z :=
  if fw_initialized f then (f, 0) else (f <| fw_initialized := true |>, 0).

Definition protocols_framework_cleanup (f : framework) : framework := f <| fw_initialized := false |>.

Definition protocols_framework_version : bytes := "1.0.0"%cs.

Definition init_static_adapters (f : framework) : framework :=
  if fw_adapters_init f then f
  else
    let a := fw_http_adapter f in
    f <| fw_http_adapter :=
           mkAdapter PROTOCOL_HTTP "http"%cs "0.1.1"%cs "HTTP/JSON-RPC Protocol Adapter"%cs
             (pa_init a) (pa_destroy a) (pa_encode a) (pa_decode a) (pa_connect a)
             (pa_disconnect a) (pa_is_connected a) (pa_send a) (pa_receive a) (pa_context a) |>
      <| fw_adapters_init := true |>.

Definition protocol_adapter_http (f : framework) : framework * @protocol_adapter_t W :=
  let f := init_static_adapters f in (f, fw_http_adapter f).

Definition protocol_get_last_error (f : framework) : bytes :=
  match fw_last_error f with [] => "No error"%cs | e => e end.

(** The configuration is zeroed. *)
Definition protocol_stack_config_destroy (config : option protocol_stack_config_t)
    : option protocol_stack_config_t :=
  (fun _ => mkStackConfig [] 0 false 0 0 0 false false None) <$> config.

(** The states the calls of the file lead to. *)
Inductive framework_reachable : framework -> Prop :=
| fw_start : framework_reachable framework_boot
| fw_init f : framework_reachable f -> framework_reachable (protocols_framework_init f).1
| fw_cleanup f : framework_reachable f -> framework_reachable (protocols_framework_cleanup f)
| fw_http f : framework_reachable f -> framework_reachable (protocol_adapter_http f).1.

(** The table the HTTP adapter is after its initialisation. *)
Definition http_table : @protocol_adapter_t W :=
  mkAdapter PROTOCOL_HTTP "http"%cs "0.1.1"%cs "HTTP/JSON-RPC Protocol Adapter"%cs
    None None None None None None None None None None.

Lemma framework_http f :
  framework_reachable f ->
  fw_http_adapter f = (if fw_adapters_init f then http_table else adapter_zero 0).
Proof.
  induction 1 as [|f _ IH|f _ IH|f _ IH]; [done|..].
  - unfold protocols_framework_init. by destruct (fw_initialized f).
  - exact IH.
  - unfold protocol_adapter_http, init_static_adapters. destruct (fw_adapters_init f) eqn:Hi; cbn.
    + by rewrite Hi, IH.
    + by rewrite IH.
Qed.
End framework.

(** The HTTP adapter is a loop-back.  Whenever it is asked for, the adapter
    is the same table, without callbacks.  A stack without a JSON-RPC adapter
    takes it, and every valid JSON-RPC message sent from then on succeeds
    without anything leaving the process: the message is handed to the stack's
    own callback if there is one, its payload is neither copied nor freed, and
    one message and its payload's size are counted.  Nothing is ever received
    from it. *)
Theorem http_adapter_loopback {W} `{AiryErr} (f : @framework W) (s : @protocol_stack_s W) w :
  framework_reachable f -> find_adapter_node s PROTOCOL_HTTP = None ->
  let a := (protocol_adapter_http f).2 in
  a = (protocol_adapter_http framework_boot).2 /\
  exists s', protocol_stack_register_adapter true (Some s) a w = (0, Some s', w) /\
  (forall m pp w, validate_message (Some m) = 0 -> um_protocol m = PROTOCOL_HTTP ->
     protocol_stack_send (Some s') (Some m) pp w
     = (0, Some (s' <| ss_messages_sent ::= (fun n => u64 (n + 1)) |>
                    <| ss_bytes_sent ::= (fun n => u64 (n + um_payload_size m)) |>),
        w, if ss_callback s then [ECallback m] else [])) /\
  forall timeout now m w,
    receive_scan (ss_adapters s') timeout now m w = receive_scan (ss_adapters s) timeout now m w.
Proof.
  intros Hr Hf a.
  assert (a = http_table) as ->.
  { apply framework_http in Hr. subst a. unfold protocol_adapter_http, init_static_adapters. cbn [snd].
    destruct (fw_adapters_init f) eqn:Hi; [done|]. cbn. by rewrite Hr. }
  split; [done|]. unfold protocol_stack_register_adapter.
  change (pa_type http_table) with PROTOCOL_HTTP. rewrite Hf. cbn [negb].
  eexists. split; [done|]. split; [|done].
  intros m pp w1 Hv Hm. unfold protocol_stack_send. rewrite Hv. cbn [negb Z.eqb]. rewrite Hm.
  unfold find_adapter_node. cbn [find_idx ss_adapters upd an_adapter pa_type].
  cbn -[free_encoded].
  enough (forall d : option buffer, (exists p b, d = Some (p, b) /\ pp = Some p) \/ d = None ->
    free_encoded pp (fst <$> d) = []) as Hfree.
  { rewrite Hfree; [by destruct (ss_callback s)|].
    destruct pp as [p|], (um_payload m) as [b|]; eauto. }
  intros d [(p & b & -> & ->)| ->]; cbn; [by rewrite bool_decide_eq_true_2|done].
Qed.

Lemma http_adapter_loopback_witness :
  let a := (@protocol_adapter_http unit framework_boot).2 in
  exists s', @protocol_stack_register_adapter unit inst_err true (Some empty_stack) a tt
             = (0, Some s', tt) /\
    (@protocol_stack_send unit inst_err (Some s') (Some um_zero) None tt).1.1.1 = 0.
Proof.
  intros a.
  destruct (@http_adapter_loopback unit inst_err framework_boot empty_stack tt fw_start eq_refl)
    as (_ & s' & Hreg & Hsend & _).
  exists s'. split; [exact Hreg|]. by rewrite Hsend.
Defined.
