(* ===== verification/Registry.v ===== *)
(** * The protocol registry: core/registry/src/protocol_registry.c

    A table of at most 32 protocol entries, keyed by name.  The entries in use
    are a list in table order.  Time is an argument [now] of the operations
    that read the clock; the calls of the event callback are returned. *)

From stdpp Require Export gmap.
From stdpp Require Import list.
From S2P Require Export Unified Snprintf.
From S2P Require Import EnvInst Stack.

(** ** Data *)

Definition PROTO_REGISTRY_VERSION : bytes := "2.1.0"%cs.
Definition PROTO_REGISTRY_MAX_ADAPTERS : Z := 32.
Definition PROTO_REGISTRY_MAX_DEPS : Z := 16.
Definition PROTO_REGISTRY_NAME_MAX_LEN : nat := 64.
Definition PROTO_REGISTRY_DESC_MAX_LEN : nat := 256.

Inductive proto_category_t :=
| PROTO_CAT_CORE
| PROTO_CAT_STANDARD
| PROTO_CAT_INTEGRATION
| PROTO_CAT_FRAMEWORK
| PROTO_CAT_CUSTOM.

Inductive proto_state_t :=
| PROTO_STATE_UNREGISTERED
| PROTO_STATE_REGISTERED
| PROTO_STATE_INITIALIZING
| PROTO_STATE_READY
| PROTO_STATE_ACTIVE
| PROTO_STATE_DEGRADED
| PROTO_STATE_ERROR
| PROTO_STATE_SHUTDOWN.

#[export] Instance proto_category_eq_dec : EqDecision proto_category_t.
Proof. solve_decision. Defined.
#[export] Instance proto_state_eq_dec : EqDecision proto_state_t.
Proof. solve_decision. Defined.

Definition proto_category_to_string (cat : proto_category_t) : bytes :=
  match cat with
  | PROTO_CAT_CORE => "core"%cs
  | PROTO_CAT_STANDARD => "standard"%cs
  | PROTO_CAT_INTEGRATION => "integration"%cs
  | PROTO_CAT_FRAMEWORK => "framework"%cs
  | PROTO_CAT_CUSTOM => "custom"%cs
  end.

Definition proto_state_to_string (state : proto_state_t) : bytes :=
  match state with
  | PROTO_STATE_UNREGISTERED => "unregistered"%cs
  | PROTO_STATE_REGISTERED => "registered"%cs
  | PROTO_STATE_INITIALIZING => "initializing"%cs
  | PROTO_STATE_READY => "ready"%cs
  | PROTO_STATE_ACTIVE => "active"%cs
  | PROTO_STATE_DEGRADED => "degraded"%cs
  | PROTO_STATE_ERROR => "error"%cs
  | PROTO_STATE_SHUTDOWN => "shutdown"%cs
  end.

Record proto_dependency_t := mkDep {
  dep_name : bytes;
  dep_state : proto_state_t
}.

#[export] Instance eta_dep : Eta proto_dependency_t := fun d => mkDep (dep_name d) (dep_state d).

Record proto_registry_entry_t := mkEntry {
  re_name : bytes;
  re_version : bytes;
  re_description : bytes;
  re_category : proto_category_t;
  re_type : airy_protocol_type_t;
  re_capabilities : Z;
  re_state : proto_state_t;
  re_adapter : option ptr;
  re_context : option ptr;
  re_dependencies : list proto_dependency_t;
  re_registered_at : Z;
  re_activated_at : Z;
  re_last_heartbeat : Z;
  re_request_count : Z;
  re_error_count : Z;
  re_avg_latency_ms : double;
  re_is_builtin : bool
}.

#[export] Instance eta_entry : Eta proto_registry_entry_t := fun e =>
  mkEntry (re_name e) (re_version e) (re_description e) (re_category e) (re_type e)
    (re_capabilities e) (re_state e) (re_adapter e) (re_context e) (re_dependencies e)
    (re_registered_at e) (re_activated_at e) (re_last_heartbeat e) (re_request_count e)
    (re_error_count e) (re_avg_latency_ms e) (re_is_builtin e).

Record protocol_registry_t := mkRegistry {
  reg_entries : list proto_registry_entry_t;
  reg_event_callback : bool;
  reg_initialized : bool
}.

#[export] Instance eta_registry : Eta protocol_registry_t := fun r =>
  mkRegistry (reg_entries r) (reg_event_callback r) (reg_initialized r).

(** A call of the event callback. *)
Record reg_event := mkEvent {
  ev_name : bytes;
  ev_entry : bytes;
  ev_old : proto_state_t;
  ev_new : proto_state_t
}.

Definition emit (r : protocol_registry_t) (e : reg_event) : list reg_event :=
  if reg_event_callback r then [e] else [].

(** ** Registration *)

Definition proto_registry_create (alloc : bool) : option protocol_registry_t :=
  if alloc then Some (mkRegistry [] false true) else None.

(** [strncmp(entry.name, name, PROTO_REGISTRY_NAME_MAX_LEN - 1) == 0] *)
Definition name_match (name : bytes) (e : proto_registry_entry_t) : bool :=
  strneq (PROTO_REGISTRY_NAME_MAX_LEN - 1) (re_name e) name.

Definition find_name (r : protocol_registry_t) (name : bytes) : option nat :=
  find_idx (name_match name) (reg_entries r).

Definition new_entry (now : Z) (name : bytes) (version description : option bytes)
    (category : proto_category_t) (type : airy_protocol_type_t) (capabilities : Z)
    (adapter context : option ptr) : proto_registry_entry_t :=
  mkEntry (fits PROTO_REGISTRY_NAME_MAX_LEN name)
    (fits 32 (default "1.0.0"%cs version))
    match description with Some d => fits PROTO_REGISTRY_DESC_MAX_LEN d | None => [] end
    category type capabilities PROTO_STATE_REGISTERED adapter context [] (u64 now) 0 0 0 0
    f64_zero false.

Definition proto_registry_register `{AiryErr} (now : Z) (registry : option protocol_registry_t)
    (name version description : option bytes) (category : proto_category_t)
    (type : airy_protocol_type_t) (capabilities : Z) (adapter context : option ptr)
    : Z * option protocol_registry_t * list reg_event :=
  match registry, name with
  | Some r, Some n =>
      if PROTO_REGISTRY_MAX_ADAPTERS <=? lenZ (reg_entries r)
      then (AIRY_ERR_OVERFLOW, registry, [])
      else if bool_decide (is_Some (find_name r n)) then (AIRY_ERR_NULL_POINTER, registry, [])
      else
        let e := new_entry now n version description category type capabilities adapter context in
        (0, Some (r <| reg_entries ::= (fun l => l ++ [e]) |>),
         emit r (mkEvent "register"%cs n PROTO_STATE_UNREGISTERED PROTO_STATE_REGISTERED))
  | _, _ => (AIRY_ERR_NULL_POINTER, registry, [])
  end.

Definition proto_registry_unregister `{AiryErr} (registry : option protocol_registry_t)
    (name : option bytes) : Z * option protocol_registry_t * list reg_event :=
  match registry, name with
  | Some r, Some n =>
      match find_name r n with
      | Some i =>
          (0, Some (r <| reg_entries ::= remove_at i |>),
           match reg_entries r !! i with
           | Some e => emit r (mkEvent "unregister"%cs n (re_state e) PROTO_STATE_UNREGISTERED)
           | None => []
           end)
      | None => (AIRY_ERR_OUT_OF_MEMORY, registry, [])
      end
  | _, _ => (AIRY_ERR_NULL_POINTER, registry, [])
  end.

(** ** Lookup *)

(** The entry and its index, which stands for the pointer. *)
Definition proto_registry_find (registry : option protocol_registry_t) (name : option bytes)
    : option (nat * proto_registry_entry_t) :=
  match registry, name with
  | Some r, Some n => i ← find_name r n; e ← reg_entries r !! i; Some (i, e)
  | _, _ => None
  end.

Definition match_active (e : proto_registry_entry_t) : bool :=
  bool_decide (re_state e = PROTO_STATE_ACTIVE) || bool_decide (re_state e = PROTO_STATE_READY).

Definition match_category (category : proto_category_t) (e : proto_registry_entry_t) : bool :=
  bool_decide (re_category e = category).

Definition proto_registry_find_by_type (registry : option protocol_registry_t)
    (type : airy_protocol_type_t) : option proto_registry_entry_t :=
  r ← registry;
  i ← find_idx (fun e => (re_type e =? type) && match_active e) (reg_entries r);
  reg_entries r !! i.

Definition proto_registry_find_by_capability (registry : option protocol_registry_t)
    (required_caps : Z) : option proto_registry_entry_t :=
  r ← registry;
  i ← find_idx (fun e => (Z.land (re_capabilities e) required_caps =? required_caps)
                         && match_active e) (reg_entries r);
  reg_entries r !! i.

(** The lists are copies: the count and what is stored through [entries], if
    anything is.  [alloc] is whether the allocation succeeds. *)
Definition proto_registry_list_all (alloc : bool) (registry : option protocol_registry_t)
    (has_entries : bool) : Z * option (option (list proto_registry_entry_t)) :=
  match registry with
  | Some r =>
      if negb has_entries then (0, None)
      else if negb alloc && (0 <? lenZ (reg_entries r)) then (0, Some None)
      else (lenZ (reg_entries r), Some (if alloc then Some (reg_entries r) else None))
  | None => (0, None)
  end.

(** The first scan of [registry_select]. *)
Fixpoint count_matching (match_ : proto_registry_entry_t -> bool)
    (l : list proto_registry_entry_t) (count : Z) : Z :=
  match l with
  | [] => count
  | e :: r => count_matching match_ r (if match_ e then count + 1 else count)
  end.

(** The second scan, which stops when the array of [count] entries is full. *)
Fixpoint copy_matching (match_ : proto_registry_entry_t -> bool)
    (l : list proto_registry_entry_t) (count : Z) (out : list proto_registry_entry_t)
    : list proto_registry_entry_t :=
  match l with
  | [] => out
  | e :: r =>
      if lenZ out <? count
      then copy_matching match_ r count (if match_ e then out ++ [e] else out)
      else out
  end.

Definition registry_select (alloc : bool) (registry : option protocol_registry_t)
    (has_entries : bool) (match_ : proto_registry_entry_t -> bool)
    : Z * option (option (list proto_registry_entry_t)) :=
  match registry with
  | Some r =>
      if negb has_entries then (0, None)
      else
        let count := count_matching match_ (reg_entries r) 0 in
        if count =? 0 then (0, Some None)
        else if negb alloc then (0, Some None)
        else
          let out := copy_matching match_ (reg_entries r) count [] in
          (lenZ out, Some (Some out))
  | None => (0, None)
  end.

Definition proto_registry_list_by_category (alloc : bool)
    (registry : option protocol_registry_t) (category : proto_category_t) (has_entries : bool) :=
  registry_select alloc registry has_entries (match_category category).

Definition proto_registry_list_active (alloc : bool)
    (registry : option protocol_registry_t) (has_entries : bool) :=
  registry_select alloc registry has_entries match_active.

(** ** States and dependencies *)

Definition update_entry (r : protocol_registry_t) (i : nat)
    (f : proto_registry_entry_t -> proto_registry_entry_t) : protocol_registry_t :=
  r <| reg_entries ::= alter f i |>.

Definition proto_registry_set_state `{AiryErr} (now : Z) (registry : option protocol_registry_t)
    (name : option bytes) (state : proto_state_t)
    : Z * option protocol_registry_t * list reg_event :=
  match registry, name with
  | Some r, Some n =>
      match proto_registry_find registry name with
      | None => (AIRY_ERR_OUT_OF_MEMORY, registry, [])
      | Some (i, e) =>
          let set e := e <| re_state := state |> in
          let stamp e := if bool_decide (state = PROTO_STATE_ACTIVE)
                         then e <| re_activated_at := u64 now |> else e in
          (0, Some (update_entry r i (stamp ∘ set)),
           emit r (mkEvent "state_change"%cs n (re_state e) state))
      end
  | _, _ => (AIRY_ERR_NULL_POINTER, registry, [])
  end.

Definition proto_registry_add_dependency `{AiryErr} (registry : option protocol_registry_t)
    (name dep_name : option bytes) : Z * option protocol_registry_t :=
  match registry, name, dep_name with
  | Some r, Some n, Some d =>
      match proto_registry_find registry name with
      | None => (AIRY_ERR_OUT_OF_MEMORY, registry)
      | Some (i, e) =>
          if PROTO_REGISTRY_MAX_DEPS <=? lenZ (re_dependencies e)
          then (AIRY_ERR_OVERFLOW, registry)
          else
            let dep := mkDep (fits PROTO_REGISTRY_NAME_MAX_LEN d) PROTO_STATE_UNREGISTERED in
            (0, Some (update_entry r i (fun e => e <| re_dependencies ::= (fun l => l ++ [dep]) |>)))
      end
  | _, _, _ => (AIRY_ERR_NULL_POINTER, registry)
  end.

Definition dep_ready (d : proto_dependency_t) : bool :=
  bool_decide (dep_state d = PROTO_STATE_ACTIVE) || bool_decide (dep_state d = PROTO_STATE_READY).

Definition proto_reg_check_deps (entry : option proto_registry_entry_t) : bool :=
  match entry with
  | None => false
  | Some e => forallb dep_ready (re_dependencies e)
  end.

Definition proto_registry_activate `{AiryErr} (now : Z) (registry : option protocol_registry_t)
    (name : option bytes) : Z * option protocol_registry_t * list reg_event :=
  match registry, name with
  | Some _, Some _ =>
      match proto_registry_find registry name with
      | None => (AIRY_ERR_OUT_OF_MEMORY, registry, [])
      | Some (_, e) =>
          if negb (proto_reg_check_deps (Some e)) then
            let '(_, registry, evs) := proto_registry_set_state now registry name PROTO_STATE_ERROR in
            (AIRY_ERR_IO, registry, evs)
          else proto_registry_set_state now registry name PROTO_STATE_ACTIVE
      end
  | _, _ => (AIRY_ERR_UNKNOWN, registry, [])
  end.

Definition proto_registry_deactivate `{AiryErr} (now : Z) (registry : option protocol_registry_t)
    (name : option bytes) : Z * option protocol_registry_t * list reg_event :=
  match registry, name with
  | Some _, Some _ =>
      match proto_registry_find registry name with
      | None => (AIRY_ERR_OUT_OF_MEMORY, registry, [])
      | Some _ => proto_registry_set_state now registry name PROTO_STATE_READY
      end
  | _, _ => (AIRY_ERR_NULL_POINTER, registry, [])
  end.

Definition propagate (name : bytes) (state : proto_state_t) (d : proto_dependency_t)
    : proto_dependency_t :=
  if strneq (PROTO_REGISTRY_NAME_MAX_LEN - 1) (dep_name d) name
  then d <| dep_state := state |> else d.

Definition proto_registry_heartbeat `{AiryErr} (now : Z) (registry : option protocol_registry_t)
    (name : option bytes) : Z * option protocol_registry_t :=
  match registry, name with
  | Some r, Some n =>
      match proto_registry_find registry name with
      | None => (AIRY_ERR_OUT_OF_MEMORY, registry)
      | Some (i, e) =>
          let r := update_entry r i (fun e => e <| re_last_heartbeat := u64 now |>) in
          (0, Some (r <| reg_entries ::=
            fmap (fun x => x <| re_dependencies ::= fmap (propagate n (re_state e)) |>) |>))
      end
  | _, _ => (AIRY_ERR_NULL_POINTER, registry)
  end.

Definition record_latency (latency_ms : double) (e : proto_registry_entry_t)
    : proto_registry_entry_t :=
  let n := re_request_count e in
  let total := f64_add (f64_mul (re_avg_latency_ms e) (f64_of_Z (u64 (n - 1)))) latency_ms in
  e <| re_avg_latency_ms := f64_div total (f64_of_Z n) |>.

Definition proto_registry_record_request `{AiryErr} (registry : option protocol_registry_t)
    (name : option bytes) (success : bool) (latency_ms : double)
    : Z * option protocol_registry_t :=
  match registry, name with
  | Some r, Some n =>
      match proto_registry_find registry name with
      | None => (AIRY_ERR_OUT_OF_MEMORY, registry)
      | Some (i, _) =>
          (0, Some (update_entry r i (fun e =>
            let e := e <| re_request_count ::= (fun k => u64 (k + 1)) |> in
            let e := if success then e else e <| re_error_count ::= (fun k => u64 (k + 1)) |> in
            record_latency latency_ms e)))
      end
  | _, _ => (AIRY_ERR_UNKNOWN, registry)
  end.

(** ** Statistics *)

Record proto_registry_stats_t := mkRStats {
  rs_total_entries : Z;
  rs_active_entries : Z;
  rs_builtin_entries : Z;
  rs_custom_entries : Z;
  rs_total_requests : Z;
  rs_total_errors : Z;
  rs_total_uptime_sec : double;
  rs_avg_system_latency_ms : double
}.

#[export] Instance eta_rstats : Eta proto_registry_stats_t := fun s =>
  mkRStats (rs_total_entries s) (rs_active_entries s) (rs_builtin_entries s)
    (rs_custom_entries s) (rs_total_requests s) (rs_total_errors s) (rs_total_uptime_sec s)
    (rs_avg_system_latency_ms s).

Definition stats_add (now : Z) (s : proto_registry_stats_t) (e : proto_registry_entry_t)
    : proto_registry_stats_t :=
  let s := if match_active e then s <| rs_active_entries ::= Z.add 1 |> else s in
  let s := if re_is_builtin e then s <| rs_builtin_entries ::= Z.add 1 |>
           else s <| rs_custom_entries ::= Z.add 1 |> in
  let s := s <| rs_total_requests ::= (fun n => u64 (n + re_request_count e)) |>
             <| rs_total_errors ::= (fun n => u64 (n + re_error_count e)) |> in
  let s := if 0 <? re_activated_at e then
             let uptime := f64_of_Z (now - re_activated_at e) in
             if f64_ltb (rs_total_uptime_sec s) uptime
             then s <| rs_total_uptime_sec := uptime |> else s
           else s in
  s <| rs_avg_system_latency_ms ::= (fun x => f64_add x (re_avg_latency_ms e)) |>.

Definition proto_registry_get_statistics `{AiryErr} (now : Z)
    (registry : option protocol_registry_t) (has_stats : bool)
    : Z * option proto_registry_stats_t :=
  match registry with
  | Some r =>
      if negb has_stats then (AIRY_ERR_NULL_POINTER, None)
      else
        let s0 := mkRStats (lenZ (reg_entries r)) 0 0 0 0 0 f64_zero f64_zero in
        let s := foldl (stats_add now) s0 (reg_entries r) in
        (0, Some (if 0 <? rs_active_entries s
                  then s <| rs_avg_system_latency_ms ::=
                              (fun x => f64_div x (f64_of_Z (rs_active_entries s))) |>
                  else s))
  | None => (AIRY_ERR_NULL_POINTER, None)
  end.

(** ** Export *)

(** ["%.2f"] *)
Definition print_f2 (d : double) : bytes :=
  match d with
  | S754_zero s => (if s then "-"%cs else []) ++ "0.00"%cs
  | S754_infinity s => (if s then "-"%cs else []) ++ "inf"%cs
  | S754_nan => "nan"%cs
  | S754_finite s m e =>
      let h := hundredths m e in
      (if s then "-"%cs else []) ++ dec_digits 310 (h / 100) ++ "."%cs
      ++ [digit (h / 10 mod 10); digit (h mod 10)]
  end.

Definition entry_json (e : proto_registry_entry_t) : bytes :=
  "{'name':'"%cs ++ re_name e ++ "','ver':'"%cs ++ re_version e
  ++ "','cat':'"%cs ++ proto_category_to_string (re_category e)
  ++ "','type':"%cs ++ dec_signed (to_int (re_type e))
  ++ ",'caps':0x"%cs ++ hex 8 (re_capabilities e)
  ++ ",'state':'"%cs ++ proto_state_to_string (re_state e)
  ++ "','reqs':"%cs ++ dec (re_request_count e) ++ ",'errs':"%cs ++ dec (re_error_count e)
  ++ ",'latency':"%cs ++ print_f2 (re_avg_latency_ms e) ++ "}"%cs.

(** The loop stops early when fewer than 200 bytes are left; the bound
    [buffer_size - 200] is computed in [size_t]. *)
Fixpoint export_loop (first : bool) (l : list proto_registry_entry_t) (b : sbuf)
    : outcome sbuf :=
  match l with
  | [] => Done b
  | e :: r =>
      if sb_off b <? u64 (sb_cap b - 200) then
        b ← (if first then Done b else sn_put ","%cs b);
        b ← sn_put (entry_json e) b;
        export_loop false r b
      else Done b
  end.

Definition proto_registry_export_json `{AiryErr} (registry : option protocol_registry_t)
    (has_buffer : bool) (buffer_size : Z) : outcome (Z * option bytes) :=
  match registry with
  | Some r =>
      if negb has_buffer then Done (AIRY_ERR_NULL_POINTER, None)
      else if buffer_size <? 128 then Done (AIRY_ERR_BUFFER_TOO_SMALL, None)
      else
        b ← sn_put ("{'registry_version':'"%cs ++ PROTO_REGISTRY_VERSION ++ "','total':"%cs
                    ++ dec (lenZ (reg_entries r)) ++ ",'entries':["%cs) (sb_new buffer_size);
        b ← export_loop true (reg_entries r) b;
        b ← sn_put "]}"%cs b;
        Done (if sb_off b <? buffer_size then 0 else -2, Some (sb_text b))
  | None => Done (AIRY_ERR_NULL_POINTER, None)
  end.

Definition proto_registry_set_event_callback `{AiryErr} (registry : option protocol_registry_t)
    (callback : bool) : Z * option protocol_registry_t :=
  match registry with
  | None => (AIRY_ERR_NULL_POINTER, None)
  | Some r => (0, Some (r <| reg_event_callback := callback |>))
  end.

(** ** Built-in entries *)

Record proto_builtin_def_t := mkDef {
  bd_name : option bytes;
  bd_version : option bytes;
  bd_description : option bytes;
  bd_category : proto_category_t;
  bd_type : airy_protocol_type_t;
  bd_capabilities : Z;
  bd_adapter : option ptr;
  bd_context : option ptr
}.

Definition register_builtin `{AiryErr} (now : Z) (d : proto_builtin_def_t)
    (registry : option protocol_registry_t) (registered : Z)
    : option protocol_registry_t * Z * list reg_event :=
  let '(ret, registry, evs) :=
    proto_registry_register now registry (bd_name d) (bd_version d) (bd_description d)
      (bd_category d) (bd_type d) (bd_capabilities d) (bd_adapter d) (bd_context d) in
  if ret =? 0 then
    match registry, proto_registry_find registry (bd_name d) with
    | Some r, Some (i, _) =>
        let r := update_entry r i (fun e => e <| re_is_builtin := true |>) in
        let '(_, registry, evs') := proto_registry_activate now (Some r) (bd_name d) in
        (registry, registered + 1, evs ++ evs')
    | _, _ => (registry, registered + 1, evs)
    end
  else (registry, registered, evs).

Fixpoint builtins_loop `{AiryErr} (now : Z) (defs : list proto_builtin_def_t)
    (registry : option protocol_registry_t) (registered : Z)
    : option protocol_registry_t * Z * list reg_event :=
  match defs with
  | [] => (registry, registered, [])
  | d :: ds =>
      let '(registry, registered, evs) := register_builtin now d registry registered in
      let '(registry, registered, evs') := builtins_loop now ds registry registered in
      (registry, registered, evs ++ evs')
  end.

Definition proto_reg_builtins `{AiryErr} (now : Z) (registry : option protocol_registry_t)
    (defs : option (list proto_builtin_def_t))
    : Z * option protocol_registry_t * list reg_event :=
  match registry, defs with
  | Some _, Some ds =>
      let '(registry, registered, evs) := builtins_loop now ds registry 0 in
      (registered, registry, evs)
  | _, _ => (AIRY_ERR_NULL_POINTER, registry, [])
  end.

(** ** Specification: a finite map from names to entries

    Names are cut to 63 characters, on storing and on looking up. *)

Definition key (name : bytes) : bytes := take (PROTO_REGISTRY_NAME_MAX_LEN - 1) name.
Arguments key name : simpl never.

Abbreviation reg_map := (gmap bytes proto_registry_entry_t).

Definition reg_abs (r : protocol_registry_t) : reg_map :=
  list_to_map ((fun e => (re_name e, e)) <$> reg_entries r).

Definition entry_ok (e : proto_registry_entry_t) : Prop :=
  (length (re_name e) < 64)%nat /\ (length (re_version e) < 32)%nat /\
  (length (re_description e) < 256)%nat /\ lenZ (re_dependencies e) <= 16 /\
  Forall (fun d => (length (dep_name d) < 64)%nat) (re_dependencies e).

Definition reg_wf (r : protocol_registry_t) : Prop :=
  lenZ (reg_entries r) <= 32 /\ NoDup (re_name <$> reg_entries r) /\
  Forall entry_ok (reg_entries r).

Inductive reg_op :=
| OpRegister (now : Z) (name : bytes) (version description : option bytes)
    (category : proto_category_t) (type capabilities : Z) (adapter context : option ptr)
| OpUnregister (name : bytes)
| OpSetState (now : Z) (name : bytes) (state : proto_state_t)
| OpAddDependency (name dep : bytes)
| OpActivate (now : Z) (name : bytes)
| OpDeactivate (now : Z) (name : bytes)
| OpHeartbeat (now : Z) (name : bytes)
| OpRecordRequest (name : bytes) (success : bool) (latency_ms : double)
| OpSetCallback (callback : bool).

(** An operation on the table. *)
Definition run_op `{AiryErr} (op : reg_op) (r : protocol_registry_t)
    : Z * option protocol_registry_t :=
  match op with
  | OpRegister now n v d c t caps a x =>
      fst (proto_registry_register now (Some r) (Some n) v d c t caps a x)
  | OpUnregister n => fst (proto_registry_unregister (Some r) (Some n))
  | OpSetState now n s => fst (proto_registry_set_state now (Some r) (Some n) s)
  | OpAddDependency n d => proto_registry_add_dependency (Some r) (Some n) (Some d)
  | OpActivate now n => fst (proto_registry_activate now (Some r) (Some n))
  | OpDeactivate now n => fst (proto_registry_deactivate now (Some r) (Some n))
  | OpHeartbeat now n => proto_registry_heartbeat now (Some r) (Some n)
  | OpRecordRequest n s l => proto_registry_record_request (Some r) (Some n) s l
  | OpSetCallback b => proto_registry_set_event_callback (Some r) b
  end.

Definition enter_state (now : Z) (state : proto_state_t) (e : proto_registry_entry_t)
    : proto_registry_entry_t :=
  let e := e <| re_state := state |> in
  if bool_decide (state = PROTO_STATE_ACTIVE) then e <| re_activated_at := u64 now |> else e.

Definition add_dep (dep : bytes) (e : proto_registry_entry_t) : proto_registry_entry_t :=
  e <| re_dependencies ::= (fun l => l ++ [mkDep (key dep) PROTO_STATE_UNREGISTERED]) |>.

Definition count_request (success : bool) (latency_ms : double) (e : proto_registry_entry_t)
    : proto_registry_entry_t :=
  let e := e <| re_request_count ::= (fun k => u64 (k + 1)) |> in
  let e := if success then e else e <| re_error_count ::= (fun k => u64 (k + 1)) |> in
  record_latency latency_ms e.

(** The operation on the map: [with_entry] is the lookup all but registration
    start with. *)
Definition with_entry `{AiryErr} (n : bytes) (m : reg_map)
    (f : proto_registry_entry_t -> Z * reg_map) : Z * reg_map :=
  match m !! key n with Some e => f e | None => (AIRY_ERR_OUT_OF_MEMORY, m) end.

Definition spec_op `{AiryErr} (op : reg_op) (m : reg_map) : Z * reg_map :=
  match op with
  | OpRegister now n v d c t caps a x =>
      if 32 <=? Z.of_nat (size m) then (AIRY_ERR_OVERFLOW, m)
      else match m !! key n with
           | Some _ => (AIRY_ERR_NULL_POINTER, m)
           | None => (0, <[key n := new_entry now n v d c t caps a x]> m)
           end
  | OpUnregister n => with_entry n m (fun _ => (0, delete (key n) m))
  | OpSetState now n s => with_entry n m (fun e => (0, <[key n := enter_state now s e]> m))
  | OpAddDependency n d => with_entry n m (fun e =>
      if 16 <=? lenZ (re_dependencies e) then (AIRY_ERR_OVERFLOW, m)
      else (0, <[key n := add_dep d e]> m))
  | OpActivate now n => with_entry n m (fun e =>
      if forallb dep_ready (re_dependencies e)
      then (0, <[key n := enter_state now PROTO_STATE_ACTIVE e]> m)
      else (AIRY_ERR_IO, <[key n := enter_state now PROTO_STATE_ERROR e]> m))
  | OpDeactivate now n => with_entry n m (fun e =>
      (0, <[key n := enter_state now PROTO_STATE_READY e]> m))
  | OpHeartbeat now n => with_entry n m (fun e =>
      (0, (fun x => x <| re_dependencies ::= fmap (propagate n (re_state e)) |>)
            <$> <[key n := e <| re_last_heartbeat := u64 now |>]> m))
  | OpRecordRequest n s l => with_entry n m (fun e => (0, <[key n := count_request s l e]> m))
  | OpSetCallback _ => (0, m)
  end.

(** ** Lemmas *)

Lemma reg_abs_keys r : ((fun e => (re_name e, e)) <$> reg_entries r).*1 = re_name <$> reg_entries r.
Proof. by rewrite <- list_fmap_compose. Qed.

Lemma reg_abs_lookup r n e :
  reg_wf r -> reg_abs r !! n = Some e <-> (e ∈ reg_entries r /\ re_name e = n).
Proof.
  intros (_ & Hnd & _). unfold reg_abs.
  etransitivity; [symmetry; apply (elem_of_list_to_map (M:=gmap bytes)); by rewrite reg_abs_keys|].
  rewrite list_elem_of_fmap. split.
  - by intros (x & [= -> ->] & Hx).
  - intros [He <-]. by exists e.
Qed.

Lemma reg_abs_size r : reg_wf r -> Z.of_nat (size (reg_abs r)) = lenZ (reg_entries r).
Proof.
  intros (_ & Hnd & _). unfold reg_abs.
  rewrite (map_size_list_to_map (M:=gmap bytes)) by (by rewrite reg_abs_keys).
  by rewrite length_fmap.
Qed.

Lemma name_match_key n e : entry_ok e -> name_match n e = bool_decide (re_name e = key n).
Proof.
  intros (Hl & _). unfold name_match, strneq. cbn [PROTO_REGISTRY_NAME_MAX_LEN Nat.sub].
  by rewrite (take_ge (re_name e)) by lia.
Qed.

(** The scan by name is the lookup in the map. *)
Lemma registry_find_spec r n :
  reg_wf r ->
  match proto_registry_find (Some r) (Some n) with
  | Some (i, e) => find_name r n = Some i /\ reg_entries r !! i = Some e /\
                   re_name e = key n /\ reg_abs r !! key n = Some e
  | None => find_name r n = None /\ reg_abs r !! key n = None
  end.
Proof.
  intros Hwf. destruct (Hwf) as (_ & Hnd & Hok). unfold proto_registry_find.
  destruct (find_name r n) as [i|] eqn:Hf; cbn [mbind option_bind].
  - pose proof Hf as ((e & He & Hm) & _)%find_idx_Some. rewrite He. cbn.
    rewrite name_match_key in Hm by (by eapply Forall_lookup_1).
    apply bool_decide_eq_true in Hm. repeat split; try done.
    apply reg_abs_lookup; [done|]. split; [by eapply list_elem_of_lookup_2|done].
  - split; [done|]. apply eq_None_not_Some. intros [e He].
    apply reg_abs_lookup in He as [He Hn]; [|done].
    apply find_idx_None in Hf. rewrite Forall_forall in Hf. specialize (Hf e He).
    rewrite Forall_forall in Hok. rewrite name_match_key in Hf by (by apply Hok).
    apply bool_decide_eq_false in Hf. done.
Qed.

(** Changing the entry at an index, keeping its name. *)
Lemma update_entry_names r i f :
  (forall e, re_name (f e) = re_name e) ->
  re_name <$> reg_entries (update_entry r i f) = re_name <$> reg_entries r.
Proof.
  intros Hf. cbn. apply list_eq. intros j. rewrite !list_lookup_fmap.
  destruct (decide (i = j)) as [->|].
  - rewrite list_lookup_alter_eq. destruct (reg_entries r !! j); cbn; [by rewrite Hf|done].
  - by rewrite list_lookup_alter_ne.
Qed.

Lemma update_entry_wf r i f :
  (forall e, re_name (f e) = re_name e) -> (forall e, entry_ok e -> reg_entries r !! i = Some e -> entry_ok (f e)) ->
  reg_wf r -> reg_wf (update_entry r i f).
Proof.
  intros Hn Hf (Hlen & Hnd & Hok). split; [|split].
  - cbn. unfold lenZ in *. by rewrite length_alter.
  - by rewrite update_entry_names.
  - cbn. apply Forall_alter; [done|]. intros x Hx Hokx. by apply Hf.
Qed.

Lemma update_entry_abs r i f e :
  (forall e, re_name (f e) = re_name e) -> reg_wf r -> reg_entries r !! i = Some e ->
  reg_wf (update_entry r i f) ->
  reg_abs (update_entry r i f) = <[re_name e := f e]> (reg_abs r).
Proof.
  intros Hn Hwf He Hwf'. pose proof Hwf as (_ & Hnd & _).
  assert (reg_entries (update_entry r i f) !! i = Some (f e)) as Hi
    by (cbn; by rewrite list_lookup_alter_eq, He).
  apply map_eq. intros k. destruct (decide (k = re_name e)) as [->|Hk].
  - rewrite lookup_insert_eq. apply reg_abs_lookup; [done|]. split; [|apply Hn].
    by eapply list_elem_of_lookup_2.
  - rewrite lookup_insert_ne by done. apply option_eq. intros x.
    rewrite !reg_abs_lookup by done. split; intros [Hx <-]; (split; [|done]).
    + apply list_elem_of_lookup in Hx as [j Hj]. cbn in Hj.
      destruct (decide (i = j)) as [<-|Hij].
      { rewrite list_lookup_alter_eq, He in Hj. injection Hj as <-. by rewrite Hn in Hk. }
      rewrite list_lookup_alter_ne in Hj by done. by eapply list_elem_of_lookup_2.
    + apply list_elem_of_lookup in Hx as [j Hj].
      destruct (decide (i = j)) as [<-|Hij]; [by rewrite He in Hj; injection Hj as <-|].
      apply (list_elem_of_lookup_2 _ j). cbn. by rewrite list_lookup_alter_ne.
Qed.

(** The shape the operations on one entry share. *)
Lemma update_entry_refines r i f e n :
  (forall e, re_name (f e) = re_name e) -> (entry_ok e -> entry_ok (f e)) ->
  reg_wf r -> reg_entries r !! i = Some e -> re_name e = key n ->
  reg_wf (update_entry r i f) /\
  <[key n := f e]> (reg_abs r) = reg_abs (update_entry r i f).
Proof.
  intros Hn Hok Hwf He <-.
  assert (reg_wf (update_entry r i f)) as Hwf'.
  { apply update_entry_wf; [done| |done]. intros e' Ho He'. rewrite He in He'.
    injection He' as <-. by apply Hok. }
  split; [done|]. by rewrite (update_entry_abs r i f e).
Qed.

Lemma enter_state_name now s e : re_name (enter_state now s e) = re_name e.
Proof. unfold enter_state. by case_bool_decide. Qed.
Lemma enter_state_ok now s e : entry_ok e -> entry_ok (enter_state now s e).
Proof. unfold enter_state. by case_bool_decide. Qed.

(** [simulates op]: on a well-formed table the operation does to the map what
    the specification says, with the same return code. *)
Definition simulates `{AiryErr} (op : reg_op) : Prop :=
  forall r, reg_wf r ->
  exists rc r', run_op op r = (rc, Some r') /\ reg_wf r' /\
    spec_op op (reg_abs r) = (rc, reg_abs r').

Section simulation.
Context `{AiryErr}.

Lemma sim_register now n v d c t caps a x : simulates (OpRegister now n v d c t caps a x).
Proof.
  intros r Hwf. pose proof (registry_find_spec r n Hwf) as Hf.
  pose proof Hwf as (Hlen & Hnd & Hok).
  cbn [run_op spec_op]. rewrite reg_abs_size by done.
  unfold proto_registry_register, PROTO_REGISTRY_MAX_ADAPTERS.
  destruct (Z.leb_spec 32 (lenZ (reg_entries r))); [by do 2 eexists|].
  destruct (proto_registry_find (Some r) (Some n)) as [[i e]|].
  { destruct Hf as (Hf & _ & _ & ->). rewrite Hf. cbn. by do 2 eexists. }
  destruct Hf as (Hf & Habs). rewrite Hf, Habs. cbn -[lenZ new_entry].
  do 2 eexists. split; [reflexivity|].
  set (e := new_entry now n v d c t caps a x).
  assert (entry_ok e) as Hoke.
  { subst e. unfold entry_ok, new_entry, fits, PROTO_REGISTRY_NAME_MAX_LEN,
      PROTO_REGISTRY_DESC_MAX_LEN. cbn -[lenZ take Nat.sub].
    repeat split; try (rewrite length_take; lia); try done; try by constructor.
    destruct d; [rewrite length_take; lia|by apply Nat.lt_0_succ]. }
  assert (re_name e ∉ re_name <$> reg_entries r) as Hne.
  { intros (e' & He' & Hin)%list_elem_of_fmap.
    assert (reg_abs r !! key n = Some e') as Hc by (by apply reg_abs_lookup). congruence. }
  assert (reg_wf (r <| reg_entries ::= (fun l => l ++ [e]) |>)) as Hwf'.
  { split; [|split]; cbn -[lenZ].
    - rewrite lenZ_app, lenZ_cons, lenZ_nil. lia.
    - rewrite fmap_app. apply NoDup_app. split; [done|]. split; [|apply NoDup_singleton].
      intros k Hk ->%list_elem_of_singleton. done.
    - apply Forall_app. split; [done|]. by constructor. }
  split; [exact Hwf'|]. f_equal. unfold reg_abs. cbn [reg_entries upd].
  rewrite fmap_app. symmetry. apply (list_to_map_snoc (M:=gmap bytes)).
  by rewrite reg_abs_keys.
Qed.

Lemma sim_unregister n : simulates (OpUnregister n).
Proof.
  intros r Hwf. pose proof (registry_find_spec r n Hwf) as Hf.
  pose proof Hwf as (Hlen & Hnd & Hok).
  cbn [run_op spec_op]. unfold proto_registry_unregister, with_entry.
  destruct (proto_registry_find (Some r) (Some n)) as [[i e]|].
  2: { destruct Hf as (-> & ->). by do 2 eexists. }
  destruct Hf as (-> & He & Hn & ->). cbn -[lenZ remove_at].
  do 2 eexists. split; [reflexivity|].
  pose proof (remove_at_perm i (reg_entries r) e He) as Hp.
  assert (re_name <$> reg_entries r ≡ₚ re_name e :: (re_name <$> remove_at i (reg_entries r))) as Hpn
    by exact (Permutation_map re_name Hp).
  rewrite Hpn in Hnd. apply NoDup_cons in Hnd as [Hnotin Hnd].
  split.
  - split; [|split]; cbn -[lenZ remove_at]; [|done|].
    + apply lookup_lt_Some in He. unfold lenZ in *. rewrite length_remove_at by done. lia.
    + apply Forall_forall. intros y Hy%elem_of_remove_at. rewrite Forall_forall in Hok. by apply Hok.
  - f_equal. unfold reg_abs. cbn [reg_entries upd].
    rewrite <- (list_to_map_proper (M:=gmap bytes)
      ((re_name e, e) :: ((fun e => (re_name e, e)) <$> remove_at i (reg_entries r)))).
    + cbn. rewrite <- Hn, delete_insert_id; [done|]. apply not_elem_of_list_to_map.
      by rewrite <- list_fmap_compose.
    + cbn. rewrite <- list_fmap_compose. by apply NoDup_cons.
    + symmetry. exact (Permutation_map (fun e => (re_name e, e)) Hp).
Qed.

Lemma sim_set_state now n s : simulates (OpSetState now n s).
Proof.
  intros r Hwf. pose proof (registry_find_spec r n Hwf) as Hf.
  cbn [run_op spec_op]. unfold proto_registry_set_state, with_entry.
  destruct (proto_registry_find (Some r) (Some n)) as [[i e]|].
  2: { destruct Hf as (_ & ->). by do 2 eexists. }
  destruct Hf as (_ & He & Hn & ->). cbn [fst].
  do 2 eexists. split; [reflexivity|].
  edestruct (update_entry_refines r i (enter_state now s) e n) as [Hwf' ->]; try done.
  - apply enter_state_name.
  - apply enter_state_ok.
Qed.

(** Activation and deactivation go through [proto_registry_set_state]. *)
Lemma set_state_find now n s r i e :
  reg_wf r -> proto_registry_find (Some r) (Some n) = Some (i, e) ->
  exists r', fst (proto_registry_set_state now (Some r) (Some n) s) = (0, Some r') /\ reg_wf r' /\
    <[key n := enter_state now s e]> (reg_abs r) = reg_abs r'.
Proof.
  intros Hwf Hfind. pose proof (registry_find_spec r n Hwf) as Hf. rewrite Hfind in Hf.
  destruct Hf as (_ & _ & _ & Hm). destruct (sim_set_state now n s r Hwf) as (rc & r' & Hr & Hwf' & Hs).
  cbn [run_op spec_op] in Hr, Hs. unfold with_entry in Hs. rewrite Hm in Hs. injection Hs as <- Hs.
  exists r'. done.
Qed.

Lemma sim_activate now n : simulates (OpActivate now n).
Proof.
  intros r Hwf. pose proof (registry_find_spec r n Hwf) as Hf.
  cbn [run_op spec_op]. unfold proto_registry_activate, with_entry.
  destruct (proto_registry_find (Some r) (Some n)) as [[i e]|] eqn:Hfind.
  2: { destruct Hf as (_ & ->). by do 2 eexists. }
  destruct Hf as (_ & He & Hn & ->). cbn [proto_reg_check_deps].
  destruct (forallb dep_ready (re_dependencies e)); cbn [negb].
  - destruct (set_state_find now n PROTO_STATE_ACTIVE r i e Hwf Hfind) as (r' & Hr & Hwf' & Habs).
    exists 0, r'. split; [done|]. split; [done|]. by rewrite Habs.
  - destruct (set_state_find now n PROTO_STATE_ERROR r i e Hwf Hfind) as (r' & Hr & Hwf' & Habs).
    destruct (proto_registry_set_state now (Some r) (Some n) PROTO_STATE_ERROR) as [[rc x] evs].
    cbn in Hr. injection Hr as -> ->. exists AIRY_ERR_IO, r'.
    split; [done|]. split; [done|]. by rewrite Habs.
Qed.

Lemma sim_deactivate now n : simulates (OpDeactivate now n).
Proof.
  intros r Hwf. pose proof (registry_find_spec r n Hwf) as Hf.
  cbn [run_op spec_op]. unfold proto_registry_deactivate, with_entry.
  destruct (proto_registry_find (Some r) (Some n)) as [[i e]|] eqn:Hfind.
  2: { destruct Hf as (_ & ->). by do 2 eexists. }
  destruct Hf as (_ & He & Hn & ->).
  destruct (set_state_find now n PROTO_STATE_READY r i e Hwf Hfind) as (r' & Hr & Hwf' & Habs).
  exists 0, r'. split; [done|]. split; [done|]. by rewrite Habs.
Qed.

Lemma sim_add_dependency n d : simulates (OpAddDependency n d).
Proof.
  intros r Hwf. pose proof (registry_find_spec r n Hwf) as Hf.
  cbn [run_op spec_op]. unfold proto_registry_add_dependency, with_entry, PROTO_REGISTRY_MAX_DEPS.
  destruct (proto_registry_find (Some r) (Some n)) as [[i e]|].
  2: { destruct Hf as (_ & ->). by do 2 eexists. }
  destruct Hf as (_ & He & Hn & ->).
  destruct (Z.leb_spec 16 (lenZ (re_dependencies e))); [by do 2 eexists|].
  do 2 eexists. split; [reflexivity|].
  edestruct (update_entry_refines r i (add_dep d) e n) as [Hwf' ->]; try done.
  intros (? & ? & ? & ? & ?). unfold entry_ok. cbn -[lenZ key]. repeat split; try done.
  - rewrite lenZ_app, lenZ_cons, lenZ_nil. lia.
  - apply Forall_app. split; [done|]. constructor; [|constructor]. cbn [dep_name].
    unfold key, PROTO_REGISTRY_NAME_MAX_LEN. rewrite length_take. lia.
Qed.

Lemma sim_record_request n s l : simulates (OpRecordRequest n s l).
Proof.
  intros r Hwf. pose proof (registry_find_spec r n Hwf) as Hf.
  cbn [run_op spec_op]. unfold proto_registry_record_request, with_entry.
  destruct (proto_registry_find (Some r) (Some n)) as [[i e]|].
  2: { destruct Hf as (_ & ->). by do 2 eexists. }
  destruct Hf as (_ & He & Hn & ->).
  do 2 eexists. split; [reflexivity|].
  edestruct (update_entry_refines r i (count_request s l) e n) as [Hwf' ->]; try done;
    [intros x|]; unfold count_request, record_latency, entry_ok; destruct s; done.
Qed.

(** A change of every entry that keeps names. *)
Lemma fmap_entries_refines r f :
  (forall e, re_name (f e) = re_name e) -> (forall e, entry_ok e -> entry_ok (f e)) ->
  reg_wf r ->
  reg_wf (r <| reg_entries ::= fmap f |>) /\
  f <$> reg_abs r = reg_abs (r <| reg_entries ::= fmap f |>).
Proof.
  intros Hn Hok (Hlen & Hnd & Hall). split; [split; [|split]|]; cbn -[lenZ].
  - unfold lenZ in *. by rewrite length_fmap.
  - rewrite <- list_fmap_compose. rewrite (list_fmap_ext (re_name ∘ f) re_name); [done|].
    intros i x _. apply Hn.
  - apply Forall_fmap. eapply Forall_impl; [exact Hall|]. intros x. apply Hok.
  - unfold reg_abs. cbn [reg_entries upd]. rewrite <- (list_to_map_fmap (M:=gmap bytes)).
    rewrite <- !list_fmap_compose. f_equal. apply list_fmap_ext. intros i x Hx. cbn. by rewrite Hn.
Qed.

Lemma sim_heartbeat now n : simulates (OpHeartbeat now n).
Proof.
  intros r Hwf. pose proof (registry_find_spec r n Hwf) as Hf.
  cbn [run_op spec_op]. unfold proto_registry_heartbeat, with_entry.
  destruct (proto_registry_find (Some r) (Some n)) as [[i e]|].
  2: { destruct Hf as (_ & ->). by do 2 eexists. }
  destruct Hf as (_ & He & Hn & ->).
  do 2 eexists. split; [reflexivity|].
  edestruct (update_entry_refines r i (fun e => e <| re_last_heartbeat := u64 now |>) e n)
    as [Hwf1 ->]; try done.
  edestruct (fmap_entries_refines (update_entry r i (fun e => e <| re_last_heartbeat := u64 now |>))
    (fun x => x <| re_dependencies ::= fmap (propagate n (re_state e)) |>)) as [Hwf2 ->]; try done.
  intros x (? & ? & ? & ? & Hd). unfold entry_ok. cbn -[lenZ]. repeat split; try done.
  - unfold lenZ in *. by rewrite length_fmap.
  - apply Forall_fmap. eapply Forall_impl; [exact Hd|]. intros y Hy. cbn. unfold propagate.
    by case_match.
Qed.

Lemma registry_simulation op : simulates op.
Proof.
  destruct op; eauto using sim_register, sim_unregister, sim_set_state, sim_add_dependency,
    sim_activate, sim_deactivate, sim_heartbeat, sim_record_request.
  intros r Hwf. by do 2 eexists.
Qed.
End simulation.

(** ** Properties *)

(** A sequence of operations, with the codes they return. *)
Fixpoint run_ops `{AiryErr} (ops : list reg_op) (r : protocol_registry_t)
    : list Z * option protocol_registry_t :=
  match ops with
  | [] => ([], Some r)
  | op :: rest =>
      match run_op op r with
      | (rc, Some r') => let '(rcs, out) := run_ops rest r' in (rc :: rcs, out)
      | (rc, None) => ([rc], None)
      end
  end.

Fixpoint spec_ops `{AiryErr} (ops : list reg_op) (m : reg_map) : list Z * reg_map :=
  match ops with
  | [] => ([], m)
  | op :: rest =>
      let '(rc, m) := spec_op op m in
      let '(rcs, m) := spec_ops rest m in (rc :: rcs, m)
  end.

Lemma run_ops_simulates `{AiryErr} ops r :
  reg_wf r ->
  exists rcs r', run_ops ops r = (rcs, Some r') /\ reg_wf r' /\
    spec_ops ops (reg_abs r) = (rcs, reg_abs r').
Proof.
  revert r. induction ops as [|op ops IH]; intros r Hwf; [by exists [], r|].
  destruct (registry_simulation op r Hwf) as (rc & r1 & H1 & Hwf1 & Hs1).
  destruct (IH r1 Hwf1) as (rcs & r2 & H2 & Hwf2 & Hs2).
  exists (rc :: rcs), r2. cbn [run_ops spec_ops]. by rewrite H1, H2, Hs1, Hs2.
Qed.

(** C2. The registry implements a finite map.  Whatever sequence of
    registrations, removals, state changes, dependency declarations,
    activations, heartbeats and request records is run on a new registry, the
    return codes and the contents are those of the map specification, where
    an entry is found by the first 63 characters of its name; there are never
    more than 32 entries, never two of the same name, and no string or
    dependency list outgrows its array. *)
Theorem registry_refines_map `{AiryErr} ops :
  exists rcs r,
    run_ops ops (mkRegistry [] false true) = (rcs, Some r) /\
    spec_ops ops ∅ = (rcs, reg_abs r) /\
    lenZ (reg_entries r) <= 32 /\ NoDup (re_name <$> reg_entries r) /\
    Forall entry_ok (reg_entries r).
Proof.
  destruct (run_ops_simulates ops (mkRegistry [] false true)) as (rcs & r & Hr & Hwf & Hs).
  { split; [done|]. split; constructor. }
  by exists rcs, r.
Qed.

(** C25. Activation and dependencies.  Activating an entry succeeds exactly
    when every declared dependency was last seen active or ready; the entry
    is then active and stamped with the time.  Otherwise the call reports an
    I/O error and the entry is put into the error state.  No other entry
    changes, and the callback hears exactly the one state change. *)
Theorem registry_activate_spec `{AiryErr} now r n i e :
  proto_registry_find (Some r) (Some n) = Some (i, e) ->
  let ready := forallb dep_ready (re_dependencies e) in
  let new := if ready then PROTO_STATE_ACTIVE else PROTO_STATE_ERROR in
  exists r',
    proto_registry_activate now (Some r) (Some n)
    = (if ready then 0 else AIRY_ERR_IO, Some r',
       emit r (mkEvent "state_change"%cs n (re_state e) new)) /\
    reg_entries r' !! i
    = Some (e <| re_state := new |>
              <| re_activated_at := if ready then u64 now else re_activated_at e |>) /\
    forall j, j <> i -> reg_entries r' !! j = reg_entries r !! j.
Proof.
  intros Hfind ready new.
  assert (reg_entries r !! i = Some e) as He.
  { revert Hfind. cbn. destruct (find_name r n) as [k|]; [|done]. cbn.
    destruct (reg_entries r !! k) eqn:E; [|done]. by intros [= <- <-]. }
  exists (update_entry r i (enter_state now new)).
  unfold proto_registry_activate. rewrite Hfind. cbn [proto_reg_check_deps]. fold ready.
  unfold proto_registry_set_state. rewrite Hfind.
  split; [by subst new; destruct ready|]. split.
  - cbn. rewrite list_lookup_alter_eq, He. subst new. by destruct ready.
  - intros j Hj. cbn. by rewrite list_lookup_alter_ne.
Qed.

Definition sample_entry (n : bytes) (deps : list proto_dependency_t) : proto_registry_entry_t :=
  (new_entry 100 n None None PROTO_CAT_CUSTOM 63 3 None None) <| re_dependencies := deps |>.

Definition sample_registry : protocol_registry_t :=
  mkRegistry [sample_entry "a2a"%cs [];
              sample_entry "bridge"%cs [mkDep "a2a"%cs PROTO_STATE_UNREGISTERED]] true true.

Lemma registry_activate_spec_witness :
  let e := sample_entry "bridge"%cs [mkDep "a2a"%cs PROTO_STATE_UNREGISTERED] in
  let ready := forallb dep_ready (re_dependencies e) in
  let new := if ready then PROTO_STATE_ACTIVE else PROTO_STATE_ERROR in
  exists r',
    @proto_registry_activate inst_err 200 (Some sample_registry) (Some "bridge"%cs)
    = (if ready then 0 else @AIRY_ERR_IO inst_err, Some r',
       emit sample_registry (mkEvent "state_change"%cs "bridge"%cs (re_state e) new)) /\
    reg_entries r' !! 1%nat
    = Some (e <| re_state := new |>
              <| re_activated_at := if ready then u64 200 else re_activated_at e |>) /\
    forall j, j <> 1%nat -> reg_entries r' !! j = reg_entries sample_registry !! j.
Proof.
  apply (@registry_activate_spec inst_err 200 sample_registry "bridge"%cs 1%nat). reflexivity.
Defined.

Lemma count_matching_filter m l c :
  count_matching m l c = c + lenZ (filter (fun e => m e = true) l).
Proof.
  revert c. induction l as [|e l IH]; intros c; cbn [count_matching].
  - change (lenZ (filter _ [])) with 0. lia.
  - rewrite filter_cons. destruct (m e); case_decide; try done; rewrite IH, ?lenZ_cons; lia.
Qed.

Lemma copy_matching_filter m l c out :
  lenZ out + lenZ (filter (fun e => m e = true) l) <= c ->
  copy_matching m l c out = out ++ filter (fun e => m e = true) l.
Proof.
  revert out. induction l as [|e l IH]; intros out Hc; cbn [copy_matching].
  - by rewrite app_nil_r.
  - rewrite filter_cons in Hc |- *. destruct (Z.ltb_spec (lenZ out) c) as [|Hfull].
    + destruct (m e); case_decide; try done.
      * rewrite lenZ_cons in Hc. rewrite IH by (rewrite lenZ_app, lenZ_cons, lenZ_nil; lia).
        by rewrite <- app_assoc.
      * by apply IH.
    + destruct (decide (m e = true)).
      * rewrite lenZ_cons in Hc. pose proof (lenZ_nonneg (filter (fun e => m e = true) l)). lia.
      * destruct (filter _ l) as [|x k]; [by rewrite app_nil_r|].
        rewrite lenZ_cons in Hc. pose proof (lenZ_nonneg k). lia.
Qed.

(** Listing.  The two scans of [registry_select] agree: the array handed
    out holds exactly the matching entries, in table order, and the count
    returned is its length; when nothing matches the array is null. *)
Theorem registry_select_filter alloc r match_ :
  let hits := filter (fun e => match_ e = true) (reg_entries r) in
  registry_select alloc (Some r) true match_
  = if bool_decide (hits = []) then (0, Some None)
    else if alloc then (lenZ hits, Some (Some hits)) else (0, Some None).
Proof.
  intros hits. unfold registry_select. cbn [negb]. rewrite count_matching_filter. fold hits.
  destruct hits as [|e k] eqn:Hh; [done|]. rewrite bool_decide_eq_false_2 by done.
  rewrite (proj2 (Z.eqb_neq _ _)) by (rewrite lenZ_cons; pose proof (lenZ_nonneg k); lia).
  destruct alloc; [|done]. cbn [negb].
  rewrite copy_matching_filter by (fold hits; rewrite Hh, lenZ_nil; lia).
  fold hits. by rewrite Hh.
Qed.

(** *** Export *)

Lemma entry_json_length e : 102 <= lenZ (entry_json e).
Proof.
  unfold entry_json. rewrite !lenZ_app.
  repeat match goal with
  | |- context [@lenZ ascii (cons ?c ?l)] =>
      let n := eval vm_compute in (@lenZ ascii (cons c l)) in
      change (@lenZ ascii (cons c l)) with n
  end.
  pose proof (lenZ_nonneg (re_name e)). pose proof (lenZ_nonneg (re_version e)).
  pose proof (lenZ_dec (re_request_count e)). pose proof (lenZ_dec (re_error_count e)).
  assert (lenZ (hex 8 (re_capabilities e)) = 8) as -> by (unfold lenZ; by rewrite length_hex).
  assert (4 <= lenZ (proto_category_to_string (re_category e))) by (by destruct (re_category e)).
  assert (5 <= lenZ (proto_state_to_string (re_state e))) by (by destruct (re_state e)).
  pose proof (lenZ_nonneg (print_f2 (re_avg_latency_ms e))).
  pose proof (lenZ_nonneg (dec_signed (to_int (re_type e)))). lia.
Qed.

(** A buffer [proto_registry_export_json] accepts but cannot use.  The
    loop guard computes [buffer_size - 200] without checking for underflow, so
    with 128 to 150 bytes, which pass the size check, exporting any non-empty
    registry writes past the end of the caller's buffer. *)
Theorem registry_export_overflow `{AiryErr} r buffer_size :
  reg_entries r <> [] -> 128 <= buffer_size <= 150 ->
  proto_registry_export_json (Some r) true buffer_size = Fault.
Proof.
  intros Hne Hb. unfold proto_registry_export_json. cbn [negb].
  rewrite (proj2 (Z.ltb_ge _ _)) by lia.
  set (h := _ ++ PROTO_REGISTRY_VERSION ++ _).
  assert (49 <= lenZ h <= 68) as Hh.
  { subst h. rewrite !lenZ_app. pose proof (lenZ_dec (lenZ (reg_entries r))).
    repeat match goal with
    | |- context [@lenZ ascii (cons ?c ?l)] =>
        let n := eval vm_compute in (@lenZ ascii (cons c l)) in
        change (@lenZ ascii (cons c l)) with n
    end. change (lenZ PROTO_REGISTRY_VERSION) with 5. lia. }
  rewrite sn_put_room by (cbn [sb_cap sb_off sb_new]; lia). cbn [mbind outcome_bind].
  destruct (reg_entries r) as [|e es]; [done|]. cbn [export_loop sb_cap sb_off sb_new].
  unfold strlen, u64.
  replace (buffer_size - 200) with (buffer_size - 200 + 2 ^ 64 + (-1) * 2 ^ 64) by lia.
  rewrite Z_mod_plus_full, Z.mod_small, (proj2 (Z.ltb_lt _ _)) by lia.
  cbn [mbind outcome_bind]. rewrite sn_put_room by (cbn [sb_cap sb_off sb_new]; lia).
  cbn [mbind outcome_bind sb_cap sb_off]. unfold strlen. pose proof (entry_json_length e).
  destruct es as [|e' es]; cbn [export_loop mbind outcome_bind];
    [|case_match; cbn [mbind outcome_bind]]; by rewrite sn_put_over by (cbn [sb_cap sb_off sb_new]; lia).
Qed.

Lemma registry_export_overflow_witness :
  @proto_registry_export_json inst_err (Some sample_registry) true 128 = Fault.
Proof. apply (@registry_export_overflow inst_err sample_registry 128); [done | lia]. Defined.
