(* ===== verification/RegistryMem.v ===== *)
(** * The registry's own block: core/registry/src/protocol_registry.c

    Making a registry, the one shared registry of the process, and destroying
    either.  [g_registry] is what the shared pointer points to. *)

From S2P Require Import Heap Registry.
#[local] Open Scope Z_scope.

Record registry_h := mkRegistryH {
  rh_block : addr;
  rh_fields : protocol_registry_t
}.

#[export] Instance own_registry : Owns registry_h := fun r => own (rh_block r).

Definition registry_create_mem : mem (option registry_h) :=
  p ← malloc; mret ((fun p => mkRegistryH p (mkRegistry [] false true)) <$> p).

(** [proto_registry_get]: the result is also the new [g_registry]. *)
Definition registry_get_mem (g_registry : option registry_h) : mem (option registry_h) :=
  match g_registry with None => registry_create_mem | Some _ => mret g_registry end.

Definition registry_destroy_mem (registry g_registry : option registry_h) : mem (option registry_h) :=
  match registry with
  | None => mret g_registry
  | Some r =>
      _ ← free (Some (rh_block r));
      mret (if decide (rh_block <$> g_registry = Some (rh_block r)) then None else g_registry)
  end.

Section spec.
Context `{Grants}.

Lemma own_registry_eq r : own r = own (rh_block r).
Proof. done. Qed.

Lemma spec_registry_create :
  constructs registry_create_mem (fun r =>
    (grants -> is_Some r) /\ (rh_fields <$> r = None \/ rh_fields <$> r = Some (mkRegistry [] false true))).
Proof.
  eapply spec_bind; [apply spec_malloc|]. intros p Y [-> Hg]. apply spec_ret.
  destruct p as [p|]; (split; [done|]); (split; [|by (left + right)]); intros HG; [done|].
  by destruct (Hg HG).
Qed.

(** The shared registry is destroyed and forgotten. *)
Lemma spec_destroy_shared g :
  spec (registry_destroy_mem g g) (own g) (fun g' Y => Y = ∅ /\ g' = None).
Proof.
  destruct g as [r|]; cbn [registry_destroy_mem]; [|by apply spec_ret].
  eapply spec_bind; [apply spec_free_block|]. intros _ Y ->. apply spec_ret. by rewrite decide_True.
Qed.

(** Another one is destroyed: the shared one stays.  Two live registries have
    different addresses. *)
Lemma spec_destroy_other (r : registry_h) g :
  spec (registry_destroy_mem (Some r) g) (own r ⊎ own g) (fun g' Y => Y = own g /\ g' = g).
Proof.
  intros F h Hok Hl. cbn [registry_destroy_mem].
  destruct (spec_free_block (rh_block r) (own g ⊎ F) h Hok) as ([] & h' & Y & Hr & Hok' & Hl' & ->).
  { rewrite Hl, own_registry_eq. multiset_solver. }
  exists g, h', (own g). rewrite (mem_bind_done _ _ _ _ _ Hr).
  assert (rh_block <$> g <> Some (rh_block r)) as Hne.
  { destruct g as [g|]; [|done]. cbn. intros [= Heq].
    destruct Hok as [Hwf _]. destruct (Hwf (rh_block r)) as [Hm _].
    rewrite Hl, own_some, !own_registry_eq, Heq in Hm. unfold own, own_addr in Hm.
    rewrite !multiplicity_disj_union, !multiplicity_singleton_eq in Hm. lia. }
  rewrite decide_False by done. split; [done|]. split; [done|]. rewrite Hl'.
  split; [apply (left_id_L ∅ (⊎))|done].
Qed.
End spec.

(** The shared registry is made on first use, then a second one is made and
    destroyed, the shared one asked for again and destroyed. *)
Definition registry_life : mem (option registry_h * option registry_h * option registry_h) :=
  g ← registry_get_mem None;
  r ← registry_create_mem;
  g1 ← registry_destroy_mem r g;
  g2 ← registry_get_mem g1;
  g3 ← registry_destroy_mem g2 g2;
  mret (g, g2, g3).

(** Destroying a second registry leaves the shared one in place; destroying the
    shared one resets it; nothing stays allocated and nothing is freed twice,
    whichever requests for memory fail. *)
Theorem registry_life_memory (h : heap) :
  heap_wf h ->
  exists g g2 h', registry_life h = Done (g, g2, None, h') /\ hp_live h' = hp_live h /\
    (forall r, g = Some r -> g2 = g /\ rh_fields r = mkRegistry [] false true).
Proof.
  intros Hwf.
  destruct (spec_closed registry_life (fun x => x.2 = None /\
    (forall r, x.1.1 = Some r -> x.1.2 = x.1.1 /\ rh_fields r = mkRegistry [] false true)) h Hwf)
    as (((g & g2) & g3) & h' & Hr & Hl & Hg3 & Hg); [|cbn in *; subst; eauto 10].
  unfold registry_life. eapply spec_new; [exact spec_registry_create|]. intros g [_ Hg].
  eapply spec_new; [exact spec_registry_create|]. intros r _.
  eapply (spec_step _ _ _ (own r ⊎ own g) ∅ (fun g' Y => Y = own g /\ g' = g)); [|multiset_solver|].
  { destruct r as [r|]; [apply spec_destroy_other|]. apply spec_ret.
    split; [apply (left_id_L ∅ (⊎))|done]. }
  intros _ Y [-> ->].
  eapply (spec_step _ _ _ (own g) ∅ (fun g2 Y => Y = own g2 /\ (is_Some g -> g2 = g))); [|done|].
  { destruct g as [g|]; [by apply spec_ret|]. eapply spec_conseq; [exact spec_registry_create|done|].
    intros a Y [-> _]. split; [done|]. by intros [??]. }
  intros g2 Y [-> Hg2].
  eapply spec_step; [apply spec_destroy_shared|done|]. intros g3 Y [-> ->]. apply spec_ret.
  split; [multiset_solver|]. split; [done|]. cbn. intros x ->. split; [apply Hg2; eauto|].
  by destruct Hg as [?|[=]].
Qed.

Lemma registry_life_memory_witness :
  exists g g2 h', registry_life (heap_init (fun _ => true)) = Done (g, g2, None, h') /\
    hp_live h' = hp_live (heap_init (fun _ => true)) /\
    (forall r, g = Some r -> g2 = g /\ rh_fields r = mkRegistry [] false true).
Proof. exact (registry_life_memory _ (heap_init_wf _)). Defined.
