(* ===== verification/Catalog.v ===== *)
(** * Assembly data and discovery: catalog/, standards/, src/airy_protocol_interface.c

    The catalog lists the built-in protocols; the provider table binds the
    open-standard ones to their adapters; the discovery interface registers
    them once and answers lookups by name and by type. *)

From stdpp Require Import gmap list.
From S2P Require Export Registry.
From S2P Require Import EnvInst Stack.

(** ** Capability flags *)

Definition PROTO_CAP_STREAMING : Z := 0x0002.
Definition PROTO_CAP_RESOURCE_ACCESS : Z := 0x0010.
Definition PROTO_CAP_AGENT_DISCOVERY : Z := 0x0020.
Definition PROTO_CAP_EMBEDDINGS : Z := 0x0100.
Definition PROTO_CAP_BATCH : Z := 0x00010000.
Definition PROTO_CAP_TOOL_CALLING : Z := 0x00020000.
Definition PROTO_CAP_CONSENSUS : Z := 0x00040000.
Definition PROTO_CAP_BINARY : Z := 0x00080000.
Definition PROTO_CAP_LOW_LATENCY : Z := 0x00100000.
Definition PROTO_CAP_CRC_CHECKSUM : Z := 0x00200000.
Definition PROTO_CAP_MULTIMODAL : Z := 0x00400000.
Definition PROTO_CAP_VISION : Z := 0x00800000.
Definition PROTO_CAP_EXTENDED_THINKING : Z := 0x01000000.

(** ** Vendor ids: catalog/include/protocol_vendor_ids.h *)

Definition AIRY_PROTOCOL_OPENAI : airy_protocol_type_t := AIRY_PROTOCOL_VENDOR_BASE + 0.
Definition AIRY_PROTOCOL_OPENJIUWEN : airy_protocol_type_t := AIRY_PROTOCOL_VENDOR_BASE + 1.
Definition AIRY_PROTOCOL_CLAUDE : airy_protocol_type_t := AIRY_PROTOCOL_VENDOR_BASE + 2.
Definition AIRY_PROTOCOL_CHINA_ECO : airy_protocol_type_t := AIRY_PROTOCOL_VENDOR_BASE + 3.
Definition AIRY_PROTOCOL_OPENCLAW : airy_protocol_type_t := AIRY_PROTOCOL_VENDOR_BASE + 5.

(** ** Providers and catalog *)

(** An adapter as its accessor returns it: its address and its context. *)
Definition adapter_ref : Type := ptr * option ptr.

Record proto_adapter_provider_t := mkProvider {
  pr_type : airy_protocol_type_t;
  pr_get_adapter : option (option adapter_ref)
}.

(** [a2a] and [mcp] are what [a2a_v03_get_adapter] and [mcp_v1_get_adapter]
    return; [has_mcp] is whether AIRY_HAS_MCP is defined. *)
Definition proto_std_providers (has_mcp : bool) (a2a mcp : adapter_ref)
    : list proto_adapter_provider_t :=
  mkProvider AIRY_PROTOCOL_A2A (Some (Some a2a))
  :: if has_mcp then [mkProvider AIRY_PROTOCOL_MCP (Some (Some mcp))] else [].

Definition catalog_adapter_of (providers : list proto_adapter_provider_t)
    (type : airy_protocol_type_t) : option adapter_ref :=
  i ← find_idx (fun p => (pr_type p =? type) && bool_decide (is_Some (pr_get_adapter p))) providers;
  p ← providers !! i;
  match pr_get_adapter p with Some a => a | None => None end.

Definition catalog_def (name version description : bytes) (category : proto_category_t)
    (type caps : Z) : proto_builtin_def_t :=
  mkDef (Some name) (Some version) (Some description) category type caps None None.

Definition caps (l : list Z) : Z := foldr Z.lor 0 l.

Definition g_catalog_defs : list proto_builtin_def_t := [
  catalog_def "JSON-RPC"%cs "2.0"%cs "原生JSON-RPC 2.0协议适配器"%cs PROTO_CAT_CORE
    AIRY_PROTOCOL_JSON_RPC (caps [PROTO_CAP_STREAMING; PROTO_CAP_BATCH]);
  catalog_def "MCP"%cs "1.0"%cs "Model Context Protocol v1.0"%cs PROTO_CAT_STANDARD
    AIRY_PROTOCOL_MCP (caps [PROTO_CAP_TOOL_CALLING; PROTO_CAP_STREAMING; PROTO_CAP_RESOURCE_ACCESS]);
  catalog_def "A2A"%cs "0.3"%cs "Agent-to-Agent Protocol v0.3"%cs PROTO_CAT_STANDARD
    AIRY_PROTOCOL_A2A (caps [PROTO_CAP_AGENT_DISCOVERY; PROTO_CAP_STREAMING; PROTO_CAP_CONSENSUS]);
  catalog_def "openai"%cs "1.0"%cs "OpenAI 兼容 Chat Completions API 适配器"%cs
    PROTO_CAT_INTEGRATION AIRY_PROTOCOL_OPENAI
    (caps [PROTO_CAP_STREAMING; PROTO_CAP_TOOL_CALLING; PROTO_CAP_EMBEDDINGS]);
  catalog_def "openjiuwen"%cs "1.0"%cs "OpenJiuwen 自定义二进制协议"%cs
    PROTO_CAT_INTEGRATION AIRY_PROTOCOL_OPENJIUWEN
    (caps [PROTO_CAP_BINARY; PROTO_CAP_LOW_LATENCY; PROTO_CAP_CRC_CHECKSUM]);
  catalog_def "openclaw"%cs "1.0"%cs "OpenClaw 九问平台集成适配器"%cs
    PROTO_CAT_INTEGRATION AIRY_PROTOCOL_OPENCLAW
    (caps [PROTO_CAP_MULTIMODAL; PROTO_CAP_STREAMING; PROTO_CAP_AGENT_DISCOVERY;
           PROTO_CAP_TOOL_CALLING]);
  catalog_def "Claude"%cs "1.0"%cs "Anthropic Claude API适配器"%cs
    PROTO_CAT_INTEGRATION AIRY_PROTOCOL_CLAUDE
    (caps [PROTO_CAP_STREAMING; PROTO_CAP_TOOL_CALLING; PROTO_CAP_VISION;
           PROTO_CAP_EXTENDED_THINKING]);
  catalog_def "ChinaEco"%cs "1.0"%cs "国内大模型生态统一兼容适配器"%cs
    PROTO_CAT_INTEGRATION AIRY_PROTOCOL_CHINA_ECO
    (caps [PROTO_CAP_STREAMING; PROTO_CAP_TOOL_CALLING; PROTO_CAP_EMBEDDINGS])
].

Definition proto_catalog_defs (providers : list proto_adapter_provider_t)
    : list proto_builtin_def_t :=
  (fun d =>
     let adapter := catalog_adapter_of providers (bd_type d) in
     mkDef (bd_name d) (bd_version d) (bd_description d) (bd_category d) (bd_type d)
       (bd_capabilities d) (fst <$> adapter) (adapter ≫= snd)) <$> g_catalog_defs.

(** ** Discovery: src/airy_protocol_interface.c *)

Record proto_adapter_entry_t := mkAEntry {
  ae_name : bytes;
  ae_version : bytes;
  ae_description : bytes;
  ae_type : airy_protocol_type_t;
  ae_capabilities : Z;
  ae_is_builtin : bool
}.

(** The process-wide state: [g_registry], [g_adapter_registry] from its head,
    [g_adapter_count] and the [registered] flag. *)
Record iface_state := mkIface {
  if_registry : option protocol_registry_t;
  if_adapters : list proto_adapter_entry_t;
  if_adapter_count : Z;
  if_registered : bool
}.

#[export] Instance eta_iface : Eta iface_state := fun s =>
  mkIface (if_registry s) (if_adapters s) (if_adapter_count s) (if_registered s).

Definition proto_registry_get (alloc : bool) (g_registry : option protocol_registry_t)
    : option protocol_registry_t :=
  match g_registry with
  | None => proto_registry_create alloc
  | Some _ => g_registry
  end.

(** One new list entry; [alloc] is the allocation of the node. *)
Definition add_adapter_entry (alloc : bool) (e : proto_registry_entry_t) (s : iface_state)
    : iface_state :=
  if alloc then
    s <| if_adapters ::= cons (mkAEntry (re_name e) (re_version e) (re_description e) (re_type e)
                                 (re_capabilities e) true) |>
      <| if_adapter_count ::= Z.add 1 |>
  else s.

Fixpoint add_entries (alloc : nat -> bool) (k : nat) (l : list proto_registry_entry_t)
    (s : iface_state) : iface_state :=
  match l with
  | [] => s
  | e :: r => add_entries alloc (S k) r (add_adapter_entry (alloc k) e s)
  end.

(** [alloc 0] is the registry, [alloc 1] the array of active entries and
    [alloc (2 + k)] the [k]-th list node. *)
Definition proto_interface_register_builtins `{AiryErr} (alloc : nat -> bool) (now : Z)
    (defs : list proto_builtin_def_t) (s : iface_state) : Z * iface_state :=
  if if_registered s then (0, s)
  else
    let registry := proto_registry_get (alloc 0%nat) (if_registry s) in
    let s := s <| if_registry := registry |> in
    match registry with
    | None => (AIRY_EINVAL, s)
    | Some _ =>
        if lenZ defs =? 0 then (AIRY_EINVAL, s)
        else
          let '(count, registry, _) := proto_reg_builtins now registry (Some defs) in
          let s := s <| if_registry := registry |> in
          let s :=
            if 0 <? count then
              match proto_registry_list_active (alloc 1%nat) registry true with
              | (total, Some (Some entries)) =>
                  add_entries (fun k => alloc (2 + k)%nat) 0 (take (Z.to_nat total) entries) s
              | _ => s
              end
            else s in
          (count, s <| if_registered := true |>)
    end.

Definition proto_interface_find (s : iface_state) (name : option bytes)
    : option proto_adapter_entry_t :=
  n ← name; i ← find_idx (fun e => streq (ae_name e) n) (if_adapters s); if_adapters s !! i.

(** The texts the loop prints: a comma before every entry but the head. *)
Definition list_all_pieces (s : iface_state) : list bytes :=
  ["{'adapters':["%cs]
  ++ comma_sep (fun e => "'"%cs ++ ae_name e ++ "'"%cs) (if_adapters s)
  ++ ["],'count':"%cs ++ dec (if_adapter_count s) ++ "}"%cs].

Definition proto_interface_list_all `{AiryErr} (alloc : bool) (s : iface_state)
    (has_out : bool) : outcome (Z * option bytes) :=
  if negb has_out then Done (AIRY_EINVAL, None)
  else
    let buf_size := u64 (512 + if_adapter_count s * 256) in
    if negb alloc then Done (AIRY_ERR_OUT_OF_MEMORY, None)
    else
      text ← sn_run buf_size (list_all_pieces s);
      Done (0, Some text).

(** Both lookups create the registry when there is none yet. *)
Definition proto_interface_type_name (alloc : bool) (s : iface_state)
    (type : airy_protocol_type_t) : bytes * iface_state :=
  if AIRY_PROTOCOL_VENDOR_BASE <=? type then
    let registry := proto_registry_get alloc (if_registry s) in
    let s := s <| if_registry := registry |> in
    match proto_registry_find_by_type registry type with
    | Some e => if streq (re_name e) [] then (protocol_type_name type, s) else (re_name e, s)
    | None => (protocol_type_name type, s)
    end
  else (protocol_type_name type, s).

Definition proto_interface_parse_type (alloc : bool) (s : iface_state) (name : option bytes)
    : airy_protocol_type_t * iface_state :=
  match name with
  | None => (PROTOCOL_CUSTOM, s)
  | Some n =>
      let registry := proto_registry_get alloc (if_registry s) in
      let s := s <| if_registry := registry |> in
      match proto_registry_find registry name with
      | Some (_, e) => (re_type e, s)
      | None => (protocol_type_from_string name, s)
      end
  end.

(** ** Properties *)

Definition iface_init : iface_state := mkIface None [] 0 false.

(** The state after a start-up in which memory is available. *)
Definition after_startup `{AiryErr} (now : Z) (providers : list proto_adapter_provider_t)
    : iface_state :=
  snd (proto_interface_register_builtins (fun _ => true) now (proto_catalog_defs providers)
         iface_init).

(** The registry entry and the list node of a catalog entry after start-up. *)
Definition builtin_entry (now : Z) (d : proto_builtin_def_t) : proto_registry_entry_t :=
  (new_entry now (default [] (bd_name d)) (bd_version d) (bd_description d) (bd_category d)
     (bd_type d) (bd_capabilities d) (bd_adapter d) (bd_context d))
    <| re_state := PROTO_STATE_ACTIVE |> <| re_activated_at := u64 now |>
    <| re_is_builtin := true |>.

Definition builtin_node (e : proto_registry_entry_t) : proto_adapter_entry_t :=
  mkAEntry (re_name e) (re_version e) (re_description e) (re_type e) (re_capabilities e) true.

Definition started (now : Z) (providers : list proto_adapter_provider_t) : iface_state :=
  let entries := builtin_entry now <$> proto_catalog_defs providers in
  mkIface (Some (mkRegistry entries false true)) (rev (builtin_node <$> entries)) 8 true.

Lemma startup_result `{AiryErr} now has_mcp a2a mcp :
  let providers := proto_std_providers has_mcp a2a mcp in
  proto_interface_register_builtins (fun _ => true) now (proto_catalog_defs providers) iface_init
  = (8, started now providers).
Proof. destruct a2a, mcp, has_mcp; cbv -[u64]; reflexivity. Qed.

(** C35. Start-up.  Registering the built-in catalog on a fresh process
    registers all eight protocols and leaves every one of them active and
    discoverable by name; names and type ids then convert into each other,
    and vendor ids resolve to the vendor's name.  Only the protocols with a
    provider carry an adapter.  A second call changes nothing. *)
Theorem builtins_startup `{AiryErr} now a2a mcp has_mcp :
  let providers := proto_std_providers has_mcp a2a mcp in
  let s := after_startup now providers in
  fst (proto_interface_register_builtins (fun _ => true) now (proto_catalog_defs providers)
         iface_init) = 8 /\
  (forall now' alloc, proto_interface_register_builtins alloc now' (proto_catalog_defs providers) s
                      = (0, s)) /\
  exists r, if_registry s = Some r /\
    Forall (fun e => re_state e = PROTO_STATE_ACTIVE /\ re_is_builtin e = true /\
              re_activated_at e = u64 now /\
              (exists a, proto_interface_find s (Some (re_name e)) = Some a /\ ae_type a = re_type e) /\
              proto_interface_parse_type true s (Some (re_name e)) = (re_type e, s) /\
              proto_interface_type_name true s (re_type e) = (re_name e, s))
      (reg_entries r) /\
    (re_type <$> reg_entries r) = [0; 1; 2; 3; 4; 8; 5; 6] /\
    (re_adapter <$> reg_entries r)
    = [None; if has_mcp then Some (fst mcp) else None; Some (fst a2a); None; None; None; None; None].
Proof.
  intros providers s. subst s. unfold after_startup, providers.
  rewrite startup_result. cbn [fst snd]. split; [done|]. split; [done|].
  eexists. split; [reflexivity|].
  assert (Forall (fun d =>
    let s := started now providers in let e := builtin_entry now d in
    proto_interface_find s (Some (re_name e)) = Some (builtin_node e) /\
    proto_interface_parse_type true s (Some (re_name e)) = (re_type e, s) /\
    proto_interface_type_name true s (re_type e) = (re_name e, s)) (proto_catalog_defs providers))
    as Hall.
  { apply Forall_fmap. unfold g_catalog_defs. subst providers.
    destruct a2a, mcp, has_mcp;
      repeat (apply Forall_cons; split; [split_and!; cbv -[u64]; reflexivity|]);
      apply Forall_nil_2. }
  split; [|by destruct a2a, mcp, has_mcp].
  apply Forall_fmap. eapply Forall_impl; [exact Hall|]. intros d (Hf & Hp & Ht).
  do 3 (split; [done|]). split; [|done]. by exists (builtin_node (builtin_entry now d)).
Qed.
