(* ===== verification/Detect.v ===== *)
(** * Payload-level protocol detection: core/router/src/protocol_detect.c *)

From S2P Require Export Unified.
From S2P Require Import EnvInst.

Definition DETECT_UNKNOWN : airy_protocol_type_t := AIRY_PROTOCOL_COUNT.

Section detect.
Context `{CJson}.

Definition has_key (obj : cJSON) (key : bytes) : bool :=
  bool_decide (is_Some (cJSON_GetObjectItemCaseSensitive obj key)).

Definition method_has_prefix (method : option cJSON) (prefix : bytes) : bool :=
  match json_string method with
  | Some s => strneq (length prefix) s prefix
  | None => false
  end.

Definition strcmp_is (j : option cJSON) (s : bytes) : outcome bool :=
  match j ≫= valuestring with
  | Some v => Done (streq v s)
  | None => Fault
  end.

(** A JSON-RPC envelope is told apart by its method name. *)
Definition detect_method (method : option cJSON) : airy_protocol_type_t :=
  if method_has_prefix method "tools/"%cs || method_has_prefix method "resources/"%cs
     || method_has_prefix method "prompts/"%cs then AIRY_PROTOCOL_MCP
  else if method_has_prefix method "tasks/"%cs || method_has_prefix method "task/"%cs
          || method_has_prefix method "message/"%cs then AIRY_PROTOCOL_A2A
  else AIRY_PROTOCOL_JSON_RPC.

(** Other objects are told apart by the keys they have. *)
Definition detect_keys (json : cJSON) : airy_protocol_type_t :=
  if has_key json "model"%cs && (has_key json "messages"%cs || has_key json "prompt"%cs)
  then AIRY_PROTOCOL_LLM
  else if has_key json "agent_id"%cs && (has_key json "task_id"%cs || has_key json "message"%cs)
  then AIRY_PROTOCOL_A2A
  else if has_key json "agentCard"%cs || has_key json "task"%cs || has_key json "a2a"%cs
  then AIRY_PROTOCOL_A2A
  else DETECT_UNKNOWN.

Definition proto_detect_body (data : option bytes) (size : Z) : outcome airy_protocol_type_t :=
  match data with
  | None => Done DETECT_UNKNOWN
  | Some d =>
      if size =? 0 then Done DETECT_UNKNOWN
      else match cJSON_ParseWithLength (take (Z.to_nat size) d) with
      | None => Done DETECT_UNKNOWN
      | Some json =>
          let jsonrpc := cJSON_GetObjectItemCaseSensitive json "jsonrpc"%cs in
          let method := cJSON_GetObjectItemCaseSensitive json "method"%cs in
          is_v2 ← (if cJSON_IsString jsonrpc then strcmp_is jsonrpc "2.0"%cs else Done false);
          Done (if is_v2 && cJSON_IsString method then detect_method method
                else detect_keys json)
      end
  end.

(** ** Properties *)

Lemma strneq_prefix s p : strneq (length p) s p = starts_with p s.
Proof.
  unfold strneq. rewrite (take_ge p) by lia.
  destruct (starts_with p s) eqn:E.
  - apply bool_decide_eq_true_2. apply starts_with_spec in E as [r ->].
    apply take_app_length.
  - apply bool_decide_eq_false_2. intros Heq. apply not_true_iff_false in E. apply E.
    apply starts_with_spec. exists (drop (length p) s). rewrite <- Heq at 1. by rewrite take_drop.
Qed.

(** The namespaces of the method names. *)
Definition mcp_method (m : bytes) : Prop :=
  exists n rest, n ∈ ["tools/"%cs; "resources/"%cs; "prompts/"%cs] /\ m = n ++ rest.
Definition a2a_method (m : bytes) : Prop :=
  exists n rest, n ∈ ["tasks/"%cs; "task/"%cs; "message/"%cs] /\ m = n ++ rest.

Lemma namespaces m a b c :
  starts_with a m || starts_with b m || starts_with c m = true
  <-> exists n rest, n ∈ [a; b; c] /\ m = n ++ rest.
Proof.
  rewrite !orb_true_iff, !starts_with_spec. split.
  - intros [[[r ->]|[r ->]]|[r ->]]; do 2 eexists; (split; [|done]); set_solver.
  - intros (n & r & Hn & ->). rewrite !elem_of_cons in Hn.
    destruct Hn as [->|[->|[->|?%not_elem_of_nil]]]; naive_solver.
Qed.

Lemma namespaces_disjoint m : mcp_method m -> a2a_method m -> False.
Proof.
  intros (n & r & Hn & ->) (n' & r' & Hn' & Heq).
  rewrite !elem_of_cons in Hn, Hn'.
  destruct Hn as [->|[->|[->|?%not_elem_of_nil]]]; try done;
  destruct Hn' as [->|[->|[->|?%not_elem_of_nil]]]; try done; discriminate Heq.
Qed.

End detect.

(** C37. Detection inside a JSON-RPC envelope.  Whatever else the object
    holds, a body whose [jsonrpc] is "2.0" and whose [method] is a string is
    MCP exactly when the method is in one of the namespaces tools/,
    resources/, prompts/, A2A exactly when it is in tasks/, task/, message/,
    and plain JSON-RPC exactly otherwise. *)
Theorem detect_envelope `{CJson} d size json jv mv m :
  0 < size -> cJSON_ParseWithLength (take (Z.to_nat size) d) = Some json ->
  cJSON_GetObjectItemCaseSensitive json "jsonrpc"%cs = Some jv ->
  json_string (Some jv) = Some "2.0"%cs ->
  cJSON_GetObjectItemCaseSensitive json "method"%cs = Some mv ->
  json_string (Some mv) = Some m ->
  exists t, proto_detect_body (Some d) size = Done t /\
    (t = AIRY_PROTOCOL_MCP <-> mcp_method m) /\
    (t = AIRY_PROTOCOL_A2A <-> a2a_method m) /\
    (t = AIRY_PROTOCOL_JSON_RPC <-> ~ mcp_method m /\ ~ a2a_method m).
Proof.
  intros Hsz Hp Hj Hjv Hm Hmv. unfold proto_detect_body.
  rewrite (proj2 (Z.eqb_neq _ _)) by lia. rewrite Hp, Hj, Hm.
  assert (cJSON_IsString (Some jv) = true /\ valuestring jv = Some "2.0"%cs) as [-> Hv].
  { revert Hjv. unfold json_string. by destruct (cJSON_IsString (Some jv)). }
  assert (cJSON_IsString (Some mv) = true) as ->.
  { revert Hmv. unfold json_string. by destruct (cJSON_IsString (Some mv)). }
  unfold strcmp_is. cbn [mbind option_bind outcome_bind]. rewrite Hv, streq_refl. cbn [mbind outcome_bind andb].
  eexists. split; [reflexivity|]. unfold detect_method, method_has_prefix. rewrite Hmv.
  rewrite !strneq_prefix. unfold mcp_method, a2a_method.
  rewrite <- !namespaces. pose proof (namespaces_disjoint m) as Hd.
  unfold mcp_method, a2a_method in Hd. rewrite <- !namespaces in Hd.
  unfold AIRY_PROTOCOL_MCP, AIRY_PROTOCOL_A2A, AIRY_PROTOCOL_JSON_RPC.
  destruct (_ || _ || starts_with "prompts/"%cs m), (_ || _ || starts_with "message/"%cs m);
    naive_solver lia.
Qed.

Lemma detect_envelope_witness :
  let d := "{'jsonrpc':'2.0','model':'x','messages':[],'method':'tools/call'}"%cs in
  exists t, @proto_detect_body inst_cjson (Some d) (lenZ d) = Done t /\
    (t = AIRY_PROTOCOL_MCP <-> mcp_method "tools/call"%cs) /\
    (t = AIRY_PROTOCOL_A2A <-> a2a_method "tools/call"%cs) /\
    (t = AIRY_PROTOCOL_JSON_RPC <-> ~ mcp_method "tools/call"%cs /\ ~ a2a_method "tools/call"%cs).
Proof.
  eapply (@detect_envelope inst_cjson); [by vm_compute | by vm_compute | by vm_compute
    | by vm_compute | by vm_compute | by vm_compute].
Defined.
