(* ===== verification/Transform.v ===== *)
(** * Protocol transforms: core/transformers, catalog/src/protocol_catalog_transforms.c

    The transforms rewrite a message of one protocol into a message of
    another.  Payloads are read as C strings; a payload without a NUL is read
    past its end, which is [Fault].  The result payload is a fresh copy, except
    that the fallback of the dispatcher copies the source message itself. *)

From S2P Require Export Unified.
From S2P Require Import EnvInst.

(** ** Context *)

Record transform_context_t := mkCtx {
  tc_source_protocol : bytes;
  tc_target_protocol : bytes;
  tc_agent_id : bytes;
  tc_session_id : bytes;
  tc_trace_id : bytes;
  tc_jsonrpc_id_counter : Z
}.

Definition transform_context_create `{AiryString} (alloc : bool)
    (src_proto tgt_proto : option bytes) : option transform_context_t :=
  if negb alloc then None
  else
    let name p := match p with Some s => AIRY_STRNCPY_TERM s 32 | None => [] end in
    Some (mkCtx (name src_proto) (name tgt_proto) [] [] [] 0).

(** ** Helpers: protocol_transform_inline.h *)

Definition envelope_init `{AiryString} (protocol : airy_protocol_type_t) (endpoint : bytes)
    (direction : message_direction_t) : unified_message_t :=
  um_zero <| um_protocol := protocol |> <| um_endpoint := AIRY_STRNCPY_TERM endpoint 256 |>
          <| um_direction := direction |>.

Definition set_trace `{AiryString} (ctx : option transform_context_t) (t : unified_message_t)
    : unified_message_t :=
  match ctx with
  | Some c => if streq (tc_trace_id c) [] then t
              else t <| um_trace_id := AIRY_STRNCPY_TERM (tc_trace_id c) 64 |>
  | None => t
  end.

Definition set_session `{AiryString} (ctx : option transform_context_t) (t : unified_message_t)
    : unified_message_t :=
  match ctx with
  | Some c => if streq (tc_session_id c) [] then t
              else t <| um_session_id := AIRY_STRNCPY_TERM (tc_session_id c) 64 |>
  | None => t
  end.

Definition set_sender `{AiryString} (ctx : option transform_context_t) (t : unified_message_t)
    : unified_message_t :=
  match ctx with
  | Some c => if streq (tc_agent_id c) [] then t
              else t <| um_sender_id := AIRY_STRNCPY_TERM (tc_agent_id c) 64 |>
  | None => t
  end.

Definition envelope_meta `{AiryString} (ctx : option transform_context_t)
    (t : unified_message_t) : unified_message_t :=
  set_session ctx (set_trace ctx t).

(** The C string an object holds. *)
Definition payload_str (p : bytes) : outcome bytes :=
  if bool_decide (NUL ∈ p) then Done (cstr_of p) else Fault.

(** [payload = AIRY_STRDUP(s); payload_size = strlen(s) + 1] *)
Definition set_payload (s : bytes) (t : unified_message_t) : unified_message_t :=
  t <| um_payload := Some (s ++ [NUL]) |> <| um_payload_size := u64 (strlen s + 1) |>.

Definition payload_pass (source : unified_message_t) (fallback : bytes) (t : unified_message_t)
    : outcome unified_message_t :=
  match um_payload source with
  | Some p => s ← payload_str p; Done (set_payload s t)
  | None => Done (set_payload fallback t)
  end.

(** [strchr(s, c) + 1] *)
Definition after (s : bytes) (c : ascii) : option bytes :=
  k ← strchr s c; Some (drop (S k) s).

(** The text up to the next [c]. *)
Definition before (s : bytes) (c : ascii) : option bytes :=
  k ← strchr s c; Some (take k s).

(** ** MCP *)

Definition request_name (payload : bytes) : option bytes :=
  p ← strstr payload "'name'"%cs;
  v ← after p ":";
  start ← after v QUOTE;
  before start QUOTE.

Definition value_after_colon (payload key : bytes) : bytes :=
  match (p ← strstr payload key; after p ":") with
  | Some v => v
  | None => "{}"%cs
  end.

Definition mcp_params (name arguments : bytes) : bytes :=
  "{'name':'"%cs ++ name ++ "','arguments':"%cs ++ arguments ++ "}"%cs.

Definition jsonrpc_to_mcp_request `{AiryString} (source : unified_message_t)
    (ctx : option transform_context_t) : outcome unified_message_t :=
  let t := um_zero <| um_protocol := PROTOCOL_CUSTOM |>
             <| um_protocol_name := AIRY_STRNCPY_TERM "mcp"%cs 64 |>
             <| um_direction := DIRECTION_REQUEST |>
             <| um_method := AIRY_STRNCPY_TERM "tools/call"%cs 64 |> in
  let t := set_trace ctx t in
  '(name, arguments) ←
    match um_payload source with
    | Some p =>
        s ← payload_str p; Done (request_name s, value_after_colon s "'arguments'"%cs)
    | None => Done (None, "{}"%cs)
    end;
  Done (set_payload (fits 4096 (mcp_params (default "unknown"%cs name) arguments)) t).

Definition output_json (text : bytes) : bytes :=
  fits 8192 ("{'output':"%cs ++ text ++ ",'status':'success'}"%cs).

(** The text of a result, as the code looks for it: from [text_key + 5] on. *)
Definition response_content (payload : bytes) : bytes :=
  match strstr payload "'text'"%cs with
  | Some text_key =>
      match after (drop 5 text_key) QUOTE with
      | Some content =>
          match before content QUOTE with
          | Some tmp => output_json tmp
          | None => output_json payload
          end
      | None => []
      end
  | None => output_json payload
  end.

Definition mcp_to_jsonrpc_response `{AiryString} (source : unified_message_t)
    (ctx : option transform_context_t) : outcome unified_message_t :=
  let t := envelope_init PROTOCOL_HTTP "jsonrpc"%cs
             (if um_is_error source then DIRECTION_ERROR else DIRECTION_RESPONSE) in
  let t := envelope_meta ctx t in
  if um_is_error source then
    let t := t <| um_error_code := um_error_code source |> in
    match um_payload source with
    | Some p => s ← payload_str p; Done (t <| um_error_msg := fits 256 s |>)
    | None => Done (t <| um_error_msg := "MCP error"%cs |>)
    end
  else
    match um_payload source with
    | Some p => s ← payload_str p; Done (set_payload (response_content s) t)
    | None => Done (set_payload "{'output':'','status':'success'}"%cs t)
    end.

Definition mcp_tools_list_to_jsonrpc `{AiryString} (source : unified_message_t)
    (ctx : option transform_context_t) : outcome unified_message_t :=
  payload_pass source "{'skills':[]}"%cs
    (envelope_meta ctx (envelope_init PROTOCOL_HTTP "jsonrpc"%cs DIRECTION_RESPONSE)).

(** ** A2A *)

Definition task_description (payload : bytes) : bytes :=
  match (k ← strstr payload "'description'"%cs; after (drop 11 k) QUOTE) with
  | Some v => v
  | None => []
  end.

Definition jsonrpc_to_a2a_task `{AiryString} (source : unified_message_t)
    (ctx : option transform_context_t) : outcome unified_message_t :=
  let t := (envelope_init PROTOCOL_CUSTOM "a2a"%cs DIRECTION_REQUEST)
             <| um_method := AIRY_STRNCPY_TERM "task/delegate"%cs 64 |> in
  let t := set_trace ctx (set_sender ctx t) in
  '(description, input_data) ←
    match um_payload source with
    | Some p => s ← payload_str p; Done (task_description s, value_after_colon s "'input'"%cs)
    | None => Done ([], "{}"%cs)
    end;
  Done (set_payload (fits 8192 ("{'description':"%cs ++ description ++ ",'input_data':"%cs
                                ++ input_data ++ "}"%cs)) t).

Definition a2a_to_jsonrpc_response `{AiryString} (source : unified_message_t)
    (ctx : option transform_context_t) : outcome unified_message_t :=
  payload_pass source "{'result':{}}"%cs
    (envelope_meta ctx (envelope_init PROTOCOL_HTTP "jsonrpc"%cs DIRECTION_RESPONSE)).

Definition jsonrpc_to_a2a_discover `{AiryString} (ctx : option transform_context_t)
    : outcome unified_message_t :=
  let t := set_trace ctx (set_sender ctx
             (envelope_init PROTOCOL_CUSTOM "a2a/agent/discover"%cs DIRECTION_REQUEST)) in
  Done (t <| um_payload := Some ("{}"%cs ++ [NUL]) |> <| um_payload_size := 3 |>).

Definition a2a_agents_to_jsonrpc `{AiryString} (source : unified_message_t)
    (ctx : option transform_context_t) : outcome unified_message_t :=
  payload_pass source "{'agents':[]}"%cs
    (envelope_meta ctx (envelope_init PROTOCOL_HTTP "jsonrpc"%cs DIRECTION_RESPONSE)).

(** ** The C functions: null checks around the transforms *)

Definition transform_fn : Type :=
  option unified_message_t -> option unified_message_t -> option transform_context_t
  -> outcome (Z * option unified_message_t).

Definition checked `{AiryErr}
    (f : unified_message_t -> option transform_context_t -> outcome unified_message_t)
    : transform_fn :=
  fun source target ctx =>
    match source, target with
    | Some s, Some _ => t ← f s ctx; Done (0, Some t)
    | _, _ => Done (AIRY_ERR_NULL_POINTER, target)
    end.

Definition transformer_jsonrpc_to_mcp_request `{AiryErr} `{AiryString} : transform_fn :=
  checked jsonrpc_to_mcp_request.
Definition transformer_mcp_to_jsonrpc_response `{AiryErr} `{AiryString} : transform_fn :=
  checked mcp_to_jsonrpc_response.
Definition transformer_mcp_tools_list_to_jsonrpc `{AiryErr} `{AiryString} : transform_fn :=
  checked mcp_tools_list_to_jsonrpc.
Definition transformer_jsonrpc_to_a2a_task `{AiryErr} `{AiryString} : transform_fn :=
  checked jsonrpc_to_a2a_task.
Definition transformer_a2a_to_jsonrpc_response `{AiryErr} `{AiryString} : transform_fn :=
  checked a2a_to_jsonrpc_response.
Definition transformer_jsonrpc_to_a2a_discover `{AiryErr} `{AiryString} : transform_fn :=
  fun source target ctx =>
    match target with
    | Some _ => t ← jsonrpc_to_a2a_discover ctx; Done (0, Some t)
    | None => Done (AIRY_ERR_NULL_POINTER, None)
    end.
Definition transformer_a2a_agents_to_jsonrpc `{AiryErr} `{AiryString} : transform_fn :=
  checked a2a_agents_to_jsonrpc.

(** ** The dispatcher *)

Record proto_transform_def_t := mkTransform {
  td_from_proto : bytes;
  td_to_proto : bytes;
  td_transform : transform_fn
}.

(** Tables without their null sentinel. *)
Definition g_transform_table `{AiryErr} `{AiryString} : list proto_transform_def_t := [
  mkTransform "jsonrpc"%cs "mcp"%cs transformer_jsonrpc_to_mcp_request;
  mkTransform "mcp"%cs "jsonrpc"%cs transformer_mcp_to_jsonrpc_response;
  mkTransform "jsonrpc"%cs "a2a"%cs transformer_jsonrpc_to_a2a_task;
  mkTransform "a2a"%cs "jsonrpc"%cs transformer_a2a_to_jsonrpc_response].

Definition proto_xform_defs : list proto_transform_def_t := [].

(** [alloc] is whether the context is allocated. *)
Fixpoint dispatch_table `{AiryErr} `{AiryString} (alloc : bool)
    (table : list proto_transform_def_t) (from to : bytes)
    (source target : option unified_message_t) : outcome (Z * option unified_message_t) :=
  match table with
  | [] => Done (AIRY_ERR_NOT_FOUND, target)
  | d :: r =>
      if strcaseeq (td_from_proto d) from && strcaseeq (td_to_proto d) to
      then td_transform d source target (transform_context_create alloc (Some from) (Some to))
      else dispatch_table alloc r from to source target
  end.

Definition protocol_auto_transform `{AiryErr} `{AiryString} (alloc : bool)
    (source target : option unified_message_t) (target_protocol_name : option bytes)
    : outcome (Z * option unified_message_t) :=
  match source, target, target_protocol_name with
  | Some s, Some _, Some to =>
      let from := if streq (um_endpoint s) [] then "jsonrpc"%cs else um_endpoint s in
      '(ret, target) ← dispatch_table alloc g_transform_table from to source target;
      '(ret, target) ←
        (if ret =? AIRY_ERR_NOT_FOUND
         then dispatch_table alloc proto_xform_defs from to source target
         else Done (ret, target));
      if ret =? AIRY_ERR_NOT_FOUND then Done (0, source) else Done (ret, target)
  | _, _, _ => Done (AIRY_ERR_NULL_POINTER, target)
  end.

Definition protocol_validate_transformed `{AiryErr} (msg : option unified_message_t) : Z :=
  match msg with
  | None => AIRY_ERR_NULL_POINTER
  | Some m =>
      if streq (um_endpoint m) [] then AIRY_ERR_INVALID_PARAM
      else match um_payload m with
           | None => if 0 <? um_payload_size m then AIRY_ERR_INVALID_PARAM else 0
           | Some _ => if um_payload_size m <? 4 then AIRY_ERR_OUT_OF_MEMORY else 0
           end
  end.

(** ** Lemmas *)

Lemma payload_str_nul s : no_nul s -> payload_str (s ++ [NUL]) = Done s.
Proof.
  intros Hs. unfold payload_str. rewrite bool_decide_eq_true_2.
  - by rewrite (cstr_of_app_nul s []).
  - apply elem_of_app. right. apply list_elem_of_here.
Qed.

Lemma after_skip a c r : c ∉ a -> after (a ++ c :: r) c = Some r.
Proof.
  intros Ha. unfold after. rewrite strchr_skip by done. cbn [mbind option_bind].
  f_equal. rewrite (drop_app_ge a) by lia. by replace (S (length a) - length a)%nat with 1%nat by lia.
Qed.

Lemma before_skip a c r : c ∉ a -> before (a ++ c :: r) c = Some a.
Proof.
  intros Ha. unfold before. rewrite strchr_skip by done. cbn [mbind option_bind].
  by rewrite take_app_length.
Qed.

Definition lower (s : bytes) : bytes := tolower <$> s.

(** The transform the dispatcher promises for a pair of protocol names. *)
Definition standard_transform `{AiryString} (from to : bytes)
    : option (unified_message_t -> option transform_context_t -> outcome unified_message_t) :=
  let pair a b := bool_decide (lower from = a /\ lower to = b) in
  if pair "jsonrpc"%cs "mcp"%cs then Some jsonrpc_to_mcp_request
  else if pair "mcp"%cs "jsonrpc"%cs then Some mcp_to_jsonrpc_response
  else if pair "jsonrpc"%cs "a2a"%cs then Some jsonrpc_to_a2a_task
  else if pair "a2a"%cs "jsonrpc"%cs then Some a2a_to_jsonrpc_response
  else None.

Lemma pair_test a b from to :
  strcaseeq a from && strcaseeq b to = bool_decide (lower from = lower a /\ lower to = lower b).
Proof.
  unfold strcaseeq, streq. fold (lower from) (lower to) (lower a) (lower b).
  rewrite <- bool_decide_and. apply bool_decide_ext. naive_solver.
Qed.

Lemma dispatch_standard `{AiryErr} `{AiryString} alloc from to s t :
  dispatch_table alloc g_transform_table from to (Some s) (Some t)
  = match standard_transform from to with
    | Some f => t' ← f s (transform_context_create alloc (Some from) (Some to)); Done (0, Some t')
    | None => Done (AIRY_ERR_NOT_FOUND, Some t)
    end.
Proof.
  unfold g_transform_table, standard_transform.
  cbn [dispatch_table td_from_proto td_to_proto td_transform]. rewrite !pair_test.
  change (lower "jsonrpc"%cs) with ("jsonrpc"%cs : bytes).
  change (lower "mcp"%cs) with ("mcp"%cs : bytes).
  change (lower "a2a"%cs) with ("a2a"%cs : bytes).
  by repeat case_bool_decide.
Qed.

(** ** Properties *)

(** C36. Dispatch.  The source protocol is the message's endpoint (JSON-RPC
    when there is none), names are compared without case, each of the four
    standard pairs runs its transform in a context naming the two protocols,
    and every other pair succeeds with an exact copy of the message. *)
Theorem auto_transform_dispatch `{AiryErr} `{AiryString} alloc s t to :
  let from := if streq (um_endpoint s) [] then "jsonrpc"%cs else um_endpoint s in
  protocol_auto_transform alloc (Some s) (Some t) (Some to)
  = match standard_transform from to with
    | Some f => t' ← f s (transform_context_create alloc (Some from) (Some to)); Done (0, Some t')
    | None => Done (0, Some s)
    end.
Proof.
  intros from. unfold protocol_auto_transform. fold from. rewrite dispatch_standard.
  destruct (standard_transform from to) as [f|].
  - destruct (f s _) as [t'|]; [|done]. cbn [mbind outcome_bind].
    rewrite (proj2 (Z.eqb_neq 0 _)) by errlia. cbn [mbind outcome_bind].
    by rewrite (proj2 (Z.eqb_neq 0 _)) by errlia.
  - cbn [mbind outcome_bind]. rewrite Z.eqb_refl. cbn. by rewrite Z.eqb_refl.
Qed.

(** The text of an MCP result is dropped.  The search for the value
    restarts inside the quoted key, so the extracted "text" is whatever stands
    between the key's closing quote and the next quote - the colon - and the
    response says [{"output"::,...}] whatever the tool answered. *)
Theorem mcp_response_drops_text `{AiryErr} `{AiryString} source target ctx pre sep rest :
  um_is_error source = false ->
  um_payload source = Some ((pre ++ "'text'"%cs ++ sep ++ QUOTE :: rest) ++ [NUL]) ->
  no_nul (pre ++ "'text'"%cs ++ sep ++ QUOTE :: rest) ->
  strstr (pre ++ "'text'"%cs ++ sep ++ QUOTE :: rest) "'text'"%cs
  = Some ("'text'"%cs ++ sep ++ QUOTE :: rest) ->
  QUOTE ∉ sep ->
  exists t,
    transformer_mcp_to_jsonrpc_response (Some source) (Some target) ctx = Done (0, Some t) /\
    um_payload t = Some (fits 8192 ("{'output':"%cs ++ sep ++ ",'status':'success'}"%cs) ++ [NUL]).
Proof.
  intros He Hp Hn Hs Hq. unfold transformer_mcp_to_jsonrpc_response, checked, mcp_to_jsonrpc_response.
  rewrite He, Hp, payload_str_nul by done. cbn [mbind outcome_bind].
  eexists. split; [reflexivity|]. unfold set_payload. cbn [um_payload upd]. do 2 f_equal.
  unfold response_content. rewrite Hs.
  change (drop 5 ("'text'"%cs ++ sep ++ QUOTE :: rest)) with ([] ++ QUOTE :: (sep ++ QUOTE :: rest)).
  by rewrite (after_skip [] QUOTE) by apply not_elem_of_nil; rewrite before_skip.
Qed.

Definition text_result : bytes :=
  "{'content':[{'kind':1,'text'"%cs ++ ":"%cs ++ "'the answer'}]}"%cs.

Lemma mcp_response_drops_text_witness :
  exists t,
    @transformer_mcp_to_jsonrpc_response inst_err inst_string
      (Some (um_zero <| um_payload := Some (text_result ++ [NUL]) |>)) (Some um_zero) None
    = Done (0, Some t) /\
    um_payload t = Some (fits 8192 ("{'output':"%cs ++ ":"%cs ++ ",'status':'success'}"%cs) ++ [NUL]).
Proof.
  apply (@mcp_response_drops_text inst_err inst_string
    (um_zero <| um_payload := Some (text_result ++ [NUL]) |>) um_zero None
    "{'content':[{'kind':1,"%cs ":"%cs "the answer'}]}"%cs);
    [reflexivity | reflexivity | | reflexivity |]; by apply (bool_decide_eq_true_1 (_ ∉ _)).
Defined.

(** Requests for MCP.  The transform of a JSON-RPC request never passes
    the library's own validation, because it leaves the endpoint empty.  And
    for a request object whose arguments come last
    (and whose name is not itself "arguments"), the arguments are taken up
    to the end of the payload: the result carries one closing brace too many. *)
Theorem mcp_request_malformed `{AiryErr} `{AiryString} source target ctx name args :
  um_payload source = Some (mcp_params name args ++ [NUL]) -> no_nul (mcp_params name args) ->
  QUOTE ∉ name -> name <> "arguments"%cs -> (length (mcp_params name args) < 4095)%nat ->
  exists t,
    transformer_jsonrpc_to_mcp_request (Some source) (Some target) ctx = Done (0, Some t) /\
    um_payload t = Some (mcp_params name args ++ "}"%cs ++ [NUL]) /\
    protocol_validate_transformed (Some t) = AIRY_ERR_INVALID_PARAM.
Proof.
  intros Hp Hn Hq Hna Hl. unfold transformer_jsonrpc_to_mcp_request, checked, jsonrpc_to_mcp_request.
  rewrite Hp, payload_str_nul by done. cbn [mbind outcome_bind].
  assert (request_name (mcp_params name args) = Some name) as ->.
  { unfold request_name, mcp_params.
    change (strstr _ "'name'"%cs) with (Some ("'name':'"%cs ++ name ++ "','arguments':"%cs ++ args ++ "}"%cs)).
    cbn [mbind option_bind].
    change (after _ ":") with (Some ([] ++ QUOTE :: (name ++ QUOTE :: (",'arguments':"%cs ++ args ++ "}"%cs)))).
    cbn [mbind option_bind]. rewrite (after_skip [] QUOTE) by apply not_elem_of_nil.
    cbn [mbind option_bind]. by rewrite before_skip. }
  assert (value_after_colon (mcp_params name args) "'arguments'"%cs = args ++ "}"%cs) as ->.
  { unfold value_after_colon, mcp_params.
    change ("{'name':'"%cs ++ ?x) with ("{"%cs ++ QUOTE :: "name':'"%cs ++ x).
    change (name ++ "','arguments':"%cs ++ args ++ "}"%cs)
      with (name ++ QUOTE :: ",'arguments':"%cs ++ args ++ "}"%cs).
    set (t := ",'arguments':"%cs ++ args ++ "}"%cs).
    assert (strstr ("{"%cs ++ QUOTE :: "name':'"%cs ++ name ++ QUOTE :: t) "'arguments'"%cs
            = if starts_with ("arguments"%cs ++ [QUOTE]) (name ++ QUOTE :: t)
              then Some (QUOTE :: name ++ QUOTE :: t)
              else strstr (name ++ QUOTE :: t) "'arguments'"%cs) as -> by reflexivity.
    destruct (starts_with _ _) eqn:Hsw.
    { apply starts_with_delimited in Hsw; [done|by apply (bool_decide_eq_true_1 (_ ∉ _))|done]. }
    rewrite (strstr_skip QUOTE _ name) by done.
    change (strstr _ "'arguments'"%cs) with (Some ("'arguments':"%cs ++ args ++ "}"%cs)).
    reflexivity. }
  eexists. split; [reflexivity|]. split.
  - unfold set_payload. cbn [um_payload upd]. f_equal. cbn [default from_option id].
    unfold mcp_params, fits in *. rewrite take_ge.
    + by rewrite <- !app_assoc.
    + rewrite !length_app in *. cbn [length] in *. lia.
  - unfold set_payload, protocol_validate_transformed. destruct ctx as [c|]; [|done].
    cbn -[streq]. by destruct (streq (tc_trace_id c) []).
Qed.

Lemma mcp_request_malformed_witness :
  exists t,
    @transformer_jsonrpc_to_mcp_request inst_err inst_string
      (Some (um_zero <| um_payload := Some (mcp_params "echo"%cs "{'x':1}"%cs ++ [NUL]) |>))
      (Some um_zero) None = Done (0, Some t) /\
    um_payload t = Some (mcp_params "echo"%cs "{'x':1}"%cs ++ "}"%cs ++ [NUL]) /\
    @protocol_validate_transformed inst_err (Some t) = @AIRY_ERR_INVALID_PARAM inst_err.
Proof.
  apply (@mcp_request_malformed inst_err inst_string
    (um_zero <| um_payload := Some (mcp_params "echo"%cs "{'x':1}"%cs ++ [NUL]) |>)
    um_zero None "echo"%cs "{'x':1}"%cs); [reflexivity | | | done | cbn; lia];
    by apply (bool_decide_eq_true_1 (_ ∉ _)).
Defined.
