(* ===== verification/McpFrame.v ===== *)
(** * Content-Length frames: standards/mcp/src/mcp_client_frame.c

    The accumulating parser of the MCP client.  [fp_buf] is the used part of
    the buffer.  The move that closes the gap after a frame is taken to be
    correct for overlapping ranges, as the header of the file says. *)

From S2P Require Export Env.
From S2P Require Import EnvInst.

Definition MCP_CLIENT_DEFAULT_TIMEOUT_MS : Z := 60000.
Definition MCP_CLIENT_MAX_MESSAGE_SIZE : Z := 10 * 1024 * 1024.
Definition MCP_CLIENT_ERR_BASE : Z := -2000.
Definition MCP_CLIENT_ERR_PROCESS_EXIT : Z := MCP_CLIENT_ERR_BASE - 1.
Definition MCP_CLIENT_ERR_RPC_ERROR : Z := MCP_CLIENT_ERR_BASE - 2.
Definition MCP_CLIENT_ERR_CONNECT : Z := MCP_CLIENT_ERR_BASE - 3.
Definition MCP_CLIENT_ERR_NOT_CONNECTED : Z := MCP_CLIENT_ERR_BASE - 4.
Definition MCP_CLIENT_ERR_FRAME : Z := MCP_CLIENT_ERR_BASE - 5.
Definition MCP_CLIENT_READ_CHUNK : Z := 4096.
Definition MCP_CLIENT_HEADER_MAX : Z := 8192.

Inductive mcp_frame_state_t := MCP_FRAME_STATE_HEADER | MCP_FRAME_STATE_BODY.

Record mcp_frame_parser_t := mkParser {
  fp_buf : bytes;
  fp_cap : Z;
  fp_state : mcp_frame_state_t;
  fp_hdr_end : nat;
  fp_body_expected : Z;
  fp_header_text : option bytes
}.

#[export] Instance eta_parser : Eta mcp_frame_parser_t := fun p =>
  mkParser (fp_buf p) (fp_cap p) (fp_state p) (fp_hdr_end p) (fp_body_expected p)
    (fp_header_text p).

(** ** Headers *)

Definition CRLF : bytes := [CR; LF].

(** The offset after the first empty line. *)
Fixpoint find_header_end (buf : bytes) : option nat :=
  if starts_with (CRLF ++ CRLF) buf then Some 4%nat
  else match buf with
       | [] => None
       | _ :: r => S <$> find_header_end r
       end.

(** The complete lines of a header block, in order; [cur] is the line read so
    far, reversed. *)
Fixpoint crlf_lines (cur h : bytes) : list bytes :=
  match h with
  | a :: r =>
      match r with
      | b :: r' =>
          if Ascii.eqb a CR && Ascii.eqb b LF then rev cur :: crlf_lines [] r'
          else crlf_lines (a :: cur) r
      | [] => []
      end
  | [] => []
  end.

Fixpoint skip_blanks (s : bytes) : bytes :=
  match s with
  | c :: r => if Ascii.eqb c " " || Ascii.eqb c TAB then skip_blanks r else s
  | [] => []
  end.

Fixpoint take_digits (s : bytes) : bytes :=
  match s with
  | c :: r => if isdigit c then c :: take_digits r else []
  | [] => []
  end.

(** [None] is the return value -1. *)
Fixpoint content_length_of (lines : list bytes) : option Z :=
  match lines with
  | [] => None
  | l :: r =>
      if (15 <=? lenZ l) && strcaseeq (take 15 l) "content-length:"%cs then
        let num_buf := take 31 (take_digits (skip_blanks (drop 15 l))) in
        if bool_decide (num_buf = []) then None else Some (strtoull num_buf)
      else content_length_of r
  end.

Definition parse_content_length (hdr : bytes) : option Z := content_length_of (crlf_lines [] hdr).

(** ** The parser *)

Definition frame_parser_init : mcp_frame_parser_t :=
  mkParser [] 0 MCP_FRAME_STATE_HEADER 0 0 None.

Definition frame_parser_destroy (p : option mcp_frame_parser_t) : option mcp_frame_parser_t :=
  match p with
  | None => None
  | Some _ => Some (mkParser [] 0 MCP_FRAME_STATE_HEADER 0 0 None)
  end.

(** The doubling of the capacity; sixty-four steps pass any [size_t]. *)
Fixpoint grow (fuel : nat) (new_cap need : Z) : Z :=
  match fuel with
  | O => new_cap
  | S f => if new_cap <? need then grow f (new_cap * 2) need else new_cap
  end.

(** [alloc] is whether the reallocation succeeds. *)
Definition frame_parser_append `{AiryErr} (alloc : bool) (p : mcp_frame_parser_t) (data : bytes)
    : Z * mcp_frame_parser_t :=
  let len := lenZ (fp_buf p) in
  let n := lenZ data in
  if n =? 0 then (0, p)
  else if MCP_CLIENT_MAX_MESSAGE_SIZE + MCP_CLIENT_HEADER_MAX <? len + n
  then (AIRY_ERR_OVERFLOW, p)
  else if fp_cap p <? len + n then
    if negb alloc then (AIRY_ERR_OUT_OF_MEMORY, p)
    else
      let new_cap := if fp_cap p =? 0 then MCP_CLIENT_READ_CHUNK else fp_cap p in
      (0, p <| fp_cap := grow 64 new_cap (len + n) |> <| fp_buf ::= (fun b => b ++ data) |>)
  else (0, p <| fp_buf ::= (fun b => b ++ data) |>).

(** The header step of [frame_parser_take_frame]: [inl] returns early. *)
Definition take_header `{AiryErr} (alloc : bool) (p : mcp_frame_parser_t)
    : (Z * mcp_frame_parser_t) + mcp_frame_parser_t :=
  match fp_state p with
  | MCP_FRAME_STATE_BODY => inr p
  | MCP_FRAME_STATE_HEADER =>
      match find_header_end (fp_buf p) with
      | None => inl (1, p)
      | Some hdr_end =>
          match parse_content_length (take hdr_end (fp_buf p)) with
          | None => inl (MCP_CLIENT_ERR_FRAME, p)
          | Some clen =>
              if (clen =? 0) || (MCP_CLIENT_MAX_MESSAGE_SIZE <? clen)
              then inl (MCP_CLIENT_ERR_FRAME, p)
              else if negb alloc
              then inl (AIRY_ERR_OUT_OF_MEMORY, p <| fp_header_text := None |>)
              else inr (p <| fp_header_text := Some (cstr_of (take hdr_end (fp_buf p))) |>
                          <| fp_state := MCP_FRAME_STATE_BODY |>
                          <| fp_hdr_end := hdr_end |> <| fp_body_expected := clen |>)
          end
      end
  end.

(** [alloc 0] is the copy of the header, [alloc 1] that of the body. *)
Definition frame_parser_take_frame `{AiryErr} (alloc : nat -> bool) (p : mcp_frame_parser_t)
    : Z * mcp_frame_parser_t * option bytes :=
  match take_header (alloc 0%nat) p with
  | inl (rc, p) => (rc, p, None)
  | inr p =>
      let frame_total := Z.of_nat (fp_hdr_end p) + fp_body_expected p in
      if lenZ (fp_buf p) <? frame_total then (1, p, None)
      else if negb (alloc 1%nat) then (AIRY_ERR_OUT_OF_MEMORY, p, None)
      else
        let body := take (Z.to_nat (fp_body_expected p)) (drop (fp_hdr_end p) (fp_buf p)) in
        (0, p <| fp_buf ::= drop (Z.to_nat frame_total) |>
              <| fp_state := MCP_FRAME_STATE_HEADER |> <| fp_hdr_end := 0%nat |>
              <| fp_body_expected := 0 |>, Some (cstr_of body))
  end.

(** ** The sender: mcp_client_stdio.c *)

Definition frame_header (len : Z) : bytes :=
  "Content-Length: "%cs ++ dec len ++ CRLF ++ CRLF.

(** The bytes [stdio_send_message] writes when nothing fails. *)
Definition frame_of (body : bytes) : bytes := frame_header (lenZ body) ++ body.

(** What [poll] and [write] answer. *)
Inductive write_event :=
| WTimeout
| WPollIntr
| WPollErr
| WBadFd
| WWrote (n : Z)
| WIntr
| WAgain
| WErr.

(** The loop of [write_all_with_timeout] against the answers [evs]: the return
    code, the bytes that got out and the answers left; [None] when it still
    waits after the last answer. *)
Fixpoint write_all_with_timeout `{AiryErr} (evs : list write_event) (data : bytes)
    : option (Z * bytes * list write_event) :=
  if lenZ data =? 0 then Some (0, [], evs)
  else match evs with
  | [] => None
  | ev :: evs =>
      match ev with
      | WTimeout => Some (AIRY_ERR_TIMEOUT, [], evs)
      | WPollIntr | WIntr | WAgain => write_all_with_timeout evs data
      | WPollErr | WBadFd | WErr => Some (AIRY_ERR_IO, [], evs)
      | WWrote n =>
          let k := Z.to_nat n in
          '(rc, out, evs) ← write_all_with_timeout evs (drop k data);
          Some (rc, take k data ++ out, evs)
      end
  end.

Definition stdio_send_message `{AiryErr} (evs : list write_event) (body : bytes)
    : option (Z * bytes * list write_event) :=
  '(rc, out, evs) ← write_all_with_timeout evs (fits 64 (frame_header (strlen body)));
  if negb (rc =? 0) then Some (rc, out, evs)
  else
    '(rc, out', evs) ← write_all_with_timeout evs body;
    Some (rc, out ++ out', evs).

(** ** The receiver *)

(** What [poll] and [read] answer. *)
Inductive read_event :=
| RTimeout
| RPollIntr
| RPollErr
| RBadFd
| RData (chunk : bytes)
| REof
| RAgain
| RErr.

(** The loop of [stdio_read_message].  An interrupted [read] is retried at
    once and needs no event. *)
Fixpoint stdio_read_message `{AiryErr} (alloc : nat -> bool) (evs : list read_event)
    (p : mcp_frame_parser_t) (timeout_ms : Z)
    : option (Z * mcp_frame_parser_t * option bytes * list read_event) :=
  let '(rc, p, out) := frame_parser_take_frame alloc p in
  if negb (rc =? 1) then Some (rc, p, out, evs)
  else if timeout_ms <=? 0 then Some (AIRY_ERR_TIMEOUT, p, None, evs)
  else match evs with
  | [] => None
  | ev :: evs =>
      match ev with
      | RTimeout => Some (AIRY_ERR_TIMEOUT, p, None, evs)
      | RPollIntr | RAgain => stdio_read_message alloc evs p timeout_ms
      | RPollErr | RBadFd | RErr => Some (AIRY_ERR_IO, p, None, evs)
      | REof => Some (MCP_CLIENT_ERR_PROCESS_EXIT, p, None, evs)
      | RData chunk =>
          let '(rc, p) := frame_parser_append (alloc 2%nat) p chunk in
          if negb (rc =? 0) then Some (rc, p, None, evs)
          else stdio_read_message alloc evs p timeout_ms
      end
  end.

(** ** Lemmas *)

Lemma find_header_end_skip h t :
  CR ∉ h -> find_header_end (h ++ t) = Nat.add (length h) <$> find_header_end t.
Proof.
  induction h as [|c h IH]; cbn [app length].
  - intros _. by destruct (find_header_end t).
  - rewrite not_elem_of_cons. intros [Hc Hh]. cbn [find_header_end starts_with app CRLF].
    destruct (Ascii.eqb_spec CR c); [done|]. cbn [andb]. rewrite IH by done.
    by destruct (find_header_end t).
Qed.

Lemma crlf_lines_skip cur h t :
  CR ∉ h -> crlf_lines cur (h ++ CRLF ++ t) = (rev cur ++ h) :: crlf_lines [] t.
Proof.
  revert cur. induction h as [|c h IH]; intros cur.
  - intros _. cbn. by rewrite app_nil_r.
  - rewrite not_elem_of_cons. intros [Hc Hh].
    assert (forall l, l <> [] -> crlf_lines cur (c :: l) = crlf_lines (c :: cur) l) as Hstep.
    { intros [|x y] ?; [done|]. cbn [crlf_lines]. by destruct (Ascii.eqb_spec c CR). }
    cbn [app]. rewrite Hstep by (by destruct h). rewrite (IH (c :: cur)) by done. cbn [rev].
    by rewrite <- app_assoc.
Qed.

Lemma take_digits_all s t :
  all_digits s -> match t with [] => True | c :: _ => isdigit c = false end ->
  take_digits (s ++ t) = s.
Proof.
  intros Hs Ht. induction Hs as [|c s Hc Hs IH]; cbn [app take_digits].
  - destruct t as [|c t]; [done|]. cbn. by rewrite Ht.
  - by rewrite Hc, IH.
Qed.

(** A header the sender wrote is read back. *)
Lemma parse_frame_header n : 0 <= n < 2 ^ 64 -> parse_content_length (frame_header n) = Some n.
Proof.
  intros Hn. unfold parse_content_length, frame_header.
  rewrite app_assoc, (crlf_lines_skip [] ("Content-Length: "%cs ++ dec n)).
  2: { apply not_elem_of_app. split; [by apply (bool_decide_eq_true_1 (_ ∉ _))|].
       apply dec_notin; [lia|done]. }
  cbn [rev]. change ([] ++ ?x) with x. cbn [content_length_of].
  rewrite (proj2 (Z.leb_le 15 _)) by (rewrite lenZ_app; pose proof (lenZ_nonneg (dec n));
    change (lenZ "Content-Length: "%cs) with 16; lia).
  change (take 15 ("Content-Length: "%cs ++ dec n)) with ("Content-Length:"%cs : bytes).
  change (strcaseeq "Content-Length:"%cs "content-length:"%cs) with true. cbn [andb].
  change (drop 15 ("Content-Length: "%cs ++ dec n)) with (" "%cs ++ dec n).
  destruct (dec_head n ltac:(lia)) as (c & r & Hd & Hc).
  assert (skip_blanks (" "%cs ++ dec n) = dec n) as ->.
  { rewrite Hd. cbn [app skip_blanks]. rewrite Ascii.eqb_refl. cbn [orb].
    destruct (Ascii.eqb_spec c " "); [by subst c|]. destruct (Ascii.eqb_spec c TAB); [by subst c|]. done. }
  rewrite <- (app_nil_r (dec n)), take_digits_all by first [done | apply dec_all_digits; lia].
  pose proof (dec_length n). rewrite take_ge by lia.
  rewrite bool_decide_eq_false_2 by (by rewrite Hd).
  rewrite <- (app_nil_r (dec n)). f_equal. by apply strtoull_dec.
Qed.

Lemma frame_header_shape n :
  exists h, frame_header n = h ++ CRLF ++ CRLF /\ (0 <= n -> CR ∉ h) /\ (length h <= 36)%nat.
Proof.
  exists ("Content-Length: "%cs ++ dec n). unfold frame_header. split; [by rewrite <- app_assoc|].
  split.
  - intros Hn. apply not_elem_of_app. split; [by apply (bool_decide_eq_true_1 (_ ∉ _))|].
    by apply dec_notin.
  - rewrite length_app. pose proof (dec_length n). cbn [length]. lia.
Qed.

(** *** The parser on a prefix of a well-formed stream *)

Definition stream (fs : list bytes) : bytes := concat (frame_of <$> fs).

(** A body the sender can frame and the receiver accepts. *)
Definition good_body (b : bytes) : Prop :=
  no_nul b /\ 0 < lenZ b <= MCP_CLIENT_MAX_MESSAGE_SIZE.

(** [s] is still to come and [fs] are the frames not yet taken. *)
Definition sync (p : mcp_frame_parser_t) (fs : list bytes) (s : bytes) : Prop :=
  fp_buf p ++ s = stream fs /\
  (fp_state p = MCP_FRAME_STATE_BODY ->
   exists b fs', fs = b :: fs' /\ fp_hdr_end p = length (frame_header (lenZ b)) /\
     fp_body_expected p = lenZ b).

Lemma app_eq_take {A} (a b x y : list A) :
  a ++ b = x ++ y -> (length x <= length a)%nat -> a = x ++ drop (length x) a /\ y = drop (length x) a ++ b.
Proof.
  intros Heq Hl.
  assert (take (length x) (a ++ b) = x) as Ht by (rewrite Heq; apply take_app_length).
  rewrite take_app_le in Ht by done.
  split; [by rewrite <- Ht at 1; rewrite take_drop|].
  apply (app_inv_head x). rewrite <- Heq, app_assoc. f_equal.
  rewrite <- Ht at 1. symmetry. apply take_drop.
Qed.

Lemma find_header_end_prefix buf s h t :
  buf ++ s = (h ++ CRLF ++ CRLF) ++ t -> CR ∉ h ->
  find_header_end buf
  = if decide (length h + 4 <= length buf)%nat then Some (length h + 4)%nat else None.
Proof.
  intros Heq Hh. destruct (decide _) as [Hle|Hgt].
  - apply app_eq_take in Heq as [-> _]; [|rewrite !length_app; cbn; lia].
    rewrite <- app_assoc, find_header_end_skip by done. done.
  - assert (buf = take (length buf) (h ++ CRLF ++ CRLF)) as Hb.
    { rewrite <- (take_app_length buf s) at 1. rewrite Heq, take_app_le; [done|].
      rewrite !length_app. cbn. lia. }
    rewrite Hb, take_app. destruct (decide (length buf <= length h)%nat) as [Hle|].
    + replace (length buf - length h)%nat with 0%nat by lia. rewrite take_0.
      rewrite find_header_end_skip; [done|]. intros (j & Hj & _)%elem_of_take.
      apply Hh. by eapply list_elem_of_lookup_2.
    + rewrite (take_ge h) by lia. rewrite find_header_end_skip by done.
      destruct (length buf - length h)%nat as [|[|[|[|k]]]] eqn:E; try reflexivity. lia.
Qed.

Lemma frame_total_len b : lenZ (frame_of b) = lenZ (frame_header (lenZ b)) + lenZ b.
Proof. unfold frame_of. by rewrite lenZ_app. Qed.

Lemma frame_header_len n : lenZ (frame_header n) <= 40.
Proof.
  destruct (frame_header_shape n) as (h & -> & _ & Hl). rewrite !lenZ_app.
  change (lenZ CRLF) with 2. unfold lenZ. lia.
Qed.

Section frames.
Context `{AiryErr} (alloc : nat -> bool) (Halloc : forall i, alloc i = true).

(** What taking a frame does, for a parser in step with the stream. *)
Definition took (p : mcp_frame_parser_t) (fs : list bytes) (s : bytes) : Prop :=
  (exists p', frame_parser_take_frame alloc p = (1, p', None) /\ fp_buf p' = fp_buf p /\
     sync p' fs s /\
     match fs with [] => True | b :: _ => lenZ (fp_buf p) < lenZ (frame_of b) end) \/
  (exists p' b fs', fs = b :: fs' /\ frame_parser_take_frame alloc p = (0, p', Some b) /\
     sync p' fs' s).

Lemma take_frame_body p1 p b fs s :
  take_header (alloc 0%nat) p1 = inr p -> fp_buf p = fp_buf p1 ->
  good_body b -> fp_state p = MCP_FRAME_STATE_BODY -> fp_hdr_end p = length (frame_header (lenZ b)) ->
  fp_body_expected p = lenZ b -> fp_buf p ++ s = stream (b :: fs) ->
  took p1 (b :: fs) s.
Proof.
  intros Hth Hbuf [Hnul Hb] Hst Hhe Hbe Hs. unfold took, frame_parser_take_frame.
  rewrite Hth, !Halloc. cbn [negb]. rewrite Hhe, Hbe, <- Hbuf.
  fold (lenZ (frame_header (lenZ b))). rewrite <- frame_total_len.
  destruct (Z.ltb_spec (lenZ (fp_buf p)) (lenZ (frame_of b))) as [Hlt|Hge].
  - left. exists p. repeat split; try done. intros _. by exists b, fs.
  - right. eexists _, b, fs. split; [done|].
    unfold stream in Hs. cbn [fmap list_fmap concat] in Hs.
    apply app_eq_take in Hs as [Hp Hrest]; [|unfold lenZ in *; lia].
    split.
    + do 2 f_equal. rewrite Hp. unfold frame_of at 1. rewrite <- app_assoc.
      rewrite drop_app_length. unfold lenZ. rewrite Nat2Z.id, take_app_length.
      by apply cstr_of_id.
    + split; [|done]. cbn [fp_buf upd]. unfold lenZ. rewrite Nat2Z.id. done.
Qed.

Lemma take_frame_sync p fs s :
  Forall good_body fs -> sync p fs s -> took p fs s.
Proof.
  intros Hok [Hs Hst]. destruct (fp_state p) eqn:Estate.
  2: { destruct (Hst eq_refl) as (b & fs' & -> & Hhe & Hbe). apply Forall_cons in Hok as [Hb _].
       eapply take_frame_body; try done. unfold take_header. by rewrite Estate. }
  destruct fs as [|b fs].
  { left. exists p. apply app_eq_nil in Hs as [Hb ->].
    unfold frame_parser_take_frame, take_header. rewrite Estate, Hb. cbn.
    repeat split; try done; [by rewrite Hb|]. by rewrite Estate. }
  apply Forall_cons in Hok as [Hb _]. pose proof Hb as [_ Hlen].
  unfold MCP_CLIENT_MAX_MESSAGE_SIZE in Hlen.
  destruct (frame_header_shape (lenZ b)) as (h & Hh & Hcr & _). specialize (Hcr ltac:(lia)).
  assert (fp_buf p ++ s = (h ++ CRLF ++ CRLF) ++ (b ++ stream fs)) as Hs'.
  { rewrite Hs. unfold stream. cbn [fmap list_fmap concat]. unfold frame_of at 1.
    by rewrite Hh, <- !app_assoc. }
  pose proof (find_header_end_prefix _ _ _ _ Hs' Hcr) as Hf.
  assert (length (frame_header (lenZ b)) = length h + 4)%nat as Hhl
    by (rewrite Hh, !length_app; cbn; lia).
  destruct (decide (length h + 4 <= length (fp_buf p))%nat) as [Hle|Hgt].
  - apply app_eq_take in Hs' as [Hp _]; [|rewrite <- Hh; lia]. rewrite <- Hh in Hp.
    assert (take (length (frame_header (lenZ b))) (fp_buf p) = frame_header (lenZ b)) as Htk
      by (rewrite Hp; apply take_app_length).
    assert (exists q, take_header (alloc 0%nat) p = inr q /\ fp_buf q = fp_buf p /\
      fp_state q = MCP_FRAME_STATE_BODY /\ fp_hdr_end q = length (frame_header (lenZ b)) /\
      fp_body_expected q = lenZ b) as (q & Hq & Hqb & Hqs & Hqh & Hqe).
    { unfold take_header. rewrite Estate, Hf, <- Hhl, Htk, parse_frame_header by lia.
      rewrite (proj2 (Z.eqb_neq _ _)), (proj2 (Z.ltb_ge _ _)) by (unfold MCP_CLIENT_MAX_MESSAGE_SIZE; lia).
      rewrite Halloc. cbn [orb negb]. by eexists. }
    apply (take_frame_body p q); try done. by rewrite Hqb.
  - left. exists p. unfold frame_parser_take_frame, take_header. rewrite Estate, Hf.
    repeat split; try done; [by rewrite Estate|].
    rewrite frame_total_len. unfold lenZ in *. lia.
Qed.

Lemma append_sync p data fs s :
  sync p fs (data ++ s) -> 0 < lenZ data ->
  lenZ (fp_buf p) + lenZ data <= MCP_CLIENT_MAX_MESSAGE_SIZE + MCP_CLIENT_HEADER_MAX ->
  exists p', frame_parser_append (alloc 2%nat) p data = (0, p') /\ sync p' fs s.
Proof.
  intros [Hs Hst] Hd Hb. unfold frame_parser_append.
  rewrite (proj2 (Z.eqb_neq _ _)), (proj2 (Z.ltb_ge _ _)) by lia. rewrite Halloc. cbn [negb].
  destruct (_ <? _); eexists; (split; [reflexivity|]); split; try exact Hst;
    cbn [fp_buf upd]; by rewrite <- app_assoc.
Qed.

(** An answer that is data of the size the loop asks for, or a retry. *)
Definition benign (e : read_event) : Prop :=
  match e with
  | RData c => 0 < lenZ c <= MCP_CLIENT_READ_CHUNK
  | RPollIntr | RAgain => True
  | _ => False
  end.

Definition data_of (evs : list read_event) : bytes :=
  concat (omap (fun e => match e with RData c => Some c | _ => None end) evs).

Lemma read_message_sync timeout evs p b fs :
  0 < timeout -> Forall good_body (b :: fs) -> Forall benign evs ->
  sync p (b :: fs) (data_of evs) ->
  exists p' evs', stdio_read_message alloc evs p timeout = Some (0, p', Some b, evs') /\
    sync p' fs (data_of evs') /\ Forall benign evs'.
Proof.
  intros Ht Hok. revert p. induction evs as [|ev evs IH]; intros p Hben Hsync;
    destruct (take_frame_sync p (b :: fs) _ Hok Hsync)
      as [(p1 & Htake & Hbuf & Hs1 & Hlt)|(p1 & b1 & fs1 & [= <- <-] & Htake & Hs1)];
    cbn [stdio_read_message]; rewrite Htake; cbn [negb Z.eqb];
    try (by eexists _, _; repeat split; try done; apply Hs1).
  - exfalso. destruct Hsync as [Hs _]. change (data_of []) with ([] : bytes) in Hs.
    rewrite app_nil_r in Hs. rewrite Hs in Hlt. unfold stream in Hlt.
    cbn [fmap list_fmap concat] in Hlt. rewrite lenZ_app in Hlt.
    pose proof (lenZ_nonneg (concat (frame_of <$> fs))). lia.
  - rewrite (proj2 (Z.leb_gt _ _)) by lia. apply Forall_cons in Hben as [He Hben].
    destruct ev as [| | | |c| | |]; try done; [by apply IH| |by apply IH].
    cbn [benign] in He. apply Forall_cons in Hok as [[_ Hb] _].
    pose proof (frame_header_len (lenZ b)) as Hhl. rewrite frame_total_len in Hlt.
    unfold MCP_CLIENT_READ_CHUNK in He.
    edestruct (append_sync p1 c (b :: fs) (data_of evs)) as (p2 & Happ & Hs2);
      [exact Hs1|lia|unfold MCP_CLIENT_HEADER_MAX; rewrite Hbuf; lia|].
    rewrite Happ. cbn [negb Z.eqb]. by apply IH.
Qed.
End frames.

(** [n] messages read one after the other. *)
Fixpoint read_messages `{AiryErr} (alloc : nat -> bool) (n : nat) (evs : list read_event)
    (p : mcp_frame_parser_t) (timeout : Z)
    : option (list bytes * mcp_frame_parser_t * list read_event) :=
  match n with
  | O => Some ([], p, evs)
  | S n =>
      match stdio_read_message alloc evs p timeout with
      | Some (0, p, Some b, evs) =>
          '(bs, p, evs) ← read_messages alloc n evs p timeout; Some (b :: bs, p, evs)
      | _ => None
      end
  end.

(** What the sender writes for the messages [fs], however [write] splits it. *)
Fixpoint send_messages `{AiryErr} (evs : list write_event) (fs : list bytes)
    : option (Z * bytes) :=
  match fs with
  | [] => Some (0, [])
  | b :: fs =>
      '(rc, out, evs) ← stdio_send_message evs b;
      if negb (rc =? 0) then Some (rc, out)
      else '(rc, out') ← send_messages evs fs; Some (rc, out ++ out')
  end.

Lemma write_all_ok `{AiryErr} evs data out rest :
  write_all_with_timeout evs data = Some (0, out, rest) -> out = data.
Proof.
  revert data out rest. induction evs as [|ev evs IH]; intros data out rest;
    cbn [write_all_with_timeout]; destruct (Z.eqb_spec (lenZ data) 0) as [Hd|Hd];
    try (intros [= <- _]; symmetry; apply nil_length_inv; unfold lenZ in Hd; lia); try done.
  destruct ev; try (intros [=]; errlia); try apply IH.
  destruct (write_all_with_timeout evs (drop (Z.to_nat n) data)) as [[[rc o] r]|] eqn:E; [|done].
  cbn. intros [= -> <- <-]. rewrite (IH _ _ _ E). apply take_drop.
Qed.

Lemma frame_header_fits n : fits 64 (frame_header n) = frame_header n.
Proof.
  unfold fits. apply take_ge. pose proof (frame_header_len n). unfold lenZ in *. lia.
Qed.

Lemma send_messages_ok `{AiryErr} evs fs out :
  send_messages evs fs = Some (0, out) -> out = stream fs.
Proof.
  revert evs out. induction fs as [|b fs IH]; intros evs out; cbn [send_messages]; [by intros [= <-]|].
  unfold stdio_send_message. rewrite frame_header_fits.
  destruct (write_all_with_timeout evs (frame_header (strlen b))) as [[[rc o] evs1]|] eqn:E1; [|done].
  cbn. destruct (Z.eqb_spec rc 0) as [->|Hrc]; cbn.
  2: { rewrite (proj2 (Z.eqb_neq _ _)) by done. cbn. intros [= -> _]. done. }
  destruct (write_all_with_timeout evs1 b) as [[[rc o'] evs2]|] eqn:E2; [|done]. cbn.
  destruct (Z.eqb_spec rc 0) as [->|Hrc]; cbn; [|by intros [= -> _]].
  destruct (send_messages evs2 fs) as [[rc out']|] eqn:E3; [|done]. cbn. intros [= -> <-].
  apply write_all_ok in E1 as ->. apply write_all_ok in E2 as ->. apply IH in E3 as ->.
  unfold stream. cbn. unfold frame_of, strlen. by rewrite <- app_assoc.
Qed.

(** *** Memory bounds *)

Definition parser_wf (p : mcp_frame_parser_t) : Prop :=
  lenZ (fp_buf p) <= fp_cap p /\ 0 <= fp_cap p /\
  lenZ (fp_buf p) <= MCP_CLIENT_MAX_MESSAGE_SIZE + MCP_CLIENT_HEADER_MAX.

Lemma grow_enough fuel c need :
  0 < c -> need <= c * 2 ^ Z.of_nat fuel -> need <= grow fuel c need /\ c <= grow fuel c need.
Proof.
  revert c. induction fuel as [|f IH]; intros c Hc Hn; cbn [grow].
  - change (2 ^ Z.of_nat 0) with 1 in Hn. lia.
  - destruct (Z.ltb_spec c need); [|lia].
    replace (Z.of_nat (S f)) with (Z.succ (Z.of_nat f)) in Hn by lia.
    rewrite Z.pow_succ_r in Hn by lia.
    specialize (IH (c * 2)). lia.
Qed.

Lemma append_wf `{AiryErr} alloc p data :
  parser_wf p -> parser_wf (snd (frame_parser_append alloc p data)).
Proof.
  intros (Hc & Hpos & Hb). unfold frame_parser_append, parser_wf.
  pose proof (lenZ_nonneg data). pose proof (lenZ_nonneg (fp_buf p)).
  destruct (lenZ data =? 0); [done|].
  destruct (Z.ltb_spec (MCP_CLIENT_MAX_MESSAGE_SIZE + MCP_CLIENT_HEADER_MAX)
              (lenZ (fp_buf p) + lenZ data)) as [|Hlim]; [done|].
  destruct (Z.ltb_spec (fp_cap p) (lenZ (fp_buf p) + lenZ data)).
  - destruct alloc; [|done]. cbn -[lenZ grow]. rewrite lenZ_app.
    unfold MCP_CLIENT_MAX_MESSAGE_SIZE, MCP_CLIENT_HEADER_MAX, MCP_CLIENT_READ_CHUNK in *.
    destruct (Z.eqb_spec (fp_cap p) 0).
    + destruct (grow_enough 64 4096 (lenZ (fp_buf p) + lenZ data)); lia.
    + destruct (grow_enough 64 (fp_cap p) (lenZ (fp_buf p) + lenZ data)); lia.
  - cbn -[lenZ]. rewrite lenZ_app. lia.
Qed.

Lemma append_code `{AiryErr} p data rc p' :
  frame_parser_append true p data = (rc, p') -> rc = 0 \/ rc = AIRY_ERR_OVERFLOW.
Proof.
  unfold frame_parser_append. cbn [negb].
  destruct (lenZ data =? 0); [intros [<- _]%pair_equal_spec; by left|].
  destruct (_ <? _); [intros [<- _]%pair_equal_spec; by right|].
  destruct (_ <? _); intros [<- _]%pair_equal_spec; by left.
Qed.

Lemma take_frame_wf `{AiryErr} alloc p :
  parser_wf p -> parser_wf (snd (fst (frame_parser_take_frame alloc p))).
Proof.
  intros Hwf. unfold frame_parser_take_frame.
  assert (forall q, take_header (alloc 0%nat) p = inr q -> fp_buf q = fp_buf p /\ fp_cap q = fp_cap p)
    as Hr by (unfold take_header; intros q; repeat case_match; intros [= <-]; done).
  assert (forall rc q, take_header (alloc 0%nat) p = inl (rc, q) -> fp_buf q = fp_buf p /\ fp_cap q = fp_cap p)
    as Hl by (unfold take_header; intros rc q; repeat case_match; intros [= <- <-]; done).
  unfold parser_wf in *. destruct (take_header (alloc 0%nat) p) as [[rc q]|q].
  - cbn [fst snd]. destruct (Hl rc q eq_refl) as [-> ->]. done.
  - destruct (Hr q eq_refl) as [Hb Hc]. destruct (_ <? _); cbn -[lenZ]; [by rewrite Hb, Hc|].
    destruct (alloc 1%nat); cbn -[lenZ]; rewrite ?lenZ_drop, Hb, Hc; [|done].
    destruct Hwf as (? & ? & ?). pose proof (lenZ_nonneg (fp_buf p)).
    unfold MCP_CLIENT_MAX_MESSAGE_SIZE, MCP_CLIENT_HEADER_MAX in *. lia.
Qed.

Lemma read_wf `{AiryErr} alloc evs p timeout rc p' out evs' :
  stdio_read_message alloc evs p timeout = Some (rc, p', out, evs') ->
  parser_wf p -> parser_wf p'.
Proof.
  revert p. induction evs as [|ev evs IH]; intros p; cbn [stdio_read_message];
    intros Hr Hwf; pose proof (take_frame_wf alloc p Hwf) as Hwf1;
    destruct (frame_parser_take_frame alloc p) as [[rc1 p1] out1]; cbn in Hwf1;
    (destruct (negb (rc1 =? 1)); [by injection Hr as <- <- <- <-|]);
    (destruct (timeout <=? 0); [by injection Hr as <- <- <- <-|]); [done|].
  destruct ev; try (by injection Hr as <- <- <- <-); try (by eapply IH).
  pose proof (append_wf (alloc 2%nat) p1 chunk Hwf1) as Hwf2.
  destruct (frame_parser_append (alloc 2%nat) p1 chunk) as [rc2 p2]. cbn in Hwf2.
  destruct (negb (rc2 =? 0)); [by injection Hr as <- <- <- <-|]. by eapply IH.
Qed.

(** ** Properties *)





(** A malformed header is final.  Once reading fails on a frame header -
    without a length, with length zero or one above the limit - nothing is
    consumed, so every later read fails the same way without waiting for
    input: the client never resynchronises. *)
Theorem frame_error_sticky `{AiryErr} alloc evs p timeout p' out evs' :
  (forall i, alloc i = true) -> ~ MCP_CLIENT_ERR_FRAME ∈ [AIRY_ERR_TIMEOUT; AIRY_ERR_IO; AIRY_ERR_OVERFLOW] ->
  stdio_read_message alloc evs p timeout = Some (MCP_CLIENT_ERR_FRAME, p', out, evs') ->
  forall evs2 timeout2,
    stdio_read_message alloc evs2 p' timeout2 = Some (MCP_CLIENT_ERR_FRAME, p', None, evs2).
Proof.
  intros Ha Hne Hr evs2 timeout2.
  assert (forall q, frame_parser_take_frame alloc q = (MCP_CLIENT_ERR_FRAME, p', out) ->
            frame_parser_take_frame alloc p' = (MCP_CLIENT_ERR_FRAME, p', None)) as Hstick.
  { intros q. unfold frame_parser_take_frame at 1. rewrite !Ha. cbn [negb].
    destruct (take_header true q) as [[rc q']|q'] eqn:E; [|by destruct (_ <? _)].
    intros [= -> -> <-]. unfold frame_parser_take_frame. rewrite Ha.
    enough (take_header true p' = inl (MCP_CLIENT_ERR_FRAME, p')) as -> by done.
    rewrite <- E. f_equal. symmetry. revert E. unfold take_header. repeat case_match; naive_solver. }
  enough (frame_parser_take_frame alloc p' = (MCP_CLIENT_ERR_FRAME, p', None)) as Ht
    by (destruct evs2; cbn [stdio_read_message]; by rewrite Ht).
  rewrite !not_elem_of_cons in Hne. destruct Hne as (Ht & Hio & Hov & _).
  revert p Hr. induction evs as [|ev evs IH]; intros p; cbn [stdio_read_message];
    destruct (frame_parser_take_frame alloc p) as [[rc p1] o] eqn:E;
    (destruct (negb (rc =? 1)); [intros [=]; subst; by eapply Hstick|]);
    (destruct (timeout <=? 0); [intros [=]; by destruct Ht|]); [done|].
  destruct ev; try (by apply IH); try (intros [=]; done).
  destruct (frame_parser_append (alloc 2%nat) p1 chunk) as [rc2 p2] eqn:E2.
  assert (rc2 = 0 \/ rc2 = AIRY_ERR_OVERFLOW) as [->| ->].
  { rewrite Ha in E2. by apply append_code in E2. }
  - by apply IH.
  - destruct (negb (AIRY_ERR_OVERFLOW =? 0)); [|by apply IH]. intros [=]. by destruct Hov.
Qed.

Definition wedged_parser : mcp_frame_parser_t :=
  mkParser "Content-Length: x\r\n\r\n"%cs 4096 MCP_FRAME_STATE_HEADER 0 0 None.

Lemma frame_error_sticky_witness :
  @stdio_read_message inst_err (fun _ => true) [RData "Content-Length: 2\r\n\r\n{}"%cs] wedged_parser 5
  = Some (MCP_CLIENT_ERR_FRAME, wedged_parser, None, [RData "Content-Length: 2\r\n\r\n{}"%cs]).
Proof.
  apply (@frame_error_sticky inst_err (fun _ => true) [RData "Content-Length: x\r\n\r\n"%cs]
    frame_parser_init 10 wedged_parser None []); [done | by apply (bool_decide_eq_true_1 (_ ∉ _)) | reflexivity].
Defined.
