(* ===== verification/McpHttp.v ===== *)
(** * The MCP client's transports: standards/mcp/src/mcp_client_http.c

    The client's record, the monad its input and output run in, and the HTTP
    transport.  A call runs against scripts of answers of the system: it
    returns, is left waiting when a script is used up, or reaches behaviour C
    leaves undefined.  Allocation succeeds. *)

From S2P Require Export McpFrame.
From S2P Require Import EnvInst.

Definition MCP_CLIENT_PROTOCOL_VERSION : bytes := "2024-11-05"%cs.

Inductive mcp_client_transport_t :=
| MCP_CLIENT_TRANSPORT_NONE
| MCP_CLIENT_TRANSPORT_STDIO
| MCP_CLIENT_TRANSPORT_HTTP.

Record mcp_client_s := mkClient {
  cl_name : bytes;
  cl_transport : mcp_client_transport_t;
  cl_child_pid : Z;
  cl_stdio_write_fd : Z;
  cl_stdio_read_fd : Z;
  cl_argv_copy : option (list bytes);
  cl_http_host : bytes;
  cl_http_path : bytes;
  cl_http_port : Z;
  cl_parser : mcp_frame_parser_t;
  cl_request_id : Z;
  cl_initialized : bool;
  cl_server_name : option bytes
}.

#[export] Instance eta_client : Eta mcp_client_s := fun c =>
  mkClient (cl_name c) (cl_transport c) (cl_child_pid c) (cl_stdio_write_fd c)
    (cl_stdio_read_fd c) (cl_argv_copy c) (cl_http_host c) (cl_http_path c) (cl_http_port c)
    (cl_parser c) (cl_request_id c) (cl_initialized c) (cl_server_name c).

(** ** The monad *)

(** The answer of [getaddrinfo] and of the attempts to reach the addresses:
    whether the socket was created and whether it connected. *)
Inductive connect_event :=
| CGaiError
| CAddresses (l : list (bool * bool)).

(** The answers still to come and the bytes written so far. *)
Record io := mkIo {
  io_writes : list write_event;
  io_reads : list read_event;
  io_connects : list connect_event;
  io_clock : list Z;
  io_sent : bytes
}.

#[export] Instance eta_io : Eta io := fun s =>
  mkIo (io_writes s) (io_reads s) (io_connects s) (io_clock s) (io_sent s).

Inductive res (A : Type) :=
| Ret (a : A) (s : io)
| Blocked
| Undef.
Arguments Ret {A} a s.
Arguments Blocked {A}.
Arguments Undef {A}.

Definition IO (A : Type) : Type := io -> res A.

#[export] Instance io_ret : MRet IO := fun A a s => Ret a s.
#[export] Instance io_bind : MBind IO := fun A B f m s =>
  match m s with
  | Ret a s => f a s
  | Blocked => Blocked
  | Undef => Undef
  end.

(** A computation whose outcome may be undefined. *)
Definition of_outcome {A} (o : outcome A) : IO A := fun s =>
  match o with Done a => Ret a s | Fault => Undef end.

(** The clock's next reading. *)
Definition now_ms : IO Z := fun s =>
  match io_clock s with
  | t :: r => Ret t (s <| io_clock := r |>)
  | [] => Blocked
  end.

Section http.
Context `{AiryErr}.

(** Writing a buffer, or a message with its header. *)
Definition io_write (data : bytes) : IO Z := fun s =>
  match write_all_with_timeout (io_writes s) data with
  | Some (rc, out, evs) => Ret rc (s <| io_writes := evs |> <| io_sent ::= (fun b => b ++ out) |>)
  | None => Blocked
  end.

Definition io_send (body : bytes) : IO Z := fun s =>
  match stdio_send_message (io_writes s) body with
  | Some (rc, out, evs) => Ret rc (s <| io_writes := evs |> <| io_sent ::= (fun b => b ++ out) |>)
  | None => Blocked
  end.

Definition all_ok (n : nat) : bool := true.

Definition io_read (c : mcp_client_s) (timeout_ms : Z) : IO (Z * mcp_client_s * option bytes) :=
  fun s =>
  match stdio_read_message all_ok (io_reads s) (cl_parser c) timeout_ms with
  | Some (rc, p, out, evs) => Ret (rc, c <| cl_parser := p |>, out) (s <| io_reads := evs |>)
  | None => Blocked
  end.

(** ** Addresses *)

(** [strncmp(url, prefix, strlen(prefix)) == 0] *)
Definition has_prefix (prefix url : bytes) : bool := strneq (length prefix) url prefix.

(** [None] is the return value -1. *)
Definition parse_http_url (url : bytes) : option (bytes * Z * bytes) :=
  if negb (has_prefix "http://"%cs url) then None
  else
    let p := drop 7 url in
    let slash := strchr p "/" in
    let host_len := match slash with Some k => k | None => length p end in
    if (host_len =? 0)%nat then None
    else
      let path := match slash with Some k => drop k p | None => "/mcp"%cs end in
      match strchr (take host_len p) ":" with
      | Some colon =>
          let plen := (host_len - colon - 1)%nat in
          if (plen =? 0)%nat || (8 <=? plen)%nat then None
          else
            let pv := strtoull (take plen (drop (colon + 1) p)) in
            if (pv =? 0) || (65535 <? pv) then None
            else Some (take colon p, pv, path)
      | None => Some (take host_len p, 80, path)
      end.

(** Whether a connected socket is left in [fd]. *)
Fixpoint try_addresses (l : list (bool * bool)) : bool :=
  match l with
  | [] => false
  | (socket, connect) :: r => if socket && connect then true else try_addresses r
  end.

Definition http_connect_fd : IO bool := fun s =>
  match io_connects s with
  | [] => Blocked
  | ev :: r =>
      let s := s <| io_connects := r |> in
      match ev with
      | CGaiError => Ret false s
      | CAddresses l => Ret (try_addresses l) s
      end
  end.

(** ** Responses *)

Fixpoint skip_until_space (s : bytes) : bytes :=
  match s with
  | c :: r => if Ascii.eqb c " " then s else skip_until_space r
  | [] => []
  end.

Fixpoint skip_spaces (s : bytes) : bytes :=
  match s with
  | c :: r => if Ascii.eqb c " " then skip_spaces r else s
  | [] => []
  end.

(** The status is only logged. *)
Definition parse_http_status (hdr : bytes) : Z :=
  if negb (has_prefix "HTTP/"%cs hdr) then 0
  else
    let num := take 7 (take_digits (skip_spaces (skip_until_space (drop 5 hdr)))) in
    if bool_decide (num = []) then 0 else strtol num.

(** The text up to the next line feed, without a carriage return before it. *)
Fixpoint line_of (v : bytes) : bytes :=
  match v with
  | c :: r => if Ascii.eqb c LF then [] else c :: line_of r
  | [] => []
  end.

Definition strip_cr (l : bytes) : bytes :=
  match reverse l with
  | c :: r => if Ascii.eqb c CR then reverse r else l
  | [] => []
  end.

(** [start] is whether the scan is at the start of a line. *)
Fixpoint sse_scan (start : bool) (p : bytes) : option bytes :=
  match p with
  | [] => None
  | c :: r =>
      if has_prefix "data:"%cs p && start
      then Some (strip_cr (line_of (skip_spaces (drop 5 p))))
      else sse_scan (Ascii.eqb c LF) r
  end.

Definition extract_sse_data (body : option bytes) : option bytes := body ≫= sse_scan true.

(** The loop that reads one frame from the socket. *)
Fixpoint http_read_frame (evs : list read_event) (p : mcp_frame_parser_t)
    : option (Z * mcp_frame_parser_t * option bytes * list read_event) :=
  let '(rc, p, out) := frame_parser_take_frame all_ok p in
  if negb (rc =? 1) then Some (rc, p, out, evs)
  else match evs with
  | [] => None
  | ev :: evs =>
      match ev with
      | RTimeout => Some (AIRY_ERR_TIMEOUT, p, None, evs)
      | RPollIntr => http_read_frame evs p
      | RPollErr | RBadFd | RAgain | RErr => Some (AIRY_ERR_IO, p, None, evs)
      | REof => Some (MCP_CLIENT_ERR_PROCESS_EXIT, p, None, evs)
      | RData chunk =>
          let '(rc, p) := frame_parser_append true p chunk in
          if negb (rc =? 0) then Some (rc, p, None, evs)
          else http_read_frame evs p
      end
  end.

Definition http_read_response : IO (Z * option bytes) := fun s =>
  match http_read_frame (io_reads s) frame_parser_init with
  | None => Blocked
  | Some (rc, p, out_body, evs) =>
      let s := s <| io_reads := evs |> in
      if negb (rc =? 0) then Ret (rc, out_body) s
      else
        let is_sse := match fp_header_text p with
                      | Some h => bool_decide (is_Some (strstr h "text/event-stream"%cs))
                      | None => false
                      end in
        match is_sse, out_body with
        | true, Some b => Ret (0, Some (default [] (extract_sse_data (Some b)))) s
        | _, _ => Ret (0, out_body) s
        end
  end.

Definition http_request (c : mcp_client_s) (body : bytes) : bytes :=
  "POST "%cs ++ cl_http_path c ++ " HTTP/1.1\r\nHost: "%cs ++ cl_http_host c
  ++ "\r\nContent-Type: application/json\r\nAccept: application/json, text/event-stream\r\n"%cs
  ++ "Mcp-Protocol-Version: "%cs ++ MCP_CLIENT_PROTOCOL_VERSION ++ "\r\nContent-Length: "%cs
  ++ dec (strlen body) ++ "\r\nConnection: close\r\n\r\n"%cs ++ body.

(** The whole request is handed to the writer; it is shorter than its buffer. *)
Definition http_send_message (c : mcp_client_s) (body : bytes) : IO (Z * option bytes) :=
  ok ← http_connect_fd;
  if negb ok then mret (MCP_CLIENT_ERR_CONNECT, None)
  else
    let req_cap := (256 + length (cl_http_host c) + length (cl_http_path c) + length body)%nat in
    rc ← io_write (fits req_cap (http_request c body));
    if negb (rc =? 0) then mret (rc, None) else http_read_response.
End http.
