(* ===== verification/McpTransport.v ===== *)
(** * The MCP transport: standards/mcp/src/mcp_transport.c

    Transports over a pair of descriptors or a socket.  Input and output run
    against scripts of answers of the system; a result of [None] means the call
    still waits after the last one.  Callbacks are effects. *)

From S2P Require Export McpFrame.
From S2P Require Import EnvInst McpHttp.

Inductive mcp_transport_type_t :=
| MCP_TRANSPORT_STDIO
| MCP_TRANSPORT_HTTP_SSE
| MCP_TRANSPORT_STREAMABLE_HTTP.

Inductive mcp_transport_state_t :=
| MCP_TRANSPORT_DISCONNECTED
| MCP_TRANSPORT_CONNECTING
| MCP_TRANSPORT_CONNECTED
| MCP_TRANSPORT_ERROR.

#[export] Instance transport_state_eq : EqDecision mcp_transport_state_t.
Proof. solve_decision. Defined.

(** The union: descriptors or addresses. *)
Inductive transport_union :=
| UStdio (input_fd output_fd : Z)
| UHttp (base_url api_key sse_endpoint post_endpoint : option bytes)
    (reconnect_interval_ms max_reconnect_attempts : Z).

(** Whether the callbacks are installed stands for the callbacks. *)
Record mcp_transport_config_t := mkTransportConfig {
  tc_type : mcp_transport_type_t;
  tc_on_error : bool;
  tc_on_state_change : bool;
  tc_read_timeout_ms : Z;
  tc_write_timeout_ms : Z;
  tc_max_message_size : Z;
  tc_config : transport_union
}.

Record mcp_transport := mkTransport {
  tr_type : mcp_transport_type_t;
  tr_state : mcp_transport_state_t;
  tr_on_error : bool;
  tr_on_state_change : bool;
  tr_read_timeout_ms : Z;
  tr_write_timeout_ms : Z;
  tr_max_message_size : Z;
  tr_input_fd : Z;
  tr_output_fd : Z;
  tr_base_url : option bytes;
  tr_host_header : option bytes;
  tr_api_key : option bytes;
  tr_sse_endpoint : option bytes;
  tr_post_endpoint : option bytes;
  tr_reconnect_interval_ms : Z;
  tr_max_reconnect_attempts : Z;
  tr_http_socket : Z;
  tr_running : bool
}.

#[export] Instance eta_transport : Eta mcp_transport := fun t =>
  mkTransport (tr_type t) (tr_state t) (tr_on_error t) (tr_on_state_change t)
    (tr_read_timeout_ms t) (tr_write_timeout_ms t) (tr_max_message_size t) (tr_input_fd t)
    (tr_output_fd t) (tr_base_url t) (tr_host_header t) (tr_api_key t) (tr_sse_endpoint t)
    (tr_post_endpoint t) (tr_reconnect_interval_ms t) (tr_max_reconnect_attempts t)
    (tr_http_socket t) (tr_running t).

Inductive tr_effect :=
| ETState (s : mcp_transport_state_t)
| ETError (code : Z) (msg : bytes)
| ETClose (fd : Z).

Definition set_state (new_state : mcp_transport_state_t) (t : mcp_transport)
    : mcp_transport * list tr_effect :=
  (t <| tr_state := new_state |>,
   if tr_on_state_change t && negb (bool_decide (tr_state t = new_state))
   then [ETState new_state] else []).

Definition notify_error (t : mcp_transport) (code : Z) (msg : bytes) : list tr_effect :=
  if tr_on_error t then [ETError code msg] else [].

(** ** Configuration and life cycle *)

Definition mcp_transport_config_stdio_default : mcp_transport_config_t :=
  mkTransportConfig MCP_TRANSPORT_STDIO false false 30000 30000 (10 * 1024 * 1024) (UStdio 0 1).

Definition mcp_transport_config_http_default (base_url : option bytes) : mcp_transport_config_t :=
  mkTransportConfig MCP_TRANSPORT_HTTP_SSE false false 30000 30000 (10 * 1024 * 1024)
    (UHttp base_url None (Some "/sse"%cs) (Some "/messages"%cs) 5000 10).

(** [v > 0 ? v : d] *)
Definition or_default (v d : Z) : Z := if 0 <? v then v else d.

(** The scheme is dropped, then the host goes up to the next slash. *)
Definition strip_scheme (url : bytes) : bytes :=
  if has_prefix "http://"%cs url then drop 7 url
  else if has_prefix "https://"%cs url then drop 8 url
  else url.

Definition upto (c : ascii) (s : bytes) : bytes :=
  match strchr s c with Some k => take k s | None => s end.

(** Only the two kinds of transport with a branch of their own read the union;
    the socket of the others stays 0. *)
Definition mcp_transport_create (alloc : bool) (config : option mcp_transport_config_t)
    : option mcp_transport :=
  match config with
  | None => None
  | Some c =>
      if negb alloc then None
      else
        let t := mkTransport (tc_type c) MCP_TRANSPORT_DISCONNECTED (tc_on_error c)
                   (tc_on_state_change c) (or_default (tc_read_timeout_ms c) 30000)
                   (or_default (tc_write_timeout_ms c) 30000)
                   (or_default (tc_max_message_size c) (10 * 1024 * 1024))
                   0 0 None None None None None 0 0 0 false in
        match tc_type c, tc_config c with
        | MCP_TRANSPORT_STDIO, UStdio i o =>
            Some (t <| tr_input_fd := or_default i 0 |> <| tr_output_fd := or_default o 1 |>)
        | MCP_TRANSPORT_HTTP_SSE, UHttp url key sse post interval attempts =>
            Some (t <| tr_base_url := url |>
                    <| tr_host_header := upto "/" ∘ strip_scheme <$> url |>
                    <| tr_api_key := key |>
                    <| tr_sse_endpoint := Some (default "/sse"%cs sse) |>
                    <| tr_post_endpoint := Some (default "/messages"%cs post) |>
                    <| tr_reconnect_interval_ms := or_default interval 5000 |>
                    <| tr_max_reconnect_attempts := or_default attempts 10 |>
                    <| tr_http_socket := -1 |>)
        | _, _ => Some t
        end
  end.

(** The address to connect to.  A port is whatever number follows the colon. *)
Definition url_endpoint (url : bytes) : bytes * Z :=
  let '(host_start, port) :=
    if has_prefix "https://"%cs url then (drop 8 url, 443)
    else if has_prefix "http://"%cs url then (drop 7 url, 80)
    else (url, 80) in
  let port_sep := strchr host_start ":" in
  let path_sep := strchr host_start "/" in
  match port_sep with
  | Some p =>
      if match path_sep with Some q => (p <? q)%nat | None => true end
      then (fits 256 (take p host_start),
            (strtol (drop (S p) host_start) + 2 ^ 31) mod 2 ^ 32 - 2 ^ 31)
      else (fits 256 (upto "/" host_start), port)
  | None => (fits 256 (upto "/" host_start), port)
  end.

(** How the name lookup, the socket and the connection come out; the texts are
    the system's. *)
Inductive start_event :=
| SGaiError (text : bytes)
| SNoSocket
| SNoConnect (sock : Z) (text : bytes)
| SConnected (sock : Z).

Section transport.
Context `{AiryErr}.

(** [lookup host port] is the system's answer. *)
Definition mcp_transport_start (lookup : bytes -> Z -> start_event) (t : option mcp_transport)
    : Z * option mcp_transport * list tr_effect :=
  match t with
  | None => (AIRY_ERR_UNKNOWN, None, [])
  | Some t =>
      if bool_decide (tr_state t = MCP_TRANSPORT_CONNECTED) then (0, Some t, [])
      else
        let '(t, e1) := set_state MCP_TRANSPORT_CONNECTING t in
        let failed (rc : Z) (errs : list tr_effect) :=
          let '(t, e2) := set_state MCP_TRANSPORT_ERROR t in (rc, Some t, e1 ++ errs ++ e2) in
        match tr_type t with
        | MCP_TRANSPORT_STDIO =>
            let '(t, e2) := set_state MCP_TRANSPORT_CONNECTED (t <| tr_running := true |>) in
            (0, Some t, e1 ++ e2)
        | _ =>
            match tr_base_url t with
            | None => failed AIRY_EINVAL (notify_error t (-1) "HTTP transport requires base_url"%cs)
            | Some url =>
                let '(host, port) := url_endpoint url in
                match lookup host port with
                | SGaiError text =>
                    failed AIRY_EIO
                      (notify_error t (-2) (fits 256 ("DNS resolution failed: "%cs ++ text)))
                | SNoSocket => failed AIRY_EINVAL (notify_error t (-3) "Socket creation failed"%cs)
                | SNoConnect sock text =>
                    failed AIRY_EINVAL
                      (notify_error t (-4) (fits 256 ("Connection failed: "%cs ++ text))
                       ++ [ETClose sock])
                | SConnected sock =>
                    let '(t, e2) := set_state MCP_TRANSPORT_CONNECTED
                                      (t <| tr_http_socket := sock |> <| tr_running := true |>) in
                    (0, Some t, e1 ++ e2)
                end
            end
        end
  end.

Definition mcp_transport_stop (t : option mcp_transport)
    : Z * option mcp_transport * list tr_effect :=
  match t with
  | None => (AIRY_ERR_UNKNOWN, None, [])
  | Some t =>
      let t := t <| tr_running := false |> in
      let '(t, e1) := if 0 <=? tr_http_socket t
                      then (t <| tr_http_socket := -1 |>, [ETClose (tr_http_socket t)])
                      else (t, []) in
      let '(t, e2) := set_state MCP_TRANSPORT_DISCONNECTED t in
      (0, Some t, e1 ++ e2)
  end.

Definition mcp_transport_destroy (t : option mcp_transport) : list tr_effect :=
  match t with
  | None => []
  | Some t =>
      let '(t, e1) := if tr_running t
                      then match mcp_transport_stop (Some t) with
                           | (_, Some t', e) => (t', e)
                           | (_, None, e) => (t, e)
                           end
                      else (t, []) in
      e1 ++ (if 0 <=? tr_http_socket t then [ETClose (tr_http_socket t)] else [])
  end.
End transport.

(** ** Input and output *)

(** What [select] and [write] answer: a call of [write] takes [n > 0] bytes. *)
Inductive tr_write :=
| TWTimeout
| TWSelErr
| TWFail
| TWWrote (n : Z).

(** What [select] and [read] answer: [TRData] is a run of bytes that are
    available, of which each [read] takes what it asks for. *)
Inductive tr_read :=
| TRTimeout
| TRSelErr
| TRFail
| TRData (chunk : bytes).

Section io.
Context `{AiryErr}.

(** The code, the bytes that got out and the answers left. *)
Fixpoint write_all (evs : list tr_write) (buf : bytes) : option (Z * bytes * list tr_write) :=
  if lenZ buf =? 0 then Some (0, [], evs)
  else match evs with
  | [] => None
  | ev :: evs =>
      match ev with
      | TWTimeout => Some (AIRY_ERR_INVALID_PARAM, [], evs)
      | TWSelErr => Some (AIRY_EINVAL, [], evs)
      | TWFail => Some (AIRY_ERR_UNKNOWN, [], evs)
      | TWWrote n =>
          '(rc, out, evs) ← write_all evs (drop (Z.to_nat n) buf);
          Some (rc, take (Z.to_nat n) buf ++ out, evs)
      end
  end.

(** What is left of a run. *)
Definition push_back (rest : bytes) (evs : list tr_read) : list tr_read :=
  match rest with [] => evs | _ => TRData rest :: evs end.

(** Reading the characters of a run into a line of at most [size - 1]: the line
    is complete ([inl]) or goes on. *)
Fixpoint line_chunk (size : nat) (acc chunk : bytes) : (bytes * bytes) + bytes :=
  if (size - 1 <=? length acc)%nat then inl (acc, chunk)
  else match chunk with
  | [] => inr acc
  | c :: r =>
      if Ascii.eqb c LF then inl (acc, r)
      else if Ascii.eqb c CR then line_chunk size acc r
      else line_chunk size (acc ++ [c]) r
  end.

(** The length of the line or a negative code, and the line. *)
Fixpoint read_line (size : nat) (acc : bytes) (evs : list tr_read)
    : option (Z * bytes * list tr_read) :=
  if (size - 1 <=? length acc)%nat then Some (lenZ acc, acc, evs)
  else match evs with
  | [] => None
  | ev :: evs =>
      match ev with
      | TRTimeout => Some (AIRY_ERR_INVALID_PARAM, [], evs)
      | TRSelErr => Some (AIRY_EINVAL, [], evs)
      | TRFail => Some (AIRY_ERR_UNKNOWN, [], evs)
      | TRData chunk =>
          match line_chunk size acc chunk with
          | inl (line, rest) => Some (lenZ line, line, push_back rest evs)
          | inr acc => read_line size acc evs
          end
      end
  end.

(** ** Sending *)

(** What [write_all(fd, buf, n, ...)] reads when [snprintf] returned [n] for
    [text] and a buffer of [size] bytes: the text, then its NUL, then memory
    past the buffer. *)
Definition printed (size : nat) (text : bytes) : outcome bytes :=
  if (length text <? size)%nat then Done text
  else if (length text =? size)%nat then Done (take (size - 1) text ++ [NUL])
  else Fault.

Definition content_length_header (length : Z) : bytes :=
  "Content-Length: "%cs ++ dec length ++ "\r\n\r\n"%cs.

Definition post_request (t : mcp_transport) (length : Z) : bytes :=
  "POST "%cs ++ default "/messages"%cs (tr_post_endpoint t) ++ " HTTP/1.1\r\nHost: "%cs
  ++ default "localhost"%cs (tr_host_header t)
  ++ "\r\nContent-Type: application/json\r\nContent-Length: "%cs ++ dec length ++ "\r\n"%cs
  ++ match tr_api_key t with
     | Some key => "Authorization: Bearer "%cs ++ key ++ "\r\n"%cs
     | None => []
     end
  ++ "\r\n"%cs.

(** The code, the transport, the effects, the bytes that got out and the
    answers left. *)
Definition mcp_transport_send (evs : list tr_write) (t : option mcp_transport)
    (message : option bytes)
    : outcome (option (Z * option mcp_transport * list tr_effect * bytes * list tr_write)) :=
  match t, message with
  | Some tr, Some m =>
      if lenZ m =? 0 then Done (Some (AIRY_ERR_UNKNOWN, t, [], [], evs))
      else if negb (bool_decide (tr_state tr = MCP_TRANSPORT_CONNECTED))
      then Done (Some (AIRY_ERR_NOT_FOUND, t, [], [], evs))
      else match tr_type tr with
      | MCP_TRANSPORT_STDIO =>
          hdr ← printed 32 (content_length_header (lenZ m));
          Done (
            '(rc, out, evs) ← write_all evs hdr;
            let failed code msg out evs :=
              let '(tr, e) := set_state MCP_TRANSPORT_ERROR tr in
              Some (AIRY_ERR_NULL_POINTER, Some tr, notify_error tr code msg ++ e, out, evs) in
            if rc <? 0 then failed (-10) "Failed to write message header"%cs out evs
            else
              '(rc, out', evs) ← write_all evs m;
              if rc <? 0 then failed (-11) "Failed to write message body"%cs (out ++ out') evs
              else Some (0, t, [], out ++ out', evs))
      | _ =>
          if tr_http_socket tr <? 0 then Done (Some (AIRY_ERR_NULL_POINTER, t, [], [], evs))
          else
            req ← printed 4096 (post_request tr (lenZ m));
            Done (
              '(rc, out, evs) ← write_all evs req;
              if rc <? 0
              then Some (AIRY_ERR_NULL_POINTER, t,
                         notify_error tr (-12) "Failed to send HTTP request header"%cs, out, evs)
              else
                '(rc, out', evs) ← write_all evs m;
                if rc <? 0
                then Some (AIRY_ERR_INVALID_PARAM, t,
                           notify_error tr (-13) "Failed to send HTTP request body"%cs,
                           out ++ out', evs)
                else Some (0, t, [], out ++ out', evs))
      end
  | _, _ => Done (Some (AIRY_ERR_UNKNOWN, t, [], [], evs))
  end.

(** ** Receiving *)

(** Reading [need] more bytes of a body. *)
Fixpoint read_body (need : nat) (acc : bytes) (evs : list tr_read)
    : option (Z * bytes * list tr_read) :=
  if (need =? 0)%nat then Some (0, acc, evs)
  else match evs with
  | [] => None
  | ev :: evs =>
      match ev with
      | TRTimeout => Some (-2, [], evs)
      | TRSelErr => Some (-1, [], evs)
      | TRFail => Some (AIRY_EINVAL, [], evs)
      | TRData chunk =>
          if (length chunk <? need)%nat then read_body (need - length chunk) (acc ++ chunk) evs
          else Some (0, acc ++ take need chunk, push_back (drop need chunk) evs)
      end
  end.

(** The code, the message, the effects and the answers left. *)
Definition recv_result : Type := Z * option bytes * list tr_effect * list tr_read.

(** A header line, a line taken to be empty, a body. *)
Definition recv_stdio (alloc : bool) (evs : list tr_read) (t : mcp_transport)
    : option recv_result :=
  '(hdr_result, header_buf, evs) ← read_line 256 [] evs;
  if hdr_result <? 0 then
    if hdr_result =? -2 then Some (AIRY_ERR_IO, None, [], evs)
    else Some (AIRY_EINVAL, None, notify_error t (-20) "Failed to read message header"%cs, evs)
  else
    let header := cstr_of header_buf in
    if negb (strneq 15 header "Content-Length: "%cs) then Some (AIRY_EINVAL, None, [], evs)
    else
      let content_length := u64 (atol (drop 15 header)) in
      '(_, _, evs) ← read_line 4 [] evs;
      if (content_length =? 0) || (tr_max_message_size t <? content_length)
      then Some (AIRY_EINVAL, None, notify_error t (-21) "Invalid content length"%cs, evs)
      else if negb alloc then Some (AIRY_ERR_OUT_OF_MEMORY, None, [], evs)
      else
        '(rc, body, evs) ← read_body (Z.to_nat content_length) [] evs;
        if rc =? 0 then Some (0, Some body, [], evs) else Some (rc, None, [], evs).

(** The call calls itself after a line it skips; every line is at least a
    character. *)
Fixpoint recv_http (fuel : nat) (alloc : bool) (evs : list tr_read) : option recv_result :=
  match fuel with
  | O => None
  | S f =>
      '(line_result, line_buf, evs) ← read_line 8192 [] evs;
      if line_result <? 0 then Some (AIRY_ERR_TIMEOUT, None, [], evs)
      else
        let line := cstr_of line_buf in
        if has_prefix "data: "%cs line then
          if negb alloc then Some (AIRY_ERR_OUT_OF_MEMORY, None, [], evs)
          else Some (0, Some (drop 6 line), [], evs)
        else if has_prefix "event: "%cs line then recv_http f alloc evs
        else if strlen line =? 0 then recv_http f alloc evs
        else Some (AIRY_EINVAL, None, [], evs)
  end.

(** The bytes that are still to come. *)
Definition tr_bytes (evs : list tr_read) : bytes :=
  concat (omap (fun e => match e with TRData c => Some c | _ => None end) evs).

Definition mcp_trans_receive (alloc : bool) (evs : list tr_read) (t : option mcp_transport)
    (has_out : bool) : option recv_result :=
  match t with
  | Some tr =>
      if negb has_out then Some (AIRY_ERR_TIMEOUT, None, [], evs)
      else if negb (bool_decide (tr_state tr = MCP_TRANSPORT_CONNECTED))
      then Some (AIRY_ERR_NOT_FOUND, None, [], evs)
      else match tr_type tr with
      | MCP_TRANSPORT_STDIO => recv_stdio alloc evs tr
      | _ =>
          if tr_http_socket tr <? 0 then Some (AIRY_ERR_NULL_POINTER, None, [], evs)
          else recv_http (S (length (tr_bytes evs))) alloc evs
      end
  | None => Some (AIRY_ERR_TIMEOUT, None, [], evs)
  end.

Definition mcp_trans_state (t : option mcp_transport) : mcp_transport_state_t :=
  match t with Some t => tr_state t | None => MCP_TRANSPORT_DISCONNECTED end.

Definition mcp_trans_type (t : option mcp_transport) : mcp_transport_type_t :=
  match t with Some t => tr_type t | None => MCP_TRANSPORT_STDIO end.

Definition mcp_trans_state_str (s : mcp_transport_state_t) : bytes :=
  match s with
  | MCP_TRANSPORT_DISCONNECTED => "disconnected"%cs
  | MCP_TRANSPORT_CONNECTING => "connecting"%cs
  | MCP_TRANSPORT_CONNECTED => "connected"%cs
  | MCP_TRANSPORT_ERROR => "error"%cs
  end.

Definition mcp_trans_type_str (ty : mcp_transport_type_t) : bytes :=
  match ty with
  | MCP_TRANSPORT_STDIO => "stdio"%cs
  | MCP_TRANSPORT_HTTP_SSE => "http+sse"%cs
  | MCP_TRANSPORT_STREAMABLE_HTTP => "streamable-http"%cs
  end.
End io.

(** ** Messages survive the descriptors *)

Definition data_only (evs : list tr_read) : Prop :=
  Forall (fun e => match e with TRData _ => True | _ => False end) evs.

Definition no_cr (l : list ascii) : list ascii := filter (fun c => c <> CR) l.

Section roundtrip.
Context `{AiryErr}.

Lemma tr_bytes_cons c evs : tr_bytes (TRData c :: evs) = c ++ tr_bytes evs.
Proof. done. Qed.

Lemma push_back_ok rest evs :
  data_only evs -> data_only (push_back rest evs) /\ tr_bytes (push_back rest evs) = rest ++ tr_bytes evs.
Proof. intros Hd. destruct rest; [done|]. split; [by apply Forall_cons|done]. Qed.

Lemma no_cr_cr l : no_cr (CR :: l) = no_cr l.
Proof. unfold no_cr. rewrite filter_cons_False; [done|]. intros Hx. by apply Hx. Qed.
Lemma no_cr_cons c l : c <> CR -> no_cr (c :: l) = c :: no_cr l.
Proof. intros Hc. unfold no_cr. by rewrite filter_cons_True. Qed.
Lemma no_cr_app l k : no_cr (l ++ k) = no_cr l ++ no_cr k.
Proof. apply filter_app. Qed.

(** A run inside a line is absorbed; one that holds its end completes it. *)
Lemma line_chunk_inside size acc l :
  LF ∉ l -> (length acc + length (no_cr l) < size - 1)%nat ->
  line_chunk size acc l = inr (acc ++ no_cr l).
Proof.
  revert acc. induction l as [|c l IH]; intros acc Hl Hs; cbn [line_chunk];
    rewrite (proj2 (Nat.leb_gt _ _)) by (cbn in Hs; lia); [by rewrite app_nil_r|].
  apply not_elem_of_cons in Hl as [Hc Hl]. destruct (Ascii.eqb_spec c LF) as [->|_]; [done|].
  destruct (Ascii.eqb_spec c CR) as [->|Hcr].
  - rewrite no_cr_cr in *. by apply IH.
  - rewrite no_cr_cons in * by done. cbn [length] in Hs.
    rewrite IH, <- app_assoc; [done|done|rewrite length_app; cbn; lia].
Qed.

Lemma line_chunk_end size acc l r :
  LF ∉ l -> (length acc + length (no_cr l) < size - 1)%nat ->
  line_chunk size acc (l ++ LF :: r) = inl (acc ++ no_cr l, r).
Proof.
  revert acc. induction l as [|c l IH]; intros acc Hl Hs; cbn [line_chunk app];
    rewrite (proj2 (Nat.leb_gt _ _)) by (cbn in Hs; lia); [by rewrite app_nil_r|].
  apply not_elem_of_cons in Hl as [Hc Hl]. destruct (Ascii.eqb_spec c LF) as [->|_]; [done|].
  destruct (Ascii.eqb_spec c CR) as [->|Hcr].
  - rewrite no_cr_cr in *. by apply IH.
  - rewrite no_cr_cons in * by done. cbn [length] in Hs.
    rewrite IH, <- app_assoc; [done|done|rewrite length_app; cbn; lia].
Qed.

(** Reading a line that arrives in any pieces. *)
Lemma read_line_data size acc evs l rest :
  data_only evs -> tr_bytes evs = l ++ LF :: rest -> LF ∉ l ->
  (length acc + length (no_cr l) < size - 1)%nat ->
  exists evs', read_line size acc evs = Some (lenZ (acc ++ no_cr l), acc ++ no_cr l, evs') /\
    data_only evs' /\ tr_bytes evs' = rest.
Proof.
  revert acc l. induction evs as [|ev evs IH]; intros acc l Hd Hb Hl Hs.
  { by destruct l. }
  apply Forall_cons in Hd as [He Hd]. destruct ev as [| | |chunk]; try done.
  cbn [read_line]. rewrite (proj2 (Nat.leb_gt _ _)) by lia. rewrite tr_bytes_cons in Hb.
  destruct (decide (length chunk <= length l)%nat) as [Hle|Hgt].
  - symmetry in Hb. apply app_eq_take in Hb as [Hsplit Hb]; [|done].
    rewrite Hsplit in Hl, Hs. rewrite no_cr_app, length_app in Hs.
    apply not_elem_of_app in Hl as [Hl1 Hl2].
    rewrite line_chunk_inside by first [done|lia].
    destruct (IH (acc ++ no_cr chunk) (drop (length chunk) l) Hd Hb Hl2) as (evs' & Hr & Hd' & Hb').
    { rewrite length_app. lia. }
    exists evs'. rewrite Hr, <- app_assoc, <- no_cr_app, <- Hsplit. done.
  - change (LF :: rest) with ([LF] ++ rest) in Hb. rewrite app_assoc in Hb.
    apply app_eq_take in Hb as [Hsplit Hb]; [|rewrite length_app; cbn; lia].
    rewrite Hsplit, <- app_assoc. cbn [app]. rewrite line_chunk_end by done.
    eexists. split; [reflexivity|]. destruct (push_back_ok (drop (length (l ++ [LF])) chunk) evs Hd) as [H1 H2].
    split; [exact H1|]. by rewrite H2.
Qed.

(** Reading a body that arrives in any pieces. *)
Lemma read_body_data acc evs m rest :
  data_only evs -> tr_bytes evs = m ++ rest ->
  exists evs', read_body (length m) acc evs = Some (0, acc ++ m, evs') /\
    data_only evs' /\ tr_bytes evs' = rest.
Proof.
  revert acc m. induction evs as [|ev evs IH]; intros acc m Hd Hb.
  { symmetry in Hb. apply app_eq_nil in Hb as [-> ->]. exists []. cbn. by rewrite app_nil_r. }
  destruct (decide (m = [])) as [->|Hm].
  { exists (ev :: evs). cbn. by rewrite app_nil_r. }
  apply Forall_cons in Hd as [He Hd]. destruct ev as [| | |chunk]; try done. rewrite tr_bytes_cons in Hb.
  cbn [read_body]. destruct (Nat.eqb_spec (length m) 0) as [Hz|_]; [by destruct m|].
  destruct (Nat.ltb_spec (length chunk) (length m)) as [Hlt|Hge].
  - symmetry in Hb. apply app_eq_take in Hb as [Hsplit Hb]; [|lia].
    destruct (IH (acc ++ chunk) (drop (length chunk) m) Hd Hb) as (evs' & Hr & Hd' & Hb').
    exists evs'. rewrite length_drop in Hr. rewrite Hr, <- app_assoc, <- Hsplit. done.
  - apply app_eq_take in Hb as [Hsplit Hb]; [|done].
    assert (take (length m) chunk = m) as -> by (rewrite Hsplit; apply take_app_length).
    eexists. split; [reflexivity|].
    destruct (push_back_ok (drop (length m) chunk) evs Hd) as [H1 H2]. split; [exact H1|]. by rewrite H2.
Qed.
End roundtrip.

Section interop.
Context `{AiryErr}.

Lemma write_all_code evs buf rc out evs' :
  write_all evs buf = Some (rc, out, evs') -> (rc = 0 /\ out = buf) \/ rc < 0.
Proof.
  revert buf rc out evs'. induction evs as [|ev evs IH]; intros buf rc out evs'; cbn [write_all];
    (destruct (Z.eqb_spec (lenZ buf) 0) as [Hz|_];
     [intros [= <- <- <-]; left; split; [done|]; by destruct buf|]); [done|].
  destruct ev as [| | |n]; try (intros [= <- <- <-]; right; errlia).
  destruct (write_all evs (drop (Z.to_nat n) buf)) as [[[rc1 o1] e1]|] eqn:E; [|done].
  cbn. intros [= -> <- <-]. destruct (IH _ _ _ _ E) as [[-> ->]|Hneg]; [left|by right].
  split; [done|]. apply take_drop.
Qed.

Lemma header_is_frame n : content_length_header n = frame_header n.
Proof. done. Qed.

(** The line of a frame's header and the empty line after it. *)
Lemma frame_lines m rest :
  frame_of m ++ rest
  = ("Content-Length: "%cs ++ dec (lenZ m) ++ [CR]) ++ (LF :: ([CR] ++ (LF :: (m ++ rest)))).
Proof. unfold frame_of, frame_header, CRLF. by rewrite <- !app_assoc. Qed.

Lemma recv_stdio_frame evs t m rest :
  0 < lenZ m -> lenZ m <= tr_max_message_size t -> lenZ m < 2 ^ 63 ->
  data_only evs -> tr_bytes evs = frame_of m ++ rest ->
  exists evs', recv_stdio true evs t = Some (0, Some m, [], evs') /\
    data_only evs' /\ tr_bytes evs' = rest.
Proof.
  intros Hm Hmax H63 Hd Hb. rewrite frame_lines in Hb. unfold recv_stdio.
  set (n := lenZ m) in *. set (h := "Content-Length: "%cs ++ dec n).
  assert (forall c, isdigit c = false -> c ∉ ("Content-Length: "%cs : bytes) -> c ∉ h) as Hnot.
  { intros c Hc Hp. apply not_elem_of_app. split; [done|]. apply dec_notin; [|done]. apply lenZ_nonneg. }
  assert ((CR ∉ h) /\ (LF ∉ h) /\ (NUL ∉ h)) as (Hcr & Hlf & Hnul)
    by (repeat split; apply Hnot; first [done | by apply (bool_decide_eq_true_1 (_ ∉ _))]).
  assert (no_cr (h ++ [CR]) = h) as Hstrip.
  { rewrite no_cr_app, no_cr_cr. change (no_cr []) with ([] : list ascii). rewrite app_nil_r.
    clear -Hcr. induction h as [|c l IH]; [done|]. apply not_elem_of_cons in Hcr as [Hc Hl].
    rewrite no_cr_cons by congruence. by rewrite IH. }
  assert (length h <= 36)%nat as Hlen.
  { unfold h. rewrite length_app. pose proof (dec_length n). change (length "Content-Length: "%cs) with 16%nat. lia. }
  rewrite app_assoc in Hb. fold h in Hb.
  destruct (read_line_data 256 [] evs (h ++ [CR]) _ Hd Hb) as (evs1 & -> & Hd1 & Hb1).
  { rewrite not_elem_of_app, list_elem_of_singleton. done. }
  { rewrite Hstrip. cbn [length]. lia. }
  cbn [app mbind option_bind]. rewrite Hstrip.
  rewrite (proj2 (Z.ltb_ge (lenZ h) 0)) by apply lenZ_nonneg.
  rewrite (cstr_of_id h) by done.
  assert (strneq 15 h "Content-Length: "%cs = true) as -> by (by apply bool_decide_eq_true).
  cbn [negb]. change (drop 15 h) with (" "%cs ++ dec n).
  assert (atol (" "%cs ++ dec n) = n) as ->.
  { unfold atol. transitivity (strtol (dec n)); [done|]. rewrite <- (app_nil_r (dec n)). apply strtol_dec; [lia|done]. }
  destruct (read_line_data 4 [] evs1 [CR] _ Hd1 Hb1) as (evs2 & -> & Hd2 & Hb2);
    [by apply (bool_decide_eq_true_1 (_ ∉ _)) | rewrite no_cr_cr; cbn; lia|].
  cbn [mbind option_bind]. unfold u64. rewrite Z.mod_small by lia.
  rewrite (proj2 (Z.eqb_neq n 0)), (proj2 (Z.ltb_ge (tr_max_message_size t) n)) by lia. cbn [orb negb].
  unfold n, lenZ. rewrite Nat2Z.id.
  destruct (read_body_data [] evs2 m rest Hd2 Hb2) as (evs3 & -> & Hd3 & Hb3). by exists evs3.
Qed.
(** What a successful send writes. *)
Lemma transport_send_frame wevs wevs' tx t' e m out :
  tr_type tx = MCP_TRANSPORT_STDIO -> lenZ m < 10 ^ 11 ->
  mcp_transport_send wevs (Some tx) (Some m) = Done (Some (0, t', e, out, wevs')) ->
  0 < lenZ m /\ out = frame_of m /\ t' = Some tx /\ e = [].
Proof.
  intros Hty Hlen. unfold mcp_transport_send. rewrite Hty.
  destruct (Z.eqb_spec (lenZ m) 0) as [Hz|Hz].
  { intros [[[[Hrc _]%pair_equal_spec _]%pair_equal_spec _]%pair_equal_spec _]%Done_inj%Some_inj%pair_equal_spec. errlia. }
  destruct (bool_decide_reflect (tr_state tx = MCP_TRANSPORT_CONNECTED)) as [Hst|_]; cbn [negb].
  2:{ intros [[[[Hrc _]%pair_equal_spec _]%pair_equal_spec _]%pair_equal_spec _]%Done_inj%Some_inj%pair_equal_spec. errlia. }
  assert (printed 32 (content_length_header (lenZ m)) = Done (frame_header (lenZ m))) as ->.
  { unfold printed. rewrite header_is_frame. enough (length (frame_header (lenZ m)) < 32)%nat as Hl
      by (by rewrite (proj2 (Nat.ltb_lt _ _) Hl)).
    unfold frame_header. rewrite !length_app. change (length CRLF) with 2%nat.
    pose proof (dec_short 10 (lenZ m) Hlen). change (length "Content-Length: "%cs) with 16%nat. lia. }
  cbn [mbind outcome_bind]. intros Hsend%Done_inj.
  destruct (write_all wevs (frame_header (lenZ m))) as [[[rc o] evs1]|] eqn:E1; [|done].
  cbn [mbind option_bind] in Hsend. destruct (Z.ltb_spec rc 0) as [Hneg|Hpos].
  { exfalso. cbn in Hsend. injection Hsend as Hrc _ _ _ _. errlia. }
  destruct (write_all_code _ _ _ _ _ E1) as [[-> ->]|?]; [|lia].
  destruct (write_all evs1 m) as [[[rc o'] evs2]|] eqn:E2; [|done].
  cbn [mbind option_bind] in Hsend. destruct (Z.ltb_spec rc 0) as [Hneg|Hpos'].
  { exfalso. cbn in Hsend. injection Hsend as Hrc _ _ _ _. errlia. }
  destruct (write_all_code _ _ _ _ _ E2) as [[-> ->]|?]; [|lia].
  injection Hsend as <- <- <- <-. split_and!; try done. pose proof (lenZ_nonneg m). lia.
Qed.

(** What a transport reads from a frame. *)
Lemma transport_recv_frame rx revs m rest :
  tr_type rx = MCP_TRANSPORT_STDIO -> tr_state rx = MCP_TRANSPORT_CONNECTED ->
  0 < lenZ m < 2 ^ 63 -> lenZ m <= tr_max_message_size rx ->
  data_only revs -> tr_bytes revs = frame_of m ++ rest ->
  exists revs', mcp_trans_receive true revs (Some rx) true = Some (0, Some m, [], revs') /\
    data_only revs' /\ tr_bytes revs' = rest.
Proof.
  intros Hrx Hcon Hm Hmax Hd Hb. unfold mcp_trans_receive. rewrite Hrx, Hcon.
  cbn [negb]. rewrite bool_decide_eq_true_2 by done. cbn [negb].
  apply recv_stdio_frame; (done || lia).
Qed.
End interop.

(** C24. Messages survive the standard streams.  What a stdio transport writes
    for a message, however its writes are split, is the message's length header
    and the message, the frame the MCP client's parser reads; and any stdio
    transport whose limit admits it reads exactly that message from those
    bytes, in whatever pieces they arrive, leaving what follows for the next
    call. *)
Theorem transport_roundtrip `{AiryErr} wevs wevs' tx t' e m out :
  tr_type tx = MCP_TRANSPORT_STDIO -> lenZ m < 10 ^ 11 ->
  mcp_transport_send wevs (Some tx) (Some m) = Done (Some (0, t', e, out, wevs')) ->
  out = frame_of m /\ t' = Some tx /\ e = [] /\
  forall rx revs rest,
    tr_type rx = MCP_TRANSPORT_STDIO -> tr_state rx = MCP_TRANSPORT_CONNECTED ->
    lenZ m <= tr_max_message_size rx -> data_only revs -> tr_bytes revs = out ++ rest ->
    exists revs', mcp_trans_receive true revs (Some rx) true = Some (0, Some m, [], revs') /\
      data_only revs' /\ tr_bytes revs' = rest.
Proof.
  intros Hty Hlen Hsend. destruct (transport_send_frame _ _ _ _ _ _ _ Hty Hlen Hsend) as (Hm & -> & -> & ->).
  split_and!; try done. intros rx revs rest Hrx Hcon Hmax Hd Hb. apply transport_recv_frame; (done || lia).
Qed.

Lemma transport_roundtrip_witness :
  let t := mkTransport MCP_TRANSPORT_STDIO MCP_TRANSPORT_CONNECTED false false 30000 30000 4096 0 1
             None None None None None 0 0 0 true in
  let revs := [TRData "Content-Le"%cs; TRData "ngth: 2\r\n\r\n{}C"%cs] in
  exists revs', @mcp_trans_receive inst_err true revs (Some t) true = Some (0, Some "{}"%cs, [], revs') /\
    data_only revs' /\ tr_bytes revs' = "C"%cs.
Proof.
  intros t revs. assert (lenZ ("{}"%cs : bytes) < 10 ^ 11) as Hl by (vm_compute; reflexivity).
  destruct (@transport_roundtrip inst_err [TWWrote 5; TWWrote 100; TWWrote 2] [] t (Some t) []
    "{}"%cs "Content-Length: 2\r\n\r\n{}"%cs eq_refl Hl ltac:(vm_compute; reflexivity)) as (_ & _ & _ & Hrecv).
  apply (Hrecv t revs "C"%cs); [reflexivity | reflexivity | vm_compute; discriminate | | vm_compute; reflexivity].
  by repeat apply Forall_cons_2; try apply Forall_nil_2.
Defined.
