(* ===== verification/McpContext.v ===== *)
(** * MCP server context: standards/mcp/src/mcp_v1_adapter.c

    The server's registered tools, resources, templates and prompts, its
    callbacks and settings.  Handlers are functions on the state [W] of the
    world.  An array with a count and a capacity is the list of its used
    entries and the capacity. *)

From S2P Require Export Env Snprintf.
From S2P Require Import EnvInst Stack.

Definition MCP_V1_VERSION : bytes := "1.0.0"%cs.
Definition MCP_V1_MAX_TOOLS : Z := 1024.
Definition MCP_V1_MAX_RESOURCES : Z := 512.
Definition MCP_V1_MAX_PROMPTS : Z := 256.
Definition MCP_V1_DEFAULT_TIMEOUT_MS : Z := 30000.
Definition MCP_V1_MAX_MESSAGE_SIZE : Z := 10 * 1024 * 1024.

Definition MCP_CAP_TOOLS : Z := 0x01.
Definition MCP_CAP_RESOURCES : Z := 0x02.
Definition MCP_CAP_PROMPTS : Z := 0x04.
Definition MCP_CAP_SAMPLING : Z := 0x08.
Definition MCP_CAP_LOGGING : Z := 0x10.
Definition MCP_CAP_COMPLETION : Z := 0x20.

(** ** JSON strings *)

Definition escape_char (c : ascii) : bytes :=
  if Ascii.eqb c QUOTE then [BACKSLASH; QUOTE]
  else if Ascii.eqb c BACKSLASH then [BACKSLASH; BACKSLASH]
  else if Ascii.eqb c LF then BACKSLASH :: "n"%cs
  else if Ascii.eqb c CR then BACKSLASH :: "r"%cs
  else if Ascii.eqb c TAB then BACKSLASH :: "t"%cs
  else [c].

(** [json_string_escape] of a non-null string whose copy can be allocated. *)
Definition json_string_escape (str : option bytes) : bytes :=
  match str with
  | None => "null"%cs
  | Some s => QUOTE :: concat (escape_char <$> s) ++ [QUOTE]
  end.

Definition strdup_safe (s : option bytes) : option bytes := s.

(** ** Data *)

Inductive mcp_content_type_t :=
| MCP_CONTENT_TEXT
| MCP_CONTENT_IMAGE
| MCP_CONTENT_RESOURCE
| MCP_CONTENT_EMBEDDED.

Definition mcp_type_str (type : mcp_content_type_t) : bytes :=
  match type with
  | MCP_CONTENT_IMAGE => "image"%cs
  | MCP_CONTENT_RESOURCE => "resource"%cs
  | MCP_CONTENT_EMBEDDED => "embedded"%cs
  | MCP_CONTENT_TEXT => "text"%cs
  end.

Inductive mcp_log_level_t :=
| MCP_LOG_DEBUG
| MCP_LOG_INFO
| MCP_LOG_NOTICE
| MCP_LOG_WARNING
| MCP_LOG_ERROR
| MCP_LOG_CRITICAL
| MCP_LOG_ALERT
| MCP_LOG_EMERGENCY.

Record mcp_content_t := mkContent {
  ct_type : mcp_content_type_t;
  ct_text : option bytes;
  ct_mime_type : option bytes;
  ct_uri : option bytes;
  ct_data : option bytes;
  ct_data_size : Z
}.

Record mcp_tool_t := mkTool {
  tl_name : option bytes;
  tl_description : option bytes;
  tl_input_schema_json : option bytes;
  tl_required_caps : Z
}.

Record mcp_resource_t := mkResource {
  rs_uri : option bytes;
  rs_name : option bytes;
  rs_description : option bytes;
  rs_mime_type : option bytes
}.

Record mcp_resource_template_t := mkTemplate {
  tp_uri_template : option bytes;
  tp_name : option bytes;
  tp_description : option bytes;
  tp_mime_type : option bytes
}.

Record mcp_prompt_t := mkPrompt {
  pt_name : option bytes;
  pt_description : option bytes;
  pt_arguments_schema_json : option bytes
}.

Record mcp_sampling_message_t := mkSMessage {
  sm_role : option bytes;
  sm_content : option (list mcp_content_t)
}.

Record mcp_sampling_params_t := mkSParams {
  sp_messages : list mcp_sampling_message_t;
  sp_model : option bytes;
  sp_max_tokens : Z;
  sp_temperature : double;
  sp_top_p : double;
  sp_n : Z;
  sp_stream : bool;
  sp_stop_sequences_json : option bytes
}.

Record mcp_sampling_result_t := mkSResult {
  sr_model : option bytes;
  sr_content : option (list mcp_content_t);
  sr_messages : list mcp_sampling_message_t;
  sr_stopped_early : bool;
  sr_stop_reason : option bytes
}.

Record mcp_completion_ref_t := mkCRef {
  cr_reference_type : option bytes;
  cr_ref_uri : option bytes;
  cr_ref_name : option bytes
}.

Record mcp_completion_request_t := mkCRequest {
  cq_ref : mcp_completion_ref_t;
  cq_argument_name : option bytes;
  cq_prefix : option bytes
}.

Record mcp_completion_result_t := mkCResult {
  cs_values : list bytes;
  cs_has_more : bool;
  cs_total : Z
}.

Record mcp_v1_config_t := mkMcpConfig {
  mc_capabilities : Z;
  mc_default_timeout_ms : Z;
  mc_max_tools : Z;
  mc_max_resources : Z;
  mc_max_message_size : Z;
  mc_enable_progress_notifications : bool;
  mc_enable_cancellation : bool;
  mc_enable_sampling : bool;
  mc_server_name : option bytes;
  mc_server_version : option bytes
}.

#[export] Instance eta_mcp_config : Eta mcp_v1_config_t := fun c =>
  mkMcpConfig (mc_capabilities c) (mc_default_timeout_ms c) (mc_max_tools c)
    (mc_max_resources c) (mc_max_message_size c) (mc_enable_progress_notifications c)
    (mc_enable_cancellation c) (mc_enable_sampling c) (mc_server_name c) (mc_server_version c).

Record mcp_stream_config_t := mkStreamConfig {
  sc_enabled : bool;
  sc_chunk_size : Z;
  sc_max_buffer_size : Z;
  sc_flush_interval_ms : Z
}.

Section context.
Context {W : Type}.

(** A tool's results and its error flag. *)
Definition mcp_tool_handler_t : Type :=
  bytes -> option bytes -> W -> W * (list mcp_content_t * bool).
(** A resource's content and MIME type. *)
Definition mcp_resource_handler_t : Type := bytes -> W -> W * (option bytes * option bytes).
Definition mcp_prompt_handler_t : Type :=
  bytes -> option bytes -> W -> W * list mcp_sampling_message_t.
Definition mcp_sampling_handler_t : Type :=
  mcp_sampling_params_t -> mcp_sampling_result_t -> W -> W * mcp_sampling_result_t.
Definition mcp_completion_handler_t : Type :=
  mcp_completion_request_t -> mcp_completion_result_t -> W -> W * mcp_completion_result_t.
Definition mcp_progress_callback_t : Type := bytes -> double -> double -> W -> W.
Definition mcp_log_callback_t : Type := mcp_log_level_t -> bytes -> bytes -> W -> W.

Record mcp_tool_entry_t := mkToolEntry {
  te_tool : mcp_tool_t;
  te_handler : option mcp_tool_handler_t
}.

Record mcp_resource_entry_t := mkResourceEntry {
  rn_resource : mcp_resource_t;
  rn_handler : option mcp_resource_handler_t
}.

Record mcp_prompt_entry_t := mkPromptEntry {
  pe_prompt : mcp_prompt_t;
  pe_handler : option mcp_prompt_handler_t
}.

Record mcp_v1_context_t := mkMcp {
  mx_config : mcp_v1_config_t;
  mx_tools : list mcp_tool_entry_t;
  mx_tool_capacity : Z;
  mx_resources : list mcp_resource_entry_t;
  mx_resource_capacity : Z;
  mx_templates : list mcp_resource_template_t;
  mx_template_capacity : Z;
  mx_prompts : list mcp_prompt_entry_t;
  mx_prompt_capacity : Z;
  mx_sampling_handler : option mcp_sampling_handler_t;
  mx_completion_handler : option mcp_completion_handler_t;
  mx_progress_callback : option mcp_progress_callback_t;
  mx_log_callback : option mcp_log_callback_t;
  mx_log_level : mcp_log_level_t;
  mx_transport : option ptr;
  mx_request_counter : Z;
  mx_stream_config : mcp_stream_config_t;
  mx_stream_active : Z
}.

#[global] Instance eta_mcp : Eta mcp_v1_context_t := fun x =>
  mkMcp (mx_config x) (mx_tools x) (mx_tool_capacity x) (mx_resources x)
    (mx_resource_capacity x) (mx_templates x) (mx_template_capacity x) (mx_prompts x)
    (mx_prompt_capacity x) (mx_sampling_handler x) (mx_completion_handler x)
    (mx_progress_callback x) (mx_log_callback x) (mx_log_level x) (mx_transport x)
    (mx_request_counter x) (mx_stream_config x) (mx_stream_active x).

(** ** Lifecycle *)

Definition mcp_v1_config_default : mcp_v1_config_t :=
  mkMcpConfig (Z.lor (Z.lor (Z.lor MCP_CAP_TOOLS MCP_CAP_RESOURCES) MCP_CAP_PROMPTS) MCP_CAP_LOGGING)
    MCP_V1_DEFAULT_TIMEOUT_MS MCP_V1_MAX_TOOLS MCP_V1_MAX_RESOURCES MCP_V1_MAX_MESSAGE_SIZE
    true true false (Some "AgentRT MCP Server"%cs) (Some MCP_V1_VERSION).

(** [alloc] is whether the five allocations succeed. *)
Definition mcp_v1_context_create (alloc : bool) (config : option mcp_v1_config_t)
    : option mcp_v1_context_t :=
  match config with
  | None => None
  | Some c =>
      if negb alloc then None
      else
        let c := c <| mc_server_name ::= strdup_safe |> <| mc_server_version ::= strdup_safe |> in
        Some (mkMcp c [] 32 [] 16 [] 16 [] 16 None None None None MCP_LOG_INFO None 0
                (mkStreamConfig false 0 0 0) 0)
  end.

(** The arrays are released and the counts and capacities reset. *)
Definition mcp_v1_context_clear (ctx : option mcp_v1_context_t) : option mcp_v1_context_t :=
  match ctx with
  | None => None
  | Some x =>
      Some (x <| mx_tools := [] |> <| mx_tool_capacity := 0 |>
              <| mx_resources := [] |> <| mx_resource_capacity := 0 |>
              <| mx_templates := [] |> <| mx_template_capacity := 0 |>
              <| mx_prompts := [] |> <| mx_prompt_capacity := 0 |>
              <| mx_config ::= (fun c => c <| mc_server_name := None |>
                                          <| mc_server_version := None |>) |>)
  end.

(** ** Registration *)

(** Appending to an array of [cap] entries that is doubled when full.  [None]
    is a failed reallocation; writing at an index the array does not have is
    a fault. *)
Definition push {A} (alloc : bool) (items : list A) (cap : Z) (x : A)
    : outcome (option (list A * Z)) :=
  if cap <=? lenZ items then
    let new_cap := u64 (cap * 2) in
    if negb alloc then Done None
    else if lenZ items <? new_cap then Done (Some (items ++ [x], new_cap))
    else Fault
  else Done (Some (items ++ [x], cap)).

Definition mcp_v1_register_tool `{AiryErr} (alloc : bool) (ctx : option mcp_v1_context_t)
    (tool : option mcp_tool_t) (handler : option mcp_tool_handler_t)
    : outcome (Z * option mcp_v1_context_t) :=
  match ctx, tool with
  | Some x, Some t =>
      if mc_max_tools (mx_config x) <=? lenZ (mx_tools x) then Done (AIRY_ERR_INVALID_PARAM, ctx)
      else
        let t := mkTool (strdup_safe (tl_name t)) (strdup_safe (tl_description t))
                   (strdup_safe (tl_input_schema_json t)) (tl_required_caps t) in
        pushed ← push alloc (mx_tools x) (mx_tool_capacity x) (mkToolEntry t handler);
        match pushed with
        | None => Done (AIRY_ERR_NULL_POINTER, ctx)
        | Some (l, cap) => Done (0, Some (x <| mx_tools := l |> <| mx_tool_capacity := cap |>))
        end
  | _, _ => Done (AIRY_ERR_UNKNOWN, ctx)
  end.

Definition mcp_v1_register_resource `{AiryErr} (alloc : bool) (ctx : option mcp_v1_context_t)
    (resource : option mcp_resource_t) (handler : option mcp_resource_handler_t)
    : outcome (Z * option mcp_v1_context_t) :=
  match ctx, resource with
  | Some x, Some r =>
      if mc_max_resources (mx_config x) <=? lenZ (mx_resources x)
      then Done (AIRY_ERR_INVALID_PARAM, ctx)
      else
        let r := mkResource (strdup_safe (rs_uri r)) (strdup_safe (rs_name r))
                   (strdup_safe (rs_description r)) (strdup_safe (rs_mime_type r)) in
        pushed ← push alloc (mx_resources x) (mx_resource_capacity x) (mkResourceEntry r handler);
        match pushed with
        | None => Done (AIRY_ERR_NULL_POINTER, ctx)
        | Some (l, cap) =>
            Done (0, Some (x <| mx_resources := l |> <| mx_resource_capacity := cap |>))
        end
  | _, _ => Done (AIRY_ERR_UNKNOWN, ctx)
  end.

Definition mcp_v1_register_resource_template `{AiryErr} (alloc : bool)
    (ctx : option mcp_v1_context_t) (template : option mcp_resource_template_t)
    : outcome (Z * option mcp_v1_context_t) :=
  match ctx, template with
  | Some x, Some t =>
      let t := mkTemplate (strdup_safe (tp_uri_template t)) (strdup_safe (tp_name t))
                 (strdup_safe (tp_description t)) (strdup_safe (tp_mime_type t)) in
      pushed ← push alloc (mx_templates x) (mx_template_capacity x) t;
      match pushed with
      | None => Done (AIRY_ERR_NULL_POINTER, ctx)
      | Some (l, cap) =>
          Done (0, Some (x <| mx_templates := l |> <| mx_template_capacity := cap |>))
      end
  | _, _ => Done (AIRY_ERR_UNKNOWN, ctx)
  end.

Definition mcp_v1_register_prompt `{AiryErr} (alloc : bool) (ctx : option mcp_v1_context_t)
    (prompt : option mcp_prompt_t) (handler : option mcp_prompt_handler_t)
    : outcome (Z * option mcp_v1_context_t) :=
  match ctx, prompt with
  | Some x, Some p =>
      if MCP_V1_MAX_PROMPTS <=? lenZ (mx_prompts x) then Done (AIRY_ERR_INVALID_PARAM, ctx)
      else
        let p := mkPrompt (strdup_safe (pt_name p)) (strdup_safe (pt_description p))
                   (strdup_safe (pt_arguments_schema_json p)) in
        pushed ← push alloc (mx_prompts x) (mx_prompt_capacity x) (mkPromptEntry p handler);
        match pushed with
        | None => Done (AIRY_ERR_NULL_POINTER, ctx)
        | Some (l, cap) => Done (0, Some (x <| mx_prompts := l |> <| mx_prompt_capacity := cap |>))
        end
  | _, _ => Done (AIRY_ERR_UNKNOWN, ctx)
  end.

(** ** Settings *)

(** The setters: a null context is refused, nothing else can fail. *)
Definition set_field `{AiryErr} (f : mcp_v1_context_t -> mcp_v1_context_t)
    (ctx : option mcp_v1_context_t) : Z * option mcp_v1_context_t :=
  match ctx with
  | None => (AIRY_ERR_UNKNOWN, None)
  | Some x => (0, Some (f x))
  end.

Definition add_capability (cap : Z) (x : mcp_v1_context_t) : mcp_v1_context_t :=
  x <| mx_config ::= (fun c => c <| mc_capabilities ::= (fun k => Z.lor k cap) |>) |>.

Definition mcp_v1_set_sampling_handler `{AiryErr} (ctx : option mcp_v1_context_t)
    (handler : option mcp_sampling_handler_t) : Z * option mcp_v1_context_t :=
  set_field (fun x =>
    let x := x <| mx_sampling_handler := handler |> in
    if bool_decide (is_Some handler) then add_capability MCP_CAP_SAMPLING x else x) ctx.

Definition mcp_v1_set_completion_handler `{AiryErr} (ctx : option mcp_v1_context_t)
    (handler : option mcp_completion_handler_t) : Z * option mcp_v1_context_t :=
  set_field (fun x =>
    let x := x <| mx_completion_handler := handler |> in
    if bool_decide (is_Some handler) then add_capability MCP_CAP_COMPLETION x else x) ctx.

Definition mcp_v1_set_progress_callback `{AiryErr} (ctx : option mcp_v1_context_t)
    (callback : option mcp_progress_callback_t) : Z * option mcp_v1_context_t :=
  set_field (fun x => x <| mx_progress_callback := callback |>) ctx.

Definition mcp_v1_set_log_callback `{AiryErr} (ctx : option mcp_v1_context_t)
    (callback : option mcp_log_callback_t) : Z * option mcp_v1_context_t :=
  set_field (fun x => x <| mx_log_callback := callback |>) ctx.

Definition mcp_v1_set_log_level `{AiryErr} (ctx : option mcp_v1_context_t)
    (level : mcp_log_level_t) : Z * option mcp_v1_context_t :=
  set_field (fun x => x <| mx_log_level := level |>) ctx.

Definition mcp_v1_set_transport `{AiryErr} (ctx : option mcp_v1_context_t)
    (transport : option ptr) : Z * option mcp_v1_context_t :=
  set_field (fun x => x <| mx_transport := transport |>) ctx.

Definition mcp_v1_get_transport (ctx : option mcp_v1_context_t) : option ptr :=
  ctx ≫= mx_transport.

Definition mcp_v1_get_tool_count (ctx : option mcp_v1_context_t) : Z :=
  match ctx with Some x => lenZ (mx_tools x) | None => 0 end.
Definition mcp_v1_get_resource_count (ctx : option mcp_v1_context_t) : Z :=
  match ctx with Some x => lenZ (mx_resources x) | None => 0 end.
Definition mcp_v1_get_prompt_count (ctx : option mcp_v1_context_t) : Z :=
  match ctx with Some x => lenZ (mx_prompts x) | None => 0 end.
Definition mcp_v1_get_capabilities (ctx : option mcp_v1_context_t) : Z :=
  match ctx with Some x => mc_capabilities (mx_config x) | None => 0 end.
End context.

(** ** JSON strings: length and reading back *)

(** A reader of the escapes the writer uses, to the closing quote. *)
Fixpoint json_unescape (s : bytes) : option (bytes * bytes) :=
  match s with
  | [] => None
  | c :: r =>
      if Ascii.eqb c QUOTE then Some ([], r)
      else if Ascii.eqb c BACKSLASH then
        match r with
        | [] => None
        | d :: r' =>
            let d := if Ascii.eqb d "n" then LF else if Ascii.eqb d "r" then CR
                     else if Ascii.eqb d "t" then TAB else d in
            '(t, rest) ← json_unescape r'; Some (d :: t, rest)
        end
      else '(t, rest) ← json_unescape r; Some (c :: t, rest)
  end.

Lemma unescape_escape_char c s t rest :
  json_unescape s = Some (t, rest) -> json_unescape (escape_char c ++ s) = Some (c :: t, rest).
Proof.
  intros Hs. unfold escape_char.
  destruct (Ascii.eqb_spec c QUOTE) as [->|Hq]; [cbn; by rewrite Hs|].
  destruct (Ascii.eqb_spec c BACKSLASH) as [->|Hb]; [cbn; by rewrite Hs|].
  destruct (Ascii.eqb_spec c LF) as [->|Hl]; [cbn; by rewrite Hs|].
  destruct (Ascii.eqb_spec c CR) as [->|Hr]; [cbn; by rewrite Hs|].
  destruct (Ascii.eqb_spec c TAB) as [->|Ht]; [cbn; by rewrite Hs|].
  cbn [app json_unescape]. rewrite (proj2 (Ascii.eqb_neq _ _) Hq), (proj2 (Ascii.eqb_neq _ _) Hb), Hs.
  done.
Qed.

Lemma escape_char_length c : (1 <= length (escape_char c) <= 2)%nat.
Proof. unfold escape_char. repeat case_match; cbn; lia. Qed.

Lemma escape_length s : (length (concat (escape_char <$> s)) <= 2 * length s)%nat.
Proof.
  induction s as [|c s IH]; cbn [fmap list_fmap concat length]; [lia|].
  rewrite length_app. pose proof (escape_char_length c). lia.
Qed.

Lemma json_string_escape_length s :
  lenZ (json_string_escape (Some s)) <= 2 * lenZ s + 2.
Proof.
  unfold json_string_escape, lenZ. cbn [length]. rewrite length_app. cbn [length].
  pose proof (escape_length s). lia.
Qed.

(** Escaping.  The escaped form of any string, quotes, backslashes and
    line breaks included, is read back as exactly that string by a JSON string
    reader, whatever follows it; and with its NUL it fits the [2 * len + 3]
    bytes the code allocates for it. *)
Theorem json_escape_roundtrip s rest :
  json_unescape (drop 1 (json_string_escape (Some s) ++ rest)) = Some (s, rest) /\
  lenZ (json_string_escape (Some s)) + 1 <= strlen s * 2 + 3.
Proof.
  split; [|unfold strlen; pose proof (json_string_escape_length s); lia].
  unfold json_string_escape. cbn [app drop]. rewrite <- app_assoc.
  induction s as [|c s IH]; [done|]. cbn [fmap list_fmap concat]. rewrite <- app_assoc.
  by apply unescape_escape_char.
Qed.

(** ** The registration arrays *)

Section registration.
Context {W : Type} `{AiryErr}.
Implicit Types (x : @mcp_v1_context_t W).

(** Each array has room for its entries and is not empty. *)
Definition array_ok {A} (l : list A) (cap limit : Z) : Prop :=
  0 < cap /\ lenZ l <= cap /\ lenZ l <= limit.

Definition context_ok x : Prop :=
  array_ok (mx_tools x) (mx_tool_capacity x) (mc_max_tools (mx_config x)) /\
  array_ok (mx_resources x) (mx_resource_capacity x) (mc_max_resources (mx_config x)) /\
  array_ok (mx_templates x) (mx_template_capacity x) SIZE_MAX /\
  array_ok (mx_prompts x) (mx_prompt_capacity x) MCP_V1_MAX_PROMPTS.

Lemma push_ok {A} alloc (l : list A) cap limit a :
  array_ok l cap limit -> lenZ l < limit -> lenZ l < 2 ^ 32 ->
  (push alloc l cap a = Done None /\ alloc = false) \/
  (exists cap', push alloc l cap a = Done (Some (l ++ [a], cap')) /\ array_ok (l ++ [a]) cap' limit).
Proof.
  intros (Hc & Hl & _) Hlim Hsmall. unfold push, array_ok. pose proof (lenZ_nonneg l).
  assert (lenZ (l ++ [a]) = lenZ l + 1) as -> by (rewrite lenZ_app, lenZ_cons, lenZ_nil; lia).
  destruct (Z.leb_spec cap (lenZ l)).
  - rewrite u64_small by lia. destruct alloc; [right|by left]. cbn [negb].
    rewrite (proj2 (Z.ltb_lt _ _)) by lia. eexists. split; [done|]. lia.
  - right. eexists. split; [done|]. lia.
Qed.

Inductive registration :=
| RegTool (alloc : bool) (t : mcp_tool_t) (h : option (@mcp_tool_handler_t W))
| RegResource (alloc : bool) (r : mcp_resource_t) (h : option (@mcp_resource_handler_t W))
| RegTemplate (alloc : bool) (t : mcp_resource_template_t)
| RegPrompt (alloc : bool) (p : mcp_prompt_t) (h : option (@mcp_prompt_handler_t W)).

Definition register (op : registration) x : outcome (Z * option mcp_v1_context_t) :=
  match op with
  | RegTool alloc t h => mcp_v1_register_tool alloc (Some x) (Some t) h
  | RegResource alloc r h => mcp_v1_register_resource alloc (Some x) (Some r) h
  | RegTemplate alloc t => mcp_v1_register_resource_template alloc (Some x) (Some t)
  | RegPrompt alloc p h => mcp_v1_register_prompt alloc (Some x) (Some p) h
  end.

Fixpoint register_all (ops : list registration) x : outcome (list Z * option mcp_v1_context_t) :=
  match ops with
  | [] => Done ([], Some x)
  | op :: rest =>
      '(rc, x') ← register op x;
      match x' with
      | Some x' => '(rcs, out) ← register_all rest x'; Done (rc :: rcs, out)
      | None => Done ([rc], None)
      end
  end.

(** The tools whose registration was accepted, in order. *)
Definition accepted_tools (ops : list registration) (rcs : list Z) : list (@mcp_tool_entry_t W) :=
  omap (fun '(op, rc) => match op with
                         | RegTool _ t h => if rc =? 0 then Some (mkToolEntry t h) else None
                         | _ => None
                         end) (zip ops rcs).

(** No array holds more than [n] entries. *)
Definition at_most (n : Z) x : Prop :=
  lenZ (mx_tools x) <= n /\ lenZ (mx_resources x) <= n /\
  lenZ (mx_templates x) <= n /\ lenZ (mx_prompts x) <= n.

Definition registered (op : registration) (rc : Z) x x' n : Prop :=
  context_ok x' /\ at_most (n + 1) x' /\
  mx_tools x' = mx_tools x ++ accepted_tools [op] [rc].

Lemma tool_eta (t : mcp_tool_t) :
  mkTool (strdup_safe (tl_name t)) (strdup_safe (tl_description t))
    (strdup_safe (tl_input_schema_json t)) (tl_required_caps t) = t.
Proof. by destruct t. Qed.

Lemma register_ok op x n :
  context_ok x -> at_most n x -> n < 2 ^ 32 ->
  exists rc x', register op x = Done (rc, Some x') /\ registered op rc x x' n.
Proof.
  intros (Ht & Hr & Htp & Hp) (Lt & Lr & Ltp & Lp) Hn.
  assert (forall rc, rc < 0 -> registered op rc x x n) as Hsame.
  { intros rc Hrc. assert (accepted_tools [op] [rc] = []) as Hacc.
    { unfold accepted_tools. cbn. destruct op; try done.
      by rewrite (proj2 (Z.eqb_neq _ _)) by lia. }
    unfold registered, context_ok, at_most. rewrite Hacc, app_nil_r. repeat split; try done; try apply Ht;
      try apply Hr; try apply Htp; try apply Hp; lia. }
  destruct op as [alloc t h|alloc r h|alloc t|alloc p h]; cbn [register].
  - unfold mcp_v1_register_tool. destruct (Z.leb_spec (mc_max_tools (mx_config x)) (lenZ (mx_tools x))).
    { do 2 eexists. split; [reflexivity|]. apply Hsame. errlia. }
    rewrite tool_eta.
    destruct (push_ok alloc (mx_tools x) (mx_tool_capacity x) _ (mkToolEntry t h) Ht) as [[-> _]|(c & -> & Hok)];
      [lia|lia|..]; do 2 eexists; (split; [reflexivity|]); [apply Hsame; errlia|].
    unfold registered, context_ok, at_most. cbn -[lenZ]. rewrite !lenZ_app, lenZ_cons, lenZ_nil.
    repeat split; try done; try apply Hok; try apply Hr; try apply Htp; try apply Hp; lia.
  - unfold mcp_v1_register_resource. destruct (Z.leb_spec (mc_max_resources (mx_config x)) (lenZ (mx_resources x))).
    { do 2 eexists. split; [reflexivity|]. apply Hsame. errlia. }
    match goal with |- context [push _ _ _ ?a] =>
      destruct (push_ok alloc (mx_resources x) (mx_resource_capacity x) _ a Hr)
        as [[-> _]|(c & -> & Hok)] end;
      [lia|lia|..]; do 2 eexists; (split; [reflexivity|]); [apply Hsame; errlia|].
    unfold registered, context_ok, at_most. cbn -[lenZ]. rewrite !lenZ_app, lenZ_cons, lenZ_nil, app_nil_r.
    repeat split; try done; try apply Hok; try apply Ht; try apply Htp; try apply Hp; lia.
  - unfold mcp_v1_register_resource_template.
    match goal with |- context [push _ _ _ ?a] =>
      destruct (push_ok alloc (mx_templates x) (mx_template_capacity x) _ a Htp)
        as [[-> _]|(c & -> & Hok)] end;
      [unfold SIZE_MAX; lia|lia|..]; do 2 eexists; (split; [reflexivity|]); [apply Hsame; errlia|].
    unfold registered, context_ok, at_most. cbn -[lenZ]. rewrite !lenZ_app, lenZ_cons, lenZ_nil, app_nil_r.
    repeat split; try done; try apply Hok; try apply Ht; try apply Hr; try apply Hp; lia.
  - unfold mcp_v1_register_prompt. destruct (Z.leb_spec MCP_V1_MAX_PROMPTS (lenZ (mx_prompts x))).
    { do 2 eexists. split; [reflexivity|]. apply Hsame. errlia. }
    match goal with |- context [push _ _ _ ?a] =>
      destruct (push_ok alloc (mx_prompts x) (mx_prompt_capacity x) _ a Hp)
        as [[-> _]|(c & -> & Hok)] end;
      [lia|lia|..]; do 2 eexists; (split; [reflexivity|]); [apply Hsame; errlia|].
    unfold registered, context_ok, at_most. cbn -[lenZ]. rewrite !lenZ_app, lenZ_cons, lenZ_nil, app_nil_r.
    repeat split; try done; try apply Hok; try apply Ht; try apply Hr; try apply Htp; lia.
Qed.

Lemma register_all_ok ops x n :
  context_ok x -> at_most n x -> n + lenZ ops < 2 ^ 32 ->
  exists rcs x', register_all ops x = Done (rcs, Some x') /\ context_ok x' /\
    mx_tools x' = mx_tools x ++ accepted_tools ops rcs.
Proof.
  revert x n. induction ops as [|op ops IH]; intros x n Hok Hn Hlt.
  - exists [], x. cbn. by rewrite app_nil_r.
  - rewrite lenZ_cons in Hlt. pose proof (lenZ_nonneg ops).
    destruct (register_ok op x n Hok Hn ltac:(lia)) as (rc & x1 & H1 & Hok1 & Hn1 & Ht1).
    destruct (IH x1 (n + 1) Hok1 Hn1 ltac:(lia)) as (rcs & x2 & H2 & Hok2 & Ht2).
    exists (rc :: rcs), x2. cbn [register_all]. rewrite H1. cbn [mbind outcome_bind].
    rewrite H2. split; [done|]. split; [done|]. rewrite Ht2, Ht1, <- app_assoc. f_equal.
    unfold accepted_tools. cbn [zip zip_with omap list_omap]. by destruct op; try done; destruct (rc =? 0).
Qed.
End registration.

(** Registration.  A context can take any sequence of registrations, with
    any pattern of allocation failures: no write leaves an array, no array
    outgrows its capacity or its configured limit (256 for prompts), and the
    tools it holds are exactly the ones that were accepted, in order. *)
Theorem registration_safe {W} `{AiryErr} c ops (x0 : @mcp_v1_context_t W) :
  0 <= mc_max_tools c -> 0 <= mc_max_resources c -> lenZ ops < 2 ^ 32 ->
  mcp_v1_context_create true (Some c) = Some x0 ->
  exists rcs x, register_all ops x0 = Done (rcs, Some x) /\
    mx_tools x = accepted_tools ops rcs /\
    lenZ (mx_tools x) <= Z.min (mx_tool_capacity x) (mc_max_tools (mx_config x)) /\
    lenZ (mx_resources x) <= Z.min (mx_resource_capacity x) (mc_max_resources (mx_config x)) /\
    lenZ (mx_templates x) <= mx_template_capacity x /\
    lenZ (mx_prompts x) <= Z.min (mx_prompt_capacity x) 256.
Proof.
  intros Ht Hr Hops Hc. injection Hc as Hx.
  assert (context_ok x0 /\ at_most 0 x0 /\ mx_tools x0 = []) as (Hok0 & Hn0 & Ht0).
  { rewrite <- Hx. unfold context_ok, at_most, array_ok, SIZE_MAX, MCP_V1_MAX_PROMPTS, lenZ. cbn.
    split; [lia|]. split; [lia|done]. }
  destruct (register_all_ok ops x0 0 Hok0 Hn0 ltac:(lia))
    as (rcs & x & Hreg & (Hkt & Hkr & Hkp & Hkq) & Htools).
  exists rcs, x. split; [exact Hreg|]. rewrite Ht0 in Htools. split; [exact Htools|].
  unfold array_ok, MCP_V1_MAX_PROMPTS in *. lia.
Qed.

Definition echo_tool : mcp_tool_t := mkTool (Some "echo"%cs) None (Some "{}"%cs) 0.

Lemma registration_safe_witness :
  let ops := [@RegTool unit true echo_tool None; RegTemplate true (mkTemplate None None None None);
              RegTool true echo_tool None; RegTool true echo_tool None] in
  let c := mcp_v1_config_default <| mc_max_tools := 2 |> in
  exists x0, mcp_v1_context_create true (Some c) = Some x0 /\
  exists rcs x, @register_all unit inst_err ops x0 = Done (rcs, Some x) /\
    mx_tools x = accepted_tools ops rcs /\
    lenZ (mx_tools x) <= Z.min (mx_tool_capacity x) (mc_max_tools (mx_config x)) /\
    lenZ (mx_resources x) <= Z.min (mx_resource_capacity x) (mc_max_resources (mx_config x)) /\
    lenZ (mx_templates x) <= mx_template_capacity x /\
    lenZ (mx_prompts x) <= Z.min (mx_prompt_capacity x) 256.
Proof.
  intros ops c. eexists. split; [reflexivity|].
  apply (@registration_safe unit inst_err c ops); [by vm_compute | by vm_compute | by vm_compute | done].
Defined.
