(* ===== verification/McpServer.v ===== *)
(** * MCP request handling: standards/mcp/src/mcp_v1_adapter_{tool,resource,prompt,route,sampling,stream}.c

    Responses are built into buffers of fixed slack by the accumulating
    [snprintf] idiom; the short copies they embed are taken to be allocated. *)

From S2P Require Export McpContext.
From S2P Require Import EnvInst.

Section server.
Context {W : Type}.
Implicit Types (ctx : option (@mcp_v1_context_t W)) (w : W).

(** A response: the return code, what is stored through [response_json] if
    anything is (a null pointer after a failed allocation), and the world. *)
Definition reply : Type := Z * option (option bytes) * W.

(** [strcmp] with a string that may be null. *)
Fixpoint find_named {A} (name_of : A -> option bytes) (name : bytes) (l : list A)
    : outcome (option A) :=
  match l with
  | [] => Done None
  | a :: r =>
      match name_of a with
      | None => Fault
      | Some n => if streq n name then Done (Some a) else find_named name_of name r
      end
  end.

(** ** Tools *)

Definition tool_item (e : @mcp_tool_entry_t W) : bytes :=
  "{'name':"%cs ++ json_string_escape (tl_name (te_tool e))
  ++ ",'description':"%cs ++ json_string_escape (tl_description (te_tool e))
  ++ ",'inputSchema':"%cs ++ default "{}"%cs (tl_input_schema_json (te_tool e)) ++ "}"%cs.

(** The loop of the list handlers: a header, the items with commas between
    them, a trailer. *)
Definition list_pieces {A} (header : bytes) (item : A -> bytes) (l : list A) : list bytes :=
  [header] ++ comma_sep item l ++ ["]}"%cs].

Definition list_buf_size {A} (l : list A) : Z := u64 (4096 + lenZ l * 512).

Definition render_list `{AiryErr} {A} (alloc : bool) (header : bytes) (item : A -> bytes)
    (l : list A) w : outcome reply :=
  if negb alloc then Done (AIRY_ERR_NULL_POINTER, None, w)
  else
    text ← sn_run (list_buf_size l) (list_pieces header item l);
    Done (0, Some (Some text), w).

Definition mcp_v1_handle_tools_list `{AiryErr} (alloc : bool) ctx (has_out : bool) w
    : outcome reply :=
  match ctx with
  | Some x =>
      if negb has_out then Done (AIRY_ERR_UNKNOWN, None, w)
      else render_list alloc "{'tools':["%cs tool_item (mx_tools x) w
  | None => Done (AIRY_ERR_UNKNOWN, None, w)
  end.

Definition tool_not_found (name : bytes) : bytes :=
  "{'isError':true,'content':[{'type':'text','text':'Tool not found: "%cs
  ++ json_string_escape (Some name) ++ "'}]}"%cs.

Definition content_item (c : mcp_content_t) : bytes :=
  "{'type':'"%cs ++ mcp_type_str (ct_type c) ++ "','text':"%cs
  ++ json_string_escape (ct_text c) ++ "}"%cs.

Definition bool_text (b : bool) : bytes := if b then "true"%cs else "false"%cs.

Definition result_pieces (is_error : bool) (results : list mcp_content_t) : list bytes :=
  list_pieces ("{'isError':"%cs ++ bool_text is_error ++ ",'content':["%cs) content_item results.

Definition result_buf_size (results : list mcp_content_t) : Z := 4096 + lenZ results * 1024.

Definition mcp_v1_handle_tools_call `{AiryErr} (alloc : bool) ctx (name arguments_json : option bytes)
    (has_out : bool) w : outcome reply :=
  match ctx, name with
  | Some x, Some name =>
      if negb has_out then Done (AIRY_ERR_UNKNOWN, None, w)
      else
        found ← find_named (fun e => tl_name (te_tool e)) name (mx_tools x);
        match found with
        | None =>
            Done (AIRY_ERR_INVALID_PARAM,
                  Some (if alloc then Some (tool_not_found name) else None), w)
        | Some e =>
            match te_handler e with
            | None => Fault
            | Some handler =>
                let '(w, (results, is_error)) := handler name arguments_json w in
                if (SIZE_MAX - 4096) / 1024 <? lenZ results then Done (AIRY_ERR_OVERFLOW, None, w)
                else if negb alloc then Done (AIRY_ERR_NULL_POINTER, None, w)
                else
                  text ← sn_run (result_buf_size results) (result_pieces is_error results);
                  Done (0, Some (Some text), w)
            end
        end
  | _, _ => Done (AIRY_ERR_UNKNOWN, None, w)
  end.

(** ** Resources *)

Definition resource_item (e : @mcp_resource_entry_t W) : bytes :=
  let r := rn_resource e in
  "{'uri':"%cs ++ json_string_escape (rs_uri r) ++ ",'name':"%cs ++ json_string_escape (rs_name r)
  ++ ",'description':"%cs ++ json_string_escape (rs_description r)
  ++ ",'mimeType':"%cs ++ json_string_escape (rs_mime_type r) ++ "}"%cs.

Definition mcp_v1_handle_resources_list `{AiryErr} (alloc : bool) ctx (has_out : bool) w
    : outcome reply :=
  match ctx with
  | Some x =>
      if negb has_out then Done (AIRY_ERR_UNKNOWN, None, w)
      else render_list alloc "{'resources':["%cs resource_item (mx_resources x) w
  | None => Done (AIRY_ERR_UNKNOWN, None, w)
  end.

Definition resource_not_found (uri : bytes) : bytes :=
  "{'contents':[{'uri':"%cs ++ json_string_escape (Some uri)
  ++ ",'text':'Resource not found'}]}"%cs.

Definition resource_contents (uri : bytes) (mime_type content : option bytes) : bytes :=
  "{'contents':[{'uri':"%cs ++ json_string_escape (Some uri)
  ++ ",'mimeType':"%cs ++ json_string_escape mime_type
  ++ ",'text':"%cs ++ json_string_escape content ++ "}]}"%cs.

Definition mcp_v1_handle_resources_read `{AiryErr} (alloc : bool) ctx (uri : option bytes)
    (has_out : bool) w : outcome reply :=
  match ctx, uri with
  | Some x, Some uri =>
      if negb has_out then Done (AIRY_ERR_UNKNOWN, None, w)
      else
        found ← find_named (fun e => rs_uri (rn_resource e)) uri (mx_resources x);
        match found ≫= rn_handler with
        | None =>
            Done (AIRY_ERR_INVALID_PARAM,
                  Some (if alloc then Some (resource_not_found uri) else None), w)
        | Some handler =>
            let '(w, (content, mime_type)) := handler uri w in
            Done (0, Some (if alloc then Some (resource_contents uri mime_type content) else None), w)
        end
  | _, _ => Done (AIRY_ERR_UNKNOWN, None, w)
  end.

Definition template_item (t : mcp_resource_template_t) : bytes :=
  "{'uriTemplate':"%cs ++ json_string_escape (tp_uri_template t)
  ++ ",'name':"%cs ++ json_string_escape (tp_name t)
  ++ ",'description':"%cs ++ json_string_escape (tp_description t) ++ "}"%cs.

Definition mcp_v1_handle_resources_templates `{AiryErr} (alloc : bool) ctx (has_out : bool) w
    : outcome reply :=
  match ctx with
  | Some x =>
      if negb has_out then Done (AIRY_ERR_UNKNOWN, None, w)
      else render_list alloc "{'resourceTemplates':["%cs template_item (mx_templates x) w
  | None => Done (AIRY_ERR_UNKNOWN, None, w)
  end.

(** ** Prompts *)

Definition prompt_item (e : @mcp_prompt_entry_t W) : bytes :=
  let p := pe_prompt e in
  "{'name':"%cs ++ json_string_escape (pt_name p)
  ++ ",'description':"%cs ++ json_string_escape (pt_description p)
  ++ ",'arguments':"%cs ++ default "[]"%cs (pt_arguments_schema_json p) ++ "}"%cs.

Definition mcp_v1_handle_prompts_list `{AiryErr} (alloc : bool) ctx (has_out : bool) w
    : outcome reply :=
  match ctx with
  | Some x =>
      if negb has_out then Done (AIRY_ERR_UNKNOWN, None, w)
      else render_list alloc "{'prompts':["%cs prompt_item (mx_prompts x) w
  | None => Done (AIRY_ERR_UNKNOWN, None, w)
  end.

(** The content array of a message, read as a string: on a little-endian
    machine the bytes of the first item's type tag. *)
Definition content_as_string (content : option (list mcp_content_t)) : outcome bytes :=
  match content with
  | None => Done []
  | Some [] => Fault
  | Some (c :: _) =>
      Done match ct_type c with
           | MCP_CONTENT_TEXT => []
           | MCP_CONTENT_IMAGE => [chr 1]
           | MCP_CONTENT_RESOURCE => [chr 2]
           | MCP_CONTENT_EMBEDDED => [chr 3]
           end
  end.

Definition message_item (m : mcp_sampling_message_t) : outcome bytes :=
  content ← content_as_string (sm_content m);
  Done ("{'role':"%cs ++ json_string_escape (sm_role m)
        ++ ",'content':{'type':'text','text':'"%cs ++ json_string_escape (Some content) ++ "'}}"%cs).

Fixpoint message_items (l : list mcp_sampling_message_t) : outcome (list bytes) :=
  match l with
  | [] => Done []
  | m :: r => it ← message_item m; its ← message_items r; Done (it :: its)
  end.

Definition mcp_v1_handle_prompts_get `{AiryErr} (alloc : bool) ctx (name arguments_json : option bytes)
    (has_out : bool) w : outcome reply :=
  match ctx, name with
  | Some x, Some name =>
      if negb has_out then Done (AIRY_ERR_UNKNOWN, None, w)
      else
        found ← find_named (fun e => pt_name (pe_prompt e)) name (mx_prompts x);
        match found ≫= pe_handler with
        | None =>
            Done (AIRY_ERR_INVALID_PARAM,
                  Some (Some "{'description':'Prompt not found','messages':[]}"%cs), w)
        | Some handler =>
            let '(w, messages) := handler name arguments_json w in
            let buf_size := u64 (4096 + lenZ messages * 1024) in
            if negb alloc then Done (AIRY_ERR_NULL_POINTER, None, w)
            else
              items ← message_items (take 100 messages);
              text ← sn_run buf_size
                (list_pieces ("{'description':'Prompt: "%cs ++ json_string_escape (Some name)
                              ++ "','messages':["%cs) id items);
              Done (0, Some (Some text), w)
        end
  | _, _ => Done (AIRY_ERR_UNKNOWN, None, w)
  end.

(** ** Sampling, completion, notifications *)

Definition has_cap (caps cap : Z) : bool := negb (Z.land caps cap =? 0).

Definition mcp_v1_handle_sampling `{AiryErr} ctx (params : option mcp_sampling_params_t)
    (result : option mcp_sampling_result_t) w : Z * option mcp_sampling_result_t * W :=
  match ctx, params, result with
  | Some x, Some p, Some r =>
      match mx_sampling_handler x with
      | None => (AIRY_ERR_INVALID_PARAM, result, w)
      | Some handler =>
          if negb (has_cap (mc_capabilities (mx_config x)) MCP_CAP_SAMPLING)
          then (AIRY_ERR_NULL_POINTER, result, w)
          else let '(w, r) := handler p r w in (0, Some r, w)
      end
  | _, _, _ => (AIRY_ERR_UNKNOWN, result, w)
  end.

Definition mcp_v1_handle_completion `{AiryErr} ctx (request : option mcp_completion_request_t)
    (result : option mcp_completion_result_t) w : Z * option mcp_completion_result_t * W :=
  match ctx, request, result with
  | Some x, Some q, Some r =>
      match mx_completion_handler x with
      | None => (AIRY_ERR_INVALID_PARAM, result, w)
      | Some handler => let '(w, r) := handler q r w in (0, Some r, w)
      end
  | _, _, _ => (AIRY_ERR_UNKNOWN, result, w)
  end.

Definition mcp_v1_send_progress `{AiryErr} ctx (progress_token : option bytes)
    (progress total : double) w : Z * W :=
  match ctx, progress_token with
  | Some x, Some token =>
      (0, match mx_progress_callback x with Some cb => cb token progress total w | None => w end)
  | _, _ => (AIRY_ERR_UNKNOWN, w)
  end.

Definition mcp_v1_notify_cancelled `{AiryErr} ctx (request_id reason : option bytes) w : Z * W :=
  match ctx, request_id with
  | Some x, Some _ =>
      (0, match mx_log_callback x with
          | Some cb => cb MCP_LOG_INFO "mcp"%cs (default "Request cancelled"%cs reason) w
          | None => w
          end)
  | _, _ => (AIRY_ERR_UNKNOWN, w)
  end.

(** ** Routing *)

(** What is left in the caller's zeroed buffer of [buf_size] bytes. *)
Definition mcp_v1_extract_string_param `{AiryString} `{CJson} (params_json : option bytes)
    (key : bytes) (buf_size : nat) : bytes :=
  match params_json ≫= cJSON_Parse with
  | None => []
  | Some pj =>
      match json_string (cJSON_GetObjectItem pj key) with
      | Some s => AIRY_STRNCPY_TERM s buf_size
      | None => []
      end
  end.

Definition log_levels : list (bytes * mcp_log_level_t) := [
  ("debug"%cs, MCP_LOG_DEBUG); ("notice"%cs, MCP_LOG_NOTICE); ("warning"%cs, MCP_LOG_WARNING);
  ("error"%cs, MCP_LOG_ERROR); ("critical"%cs, MCP_LOG_CRITICAL); ("alert"%cs, MCP_LOG_ALERT);
  ("emergency"%cs, MCP_LOG_EMERGENCY)].

Definition mcp_v1_parse_log_level `{CJson} (params_json : option bytes) : mcp_log_level_t :=
  match params_json ≫= cJSON_Parse with
  | None => MCP_LOG_INFO
  | Some pj =>
      match json_string (cJSON_GetObjectItem pj "level"%cs) with
      | None => MCP_LOG_INFO
      | Some s =>
          match (i ← find_idx (fun e => streq s e.1) log_levels; log_levels !! i) with
          | Some (_, level) => level
          | None => MCP_LOG_INFO
          end
      end
  end.

Definition init_resp_fill (cfg : mcp_v1_config_t) : bytes :=
  let cap c := bool_text (has_cap (mc_capabilities cfg) c) in
  "{'protocolVersion':'"%cs ++ MCP_V1_VERSION
  ++ "','capabilities':{'tools':"%cs ++ cap MCP_CAP_TOOLS
  ++ ",'resources':"%cs ++ cap MCP_CAP_RESOURCES
  ++ ",'prompts':"%cs ++ cap MCP_CAP_PROMPTS
  ++ ",'sampling':"%cs ++ cap MCP_CAP_SAMPLING
  ++ ",'logging':"%cs ++ cap MCP_CAP_LOGGING
  ++ "},'serverInfo':{'name':'"%cs ++ default "AgentRT"%cs (mc_server_name cfg)
  ++ "','version':'"%cs ++ default MCP_V1_VERSION (mc_server_version cfg) ++ "'}}"%cs.

Definition mcp_v1_build_initialize_response (alloc : bool) (x : @mcp_v1_context_t W) w : reply :=
  (0, Some (if alloc then Some (init_resp_fill (mx_config x)) else None), w).

Definition or_unknown (s : bytes) : bytes := if streq s [] then "unknown"%cs else s.

Definition method_not_found : bytes := "{'error':{'code':-32601,'message':'Method not found'}}"%cs.

(** The dispatch by method name, after the counter. *)
Definition route_method `{AiryErr} `{AiryString} `{CJson} (alloc : bool)
    (x : @mcp_v1_context_t W) (method : bytes) (params_json : option bytes) w
    : outcome (reply * @mcp_v1_context_t W) :=
  let keep (o : outcome reply) := r ← o; Done (r, x) in
  let ctx := Some x in
  let param key size := or_unknown (mcp_v1_extract_string_param params_json key size) in
  if streq method "tools/list"%cs then keep (mcp_v1_handle_tools_list alloc ctx true w)
  else if streq method "tools/call"%cs then
    keep (mcp_v1_handle_tools_call alloc ctx (Some (param "name"%cs 256%nat)) params_json true w)
  else if streq method "resources/list"%cs then keep (mcp_v1_handle_resources_list alloc ctx true w)
  else if streq method "resources/read"%cs then
    keep (mcp_v1_handle_resources_read alloc ctx (Some (param "uri"%cs 512%nat)) true w)
  else if streq method "resources/templates/list"%cs then
    keep (mcp_v1_handle_resources_templates alloc ctx true w)
  else if streq method "prompts/list"%cs then keep (mcp_v1_handle_prompts_list alloc ctx true w)
  else if streq method "prompts/get"%cs then
    keep (mcp_v1_handle_prompts_get alloc ctx (Some (param "name"%cs 256%nat)) params_json true w)
  else if streq method "logging/setLogLevel"%cs then
    let '(rc, x') := mcp_v1_set_log_level ctx (mcp_v1_parse_log_level params_json) in
    Done ((rc, None, w), default x x')
  else if streq method "initialize"%cs then Done (mcp_v1_build_initialize_response alloc x w, x)
  else Done ((AIRY_ERR_INVALID_PARAM, Some (Some method_not_found), w), x).

Definition mcp_v1_route_request `{AiryErr} `{AiryString} `{CJson} (alloc : bool) ctx
    (method params_json : option bytes) (has_out : bool) w
    : outcome (reply * option (@mcp_v1_context_t W)) :=
  match ctx, method with
  | Some x, Some m =>
      if negb has_out then Done ((AIRY_ERR_UNKNOWN, None, w), ctx)
      else
        let x := x <| mx_request_counter ::= (fun n => u64 (n + 1)) |> in
        '(r, x) ← route_method alloc x m params_json w;
        Done (r, Some x)
  | _, _ => Done ((AIRY_ERR_UNKNOWN, None, w), ctx)
  end.

(** ** Streaming *)

Definition mcp_v1_stream_config `{AiryErr} ctx (config : option mcp_stream_config_t)
    : Z * option (@mcp_v1_context_t W) :=
  match ctx, config with
  | None, _ => (AIRY_ERR_UNKNOWN, None)
  | Some x, None => (AIRY_ERR_INVALID_PARAM, ctx)
  | Some x, Some c => (0, Some (x <| mx_stream_config := c |>))
  end.
End server.

Inductive mcp_stream_event_type_t :=
| MCP_STREAM_EVENT_CONTENT
| MCP_STREAM_EVENT_ERROR
| MCP_STREAM_EVENT_DONE
| MCP_STREAM_EVENT_PROGRESS
| MCP_STREAM_EVENT_CANCELLED.

Record mcp_stream_event_t := mkStreamEvent {
  se_type : mcp_stream_event_type_t;
  se_event_data : option bytes;
  se_data_size : Z;
  se_progress : double;
  se_total : double
}.

#[export] Instance eta_stream_event : Eta mcp_stream_event_t := fun e =>
  mkStreamEvent (se_type e) (se_event_data e) (se_data_size e) (se_progress e) (se_total e).

Definition mcp_stream_event_type_string (type : mcp_stream_event_type_t) : bytes :=
  match type with
  | MCP_STREAM_EVENT_CONTENT => "content"%cs
  | MCP_STREAM_EVENT_ERROR => "error"%cs
  | MCP_STREAM_EVENT_DONE => "done"%cs
  | MCP_STREAM_EVENT_PROGRESS => "progress"%cs
  | MCP_STREAM_EVENT_CANCELLED => "cancelled"%cs
  end.

Definition mcp_stream_event_init (type : mcp_stream_event_type_t) (data : option bytes)
    : mcp_stream_event_t :=
  mkStreamEvent type data (match data with Some d => strlen d | None => 0 end) f64_zero f64_zero.

(** An event with its progress set to [p] of 100. *)
Definition progress_event (type : mcp_stream_event_type_t) (data : option bytes) (p : double)
    : mcp_stream_event_t :=
  (mcp_stream_event_init type data) <| se_progress := p |> <| se_total := f64_of_Z 100 |>.

(** The calls of a stream callback are collected in order. *)
Definition emit_sse_line (field : bytes) (value : option bytes) : list mcp_stream_event_t :=
  let len := strlen field + (match value with Some v => strlen v | None => 0 end) + 16 in
  [mcp_stream_event_init MCP_STREAM_EVENT_CONTENT
     (Some (take (Z.to_nat (len - 1)) (field ++ ": "%cs ++ default [] value ++ "\n"%cs)))].

Definition emit_sse_event (event_type json_data : bytes) : list mcp_stream_event_t :=
  emit_sse_line "event"%cs (Some event_type) ++ emit_sse_line "data"%cs (Some json_data)
  ++ emit_sse_line []%cs None.

(** The chunks of 128 characters of a text, each with its offset. *)
Fixpoint chunks_from (fuel : nat) (offset : Z) (rest : bytes) : list (Z * bytes) :=
  match fuel, rest with
  | S f, _ :: _ => (offset, take 128 rest) :: chunks_from f (offset + 128) (drop 128 rest)
  | _, _ => []
  end.

Definition text_chunks (text : bytes) : list (Z * bytes) := chunks_from (length text) 0 text.

(** ["offset / text_len * scale"] in double arithmetic. *)
Definition percent (offset text_len scale : Z) : double :=
  f64_mul (f64_div (f64_of_Z offset) (f64_of_Z (if 0 <? text_len then text_len else 1)))
    (f64_of_Z scale).

Definition tool_chunk_data (index : Z) (type : mcp_content_type_t) (offset : Z) (chunk : bytes)
    : bytes :=
  let chunk_json := "{'index':"%cs ++ dec index ++ ",'type':'"%cs ++ mcp_type_str type
                    ++ "','partial':true}"%cs in
  fits 1024 ((if offset =? 0 then chunk_json else []) ++ "{'delta':{'text':'"%cs
             ++ json_string_escape (Some chunk) ++ "'}}"%cs).

Definition tool_chunk_events (index : Z) (c : mcp_content_t) : list mcp_stream_event_t :=
  let text := default [] (ct_text c) in
  concat ((fun '(offset, chunk) =>
    emit_sse_event "tools/call/chunk"%cs (tool_chunk_data index (ct_type c) offset chunk)
    ++ [progress_event MCP_STREAM_EVENT_PROGRESS None
          (percent (offset + lenZ chunk) (strlen text) 80)]) <$> text_chunks text).

Fixpoint result_chunk_events (alloc : nat -> bool) (i : nat) (results : list mcp_content_t)
    : list mcp_stream_event_t :=
  match results with
  | [] => []
  | c :: r =>
      (if alloc i then tool_chunk_events (Z.of_nat i) c else [])
      ++ result_chunk_events alloc (S i) r
  end.

Section streaming.
Context {W : Type}.
Implicit Types (ctx : option (@mcp_v1_context_t W)) (w : W).

(** [alloc i] is the chunk buffer of the [i]-th result, [alloc_final] the
    buffer of the final text. *)
Definition mcp_v1_handle_tools_call_streaming `{AiryErr} (alloc : nat -> bool)
    (alloc_final : bool) ctx (name arguments_json : option bytes) (has_callback : bool) w
    : outcome (Z * W * list mcp_stream_event_t) :=
  match ctx, name with
  | Some x, Some name =>
      if negb has_callback then Done (AIRY_ERR_UNKNOWN, w, [])
      else
        let start := [progress_event MCP_STREAM_EVENT_PROGRESS (Some "{'status':'started'}"%cs)
                        f64_zero] in
        found ← find_named (fun e => tl_name (te_tool e)) name (mx_tools x);
        match found with
        | None =>
            Done (AIRY_ERR_INVALID_PARAM, w,
                  start ++ emit_sse_event "tools/call/result"%cs (fits 512 (tool_not_found name))
                  ++ [progress_event MCP_STREAM_EVENT_ERROR (Some "Tool not found"%cs) f64_zero])
        | Some e =>
            match te_handler e with
            | None => Fault
            | Some handler =>
                let '(w, (results, is_error)) := handler name arguments_json w in
                let chunks := result_chunk_events alloc 0 results in
                final ←
                  (if negb ((SIZE_MAX - 4096) / 1024 <? lenZ results) && alloc_final then
                     text ← sn_run (result_buf_size results) (result_pieces is_error results);
                     Done (emit_sse_event "tools/call/result"%cs text)
                   else Done []);
                let done_event :=
                  if is_error
                  then progress_event MCP_STREAM_EVENT_ERROR (Some "completed with errors"%cs)
                         (f64_of_Z 100)
                  else progress_event MCP_STREAM_EVENT_DONE (Some "completed successfully"%cs)
                         (f64_of_Z 100) in
                Done (0, w, start ++ chunks ++ final ++ [done_event])
            end
        end
  | _, _ => Done (AIRY_ERR_UNKNOWN, w, [])
  end.

Definition sampling_chunk_data (model : option bytes) (index : Z) (chunk : bytes) : bytes :=
  fits 512 ("{'model':"%cs ++ json_string_escape (Some (default "unknown"%cs model))
            ++ ",'delta':{'type':'text','text':'"%cs ++ json_string_escape (Some chunk)
            ++ "'},'index':"%cs ++ dec index ++ "}"%cs).

Definition sampling_chunk_events (model : option bytes) (index : Z) (c : mcp_content_t)
    : list mcp_stream_event_t :=
  let text := default [] (ct_text c) in
  concat ((fun '(offset, chunk) =>
    emit_sse_event "sampling/chunk"%cs (sampling_chunk_data model index chunk)
    ++ [progress_event MCP_STREAM_EVENT_PROGRESS None
          (percent (offset + lenZ chunk) (strlen text) 90)]) <$> text_chunks text).

(** The zeroed result the handler fills in. *)
Definition empty_result : mcp_sampling_result_t := mkSResult None None [] false None.

Definition mcp_v1_handle_sampling_streaming `{AiryErr} ctx
    (params : option mcp_sampling_params_t) (has_callback : bool) w
    : Z * W * list mcp_stream_event_t :=
  match ctx, params with
  | Some x, Some p =>
      if negb has_callback then (AIRY_ERR_UNKNOWN, w, [])
      else match mx_sampling_handler x with
      | None => (AIRY_ERR_INVALID_PARAM, w, [])
      | Some handler =>
          if negb (has_cap (mc_capabilities (mx_config x)) MCP_CAP_SAMPLING)
          then (AIRY_ERR_NULL_POINTER, w, [])
          else
            let start := [progress_event MCP_STREAM_EVENT_PROGRESS
                            (Some "{'status':'sampling_started'}"%cs) f64_zero] in
            let '(w, r) := handler p empty_result w in
            let contents := default [] (sr_content r) in
            let chunks := concat (imap (fun i c =>
              sampling_chunk_events (sr_model r) (Z.of_nat i) c) contents) in
            let final := fits 2048
              ("{'model':"%cs ++ json_string_escape (Some (default "unknown"%cs (sr_model r)))
               ++ ",'stopReason':"%cs
               ++ json_string_escape (Some (default "end_turn"%cs (sr_stop_reason r)))
               ++ ",'stoppedEarly':"%cs ++ bool_text (sr_stopped_early r) ++ "}"%cs) in
            (0, w, start ++ chunks ++ emit_sse_event "sampling/result"%cs final
                   ++ [progress_event MCP_STREAM_EVENT_DONE (Some "Sampling complete"%cs)
                         (f64_of_Z 100)])
      end
  | _, _ => (AIRY_ERR_UNKNOWN, w, [])
  end.
End streaming.

(** ** The list handlers *)

(** The items joined by commas. *)
Fixpoint join_comma (l : list bytes) : bytes :=
  match l with
  | [] => []
  | [x] => x
  | x :: r => x ++ ","%cs ++ join_comma r
  end.

Lemma concat_comma_sep {A} (item : A -> bytes) l :
  concat (comma_sep item l) = join_comma (item <$> l).
Proof.
  destruct l as [|x l]; [done|]. cbn [comma_sep concat]. revert x.
  induction l as [|y l IH]; intros x; [cbn; by rewrite app_nil_r|].
  cbn [fmap list_fmap concat app] in IH |- *. rewrite IH. done.
Qed.

Lemma concat_list_pieces {A} header (item : A -> bytes) l :
  concat (list_pieces header item l) = header ++ join_comma (item <$> l) ++ "]}"%cs.
Proof.
  unfold list_pieces. cbn [concat app]. rewrite concat_app, concat_comma_sep. cbn [concat].
  by rewrite app_nil_r.
Qed.

(** Items of fewer than [n] characters take at most [n] each, comma included. *)
Lemma join_comma_length (l : list bytes) n :
  Forall (fun s => lenZ s < n) l -> lenZ (join_comma l) <= n * lenZ l.
Proof.
  induction l as [|s l IH]; intros H; [cbn [join_comma]; unfold lenZ; cbn [length]; lia|].
  apply Forall_cons in H as [Hs Hl]. cbn beta in Hs. specialize (IH Hl). rewrite (lenZ_cons s).
  destruct l as [|t l]; cbn [join_comma]; [unfold lenZ in *; cbn [length]; lia|].
  rewrite !lenZ_app. change (lenZ ","%cs) with 1. cbn [join_comma] in IH. lia.
Qed.

Lemma join_comma_elem (l : list bytes) s : s ∈ l -> lenZ s <= lenZ (join_comma l).
Proof.
  unfold lenZ. induction l as [|a l IH]; intros Hin; [by apply elem_of_nil in Hin|].
  apply elem_of_cons in Hin as [->|Hin].
  - destruct l as [|b l]; cbn [join_comma]; [done|]. rewrite length_app. lia.
  - specialize (IH Hin). destruct l as [|b l]; [by apply elem_of_nil in Hin|].
    cbn [join_comma] in IH |- *. rewrite !length_app. lia.
Qed.

Section render.
Context {W : Type} `{AiryErr}.
Implicit Types (w : W).

Lemma render_list_ok {A} header (item : A -> bytes) l w :
  lenZ header <= 2048 -> Forall (fun a => lenZ (item a) < 512) l -> lenZ l < 2 ^ 32 ->
  render_list true header item l w
  = Done (0, Some (Some (header ++ join_comma (item <$> l) ++ "]}"%cs)), w).
Proof.
  intros Hh Hl Hn. unfold render_list, list_buf_size. cbn [negb]. pose proof (lenZ_nonneg l).
  rewrite u64_small by lia. rewrite sn_run_fits; rewrite concat_list_pieces; [done|].
  pose proof (join_comma_length (item <$> l) 512) as Hj. rewrite lenZ_fmap in Hj.
  rewrite !lenZ_app. change (lenZ "]}"%cs) with 2. rewrite Forall_fmap in Hj. specialize (Hj Hl). lia.
Qed.

Lemma render_list_overflow {A} header (item : A -> bytes) l w :
  lenZ l < 2 ^ 32 -> list_buf_size l < lenZ (header ++ join_comma (item <$> l)) ->
  render_list true header item l w = Fault.
Proof.
  intros Hn Ho. unfold render_list, list_pieces. cbn [negb]. pose proof (lenZ_nonneg l).
  rewrite app_assoc. rewrite (sn_run_overflow ([header] ++ comma_sep item l) _ []); [done|].
  cbn [app concat]. rewrite concat_comma_sep. split; [|done].
  unfold list_buf_size. rewrite u64_small; lia.
Qed.
End render.

(** The list requests.  As long as every entry renders to fewer than 512
    characters, [tools/list], [resources/list], [resources/templates/list] and
    [prompts/list] answer with the whole list, every entry once, in
    registration order and separated by commas, without ever writing outside
    the response buffer. *)
Theorem list_requests_render {W} `{AiryErr} (x : @mcp_v1_context_t W) w :
  lenZ (mx_tools x) < 2 ^ 32 -> lenZ (mx_resources x) < 2 ^ 32 ->
  lenZ (mx_templates x) < 2 ^ 32 -> lenZ (mx_prompts x) < 2 ^ 32 ->
  Forall (fun e => lenZ (tool_item e) < 512) (mx_tools x) ->
  Forall (fun e => lenZ (resource_item e) < 512) (mx_resources x) ->
  Forall (fun t => lenZ (template_item t) < 512) (mx_templates x) ->
  Forall (fun e => lenZ (prompt_item e) < 512) (mx_prompts x) ->
  let answer (text : bytes) : outcome (@reply W) := Done (0, Some (Some text), w) in
  mcp_v1_handle_tools_list true (Some x) true w
    = answer ("{'tools':["%cs ++ join_comma (tool_item <$> mx_tools x) ++ "]}"%cs) /\
  mcp_v1_handle_resources_list true (Some x) true w
    = answer ("{'resources':["%cs ++ join_comma (resource_item <$> mx_resources x) ++ "]}"%cs) /\
  mcp_v1_handle_resources_templates true (Some x) true w
    = answer ("{'resourceTemplates':["%cs ++ join_comma (template_item <$> mx_templates x)
              ++ "]}"%cs) /\
  mcp_v1_handle_prompts_list true (Some x) true w
    = answer ("{'prompts':["%cs ++ join_comma (prompt_item <$> mx_prompts x) ++ "]}"%cs).
Proof. intros. repeat split; by apply render_list_ok. Qed.

(** What the list requests do not check.  A registered tool whose input
    schema is longer than the slack of the response buffer (4096 characters and
    512 a tool) makes [tools/list] write outside the buffer, whatever the other
    tools are. *)
Theorem tools_list_overflow {W} `{AiryErr} (x : @mcp_v1_context_t W) e schema w :
  lenZ (mx_tools x) < 2 ^ 32 -> e ∈ mx_tools x ->
  tl_input_schema_json (te_tool e) = Some schema ->
  4096 + 512 * lenZ (mx_tools x) <= lenZ schema ->
  mcp_v1_handle_tools_list true (Some x) true w = Fault.
Proof.
  intros Hn He Hs Hl. apply render_list_overflow; [done|].
  pose proof (lenZ_nonneg (mx_tools x)). unfold list_buf_size. rewrite u64_small by lia.
  pose proof (join_comma_elem _ _ (list_elem_of_fmap_2 tool_item _ _ He)) as Hin.
  rewrite lenZ_app. change (lenZ "{'tools':["%cs) with 10.
  enough (lenZ schema <= lenZ (tool_item e)) by lia.
  unfold tool_item. rewrite Hs. cbn [default]. unfold lenZ. rewrite !length_app. cbn [default from_option id]. lia.
Qed.

(** ** Calls *)

Lemma find_named_spec {A} (name_of : A -> option bytes) name l :
  Forall (fun a => is_Some (name_of a)) l ->
  find_named name_of name l
  = Done (i ← find_idx (fun a => bool_decide (name_of a = Some name)) l; l !! i).
Proof.
  induction 1 as [|a l [n Hn] _ IH]; [done|]. cbn [find_named find_idx]. rewrite Hn.
  unfold streq. destruct (decide (n = name)) as [->|Hne].
  - rewrite !bool_decide_eq_true_2 by done. done.
  - rewrite !bool_decide_eq_false_2 by congruence. rewrite IH.
    by destruct (find_idx _ l).
Qed.

(** The first tool registered under a name. *)
Definition tool_named {W} (x : @mcp_v1_context_t W) (name : bytes) : option mcp_tool_entry_t :=
  i ← find_idx (fun e => bool_decide (tl_name (te_tool e) = Some name)) (mx_tools x);
  mx_tools x !! i.

Definition all_named {W} (x : @mcp_v1_context_t W) : Prop :=
  Forall (fun e => is_Some (tl_name (te_tool e))) (mx_tools x).

Definition result_text (is_error : bool) (results : list mcp_content_t) : bytes :=
  "{'isError':"%cs ++ bool_text is_error ++ ",'content':["%cs
  ++ join_comma (content_item <$> results) ++ "]}"%cs.

Definition short_results (results : list mcp_content_t) : Prop :=
  lenZ results < 2 ^ 32 /\ Forall (fun c => lenZ (content_item c) < 1024) results.

Lemma result_run is_error results :
  short_results results ->
  sn_run (result_buf_size results) (result_pieces is_error results)
  = Done (result_text is_error results).
Proof.
  intros [Hn Hs]. unfold result_pieces, result_buf_size.
  rewrite sn_run_fits; rewrite concat_list_pieces.
  - unfold result_text. by rewrite <- !app_assoc.
  - assert (lenZ (join_comma (content_item <$> results)) <= 1024 * lenZ results) as Hj.
    { rewrite <- (lenZ_fmap content_item). apply join_comma_length. by rewrite Forall_fmap. }
    rewrite !lenZ_app. destruct is_error; cbn [bool_text];
      repeat match goal with |- context [lenZ ?s] =>
        lazymatch s with context [join_comma _] => fail | results => fail
        | _ => let v := eval vm_compute in (lenZ s) in change (lenZ s) with v end end; lia.
Qed.


(** ** Routing *)

(** What a request may change in the context. *)
Definition counted {W} (x x' : @mcp_v1_context_t W) : Prop :=
  x' = x <| mx_request_counter := u64 (mx_request_counter x + 1) |>
         <| mx_log_level := mx_log_level x' |>.

Definition known_methods : list bytes := [
  "tools/list"%cs; "tools/call"%cs; "resources/list"%cs; "resources/read"%cs;
  "resources/templates/list"%cs; "prompts/list"%cs; "prompts/get"%cs;
  "logging/setLogLevel"%cs; "initialize"%cs].


Lemma route_method_context {W} `{AiryErr} `{AiryString} `{CJson} alloc (x x' : @mcp_v1_context_t W)
    method params w r :
  route_method alloc x method params w = Done (r, x') ->
  x' = x <| mx_log_level := mx_log_level x' |> /\
  (mx_log_level x' = mx_log_level x \/
   method = "logging/setLogLevel"%cs /\ mx_log_level x' = mcp_v1_parse_log_level params).
Proof.
  assert (forall o : outcome reply, (r0 ← o; Done (r0, x)) = Done (r, x') ->
    x' = x <| mx_log_level := mx_log_level x' |> /\
    (mx_log_level x' = mx_log_level x \/
     method = "logging/setLogLevel"%cs /\ mx_log_level x' = mcp_v1_parse_log_level params)) as Hkeep.
  { intros o (r0 & _ & [_ <-]%Done_inj%pair_equal_spec)%outcome_bind_inv.
    split; [by destruct x|by left]. }
  unfold route_method. do 7 (case_match; [apply Hkeep|]). case_match.
  { cbn [set_field mcp_v1_set_log_level]. intros [_ <-]%Done_inj%pair_equal_spec.
    split; [by destruct x|]. right. split; [by apply streq_true|done]. }
  case_match; intros [_ <-]%Done_inj%pair_equal_spec; (split; [by destruct x|by left]).
Qed.

Lemma route_unknown_method {W} `{AiryErr} `{AiryString} `{CJson} alloc (x : @mcp_v1_context_t W)
    method params w :
  method ∉ known_methods ->
  mcp_v1_route_request alloc (Some x) (Some method) params true w
  = Done ((AIRY_ERR_INVALID_PARAM, Some (Some method_not_found), w),
          Some (x <| mx_request_counter := u64 (mx_request_counter x + 1) |>)).
Proof.
  intros Hm. unfold mcp_v1_route_request. cbn [negb]. unfold route_method.
  unfold known_methods in Hm. repeat rewrite not_elem_of_cons in Hm. destruct_and! Hm.
  unfold streq. rewrite !bool_decide_eq_false_2 by done. reflexivity.
Qed.

(** C30. Routing.  Every request that is answered counts once, modulo 2^64, and
    changes nothing else of the server but the log level, which only
    [logging/setLogLevel] sets; a method the server does not know is answered
    with the JSON-RPC error -32601, and no handler runs. *)
Theorem route_request_spec {W} `{AiryErr} `{AiryString} `{CJson} alloc (x : @mcp_v1_context_t W)
    method params w :
  (forall r x', mcp_v1_route_request alloc (Some x) (Some method) params true w = Done (r, x') ->
     exists y, x' = Some y /\ counted x y /\
       (mx_log_level y = mx_log_level x \/
        method = "logging/setLogLevel"%cs /\ mx_log_level y = mcp_v1_parse_log_level params)) /\
  (method ∉ known_methods ->
     exists y, counted x y /\
     mcp_v1_route_request alloc (Some x) (Some method) params true w
     = Done ((AIRY_ERR_INVALID_PARAM, Some (Some method_not_found), w), Some y)).
Proof.
  split.
  - intros r x'. unfold mcp_v1_route_request. cbn [negb].
    intros ([r0 y] & Hr & [_ <-]%Done_inj%pair_equal_spec)%outcome_bind_inv.
    exists y. split; [done|].
    apply route_method_context in Hr as [Hy Hl]. split; [|exact Hl].
    unfold counted. rewrite Hy at 1. reflexivity.
  - intros Hm. exists (x <| mx_request_counter := u64 (mx_request_counter x + 1) |>).
    split; [by destruct x|]. by apply route_unknown_method.
Qed.

(** ** Streaming *)

Lemma chunks_from_spec fuel off rest :
  (length rest <= fuel)%nat ->
  exists ks, chunks_from fuel off rest = imap (fun i k => (off + 128 * Z.of_nat i, k)) ks /\
    concat ks = rest /\ Forall (fun k => (0 < length k <= 128)%nat) ks.
Proof.
  revert off rest. induction fuel as [|fuel IH]; intros off rest Hf.
  - destruct rest; [|cbn in Hf; lia]. by exists [].
  - destruct rest as [|c rest]; [by exists []|]. cbn [chunks_from].
    destruct (IH (off + 128) (drop 128 (c :: rest))) as (ks & -> & Hc & Hk).
    { rewrite length_drop. cbn [length] in *. lia. }
    exists (take 128 (c :: rest) :: ks). rewrite imap_cons. split; [|split].
    + f_equal; [f_equal; lia|]. apply imap_ext. intros i k _. cbn. f_equal. lia.
    + cbn [concat]. rewrite Hc. apply take_drop.
    + apply Forall_cons. split; [|exact Hk]. rewrite length_take. cbn [length]. lia.
Qed.

Definition content_line (text : bytes) : mcp_stream_event_t :=
  mcp_stream_event_init MCP_STREAM_EVENT_CONTENT (Some text).

(** The three lines of one SSE event, whole. *)
Definition sse_lines (event data : bytes) : list mcp_stream_event_t :=
  [content_line ("event: "%cs ++ event ++ "\n"%cs); content_line ("data: "%cs ++ data ++ "\n"%cs);
   content_line ": \n"%cs].

Lemma emit_sse_event_whole event data : emit_sse_event event data = sse_lines event data.
Proof.
  unfold emit_sse_event, emit_sse_line, sse_lines, content_line, strlen, lenZ.
  cbn [app default from_option id].
  rewrite !take_ge by (rewrite ?length_app; cbn [length]; rewrite ?length_app; cbn [length]; lia).
  done.
Qed.

(** What one chunk carries: the first one of a result announces it. *)
Definition chunk_text (index : Z) (type : mcp_content_type_t) (i : nat) (chunk : bytes) : bytes :=
  (if decide (i = 0%nat) then
     "{'index':"%cs ++ dec index ++ ",'type':'"%cs ++ mcp_type_str type ++ "','partial':true}"%cs
   else [])
  ++ "{'delta':{'text':'"%cs ++ json_string_escape (Some chunk) ++ "'}}"%cs.

Lemma tool_chunk_data_whole index type (i : nat) chunk :
  (length chunk <= 128)%nat ->
  tool_chunk_data index type (128 * Z.of_nat i) chunk = chunk_text index type i chunk.
Proof.
  intros Hc. unfold tool_chunk_data, chunk_text.
  assert ((128 * Z.of_nat i =? 0) = bool_decide (i = 0%nat)) as ->.
  { case_bool_decide as Hi; [subst; done|]. apply Z.eqb_neq. lia. }
  unfold fits. rewrite take_ge; [by destruct (decide (i = 0%nat)); case_bool_decide|].
  pose proof (json_string_escape_length chunk) as He. pose proof (dec_length index) as Hd.
  unfold lenZ in He. rewrite !length_app.
  assert (length (mcp_type_str type) <= 8)%nat by (destruct type; cbn; lia).
  case_bool_decide; rewrite ?length_app; cbn [length]; lia.
Qed.

(** C38. Streaming tool results.  The chunk events of a result are the pieces
    of its text in order: at most 128 characters each, none empty, together the
    whole text; each is sent as one SSE event whose three lines are never cut
    by the code's fixed buffers, the first one announcing the result, followed
    by the progress reached. *)
Theorem tool_stream_chunks index c :
  let text := default [] (ct_text c) in
  exists ks, concat ks = text /\ Forall (fun k => (0 < length k <= 128)%nat) ks /\
    tool_chunk_events index c
    = concat (imap (fun i k =>
        sse_lines "tools/call/chunk"%cs (chunk_text index (ct_type c) i k)
        ++ [progress_event MCP_STREAM_EVENT_PROGRESS None
              (percent (128 * Z.of_nat i + lenZ k) (strlen text) 80)]) ks).
Proof.
  intros text. destruct (chunks_from_spec (length text) 0 text) as (ks & Hks & Hc & Hk); [lia|].
  exists ks. split; [done|]. split; [done|].
  unfold tool_chunk_events, text_chunks. fold text. rewrite Hks, fmap_imap. f_equal.
  apply imap_ext. intros i k Hi. cbn [compose]. rewrite Z.add_0_l, emit_sse_event_whole.
  rewrite tool_chunk_data_whole; [done|].
  rewrite Forall_lookup in Hk. specialize (Hk _ _ Hi). lia.
Qed.

(** ** Instances of the properties *)

Definition test_tool (name : bytes) (schema : option bytes) h : @mcp_tool_entry_t Z :=
  mkToolEntry (mkTool (Some name) None schema 0) h.

Definition test_context (tools : list (@mcp_tool_entry_t Z)) : @mcp_v1_context_t Z :=
  mkMcp mcp_v1_config_default tools 32
    [mkResourceEntry (mkResource (Some "file:///a"%cs) None None None) None] 16 [] 16 [] 16
    None None None None MCP_LOG_INFO None 7 (mkStreamConfig false 0 0 0) 0.

(** A tool that says hello and counts its calls in the world. *)
Definition hello_tool : @mcp_tool_entry_t Z :=
  test_tool "hello"%cs None
    (Some (fun _ _ w => (w + 1, ([mkContent MCP_CONTENT_TEXT (Some "hi"%cs) None None None 0], false)))).

Lemma list_requests_render_witness :
  let x := test_context [hello_tool; test_tool "x"%cs (Some "{}"%cs) None] in
  let answer (text : bytes) : outcome (@reply Z) := Done (0, Some (Some text), 5) in
  @mcp_v1_handle_tools_list Z inst_err true (Some x) true 5
    = answer ("{'tools':["%cs ++ join_comma (tool_item <$> mx_tools x) ++ "]}"%cs) /\
  @mcp_v1_handle_resources_list Z inst_err true (Some x) true 5
    = answer ("{'resources':["%cs ++ join_comma (resource_item <$> mx_resources x) ++ "]}"%cs) /\
  @mcp_v1_handle_resources_templates Z inst_err true (Some x) true 5
    = answer ("{'resourceTemplates':["%cs ++ join_comma (template_item <$> mx_templates x)
              ++ "]}"%cs) /\
  @mcp_v1_handle_prompts_list Z inst_err true (Some x) true 5
    = answer ("{'prompts':["%cs ++ join_comma (prompt_item <$> mx_prompts x) ++ "]}"%cs).
Proof.
  intros x answer. apply (@list_requests_render Z inst_err x 5);
    solve [vm_compute; reflexivity | repeat constructor].
Defined.

Lemma tools_list_overflow_witness :
  let schema := replicate 4700 "x"%char in
  @mcp_v1_handle_tools_list Z inst_err true
    (Some (test_context [test_tool "big"%cs (Some schema) None])) true 5 = Fault.
Proof.
  intros schema.
  apply (@tools_list_overflow Z inst_err _ (test_tool "big"%cs (Some schema) None) schema 5).
  - by vm_compute.
  - by apply list_elem_of_here.
  - reflexivity.
  - by vm_compute.
Defined.


Lemma route_request_spec_witness :
  exists y : @mcp_v1_context_t Z, counted (test_context [hello_tool]) y /\
    @mcp_v1_route_request Z inst_err inst_string inst_cjson true (Some (test_context [hello_tool]))
      (Some "tools/delete"%cs) None true 5
    = Done ((@AIRY_ERR_INVALID_PARAM inst_err, Some (Some method_not_found), 5), Some y).
Proof.
  apply (@route_request_spec Z inst_err inst_string inst_cjson true (test_context [hello_tool])).
  by apply (bool_decide_eq_true_1 (_ ∉ _)).
Defined.
