(* ===== verification/McpClient.v ===== *)
(** * The MCP client: standards/mcp/src/mcp_client_rpc.c, mcp_client_tool.c

    JSON-RPC exchanges over either transport, the handshake, tool calls. *)

From S2P Require Export McpHttp.
From S2P Require Import EnvInst McpContext.

Section rpc.
Context `{AiryErr} `{CJson}.

(** ** Exchanges *)

(** 1 when the frame is the response of the given id, 0 when it is something
    else, negative when it is not JSON.  The cast of a number outside the
    64-bit range is undefined. *)
Definition response_id_matches (frame : bytes) (expected : Z) : outcome Z :=
  match cJSON_Parse frame with
  | None => Done AIRY_ERR_PARSE_ERROR
  | Some root =>
      match cJSON_GetObjectItem root "id"%cs with
      | None => Done 0
      | Some rid =>
          if cJSON_IsNumber (Some rid) then
            v ← sf_to_u64 (valuedouble rid); Done (if v =? expected then 1 else 0)
          else match json_string (Some rid) with
               | Some s => Done (if strtoull s =? expected then 1 else 0)
               | None => Done 0
               end
      end
  end.

Definition rpc_request (id : Z) (method : bytes) (params_json : option bytes) : cJSON :=
  let req := cJSON_AddStringToObject cJSON_CreateObject "jsonrpc"%cs "2.0"%cs in
  let req := cJSON_AddNumberToObject req "id"%cs (f64_of_Z id) in
  let req := cJSON_AddStringToObject req "method"%cs method in
  let params := cJSON_Parse (match params_json with Some (c :: r) => c :: r | _ => "{}"%cs end) in
  cJSON_AddItemToObject req "params"%cs (default cJSON_CreateObject params).

(** The loop that waits for the response over stdio. *)
Fixpoint rpc_wait (fuel : nat) (c : mcp_client_s) (id deadline : Z)
    : IO (Z * mcp_client_s * option bytes) :=
  match fuel with
  | O => fun _ => Blocked
  | S f =>
      now ← now_ms;
      if deadline - now <=? 0 then mret (AIRY_ERR_TIMEOUT, c, None)
      else
        '(rc, c, frame) ← io_read c (deadline - now);
        if negb (rc =? 0) then mret (rc, c, None)
        else
          let frame := default [] frame in
          m ← of_outcome (response_id_matches frame id);
          if m =? 1 then mret (0, c, Some frame)
          else if m <? 0 then mret (m, c, None)
          else rpc_wait f c id deadline
  end.

(** A frame takes at least a byte, so one turn per byte is enough. *)
Definition bytes_left (c : mcp_client_s) (s : io) : nat :=
  length (fp_buf (cl_parser c)) + length (data_of (io_reads s)).

Definition with_fuel {A} (measure : io -> nat) (m : nat -> IO A) : IO A :=
  fun s => m (S (measure s)) s.

(** The response is given when one is expected and the code is 0. *)
Definition client_rpc_exchange (c : mcp_client_s) (method : bytes) (params_json : option bytes)
    (expect_response : bool) : IO (Z * mcp_client_s * option bytes) :=
  let id := u64 (cl_request_id c + 1) in
  let c := c <| cl_request_id := id |> in
  match cJSON_PrintUnformatted (rpc_request id method params_json) with
  | None => mret (AIRY_ERR_OUT_OF_MEMORY, c, None)
  | Some req_str =>
      match cl_transport c with
      | MCP_CLIENT_TRANSPORT_STDIO =>
          rc ← io_send req_str;
          if negb (rc =? 0) then mret (rc, c, None)
          else if negb expect_response then mret (0, c, None)
          else
            now ← now_ms;
            with_fuel (bytes_left c) (fun fuel =>
              rpc_wait fuel c id (now + MCP_CLIENT_DEFAULT_TIMEOUT_MS))
      | MCP_CLIENT_TRANSPORT_HTTP =>
          '(rc, resp_body) ← http_send_message c req_str;
          if negb (rc =? 0) then mret (rc, c, None)
          else if negb expect_response then mret (0, c, None)
          else
            m ← of_outcome (match resp_body with
                            | Some b => response_id_matches b id
                            | None => Done AIRY_ERR_PARSE_ERROR
                            end);
            if m <? 0 then mret (AIRY_ERR_PARSE_ERROR, c, None) else mret (0, c, resp_body)
      | MCP_CLIENT_TRANSPORT_NONE => mret (MCP_CLIENT_ERR_NOT_CONNECTED, c, None)
      end
  end.

(** ** Handshake *)

Definition parse_initialize_response (c : mcp_client_s) (resp : bytes) : Z * mcp_client_s :=
  match cJSON_Parse resp with
  | None => (AIRY_ERR_PARSE_ERROR, c)
  | Some root =>
      if cJSON_IsObject (cJSON_GetObjectItem root "error"%cs) then (MCP_CLIENT_ERR_RPC_ERROR, c)
      else match cJSON_GetObjectItem root "result"%cs with
           | Some result =>
               if negb (cJSON_IsObject (Some result)) then (AIRY_ERR_PARSE_ERROR, c)
               else match cJSON_GetObjectItem result "serverInfo"%cs with
                    | Some si =>
                        if cJSON_IsObject (Some si) then
                          match json_string (cJSON_GetObjectItem si "name"%cs) with
                          | Some sn => (0, c <| cl_server_name := Some sn |>)
                          | None => (0, c)
                          end
                        else (0, c)
                    | None => (0, c)
                    end
           | None => (AIRY_ERR_PARSE_ERROR, c)
           end
  end.

Definition initialize_params : bytes :=
  "{'protocolVersion':'2024-11-05','capabilities':{},'clientInfo':{'name':'agentrt-gateway','version':'0.1.1'}}"%cs.

(** A notification that cannot be sent is only logged. *)
Definition client_ensure_initialized (c : mcp_client_s) : IO (Z * mcp_client_s) :=
  if cl_initialized c then mret (0, c)
  else
    '(rc, c, resp) ← client_rpc_exchange c "initialize"%cs (Some initialize_params) true;
    if negb (rc =? 0) then mret (rc, c)
    else
      let '(rc, c) := parse_initialize_response c (default [] resp) in
      if negb (rc =? 0) then mret (rc, c)
      else
        let c := c <| cl_initialized := true |> in
        '(_, c, _) ← client_rpc_exchange c "notifications/initialized"%cs (Some "{}"%cs) false;
        mret (0, c).

(** ** Tools *)

Record mcp_client_tool_t := mkClientTool {
  ct_name : bytes;
  ct_description : option bytes;
  ct_input_schema_json : option bytes
}.

Definition client_tool_of (t : option cJSON) : option mcp_client_tool_t :=
  let item key := t ≫= fun t => cJSON_GetObjectItem t key in
  name ← json_string (item "name"%cs);
  Some (mkClientTool name (json_string (item "description"%cs))
          (if cJSON_IsObject (item "inputSchema"%cs)
           then item "inputSchema"%cs ≫= cJSON_PrintUnformatted else None)).

(** The entries of the array that have a name. *)
Definition client_tools_of (tools : cJSON) : list mcp_client_tool_t :=
  omap (fun i => client_tool_of (cJSON_GetArrayItem tools (Z.of_nat i)))
    (seq 0 (Z.to_nat (cJSON_GetArraySize tools))).

Definition parse_tools (resp : bytes) : Z * list mcp_client_tool_t :=
  match cJSON_Parse resp with
  | None => (AIRY_ERR_PARSE_ERROR, [])
  | Some root =>
      if cJSON_IsObject (cJSON_GetObjectItem root "error"%cs) then (MCP_CLIENT_ERR_RPC_ERROR, [])
      else match cJSON_GetObjectItem root "result"%cs with
           | Some result =>
               if negb (cJSON_IsObject (Some result)) then (AIRY_ERR_PARSE_ERROR, [])
               else match cJSON_GetObjectItem result "tools"%cs with
                    | Some tools =>
                        if cJSON_IsArray (Some tools) then (0, client_tools_of tools)
                        else (AIRY_ERR_PARSE_ERROR, [])
                    | None => (AIRY_ERR_PARSE_ERROR, [])
                    end
           | None => (AIRY_ERR_PARSE_ERROR, [])
           end
  end.

(** A null client is the caller's error; the list is empty unless the code is
    0. *)
Definition mcp_client_list_tools (c : option mcp_client_s) (has_out : bool)
    : IO (Z * option mcp_client_s * list mcp_client_tool_t) :=
  match c with
  | None => mret (AIRY_ERR_INVALID_PARAM, c, [])
  | Some cl =>
      if negb has_out then mret (AIRY_ERR_INVALID_PARAM, c, [])
      else match cl_transport cl with
           | MCP_CLIENT_TRANSPORT_NONE => mret (MCP_CLIENT_ERR_NOT_CONNECTED, c, [])
           | _ =>
               '(rc, cl) ← client_ensure_initialized cl;
               if negb (rc =? 0) then mret (rc, Some cl, [])
               else
                 '(rc, cl, resp) ← client_rpc_exchange cl "tools/list"%cs (Some "{}"%cs) true;
                 if negb (rc =? 0) then mret (rc, Some cl, [])
                 else let '(rc, tools) := parse_tools (default [] resp) in mret (rc, Some cl, tools)
           end
  end.

Definition call_params (name : bytes) (arguments_json : option bytes) : cJSON :=
  let args := cJSON_Parse (match arguments_json with Some (c :: r) => c :: r | _ => "{}"%cs end) in
  cJSON_AddItemToObject (cJSON_AddStringToObject cJSON_CreateObject "name"%cs name)
    "arguments"%cs (default cJSON_CreateObject args).

Definition mcp_client_call_tool (c : option mcp_client_s) (name : option bytes)
    (arguments_json : option bytes) (has_out : bool)
    : IO (Z * option mcp_client_s * option bytes) :=
  match c, name with
  | Some cl, Some n =>
      if negb has_out then mret (AIRY_ERR_INVALID_PARAM, c, None)
      else match cl_transport cl with
           | MCP_CLIENT_TRANSPORT_NONE => mret (MCP_CLIENT_ERR_NOT_CONNECTED, c, None)
           | _ =>
               '(rc, cl) ← client_ensure_initialized cl;
               if negb (rc =? 0) then mret (rc, Some cl, None)
               else match cJSON_PrintUnformatted (call_params n arguments_json) with
                    | None => mret (AIRY_ERR_OUT_OF_MEMORY, Some cl, None)
                    | Some params_str =>
                        '(rc, cl, result) ←
                          client_rpc_exchange cl "tools/call"%cs (Some params_str) true;
                        mret (rc, Some cl, result)
                    end
           end
  | _, _ => mret (AIRY_ERR_INVALID_PARAM, c, None)
  end.

(** [*text_json ? 0 : AIRY_ERR_OUT_OF_MEMORY] *)
Definition text_out (t : option bytes) : Z * option bytes :=
  match t with Some s => (0, Some s) | None => (AIRY_ERR_OUT_OF_MEMORY, None) end.

Definition mcp_client_extract_text (response_json : option bytes) : Z * option bytes :=
  match response_json with
  | None => (AIRY_ERR_INVALID_PARAM, None)
  | Some r =>
      match cJSON_Parse r with
      | None => (AIRY_ERR_PARSE_ERROR, None)
      | Some root =>
          match cJSON_GetObjectItem root "error"%cs, cJSON_GetObjectItem root "result"%cs with
          | err, result =>
              if cJSON_IsObject err then
                let msg := json_string (err ≫= fun e => cJSON_GetObjectItem e "message"%cs) in
                text_out (Some (json_string_escape (Some (default "MCP RPC error"%cs msg))))
              else match result with
                   | Some result =>
                       if negb (cJSON_IsObject (Some result)) then (AIRY_ERR_PARSE_ERROR, None)
                       else match cJSON_GetObjectItem result "content"%cs with
                            | Some content =>
                                if cJSON_IsArray (Some content) && (0 <? cJSON_GetArraySize content)
                                then
                                  let first := cJSON_GetArrayItem content 0 in
                                  match json_string (first ≫= fun f => cJSON_GetObjectItem f "text"%cs) with
                                  | Some t => text_out (Some (json_string_escape (Some t)))
                                  | None => text_out (first ≫= cJSON_PrintUnformatted)
                                  end
                                else text_out (cJSON_PrintUnformatted result)
                            | None => text_out (cJSON_PrintUnformatted result)
                            end
                   | None => (AIRY_ERR_PARSE_ERROR, None)
                   end
          end
      end
  end.
End rpc.

(** A client with nothing but its name, transport and addresses set. *)
Definition client_zero : mcp_client_s :=
  mkClient [] MCP_CLIENT_TRANSPORT_NONE 0 0 0 None [] [] 0 frame_parser_init 0 false None.

(** ** Exchanges come to an end *)

(** A parser that waits for a body waits for some bytes. *)
Definition parser_pos (p : mcp_frame_parser_t) : Prop :=
  fp_state p = MCP_FRAME_STATE_BODY -> 0 < fp_body_expected p.

(** The answers after which reading or writing gives up. *)
Definition final_read (e : read_event) : Prop :=
  match e with RTimeout | RPollErr | RBadFd | REof | RErr => True | _ => False end.
Definition final_write (e : write_event) : Prop :=
  match e with WTimeout | WPollErr | WBadFd | WErr => True | _ => False end.

Lemma data_of_cons e evs :
  data_of (e :: evs) = match e with RData c => c ++ data_of evs | _ => data_of evs end.
Proof. unfold data_of. by destruct e. Qed.

Section returns.
Context `{AiryErr}.

Lemma take_header_pos al p :
  parser_pos p ->
  match take_header al p with
  | inl (rc, q) => rc <> 0 /\ parser_pos q /\ fp_buf q = fp_buf p
  | inr q => 0 < fp_body_expected q /\ fp_buf q = fp_buf p
  end.
Proof.
  intros Hp. unfold take_header. destruct (fp_state p) eqn:Hs; [|by split; [apply Hp|]].
  assert (forall q, fp_state q = fp_state p -> parser_pos q) as Hpos
    by (intros q Hq; unfold parser_pos; by rewrite Hq, Hs).
  destruct (find_header_end (fp_buf p)) as [k|]; [|by split; [|split; [apply Hpos|]]].
  destruct (parse_content_length _) as [n|] eqn:Hn; [|split; [unfold MCP_CLIENT_ERR_FRAME, MCP_CLIENT_ERR_BASE; lia|by split; [apply Hpos|]]].
  destruct (Z.eqb_spec n 0) as [|Hz]; cbn [orb]; [split; [unfold MCP_CLIENT_ERR_FRAME, MCP_CLIENT_ERR_BASE; lia|by split; [apply Hpos|]]|].
  destruct (_ <? n); [split; [unfold MCP_CLIENT_ERR_FRAME, MCP_CLIENT_ERR_BASE; lia|by split; [apply Hpos|]]|].
  destruct al; cbn [negb]; [|split; [errlia|by split; [apply Hpos|]]].
  cbn. split; [|done]. enough (0 <= n) by lia. revert Hn. unfold parse_content_length.
  generalize (crlf_lines [] (take k (fp_buf p))) as ls. induction ls as [|l ls IH]; [done|].
  cbn [content_length_of]. destruct (_ && _); [|exact IH]. case_bool_decide; [done|].
  intros [= <-]. apply strtoull_nonneg.
Qed.

(** Taking a frame consumes some of the buffer. *)
Lemma take_frame_shrinks al p rc p' out :
  parser_pos p -> frame_parser_take_frame al p = (rc, p', out) ->
  parser_pos p' /\ (length (fp_buf p') <= length (fp_buf p))%nat /\
  (rc = 0 -> (length (fp_buf p') < length (fp_buf p))%nat /\ is_Some out).
Proof.
  intros Hp. unfold frame_parser_take_frame. pose proof (take_header_pos (al 0%nat) p Hp) as Hh.
  destruct (take_header (al 0%nat) p) as [[rc1 q]|q].
  - intros [[<- <-]%pair_equal_spec <-]%pair_equal_spec. destruct Hh as (Hrc & Hq & ->).
    split; [done|]. split; [lia|done].
  - destruct Hh as [Hpos Hb]. destruct (Z.ltb_spec (lenZ (fp_buf q)) (Z.of_nat (fp_hdr_end q) + fp_body_expected q)).
    { intros [[<- <-]%pair_equal_spec <-]%pair_equal_spec. rewrite Hb. split; [by intros _|]. split; [lia|done]. }
    destruct (al 1%nat); cbn [negb]; intros [[<- <-]%pair_equal_spec <-]%pair_equal_spec.
    + cbn. rewrite length_drop, Hb. unfold lenZ in *. rewrite Hb in *. split; [by intros [=]|].
      split; [lia|]. intros _. split; [lia|by eexists].
    + rewrite Hb. split; [by intros _|]. split; [lia|]. intros Hrc. exfalso. errlia.
Qed.

Lemma append_shrinks p c rc p' :
  parser_pos p -> frame_parser_append true p c = (rc, p') ->
  parser_pos p' /\ (length (fp_buf p') <= length (fp_buf p) + length c)%nat.
Proof.
  unfold frame_parser_append. cbn [negb]. intros Hp.
  repeat case_match; intros [<- <-]%pair_equal_spec; (split; [exact Hp|]); cbn; rewrite ?length_app; lia.
Qed.

(** Reading a message consumes the answers it uses and, on success, a byte. *)
Lemma read_shrinks evs p timeout :
  parser_pos p ->
  match stdio_read_message all_ok evs p timeout with
  | Some (rc, p', out, evs') =>
      parser_pos p' /\
      (rc = 0 -> is_Some out /\ (Exists final_read evs -> Exists final_read evs') /\
         (length (fp_buf p') + length (data_of evs') < length (fp_buf p) + length (data_of evs))%nat)
  | None => ~ Exists final_read evs
  end.
Proof.
  revert p. induction evs as [|ev evs IH]; intros p Hp; cbn [stdio_read_message];
    destruct (frame_parser_take_frame all_ok p) as [[rc p1] out] eqn:Ht;
    destruct (take_frame_shrinks _ _ _ _ _ Hp Ht) as (Hp1 & Hl1 & Hz);
    (destruct (negb (rc =? 1)); [split; [done|]; intros Hrc; destruct (Hz Hrc); split; [done|]; split; [done|]; lia|]);
    (destruct (timeout <=? 0); [split; [done|]; intros Hrc; exfalso; errlia|]).
  { by inversion 1. }
  assert (forall q, parser_pos q -> ~ final_read ev ->
    (length (fp_buf q) + length (data_of evs) <= length (fp_buf p) + length (data_of (ev :: evs)))%nat ->
    match stdio_read_message all_ok evs q timeout with
    | Some (rc, p', out, evs') =>
        parser_pos p' /\
        (rc = 0 -> is_Some out /\ (Exists final_read (ev :: evs) -> Exists final_read evs') /\
           (length (fp_buf p') + length (data_of evs') < length (fp_buf p) + length (data_of (ev :: evs)))%nat)
    | None => ~ Exists final_read (ev :: evs)
    end) as Hgo.
  { intros q Hq Hev Hle. specialize (IH q Hq).
    assert (Exists final_read (ev :: evs) -> Exists final_read evs) as Hex by (by inversion 1).
    destruct (stdio_read_message all_ok evs q timeout) as [[[[rc' p'] out'] evs']|]; [|tauto].
    destruct IH as [H1 H2]. split; [done|]. intros Hrc. destruct (H2 Hrc) as (H3 & H4 & H5).
    split; [done|]. split; [tauto|lia]. }
  rewrite data_of_cons in Hgo. rewrite data_of_cons.
  destruct ev; try (split; [done|]; intros Hrc; exfalso; revert Hrc;
    first [errlia | unfold MCP_CLIENT_ERR_PROCESS_EXIT, MCP_CLIENT_ERR_BASE; lia]);
    try (apply Hgo; [done|by intros []|lia]).
  destruct (frame_parser_append true p1 chunk) as [rc2 p2] eqn:Ha.
  change (all_ok 2) with true. rewrite Ha. destruct (append_shrinks _ _ _ _ Hp1 Ha) as [Hp2 Hl2].
  destruct (Z.eqb_spec rc2 0) as [->|Hne]; cbn [negb]; [|by split].
  apply Hgo; [done|by intros []|rewrite length_app; lia].
Qed.

Lemma write_returns evs data :
  Exists final_write evs ->
  match write_all_with_timeout evs data with
  | Some (rc, _, evs') => rc = 0 -> Exists final_write evs'
  | None => False
  end.
Proof.
  revert data. induction evs as [|ev evs IH]; intros data Hex; [by inversion Hex|].
  cbn [write_all_with_timeout]. destruct (lenZ data =? 0); [done|].
  assert (~ final_write ev -> Exists final_write evs) as Hex' by (inversion Hex; tauto).
  destruct ev as [| | | |k| | |]; try (intros Hrc; exfalso; errlia);
    try (apply IH, Hex'; by intros []).
  specialize (IH (drop (Z.to_nat k) data) (Hex' ltac:(by intros []))).
  by destruct (write_all_with_timeout evs _) as [[[rc o] evs']|].
Qed.

Lemma http_frame_returns evs p :
  Exists final_read evs -> http_read_frame evs p <> None.
Proof.
  revert p. induction evs as [|ev evs IH]; intros p Hex; [by inversion Hex|].
  cbn [http_read_frame]. destruct (frame_parser_take_frame all_ok p) as [[rc p1] out].
  destruct (negb (rc =? 1)); [done|].
  assert (~ final_read ev -> Exists final_read evs) as Hex' by (inversion Hex; tauto).
  destruct ev; try done; [apply IH, Hex'; by intros []|].
  destruct (frame_parser_append true p1 chunk) as [rc2 p2]. destruct (negb (rc2 =? 0)); [done|].
  apply IH, Hex'. by intros [].
Qed.

Lemma io_send_returns req s :
  Exists final_write (io_writes s) ->
  match io_send req s with
  | Ret _ s' => io_reads s' = io_reads s /\ io_clock s' = io_clock s
  | Blocked => False
  | Undef => True
  end.
Proof.
  intros Hw. unfold io_send, stdio_send_message.
  pose proof (write_returns (io_writes s) (fits 64 (frame_header (strlen req))) Hw) as H1.
  destruct (write_all_with_timeout (io_writes s) _) as [[[rc o] evs]|]; [|done]. cbn [mbind option_bind].
  destruct (Z.eqb_spec rc 0) as [->|Hrc]; cbn [negb]; [|done].
  pose proof (write_returns evs req (H1 eq_refl)) as H2.
  by destruct (write_all_with_timeout evs req) as [[[rc o'] evs']|].
Qed.

Lemma http_send_returns c req s :
  Exists final_write (io_writes s) -> Exists final_read (io_reads s) -> io_connects s <> [] ->
  http_send_message c req s <> Blocked.
Proof.
  intros Hw Hr Hcn. unfold http_send_message, mbind, io_bind, http_connect_fd.
  destruct (io_connects s) as [|ev cs]; [done|].
  assert (exists b, match ev with
    | CGaiError => Ret false (s <| io_connects := cs |>)
    | CAddresses l => Ret (try_addresses l) (s <| io_connects := cs |>)
    end = Ret b (s <| io_connects := cs |>)) as [[|] ->] by (destruct ev; by eexists); [|done].
  cbn [negb]. unfold io_write. cbn [io_writes upd].
  match goal with |- context [write_all_with_timeout _ ?d] =>
    pose proof (write_returns (io_writes s) d Hw) as H1;
    destruct (write_all_with_timeout (io_writes s) d) as [[[rc o] evs]|]; [|done] end.
  destruct (negb (rc =? 0)); [done|]. unfold http_read_response. cbn [io_reads upd].
  pose proof (http_frame_returns (io_reads s) frame_parser_init Hr) as H2.
  destruct (http_read_frame (io_reads s) frame_parser_init) as [[[[rc2 p] out] evs2]|]; [|done].
  destruct (negb (rc2 =? 0)); [done|].
  destruct (fp_header_text p) as [h|]; [destruct (bool_decide _)|]; by destruct out.
Qed.

Context `{CJson}.

(** With more fuel than bytes the loop returns, unless an answer is missing. *)
Lemma rpc_wait_returns fuel c id deadline s :
  parser_pos (cl_parser c) -> Exists final_read (io_reads s) ->
  (bytes_left c s < fuel)%nat -> (fuel <= length (io_clock s))%nat ->
  rpc_wait fuel c id deadline s <> Blocked.
Proof.
  revert c s. induction fuel as [|f IH]; intros c s Hp Hex Hl Hc; [lia|].
  cbn [rpc_wait]. unfold mbind, io_bind, now_ms.
  destruct (io_clock s) as [|t r] eqn:Hclk; [cbn in Hc; lia|].
  destruct (_ <=? 0); [done|]. unfold io_read. cbn [io_reads upd].
  pose proof (read_shrinks (io_reads s) (cl_parser c) (deadline - t) Hp) as Hr.
  destruct (stdio_read_message all_ok (io_reads s) _ _) as [[[[rc p'] out] evs']|]; [|done].
  destruct Hr as [Hp' Hz]. destruct (Z.eqb_spec rc 0) as [->|Hrc]; cbn [negb]; [|done].
  destruct (Hz eq_refl) as (_ & Hex' & Hlt).
  unfold of_outcome. destruct (response_id_matches (default [] out) id) as [m|]; [|done].
  destruct (m =? 1); [done|]. destruct (m <? 0); [done|].
  apply IH; [exact Hp'|by apply Hex'| |cbn in *; lia].
  change (length (fp_buf p') + length (data_of evs') < f)%nat. unfold bytes_left in Hl. lia.
Qed.

(** The fuel never matters: more of it gives the same result. *)
Lemma rpc_wait_fuel n m c id deadline s :
  parser_pos (cl_parser c) -> (bytes_left c s < n)%nat -> (bytes_left c s < m)%nat ->
  rpc_wait n c id deadline s = rpc_wait m c id deadline s.
Proof.
  revert m c s. induction n as [|n IH]; intros m c s Hp Hn Hm; [lia|]. destruct m as [|m]; [lia|].
  cbn [rpc_wait]. unfold mbind, io_bind, now_ms. destruct (io_clock s) as [|t r]; [done|].
  destruct (_ <=? 0); [done|]. unfold io_read. cbn [io_reads upd].
  pose proof (read_shrinks (io_reads s) (cl_parser c) (deadline - t) Hp) as Hr.
  destruct (stdio_read_message all_ok (io_reads s) _ _) as [[[[rc p'] out] evs']|]; [|done].
  destruct Hr as [Hp' Hz]. destruct (Z.eqb_spec rc 0) as [->|Hrc]; cbn [negb]; [|done].
  destruct (Hz eq_refl) as (_ & _ & Hlt).
  unfold of_outcome. destruct (response_id_matches (default [] out) id) as [k|]; [|done].
  destruct (k =? 1); [done|]. destruct (k <? 0); [done|].
  unfold bytes_left in Hn, Hm.
  apply IH; [exact Hp'|change (length (fp_buf p') + length (data_of evs') < n)%nat
                      |change (length (fp_buf p') + length (data_of evs') < m)%nat]; lia.
Qed.
End returns.

(** C23. Exchanges terminate.  Suppose every wait for the peer ends sooner or
    later: the scripts of answers contain a timeout, an error or, when reading,
    the end of the stream.  Then an exchange returns, whatever else the peer
    sends and however it is cut up: over stdio each turn of the loop consumes
    at least a byte of what arrived, so there is one turn per byte at most, and
    a clock that can be read that often is enough.  The bound put on the loop
    does not change its result. *)
Theorem rpc_terminates `{AiryErr} `{CJson} c method params expect s :
  parser_pos (cl_parser c) -> Exists final_write (io_writes s) -> Exists final_read (io_reads s) ->
  io_connects s <> [] -> (bytes_left c s + 2 <= length (io_clock s))%nat ->
  client_rpc_exchange c method params expect s <> Blocked /\
  forall n m id deadline, (bytes_left c s < n)%nat -> (bytes_left c s < m)%nat ->
    rpc_wait n c id deadline s = rpc_wait m c id deadline s.
Proof.
  intros Hp Hw Hr Hcn Hck. split; [|intros; by apply rpc_wait_fuel].
  unfold client_rpc_exchange. destruct (cJSON_PrintUnformatted _) as [req|]; [|done].
  destruct (cl_transport _); [done| |]; unfold mbind, io_bind.
  - pose proof (io_send_returns req s Hw) as Hs. destruct (io_send req s) as [rc s1| |]; [|done..].
    destruct Hs as [Hrd Hclk]. destruct (negb (rc =? 0)); [done|]. destruct (negb expect); [done|].
    unfold now_ms. rewrite Hclk. destruct (io_clock s) as [|t r]; [cbn in Hck; lia|].
    unfold with_fuel. apply rpc_wait_returns; [exact Hp | by cbn; rewrite Hrd | apply Nat.lt_succ_diag_r |].
    change (S (length (fp_buf (cl_parser c)) + length (data_of (io_reads s1))) <= length r)%nat.
    rewrite Hrd. unfold bytes_left in Hck. cbn in Hck. lia.
  - match goal with |- context [http_send_message ?c ?r ?s] =>
      pose proof (http_send_returns c r s Hw Hr Hcn) as Hs;
      destruct (http_send_message c r s) as [[rc body] s1| |]; [|done..] end.
    destruct (negb (rc =? 0)); [done|]. destruct (negb expect); [done|].
    unfold of_outcome. destruct (match body with Some b => _ | None => _ end) as [m|]; [|done].
    by destruct (m <? 0).
Qed.

Lemma rpc_terminates_witness :
  let c := client_zero <| cl_transport := MCP_CLIENT_TRANSPORT_STDIO |> in
  let s := mkIo [WWrote 100; WWrote 100; WTimeout] [RData "Content-Length: 2\r\n\r\n{}"%cs; REof]
             [CGaiError] (repeat 5 25) [] in
  @client_rpc_exchange inst_err inst_cjson c "ping"%cs None true s <> Blocked.
Proof.
  intros c s.
  refine (proj1 (@rpc_terminates inst_err inst_cjson c "ping"%cs None true s _ _ _ _ _)).
  - by intros [=].
  - by do 2 apply Exists_cons_tl; apply Exists_cons_hd.
  - by apply Exists_cons_tl; apply Exists_cons_hd.
  - done.
  - vm_compute. lia.
Defined.

(** ** Responses are delivered *)

Section delivery.
Context `{AiryErr} `{CJson}.

Lemma stdio_send_ok evs req out evs' :
  stdio_send_message evs req = Some (0, out, evs') -> out = frame_of req.
Proof.
  unfold stdio_send_message. rewrite frame_header_fits.
  destruct (write_all_with_timeout evs (frame_header (strlen req))) as [[[rc o] evs1]|] eqn:E1; [|done].
  cbn. destruct (Z.eqb_spec rc 0) as [->|Hrc]; cbn [negb]; [|by intros [= -> _]].
  destruct (write_all_with_timeout evs1 req) as [[[rc o'] evs2]|] eqn:E2; [|done]. cbn. intros [= -> <- _].
  by rewrite (write_all_ok _ _ _ _ E1), (write_all_ok _ _ _ _ E2).
Qed.

Lemma stream_bytes fs : Forall good_body fs -> (length fs <= length (stream fs))%nat.
Proof.
  induction 1 as [|f fs [_ Hf] _ IH]; [done|]. unfold stream in *. cbn [fmap list_fmap concat length].
  unfold frame_of at 1. rewrite !length_app. unfold lenZ in Hf. lia.
Qed.

Lemma rpc_wait_delivers fs1 resp fs2 id t0 fuel c s :
  Forall good_body (fs1 ++ resp :: fs2) -> Forall benign (io_reads s) ->
  sync (cl_parser c) (fs1 ++ resp :: fs2) (data_of (io_reads s)) ->
  Forall (fun f => response_id_matches f id = Done 0) fs1 -> response_id_matches resp id = Done 1 ->
  (length fs1 < length (io_clock s))%nat ->
  Forall (fun t => t < t0 + MCP_CLIENT_DEFAULT_TIMEOUT_MS) (io_clock s) -> (length fs1 < fuel)%nat ->
  exists c' s', rpc_wait fuel c id (t0 + MCP_CLIENT_DEFAULT_TIMEOUT_MS) s = Ret (0, c', Some resp) s' /\
    sync (cl_parser c') fs2 (data_of (io_reads s')) /\ cl_request_id c' = cl_request_id c /\
    io_sent s' = io_sent s.
Proof.
  revert fuel c s. induction fs1 as [|f fs1 IH]; intros fuel c s Hok Hben Hs Hm Hr Hlen Hck Hfuel;
    (destruct fuel as [|fuel]; [lia|]); cbn [rpc_wait]; unfold mbind, io_bind, now_ms;
    (destruct (io_clock s) as [|t r]; [cbn in Hlen; lia|]); apply Forall_cons in Hck as [Ht Hck];
    rewrite (proj2 (Z.leb_gt _ _)) by lia; unfold io_read; cbn [io_reads upd];
    (edestruct (read_message_sync all_ok (fun _ => eq_refl) (t0 + MCP_CLIENT_DEFAULT_TIMEOUT_MS - t))
      as (p' & evs' & Hread & Hs' & Hben'); [lia|exact Hok|exact Hben|exact Hs|]);
    rewrite Hread; cbn [negb Z.eqb default from_option Datatypes.id]; unfold of_outcome.
  - rewrite Hr. do 2 eexists. split; [reflexivity|]. done.
  - apply Forall_cons in Hm as [Hf Hm]. rewrite Hf. cbn [Z.eqb Z.ltb Z.compare].
    apply Forall_cons in Hok as [_ Hok].
    destruct (IH fuel (c <| cl_parser := p' |>) (s <| io_clock := r |> <| io_reads := evs' |>))
      as (c' & s' & Hw & H1 & H2 & H3);
      [exact Hok|exact Hben'|exact Hs'|exact Hm|exact Hr|cbn in Hlen |- *; lia|exact Hck|cbn in Hfuel; lia|].
    exists c', s'. by split; [exact Hw|].
Qed.
(** A whole exchange over stdio. *)
Lemma stdio_exchange c method params s req out wevs fs1 resp fs2 t0 ts :
  cl_transport c = MCP_CLIENT_TRANSPORT_STDIO ->
  cJSON_PrintUnformatted (rpc_request (u64 (cl_request_id c + 1)) method params) = Some req ->
  stdio_send_message (io_writes s) req = Some (0, out, wevs) ->
  Forall good_body (fs1 ++ resp :: fs2) -> Forall benign (io_reads s) ->
  sync (cl_parser c) (fs1 ++ resp :: fs2) (data_of (io_reads s)) ->
  Forall (fun f => response_id_matches f (u64 (cl_request_id c + 1)) = Done 0) fs1 ->
  response_id_matches resp (u64 (cl_request_id c + 1)) = Done 1 ->
  io_clock s = t0 :: ts -> (length fs1 < length ts)%nat ->
  Forall (fun t => t < t0 + MCP_CLIENT_DEFAULT_TIMEOUT_MS) ts ->
  exists c' s', client_rpc_exchange c method params true s = Ret (0, c', Some resp) s' /\
    sync (cl_parser c') fs2 (data_of (io_reads s')) /\
    cl_request_id c' = u64 (cl_request_id c + 1) /\ io_sent s' = io_sent s ++ frame_of req.
Proof.
  intros Ht Hp Hsend Hok Hben Hs Hm Hr Hck Hlen Hts.
  unfold client_rpc_exchange. rewrite Hp. cbn [cl_transport upd]. rewrite Ht. unfold mbind, io_bind, io_send.
  rewrite Hsend. cbn [negb Z.eqb]. unfold now_ms. cbn [io_clock upd]. rewrite Hck. unfold with_fuel.
  pose proof (stdio_send_ok _ _ _ _ Hsend) as ->.
  edestruct (rpc_wait_delivers fs1 resp fs2) as (c' & s' & Hw & H1 & H2 & H3);
    [exact Hok | | | exact Hm | exact Hr | | | | ].
  6:{ exists c', s'. rewrite Hw. split; [done|]. split; [done|]. split; [by rewrite H2|]. by rewrite H3. }
  all: cbn; try done.
  pose proof (stream_bytes _ Hok) as Hb. destruct Hs as [Hs _]. rewrite <- Hs in Hb.
  rewrite !length_app in Hb. change (length (resp :: fs2)) with (S (length fs2)) in Hb.
  change (length fs1 < S (length (fp_buf (cl_parser c)) + length (data_of (io_reads s))))%nat. lia.
Qed.
End delivery.



(** ** Which responses are accepted *)

Section checked.
Context `{AiryErr} `{CJson}.

(** Inversion of a step of the monad. *)
Lemma io_bind_inv {A B} (m : IO A) (f : A -> IO B) s b s' :
  (m ≫= f) s = Ret b s' -> exists a s1, m s = Ret a s1 /\ f a s1 = Ret b s'.
Proof. unfold mbind, io_bind. destruct (m s) as [a s1| |]; [eauto|done..]. Qed.

Lemma of_outcome_inv {A} (o : outcome A) s a s' : of_outcome o s = Ret a s' -> o = Done a /\ s' = s.
Proof. unfold of_outcome. destruct o; [by intros [= -> ->]|done]. Qed.

Lemma ret_inv {A} (a b : A) s s' : (mret a : IO A) s = Ret b s' -> a = b /\ s = s'.
Proof. by intros [= -> ->]. Qed.

Lemma io_read_code c timeout s rc c' out s' :
  io_read c timeout s = Ret (rc, c', out) s' -> cl_request_id c' = cl_request_id c.
Proof.
  unfold io_read. destruct (stdio_read_message _ _ _ _) as [[[[rc1 p] o] e]|]; [|done].
  intros Hr. by injection Hr as _ <- _ _.
Qed.

Lemma rpc_wait_checked fuel c id deadline s c' r s' :
  rpc_wait fuel c id deadline s = Ret (0, c', Some r) s' ->
  response_id_matches r id = Done 1 /\ cl_request_id c' = cl_request_id c.
Proof.
  revert c s. induction fuel as [|f IH]; intros c s; cbn [rpc_wait]; [done|].
  intros (now & s1 & _ & Hr)%io_bind_inv.
  destruct (_ <=? 0); [apply ret_inv in Hr as [Hr _]; congruence|].
  apply io_bind_inv in Hr as ([[rc c1] frame] & s2 & Hread & Hr). apply io_read_code in Hread as <-.
  destruct (negb (rc =? 0)); [apply ret_inv in Hr as [Hr _]; congruence|].
  apply io_bind_inv in Hr as (m & s3 & [Hm ->]%of_outcome_inv & Hr).
  destruct (Z.eqb_spec m 1) as [->|_]; [apply ret_inv in Hr as [[= <- <-] _]; done|].
  destruct (Z.ltb_spec m 0); [apply ret_inv in Hr as [[= -> _ _] _]; lia|]. by apply IH in Hr.
Qed.
End checked.

(** Which responses an exchange accepts.  Every exchange takes a fresh
    identifier, and over stdio the response it returns carries that identifier.
    Over HTTP the response only has to be JSON: an answer to some other request,
    or one without an identifier, is returned all the same. *)
Theorem rpc_response_checked `{AiryErr} `{CJson} c method params s c' r s' :
  client_rpc_exchange c method params true s = Ret (0, c', Some r) s' ->
  cl_request_id c' = u64 (cl_request_id c + 1) /\
  match cl_transport c with
  | MCP_CLIENT_TRANSPORT_STDIO => response_id_matches r (cl_request_id c') = Done 1
  | MCP_CLIENT_TRANSPORT_HTTP => exists m, response_id_matches r (cl_request_id c') = Done m /\ 0 <= m
  | MCP_CLIENT_TRANSPORT_NONE => False
  end.
Proof.
  unfold client_rpc_exchange. destruct (cJSON_PrintUnformatted _) as [req|];
    [|intros [Hr _]%ret_inv; congruence].
  cbn [cl_transport upd]. destruct (cl_transport c); [intros [Hr _]%ret_inv; congruence| |].
  - intros (rc & s1 & _ & Hr)%io_bind_inv. destruct (negb (rc =? 0)); [apply ret_inv in Hr as [Hr _]; congruence|].
    cbn [negb] in Hr. apply io_bind_inv in Hr as (now & s2 & _ & Hr). unfold with_fuel in Hr.
    apply rpc_wait_checked in Hr as [Hm ->]. done.
  - intros ([rc body] & s1 & _ & Hr)%io_bind_inv.
    destruct (negb (rc =? 0)); [apply ret_inv in Hr as [Hr _]; congruence|].
    cbn [negb] in Hr. apply io_bind_inv in Hr as (m & s2 & [Hm _]%of_outcome_inv & Hr).
    destruct (Z.ltb_spec m 0); apply ret_inv in Hr as [Hr _]; [congruence|].
    injection Hr as <- ->. split; [done|]. by exists m.
Qed.

(** An HTTP server that answers request 1 with the response of request 9. *)
Lemma rpc_response_checked_witness :
  let c := client_zero <| cl_transport := MCP_CLIENT_TRANSPORT_HTTP |> in
  let body := "{'id':9,'result':{}}"%cs in
  let s := mkIo [WWrote 4096]
             [RData ("HTTP/1.1 200 OK\r\nContent-Length: 20\r\n\r\n"%cs ++ body)]
             [CAddresses [(true, true)]] [] [] in
  exists c' s', @client_rpc_exchange inst_err inst_cjson c "ping"%cs None true s
                = Ret (0, c', Some body) s' /\
    cl_request_id c' = 1 /\ @response_id_matches inst_err inst_cjson body 1 = Done 0 /\
    exists m, @response_id_matches inst_err inst_cjson body (cl_request_id c') = Done m /\ 0 <= m.
Proof.
  intros c body s.
  assert (exists c' s', @client_rpc_exchange inst_err inst_cjson c "ping"%cs None true s
            = Ret (0, c', Some body) s') as (c' & s' & Hx).
  { do 2 eexists. vm_compute. reflexivity. }
  destruct (@rpc_response_checked inst_err inst_cjson c "ping"%cs None s c' body s' Hx) as [Hid Hm].
  exists c', s'. split; [exact Hx|]. split; [exact Hid|]. split; [vm_compute; reflexivity | exact Hm].
Defined.
