(* ===== verification/McpLife.v ===== *)
(** * Connections of the MCP client: standards/mcp/src/mcp_client.c

    The child process and the pipes of a stdio connection, from [connect] to
    [disconnect], and the copy of the argument vector (mcp_client_stdio.c).
    What a call does is a list of system calls. *)

From S2P Require Export McpClient.
From S2P Require Import EnvInst.
From stdpp Require Import gmap.
#[local] Open Scope Z_scope.

Definition STDIN_FILENO : Z := 0.
Definition STDOUT_FILENO : Z := 1.

(** The system calls of the connection's set-up and tear-down that change
    something. *)
Inductive sys_call :=
| SClose (fd : Z)
| SDup2 (fd target : Z)
| SExec (argv : list bytes)
| SExit (status : Z)
| SKill (pid sig : Z)
| SWaitPoll (pid : Z)
| SSleep (ms : Z)
| SWait (pid : Z).

Definition SIGKILL : Z := 9.
Definition SIGTERM : Z := 15.

(** ** The argument vector

    Blocks are numbered in the order they are asked for: 0 is the array, [i + 1]
    the copy of argument [i]. *)

Inductive mem_event := MAlloc (block : nat) | MFree (block : nat).

(** The arguments from number [i] on; [done_] are the blocks of the copies made
    so far. *)
Fixpoint copy_strings (alloc : nat -> bool) (i : nat) (done_ : list nat) (argv : list bytes)
    : list mem_event * option (list (nat * bytes)) :=
  match argv with
  | [] => ([], Some [])
  | a :: r =>
      if negb (alloc (S i)) then ((MFree <$> done_) ++ [MFree 0%nat], None)
      else let '(ev, copies) := copy_strings alloc (S i) (done_ ++ [S i]) r in
           (MAlloc (S i) :: ev, cons (S i, a) <$> copies)
  end.

Definition copy_argv (alloc : nat -> bool) (argv : list bytes)
    : list mem_event * option (list (nat * bytes)) :=
  if negb (alloc 0%nat) then ([], None)
  else let '(ev, copies) := copy_strings alloc 0%nat [] argv in (MAlloc 0%nat :: ev, copies).

Definition free_argv (argv : option (list (nat * bytes))) : list mem_event :=
  match argv with Some l => (fun e => MFree e.1) <$> l ++ [(0%nat, [])] | None => [] end.

(** ** Connecting and disconnecting *)

Definition named (name : option bytes) : option bytes :=
  match name with Some (c :: r) => Some (c :: r) | _ => None end.

(** [alloc_argv] is for the copy of the arguments, [alloc] for the client;
    [to_child] and [from_child] are the pipes, [fork] what [fork] returns.  In
    the child ([fork = 0]) the call ends with the new program. *)
Definition mcp_client_connect_stdio (alloc_argv : nat -> bool) (alloc : bool) (to_child from_child : option (Z * Z)) (fork : Z)
    (name command : option bytes) (argv : option (list bytes))
    : list sys_call * option mcp_client_s :=
  match named name, command, argv with
  | Some n, Some cmd, Some (a0 :: args) =>
      match (copy_argv alloc_argv (a0 :: args)).2, to_child, from_child with
      | None, _, _ => ([], None)
      | Some _, Some (tr, tw), Some (fr, fw) =>
          let close_all := [SClose tr; SClose tw; SClose fr; SClose fw] in
          if fork <? 0 then (close_all, None)
          else if fork =? 0
          then (SDup2 tr STDIN_FILENO :: SDup2 fw STDOUT_FILENO :: close_all
                ++ [SExec (a0 :: args); SExit 127], None)
          else if negb alloc
          then ([SClose tr; SClose fw; SClose tw; SClose fr; SKill fork SIGKILL; SWait fork], None)
          else ([SClose tr; SClose fw],
                Some (client_zero <| cl_name := n |>
                        <| cl_transport := MCP_CLIENT_TRANSPORT_STDIO |> <| cl_child_pid := fork |>
                        <| cl_stdio_write_fd := tw |> <| cl_stdio_read_fd := fr |>
                        <| cl_argv_copy := Some (a0 :: args) |>))
      | Some _, Some (tr, tw), None => ([SClose tr; SClose tw], None)
      | Some _, None, _ => ([], None)
      end
  | _, _, _ => ([], None)
  end.

Definition mcp_client_connect_http (alloc : bool) (name url : option bytes) : option mcp_client_s :=
  match named name, url with
  | Some n, Some u =>
      match parse_http_url u with
      | None => None
      | Some (host, port, path) =>
          if negb alloc then None
          else Some (client_zero <| cl_name := n |> <| cl_transport := MCP_CLIENT_TRANSPORT_HTTP |>
                       <| cl_http_host := host |> <| cl_http_path := path |>
                       <| cl_http_port := port |>)
      end
  | _, _ => None
  end.

(** Up to [fuel] polls for the child's exit; [answers] are the results of
    [waitpid], 0 once they are used up. *)
Fixpoint poll_child (fuel : nat) (pid : Z) (answers : list Z) : list sys_call * list Z :=
  match fuel with
  | O => ([], answers)
  | S f =>
      let r := default 0 (head answers) in
      let answers := tail answers in
      if (r =? pid) || (r <? 0) then ([SWaitPoll pid], answers)
      else let '(calls, answers) := poll_child f pid answers in
           (SWaitPoll pid :: SSleep 100 :: calls, answers)
  end.

Definition close_fd (fd : Z) : list sys_call := if 0 <=? fd then [SClose fd] else [].

Definition mcp_client_disconnect `{AiryErr} (answers : list Z) (c : option mcp_client_s)
    : Z * list sys_call :=
  match c with
  | None => (AIRY_ERR_INVALID_PARAM, [])
  | Some c =>
      let calls :=
        match cl_transport c with
        | MCP_CLIENT_TRANSPORT_STDIO =>
            let pid := cl_child_pid c in
            close_fd (cl_stdio_write_fd c) ++ close_fd (cl_stdio_read_fd c)
            ++ (if 0 <? pid then
                  let '(polls, answers) := poll_child 20 pid answers in
                  SKill pid SIGTERM :: polls ++ SWaitPoll pid ::
                  (if default 0 (head answers) =? 0 then [SKill pid SIGKILL; SWait pid] else [])
                else [])
        | _ => []
        end in
      (0, calls)
  end.

Definition mcp_client_transport_string (t : mcp_client_transport_t) : bytes :=
  match t with
  | MCP_CLIENT_TRANSPORT_STDIO => "stdio"%cs
  | MCP_CLIENT_TRANSPORT_HTTP => "http"%cs
  | MCP_CLIENT_TRANSPORT_NONE => "none"%cs
  end.


(** ** Resources *)

Definition closed (calls : list sys_call) : list Z :=
  omap (fun c => match c with SClose fd => Some fd | _ => None end) calls.
Definition signals (pid : Z) (calls : list sys_call) : list Z :=
  omap (fun c => match c with SKill p s => if p =? pid then Some s else None | _ => None end) calls.
Definition slept (calls : list sys_call) : Z :=
  foldr Z.add 0 (omap (fun c => match c with SSleep ms => Some ms | _ => None end) calls).
Definition opened (p : option (Z * Z)) : list Z :=
  match p with Some (r, w) => [r; w] | None => [] end.

(** What [waitpid] answers when the child exits before poll number [k]: 0 so
    far, then its pid, then an error. *)
Definition exits_at (k : nat) (pid : Z) : list Z := repeat 0 k ++ [pid; -1].

(** A client keeps its pipes and its child while it is used. *)
Definition same_connection (c c' : mcp_client_s) : Prop :=
  cl_transport c' = cl_transport c /\ cl_child_pid c' = cl_child_pid c /\
  cl_stdio_write_fd c' = cl_stdio_write_fd c /\ cl_stdio_read_fd c' = cl_stdio_read_fd c.

Lemma poll_child_exits fuel k pid :
  0 < pid ->
  poll_child fuel pid (exits_at k pid)
  = if (k <? fuel)%nat then (concat (repeat [SWaitPoll pid; SSleep 100] k) ++ [SWaitPoll pid], [-1])
    else (concat (repeat [SWaitPoll pid; SSleep 100] fuel), exits_at (k - fuel) pid).
Proof.
  intros Hp. revert k. induction fuel as [|f IH]; intros k; [by rewrite Nat.sub_0_r|].
  destruct k as [|k]; cbn [poll_child exits_at repeat app].
  - cbn [head default from_option id tail]. by rewrite Z.eqb_refl.
  - change (default 0 (head (0 :: repeat 0 k ++ [pid; -1]))) with 0.
    rewrite (proj2 (Z.eqb_neq 0 pid)) by lia. cbn [orb tail]. change (0 <? 0) with false. cbv iota.
    fold (exits_at k pid). rewrite IH. change (S k <? S f)%nat with (k <? f)%nat.
    by destruct (k <? f)%nat.
Qed.

Lemma polls_quiet pid n :
  closed (concat (repeat [SWaitPoll pid; SSleep 100] n)) = [] /\
  signals pid (concat (repeat [SWaitPoll pid; SSleep 100] n)) = [] /\
  slept (concat (repeat [SWaitPoll pid; SSleep 100] n)) = 100 * Z.of_nat n.
Proof. induction n as [|n (IH1 & IH2 & IH3)]; cbn in *; [done|]. split_and!; [done|done|]. unfold slept in *. cbn. lia. Qed.

Lemma closed_app l k : closed (l ++ k) = closed l ++ closed k.
Proof. apply omap_app. Qed.
Lemma signals_app pid l k : signals pid (l ++ k) = signals pid l ++ signals pid k.
Proof. apply omap_app. Qed.
Lemma slept_app l k : slept (l ++ k) = slept l + slept k.
Proof.
  unfold slept. rewrite omap_app. induction (omap _ l) as [|a r IH]; [done|]. cbn in *. lia.
Qed.

(** The calls of [disconnect], from its polls on and what follows them. *)
Lemma disconnect_calls pid w r polls rest :
  closed polls = [] -> signals pid polls = [] ->
  let calls := [SClose w] ++ [SClose r] ++ SKill pid SIGTERM :: polls ++ SWaitPoll pid :: rest in
  closed calls = w :: r :: closed rest /\
  signals pid calls = SIGTERM :: signals pid rest /\ slept calls = slept polls + slept rest.
Proof.
  intros Hc Hs calls. subst calls. rewrite !closed_app, !signals_app, !slept_app.
  change (SKill pid SIGTERM :: polls ++ SWaitPoll pid :: rest)
    with ([SKill pid SIGTERM] ++ polls ++ [SWaitPoll pid] ++ rest).
  rewrite !closed_app, !signals_app, !slept_app, Hc, Hs. cbn. rewrite Z.eqb_refl.
  split_and!; [done|done|]. unfold slept. cbn. lia.
Qed.

(** Ending the child: what is sent to it, how long that takes, and how it ends
    when it does not react. *)
Lemma disconnect_child `{AiryErr} c k :
  cl_transport c = MCP_CLIENT_TRANSPORT_STDIO -> 0 < cl_child_pid c ->
  0 <= cl_stdio_write_fd c -> 0 <= cl_stdio_read_fd c ->
  let calls := (mcp_client_disconnect (exits_at k (cl_child_pid c)) (Some c)).2 in
  closed calls = [cl_stdio_write_fd c; cl_stdio_read_fd c] /\
  signals (cl_child_pid c) calls = SIGTERM :: (if (k <=? 20)%nat then [] else [SIGKILL]) /\
  slept calls = 100 * Z.of_nat (Nat.min k 20) /\
  ((20 < k)%nat -> last calls = Some (SWait (cl_child_pid c))).
Proof.
  intros Ht Hp Hw Hr. unfold mcp_client_disconnect. cbn [snd]. rewrite Ht. unfold close_fd.
  rewrite (proj2 (Z.leb_le _ _)), (proj2 (Z.leb_le _ _)), (proj2 (Z.ltb_lt _ _)) by done.
  rewrite poll_child_exits by done. set (pid := cl_child_pid c) in *.
  destruct (Nat.ltb_spec k 20).
  - destruct (polls_quiet pid k) as (H1 & H2 & H3).
    cbn [head default from_option id]. change (-1 =? 0) with false. cbv iota.
    edestruct disconnect_calls as (-> & -> & ->);
      [by rewrite closed_app, H1 | by rewrite signals_app, H2 |].
    rewrite slept_app, H3, (proj2 (Nat.leb_le _ _)) by lia.
    split_and!; [done|done| |lia]. unfold slept. cbn. lia.
  - destruct (polls_quiet pid 20) as (H1 & H2 & H3). destruct (k - 20)%nat as [|d] eqn:Hd.
    + change (default 0 (head (exits_at 0 pid))) with pid. rewrite (proj2 (Z.eqb_neq _ _)) by lia.
      edestruct disconnect_calls as (-> & -> & ->); [exact H1 | exact H2 |].
      rewrite H3, (proj2 (Nat.leb_le _ _)) by lia.
      split_and!; [done|done| |lia]. unfold slept. cbn. lia.
    + change (default 0 (head (exits_at (S d) pid))) with 0. change (0 =? 0) with true. cbv iota.
      edestruct disconnect_calls as (-> & -> & ->); [exact H1 | exact H2 |].
      rewrite H3, (proj2 (Nat.leb_gt _ _)) by lia. cbn [signals omap list_omap].
      rewrite Z.eqb_refl. split_and!; [done|done|unfold slept; cbn; lia|].
      intros _. by rewrite !last_app, last_cons, last_app.
Qed.



(** ** The copy of the arguments *)

Definition allocs (ev : list mem_event) : list nat :=
  omap (fun e => match e with MAlloc b => Some b | _ => None end) ev.
Definition releases (ev : list mem_event) : list nat :=
  omap (fun e => match e with MFree b => Some b | _ => None end) ev.

Lemma releases_fmap {A} (g : A -> nat) l : releases ((fun a => MFree (g a)) <$> l) = g <$> l.
Proof. induction l as [|a l IH]; [done|]. cbn in *. unfold releases in IH. by rewrite IH. Qed.

Lemma allocs_fmap {A} (g : A -> nat) l : allocs ((fun a => MFree (g a)) <$> l) = [].
Proof. induction l as [|a l IH]; [done|]. exact IH. Qed.

Lemma copy_strings_balanced alloc i done_ argv ev copies :
  copy_strings alloc i done_ argv = (ev, copies) ->
  (exists n, allocs ev = seq (S i) n) /\
  match copies with
  | None => releases ev = done_ ++ allocs ev ++ [0%nat]
  | Some l => releases ev = [] /\ l.*1 = allocs ev /\ l.*2 = argv
  end.
Proof.
  revert i done_ ev copies. induction argv as [|a r IH]; intros i done_ ev copies; cbn [copy_strings].
  { intros [= <- <-]. split; [by exists 0%nat|done]. }
  destruct (alloc (S i)); cbn [negb].
  2:{ intros [= <- <-]. unfold releases, allocs. rewrite !omap_app.
      fold (releases (MFree <$> done_)). fold (allocs (MFree <$> done_)).
      rewrite (releases_fmap id), (allocs_fmap id), list_fmap_id. split; [by exists 0%nat|done]. }
  destruct (copy_strings alloc (S i) _ r) as [ev' cp] eqn:Hr. intros [= <- <-].
  apply IH in Hr as [[n Hn] Hr]. cbn. fold (allocs ev') (releases ev'). rewrite Hn.
  split; [by exists (S n)|]. destruct cp as [l|]; cbn.
  - destruct Hr as (H1 & H2 & H3). by rewrite H1, H2, H3, Hn.
  - by rewrite Hr, <- app_assoc, Hn.
Qed.

(** Copying the arguments either fails, having released every block it was
    given, or gives the same strings in different blocks, which [free_argv]
    releases, each once. *)
Theorem copy_argv_balanced alloc argv ev copy :
  copy_argv alloc argv = (ev, copy) ->
  NoDup (allocs ev) /\
  match copy with
  | None => releases ev ≡ₚ allocs ev
  | Some l => l.*2 = argv /\ releases (ev ++ free_argv copy) ≡ₚ allocs ev
  end.
Proof.
  unfold copy_argv. destruct (alloc 0%nat); cbn [negb]; [|intros [= <- <-]; by split; [constructor|]].
  destruct (copy_strings alloc 0 [] argv) as [ev' cp] eqn:Hr. intros [= <- <-].
  apply copy_strings_balanced in Hr as [[n Hn] Hr].
  assert (allocs (MAlloc 0%nat :: ev') = seq 0 (S n)) as Ha by (cbn; fold (allocs ev'); by rewrite Hn).
  split; [rewrite Ha; apply NoDup_ListNoDup, seq_NoDup|].
  rewrite Ha. destruct cp as [l|].
  - destruct Hr as (H1 & H2 & H3). split; [done|]. unfold releases. rewrite omap_app.
    change (omap _ (MAlloc 0%nat :: ev')) with (releases ev'). fold (releases (free_argv (Some l))).
    unfold free_argv. rewrite H1, releases_fmap, fmap_app, H2, Hn. cbn.
    symmetry. apply Permutation_cons_append.
  - change (releases (MAlloc 0%nat :: ev')) with (releases ev'). rewrite Hr, Hn. cbn.
    symmetry. apply Permutation_cons_append.
Qed.
