(* ===== verification/McpPeers.v ===== *)
(** * An MCP client and an MCP server on one pipe

    The client of McpClient writes frames with its own code and reads them with
    its accumulating parser; the server's side of a pipe is a stdio transport of
    McpTransport, which reads lines.  The two understand each other. *)

From S2P Require Import McpClient McpTransport EnvInst.
From stdpp Require Import gmap.
#[local] Open Scope Z_scope.

(** [mcp_transport_send] on each message in turn, until one fails: the code and
    what got out. *)
Fixpoint transport_sends `{AiryErr} (evs : list tr_write) (t : mcp_transport) (ms : list bytes)
    : outcome (option (Z * bytes)) :=
  match ms with
  | [] => Done (Some (0, []))
  | m :: r =>
      sent ← mcp_transport_send evs (Some t) (Some m);
      match sent with
      | None => Done None
      | Some (rc, _, _, out, evs) =>
          if negb (rc =? 0) then Done (Some (rc, out))
          else
            rest ← transport_sends evs t r;
            Done ('(rc, out') ← rest; Some (rc, out ++ out'))
      end
  end.

Lemma transport_sends_stream `{AiryErr} evs t ms out :
  tr_type t = MCP_TRANSPORT_STDIO -> Forall (fun m => lenZ m < 10 ^ 11) ms ->
  transport_sends evs t ms = Done (Some (0, out)) -> out = stream ms.
Proof.
  intros Ht Hms. revert evs out. induction Hms as [|m r Hm _ IH]; intros evs out; cbn [transport_sends].
  { by intros [= <-]. }
  intros (sent & Hs & Hrest)%outcome_bind_inv.
  destruct sent as [[[[[rc t'] e] o] evs1]|]; [|done].
  destruct (Z.eqb_spec rc 0) as [->|Hrc]; cbn [negb] in Hrest; [|by simplify_eq].
  destruct (transport_send_frame _ _ _ _ _ _ _ Ht Hm Hs) as (_ & -> & _ & _).
  apply outcome_bind_inv in Hrest as (rest & Hr & Hrest).
  destruct rest as [[rc out']|]; [|done]. injection Hrest as -> <-. by rewrite (IH _ _ Hr).
Qed.

Lemma good_body_short m : good_body m -> lenZ m < 10 ^ 11.
Proof. intros [_ Hm]. change MCP_CLIENT_MAX_MESSAGE_SIZE with 10485760 in Hm. lia. Qed.


