(* ===== verification/McpCb.v ===== *)
(** * The MCP protocol adapter: standards/mcp/src/mcp_v1_adapter_cb.c

    The callbacks of the adapter's table.  The transport a context points to is
    passed along with it. *)

From S2P Require Export McpServer McpTransport Stack.
From S2P Require Import EnvInst Transform.
From stdpp Require Import gmap.
#[local] Open Scope Z_scope.

Section callbacks.
Context {W : Type} `{AiryErr} `{AiryString} `{CJson}.
Implicit Types (ctx : option (@mcp_v1_context_t W)) (w : W).

Definition mcp_config_zero : mcp_v1_config_t :=
  mkMcpConfig 0 0 0 0 0 false false false None None.

Definition mcp_zeroed : @mcp_v1_context_t W :=
  mkMcp mcp_config_zero [] 0 [] 0 [] 0 [] 0 None None None None MCP_LOG_DEBUG None 0
    (mkStreamConfig false 0 0 0) 0.

(** The context the address points to is overwritten by a fresh one. *)
Definition mcp_adapter_init (alloc : bool) ctx : Z * option (@mcp_v1_context_t W) :=
  match ctx with
  | None => (AIRY_ERR_UNKNOWN, ctx)
  | Some _ =>
      match mcp_v1_context_create alloc (Some mcp_v1_config_default) with
      | None => (AIRY_ERR_INVALID_PARAM, ctx)
      | Some new_ctx => (0, Some new_ctx)
      end
  end.

(** What the context owned is released, then the object is zeroed. *)
Definition mcp_adapter_destroy ctx : option (@mcp_v1_context_t W) :=
  match ctx with None => None | Some _ => Some mcp_zeroed end.

(** The string at an address that may be null. *)
Definition opt_str (p : option bytes) : outcome (option bytes) :=
  match p with Some b => s ← payload_str b; Done (Some s) | None => Done None end.

(** The text a request left, if any. *)
Definition response_of (out : option (option bytes)) : option bytes := out ≫= id.

(** Encoding a message runs it as a request: the endpoint is the method, the
    payload its parameters.  The result is the code and the encoded text. *)
Definition mcp_adapter_encode (alloc : bool) ctx (msg : option unified_message_t) (has_out : bool) w
    : outcome (Z * option bytes * Z * option (@mcp_v1_context_t W) * W) :=
  match ctx, msg with
  | Some _, Some m =>
      if negb has_out then Done (AIRY_ERR_UNKNOWN, None, 0, ctx, w)
      else
        params ← opt_str (um_payload m);
        '((result, out, w), ctx) ←
          mcp_v1_route_request alloc ctx (Some (um_endpoint m)) params true w;
        match response_of out with
        | Some r => if result =? 0 then Done (0, Some r, strlen r, ctx, w)
                    else Done (result, None, 0, ctx, w)
        | None => Done (result, None, 0, ctx, w)
        end
  | _, _ => Done (AIRY_ERR_UNKNOWN, None, 0, ctx, w)
  end.

(** The string after the first ["method"] of the text. *)
Definition request_method (input : bytes) : option bytes :=
  p ← strstr input "'method'"%cs;
  start ← after (drop 8 p) QUOTE;
  before start QUOTE.

(** [alloc 0] is the copy of the input, [alloc 1] that of the method.  Decoding
    a message runs it as a request and stores the response in the message. *)
Definition mcp_adapter_decode (alloc : nat -> bool) (now : Z) ctx (data : option bytes)
    (data_size : Z) (out_msg : option unified_message_t) w
    : outcome (Z * option unified_message_t * option (@mcp_v1_context_t W) * W) :=
  match ctx, data, out_msg with
  | Some _, Some d, Some msg =>
      if data_size =? 0 then Done (AIRY_ERR_INVALID_PARAM, out_msg, ctx, w)
      else if lenZ d <? data_size then Fault
      else if negb (alloc 0%nat) then Done (AIRY_ERR_NULL_POINTER, out_msg, ctx, w)
      else
        let input := cstr_of (take (Z.to_nat data_size) d) in
        let method := if alloc 1%nat then default "tools/call"%cs (request_method input)
                      else "tools/call"%cs in
        '((result, out, w), ctx) ←
          mcp_v1_route_request (alloc 2%nat) ctx (Some method) (Some input) true w;
        match response_of out with
        | Some r =>
            if result =? 0
            then Done (result, Some (msg <| um_payload := Some (r ++ [NUL]) |>
                                         <| um_payload_size := strlen r |>
                                         <| um_protocol := AIRY_PROTOCOL_MCP |>
                                         <| um_direction := DIRECTION_RESPONSE |>
                                         <| um_timestamp := now |>), ctx, w)
            else Done (result, out_msg, ctx, w)
        | None => Done (result, out_msg, ctx, w)
        end
  | _, _, _ => Done (AIRY_ERR_UNKNOWN, out_msg, ctx, w)
  end.

(** The configuration the code builds for the transport is not used; the
    transport is started as it is. *)
Definition mcp_adapter_connect (lookup : bytes -> Z -> start_event) ctx
    (t : option mcp_transport) (address : option bytes)
    : Z * option (@mcp_v1_context_t W) * option mcp_transport * list tr_effect :=
  match ctx with
  | None => (AIRY_ERR_UNKNOWN, ctx, t, [])
  | Some x =>
      let x := match address with
               | Some a => x <| mx_config ::= (fun c => c <| mc_server_name := Some a |>) |>
               | None => x
               end in
      match mx_transport x with
      | Some _ => let '(rc, t, e) := mcp_transport_start lookup t in (rc, Some x, t, e)
      | None => (0, Some x, t, [])
      end
  end.

Definition mcp_adapter_disconnect ctx : Z * option (@mcp_v1_context_t W) :=
  match ctx with
  | None => (AIRY_ERR_UNKNOWN, ctx)
  | Some x => (0, Some (x <| mx_config ::= (fun c => c <| mc_server_name := None |>) |>))
  end.

Definition mcp_adapter_is_connected ctx (t : option mcp_transport) : Z :=
  match ctx with
  | None => 0
  | Some x =>
      match mx_transport x with
      | Some _ => if bool_decide (mcp_trans_state t = MCP_TRANSPORT_CONNECTED) then 1 else 0
      | None => if (0 <? lenZ (mx_tools x)) || (0 <? lenZ (mx_resources x)) then 1 else 0
      end
  end.

(** [data] is the message's bytes. *)
Definition mcp_adapter_send (evs : list tr_write) ctx (t : option mcp_transport)
    (data : option bytes)
    : outcome (option (Z * option mcp_transport * list tr_effect * bytes * list tr_write)) :=
  match ctx, data with
  | Some x, Some d =>
      match mx_transport x with
      | None => Done (Some (AIRY_ERR_INVALID_PARAM, t, [], [], evs))
      | Some _ => mcp_transport_send evs t data
      end
  | _, _ => Done (Some (AIRY_ERR_UNKNOWN, t, [], [], evs))
  end.

Definition mcp_adapter_receive (alloc : bool) (evs : list tr_read) ctx (t : option mcp_transport)
    (has_out : bool) : option recv_result :=
  match ctx with
  | Some x =>
      if negb has_out then Some (AIRY_ERR_UNKNOWN, None, [], evs)
      else match mx_transport x with
           | None => Some (AIRY_ERR_INVALID_PARAM, None, [], evs)
           | Some _ => mcp_trans_receive alloc evs t true
           end
  | None => Some (AIRY_ERR_UNKNOWN, None, [], evs)
  end.

(** The timeout of the call is not used. *)
Definition mcp_adapter_receive_adapter (alloc : bool) (evs : list tr_read) ctx
    (t : option mcp_transport) (has_out : bool) (timeout_ms : Z) : option recv_result :=
  mcp_adapter_receive alloc evs ctx t has_out.

(** The code and what is printed into the buffer of [max_size] bytes. *)
Definition mcp_adapter_get_stats (has_buf : bool) (max_size : nat) : Z * option bytes :=
  if negb has_buf || (max_size <? 64)%nat then (AIRY_ERR_UNKNOWN, None)
  else
    let text := "{'adapter_version':'"%cs ++ MCP_V1_VERSION ++ "','protocol':'mcp'}"%cs in
    (if lenZ text <? Z.of_nat max_size then 0 else -2, Some (fits max_size text)).

Definition mcp_request_failed : bytes := "{'error':'request failed'}"%cs.

Definition mcp_adapter_handle_request (alloc : bool) ctx (req : option unified_message_t)
    (has_out : bool) w : outcome (Z * option bytes * option (@mcp_v1_context_t W) * W) :=
  match ctx, req with
  | Some _, Some msg =>
      if negb has_out then Done (AIRY_ERR_UNKNOWN, None, ctx, w)
      else
        let method := if streq (um_method msg) [] then "tools/call"%cs else um_method msg in
        params ← opt_str (um_payload msg);
        '((result, out, w), ctx) ←
          mcp_v1_route_request alloc ctx (Some method) (Some (default "{}"%cs params)) true w;
        match response_of out with
        | Some r => if result =? 0 then Done (result, Some r, ctx, w)
                    else Done (-1, Some mcp_request_failed, ctx, w)
        | None => Done (-1, Some mcp_request_failed, ctx, w)
        end
  | _, _ => Done (AIRY_ERR_UNKNOWN, None, ctx, w)
  end.

Definition mcp_adapter_get_version (has_buf : bool) (max_size : nat) : Z * option bytes :=
  if negb has_buf || (max_size =? 0)%nat then (AIRY_ERR_UNKNOWN, None)
  else (0, Some (take (Nat.min (length MCP_V1_VERSION) (max_size - 1)) MCP_V1_VERSION)).

Definition mcp_adapter_capabilities : Z :=
  Z.lor (Z.lor (Z.lor (Z.lor MCP_CAP_TOOLS MCP_CAP_RESOURCES) MCP_CAP_PROMPTS) MCP_CAP_LOGGING)
    MCP_CAP_SAMPLING.
End callbacks.

(** ** The table *)

(** An entry of the table cannot say that it read memory that is not there, or
    that it still waits; the world does. *)
Inductive run_status := Running | Waiting | Faulted.

Section table.
Context {W : Type} `{AiryErr} `{AiryString} `{CJson}.

(** The contexts and the transports by address, the answers of the allocator
    with the address it gives next, the clock, the answers of the system to
    connections, reads and writes, what the transports wrote and reported, and
    the world of the handlers.  A pointer that is not null is the address of an
    object that exists. *)
Record mcp_world := mkMcpWorld {
  mw_contexts : gmap ptr (@mcp_v1_context_t W);
  mw_transports : gmap ptr mcp_transport;
  mw_oracle : ptr -> nat -> bool;
  mw_next : ptr;
  mw_now : Z;
  mw_lookup : bytes -> Z -> start_event;
  mw_reads : list tr_read;
  mw_writes : list tr_write;
  mw_written : bytes;
  mw_effects : list tr_effect;
  mw_status : run_status;
  mw_world : W
}.

#[global] Instance eta_mcp_world : Eta mcp_world := fun w =>
  mkMcpWorld (mw_contexts w) (mw_transports w) (mw_oracle w) (mw_next w) (mw_now w) (mw_lookup w)
    (mw_reads w) (mw_writes w) (mw_written w) (mw_effects w) (mw_status w) (mw_world w).

Definition mcp_ctx_at (c : context_t) (w : mcp_world) : option (@mcp_v1_context_t W) :=
  c ≫= fun p => mw_contexts w !! p.

Definition mcp_ctx_put (c : context_t) (x : option (@mcp_v1_context_t W)) (w : mcp_world)
    : mcp_world :=
  match c, x with
  | Some p, Some x => w <| mw_contexts ::= <[p := x]> |>
  | _, _ => w
  end.

(** The transport of the context at [c], and its address. *)
Definition transport_ptr (c : context_t) (w : mcp_world) : option ptr :=
  mcp_ctx_at c w ≫= mx_transport.

Definition transport_at (c : context_t) (w : mcp_world) : option mcp_transport :=
  transport_ptr c w ≫= (mw_transports w !!.).

Definition transport_put (p : option ptr) (t : option mcp_transport) (w : mcp_world) : mcp_world :=
  match p, t with
  | Some p, Some t => w <| mw_transports ::= <[p := t]> |>
  | _, _ => w
  end.

Definition mcp_init_entry (c : context_t) (w : mcp_world) : mcp_world * Z :=
  let '(rc, x) := mcp_adapter_init (mw_oracle w (mw_next w) 0%nat) (mcp_ctx_at c w) in
  (mcp_ctx_put c x w, rc).

Definition mcp_destroy_entry (c : context_t) (w : mcp_world) : mcp_world * Z :=
  (mcp_ctx_put c (mcp_adapter_destroy (mcp_ctx_at c w)) w, 0).

(** A buffer handed out takes the next address. *)
Definition mcp_encode_entry (c : context_t) (m : unified_message_t) (w : mcp_world)
    : mcp_world * (Z * option buffer * Z) :=
  match mcp_adapter_encode (mw_oracle w (mw_next w) 0%nat) (mcp_ctx_at c w) (Some m) true
          (mw_world w) with
  | Done (rc, out, size, x, v) =>
      let w' := mcp_ctx_put c x w <| mw_world := v |> in
      match out with
      | Some b => (w' <| mw_next ::= S |>, (rc, Some (mw_next w, b ++ [NUL]), size))
      | None => (w', (rc, None, size))
      end
  | Fault => (w <| mw_status := Faulted |>, (0, None, 0))
  end.

Definition mcp_decode_entry (c : context_t) (d : bytes) (s : Z) (m : unified_message_t)
    (w : mcp_world) : mcp_world * (Z * unified_message_t) :=
  match mcp_adapter_decode (mw_oracle w (mw_next w)) (mw_now w) (mcp_ctx_at c w) (Some d) s
          (Some m) (mw_world w) with
  | Done (rc, m', x, v) => (mcp_ctx_put c x w <| mw_world := v |>, (rc, default m m'))
  | Fault => (w <| mw_status := Faulted |>, (0, m))
  end.

Definition mcp_connect_entry (c : context_t) (address : bytes) (w : mcp_world) : mcp_world * Z :=
  let '(rc, x, t, e) :=
    mcp_adapter_connect (mw_lookup w) (mcp_ctx_at c w) (transport_at c w) (Some address) in
  (mcp_ctx_put c x (transport_put (transport_ptr c w) t w) <| mw_effects ::= (fun l => l ++ e) |>, rc).

Definition mcp_disconnect_entry (c : context_t) (w : mcp_world) : mcp_world * Z :=
  let '(rc, x) := mcp_adapter_disconnect (mcp_ctx_at c w) in (mcp_ctx_put c x w, rc).

Definition mcp_is_connected_entry (c : context_t) (w : mcp_world) : mcp_world * Z :=
  (w, mcp_adapter_is_connected (mcp_ctx_at c w) (transport_at c w)).

(** [size] is the number of bytes at [data] that are sent. *)
Definition mcp_send_entry (c : context_t) (data : option bytes) (size : Z) (w : mcp_world)
    : mcp_world * Z :=
  if match data with Some d => lenZ d <? size | None => false end
  then (w <| mw_status := Faulted |>, 0)
  else match mcp_adapter_send (mw_writes w) (mcp_ctx_at c w) (transport_at c w)
               (take (Z.to_nat size) <$> data) with
  | Done (Some (rc, t, e, out, evs)) =>
      (transport_put (transport_ptr c w) t w
         <| mw_effects ::= (fun l => l ++ e) |> <| mw_written ::= (fun l => l ++ out) |>
         <| mw_writes := evs |>, rc)
  | Done None => (w <| mw_status := Waiting |>, 0)
  | Fault => (w <| mw_status := Faulted |>, 0)
  end.

Definition mcp_receive_entry (c : context_t) (timeout_ms : Z) (w : mcp_world)
    : mcp_world * (Z * option buffer * Z) :=
  match mcp_adapter_receive_adapter (mw_oracle w (mw_next w) 0%nat) (mw_reads w) (mcp_ctx_at c w)
          (transport_at c w) true timeout_ms with
  | Some (rc, m, e, evs) =>
      let w' := w <| mw_effects ::= (fun l => l ++ e) |> <| mw_reads := evs |> in
      match m with
      | Some b => if rc =? 0 then (w' <| mw_next ::= S |>, (rc, Some (mw_next w, b ++ [NUL]), lenZ b))
                  else (w', (rc, None, 0))
      | None => (w', (rc, None, 0))
      end
  | None => (w <| mw_status := Waiting |>, (0, None, 0))
  end.

(** [s_mcp_default_context] is the address of the static context. *)
Definition mcp_v1_get_adapter (s_mcp_default_context : ptr) : @protocol_adapter_t mcp_world :=
  mkAdapter AIRY_PROTOCOL_MCP "MCP v1.0 Protocol Adapter"%cs MCP_V1_VERSION
    "Model Context Protocol v1.0 adapter"%cs
    (Some mcp_init_entry) (Some mcp_destroy_entry) (Some mcp_encode_entry) (Some mcp_decode_entry)
    (Some mcp_connect_entry) (Some mcp_disconnect_entry) (Some mcp_is_connected_entry)
    (Some mcp_send_entry) (Some mcp_receive_entry) (Some s_mcp_default_context).
End table.

#[export] Instance mcp_needs_context {W} `{AiryErr} `{AiryString} `{CJson} p :
  NeedsContext (W := @mcp_world W) (mcp_v1_get_adapter p).
Proof.
  split.
  - intros w. eexists. split; [done|errlia].
  - exists mcp_encode_entry. split; [done|]. intros m w. eexists.
    split; [by destruct w|errlia].
Qed.

(** ** Requests through the adapter *)

Section requests.
Context {W : Type} `{AiryErr} `{AiryString} `{CJson}.
Implicit Types (x y : @mcp_v1_context_t W) (w : W).

(** A routed request counts and keeps everything else but the log level. *)
Lemma route_request_counted alloc x method params r ox w :
  mcp_v1_route_request alloc (Some x) (Some method) params true w = Done (r, ox) ->
  exists y, ox = Some y /\ counted x y.
Proof.
  unfold mcp_v1_route_request. cbn [negb].
  intros ([r0 y] & Hr & [_ <-]%Done_inj%pair_equal_spec)%outcome_bind_inv.
  exists y. split; [done|]. apply route_method_context in Hr as [Hy _].
  unfold counted. rewrite Hy at 1. reflexivity.
Qed.

(** No entry of the list is called [name]. *)
Definition none_named {A} (name_of : A -> option bytes) (name : bytes) (l : list A) : Prop :=
  Forall (fun a => exists n, name_of a = Some n /\ n <> name) l.

Lemma find_named_none {A} (name_of : A -> option bytes) name l :
  none_named name_of name l -> find_named name_of name l = Done None.
Proof.
  induction 1 as [|a l (n & Ha & Hne) _ IH]; [done|]. cbn [find_named]. rewrite Ha.
  unfold streq. by rewrite bool_decide_eq_false_2.
Qed.

(** No tool, resource or prompt is called [unknown]. *)
Definition none_unknown x : Prop :=
  none_named (fun e => tl_name (te_tool e)) "unknown"%cs (mx_tools x) /\
  none_named (fun e => rs_uri (rn_resource e)) "unknown"%cs (mx_resources x) /\
  none_named (fun e => pt_name (pe_prompt e)) "unknown"%cs (mx_prompts x).

(** The methods that look their parameters up. *)
Definition lookup_methods : list bytes :=
  ["tools/call"%cs; "resources/read"%cs; "prompts/get"%cs].

Lemma extract_missing params tree key size :
  cJSON_Parse params = Some tree -> json_string (cJSON_GetObjectItem tree key) = None ->
  mcp_v1_extract_string_param (Some params) key size = [].
Proof. intros Hp Hk. unfold mcp_v1_extract_string_param. cbn. by rewrite Hp, Hk. Qed.

Lemma route_unknown alloc x method params tree w :
  method ∈ lookup_methods -> none_unknown x ->
  cJSON_Parse params = Some tree ->
  json_string (cJSON_GetObjectItem tree "name"%cs) = None ->
  json_string (cJSON_GetObjectItem tree "uri"%cs) = None ->
  exists out, mcp_v1_route_request alloc (Some x) (Some method) (Some params) true w
    = Done ((AIRY_ERR_INVALID_PARAM, out, w),
            Some (x <| mx_request_counter ::= (fun n => u64 (n + 1)) |>)).
Proof.
  intros Hm (Ht & Hr & Hp) Htree Hname Huri. unfold mcp_v1_route_request. cbn [negb].
  unfold lookup_methods in Hm. rewrite !elem_of_cons, elem_of_nil in Hm.
  destruct Hm as [->|[->|[->|[]]]]; unfold route_method;
    rewrite !(extract_missing _ tree) by done; eval_streq;
    cbn -[find_named mx_tools mx_resources mx_prompts];
    rewrite find_named_none by assumption; eexists; reflexivity.
Qed.
End requests.

(** Requests through the adapter.  Every request an MCP adapter has handled
    is answered with some text: the server's response with code 0, or the same
    fixed failure text with code -1; it counts once and keeps the rest of the
    server but its log level.  Methods the server does not know get the failure
    text instead of the server's own error, and so does setting the log level,
    which takes effect nevertheless. *)
Theorem mcp_adapter_reports {W} `{AiryErr} `{AiryString} `{CJson} alloc
    (x : @mcp_v1_context_t W) msg w rc out x' w' :
  mcp_adapter_handle_request alloc (Some x) (Some msg) true w = Done (rc, out, x', w') ->
  exists y r, x' = Some y /\ counted x y /\ out = Some r /\
    (rc = 0 \/ rc = -1 /\ r = mcp_request_failed) /\
    (um_method msg <> [] -> um_method msg ∉ known_methods -> rc = -1 /\ w' = w) /\
    (um_method msg = "logging/setLogLevel"%cs ->
       rc = -1 /\ exists params, opt_str (um_payload msg) = Done params /\
       mx_log_level y = mcp_v1_parse_log_level (Some (default "{}"%cs params))).
Proof.
  unfold mcp_adapter_handle_request. cbn [negb].
  set (method := if streq _ _ then _ else _).
  intros (params & Hparams & ([[[result o] v] ox] & Hr & Hout)%outcome_bind_inv)%outcome_bind_inv.
  destruct (route_request_counted _ _ _ _ _ _ _ Hr) as (y & -> & Hy).
  assert (exists r, out = Some r /\ x' = Some y /\ w' = v /\
    (rc = 0 /\ result = 0 /\ response_of o <> None \/ rc = -1 /\ r = mcp_request_failed))
    as (r & -> & -> & -> & Hrc).
  { destruct (response_of o) as [r|]; [destruct (Z.eqb_spec result 0)|];
      injection Hout as <- <- <- <-; eexists; split_and!; eauto; by left. }
  exists y, r. split_and!; [done|exact Hy|done|tauto|..].
  - intros Hne Hm. replace method with (um_method msg) in Hr.
    2:{ unfold method, streq. by rewrite bool_decide_eq_false_2. }
    rewrite route_unknown_method in Hr by exact Hm. injection Hr as <- <- <- _.
    destruct Hrc as [(_ & Hz & _)|[-> _]]; [|done]. revert Hz. errlia.
  - intros Hm. replace method with (um_method msg) in Hr.
    2:{ unfold method. rewrite Hm. reflexivity. }
    rewrite Hm in Hr. injection Hr as <- <- <- <-.
    split; [|by exists params]. by destruct Hrc as [(_ & _ & Hz)|[-> _]].
Qed.

(** Where the adapter looks for parameters.  Decoding a message runs it as
    a request, with the whole message as the parameters.  So a JSON-RPC call of
    a tool, a resource or a prompt, which names it inside its [params] and not
    at the top, is refused, whatever it names: no handler runs, the message is
    left as it was, and only the server's request counter moves. *)
Theorem mcp_decode_params {W} `{AiryErr} `{AiryString} `{CJson} alloc now
    (x : @mcp_v1_context_t W) d method tree msg w :
  alloc 0%nat = true -> alloc 1%nat = true -> d <> [] -> no_nul d ->
  request_method d = Some method -> method ∈ lookup_methods -> none_unknown x ->
  cJSON_Parse d = Some tree ->
  json_string (cJSON_GetObjectItem tree "name"%cs) = None ->
  json_string (cJSON_GetObjectItem tree "uri"%cs) = None ->
  mcp_adapter_decode alloc now (Some x) (Some d) (lenZ d) (Some msg) w
  = Done (AIRY_ERR_INVALID_PARAM, Some msg,
          Some (x <| mx_request_counter ::= (fun n => u64 (n + 1)) |>), w).
Proof.
  intros Ha0 Ha1 Hne Hnul Hm Hin Hx Hp Hname Huri. unfold mcp_adapter_decode.
  destruct d as [|c d]; [done|]. set (text := c :: d) in *.
  rewrite (proj2 (Z.eqb_neq _ _)) by (unfold text, lenZ; cbn; lia).
  rewrite Z.ltb_irrefl, Ha0, Ha1. cbn [negb].
  rewrite take_ge by (unfold lenZ; lia). rewrite cstr_of_id by exact Hnul. rewrite Hm. cbn [from_option id].
  destruct (route_unknown (alloc 2%nat) x method text tree w) as [out Hr]; try done.
  refine (eq_trans (f_equal (mbind _) Hr) _).
  cbn [mbind outcome_bind]. rewrite (proj2 (Z.eqb_neq _ _)) by errlia. by destruct (response_of out).
Qed.

(** ** Samples *)

Definition envelope : bytes :=
  "{'jsonrpc':'2.0','id':1,'method':'tools/call','params':{'name':'hello'}}"%cs.

Lemma mcp_decode_params_witness :
  let x := test_context [hello_tool] in
  @mcp_adapter_decode Z inst_err inst_string inst_cjson (fun _ => true) 9 (Some x) (Some envelope)
    (lenZ envelope) (Some um_zero) 5
  = Done (@AIRY_ERR_INVALID_PARAM inst_err, Some um_zero,
          Some (x <| mx_request_counter ::= (fun n => u64 (n + 1)) |>), 5).
Proof.
  intros x. destruct (@cJSON_Parse inst_cjson envelope) as [tree|] eqn:Ht; [|discriminate].
  apply (@mcp_decode_params Z inst_err inst_string inst_cjson (fun _ => true) 9 x envelope
    "tools/call"%cs tree um_zero 5); try reflexivity; try done.
  - by apply (bool_decide_eq_true_1 (_ ∉ _)).
  - by apply (bool_decide_eq_true_1 (_ ∈ _)).
  - split; [|split; [|constructor]]; (apply Forall_cons_2; [|constructor]);
      (eexists; split; [reflexivity|by vm_compute]).
  - vm_compute in Ht. injection Ht as <-. reflexivity.
  - vm_compute in Ht. injection Ht as <-. reflexivity.
Defined.

(** The same call, with the tool named at the top. *)
Lemma mcp_adapter_reports_witness :
  let x := test_context [hello_tool] in
  let msg m := um_zero <| um_method := m |> <| um_payload := Some ("{'name':'hello'}"%cs ++ [NUL]) |> in
  (exists y, @mcp_adapter_handle_request Z inst_err inst_string inst_cjson true (Some x)
     (Some (msg []%list)) true 5
   = Done (0, Some "{'isError':false,'content':[{'type':'text','text':'hi'}]}"%cs, Some y, 6)) /\
  forall rc out x' w', @mcp_adapter_handle_request Z inst_err inst_string inst_cjson true (Some x)
     (Some (msg "nothing"%cs)) true 5 = Done (rc, out, x', w') -> rc = -1 /\ w' = 5.
Proof.
  intros x msg. split.
  - eexists. vm_compute. reflexivity.
  - intros rc out x' w' Hr.
    destruct (@mcp_adapter_reports Z inst_err inst_string inst_cjson true x _ 5 rc out x' w' Hr)
      as (y & r & _ & _ & _ & _ & Hu & _).
    apply Hu; [done|]. by apply (bool_decide_eq_true_1 (_ ∉ _)).
Defined.
