(* ===== verification/McpSession.v ===== *)
(** * The life of an MCP server

    Registrations, settings and requests in any order, as steps between states
    of the server and the world of its handlers, and what stays true of the
    server. *)

From S2P Require Import McpCb EnvInst.
From stdpp Require Import gmap relations.
#[local] Open Scope Z_scope.

Section session.
Context {W : Type} `{AiryErr} `{AiryString} `{CJson}.
Implicit Types (x y : @mcp_v1_context_t W) (w v : W).

(** The setters. *)
Inductive setting :=
| SetSampling (h : option (@mcp_sampling_handler_t W))
| SetCompletion (h : option (@mcp_completion_handler_t W))
| SetProgress (h : option (@mcp_progress_callback_t W))
| SetLog (h : option (@mcp_log_callback_t W))
| SetLevel (l : mcp_log_level_t)
| SetTransport (t : option ptr).

Definition set_server (op : setting) (ctx : option (@mcp_v1_context_t W))
    : Z * option (@mcp_v1_context_t W) :=
  match op with
  | SetSampling h => mcp_v1_set_sampling_handler ctx h
  | SetCompletion h => mcp_v1_set_completion_handler ctx h
  | SetProgress h => mcp_v1_set_progress_callback ctx h
  | SetLog h => mcp_v1_set_log_callback ctx h
  | SetLevel l => mcp_v1_set_log_level ctx l
  | SetTransport t => mcp_v1_set_transport ctx t
  end.

(** One call: a registration, a setter, a request in one of its three forms, or
    a connection being opened or closed. *)
Inductive server_step : (@mcp_v1_context_t W) * W -> (@mcp_v1_context_t W) * W -> Prop :=
| step_reg op x y w rc :
    register op x = Done (rc, Some y) -> server_step (x, w) (y, w)
| step_set op x y w rc :
    set_server op (Some x) = (rc, Some y) -> server_step (x, w) (y, w)
| step_request alloc msg x y w v rc out :
    mcp_adapter_handle_request alloc (Some x) (Some msg) true w = Done (rc, out, Some y, v) ->
    server_step (x, w) (y, v)
| step_encode alloc msg x y w v rc out size :
    mcp_adapter_encode alloc (Some x) (Some msg) true w = Done (rc, out, size, Some y, v) ->
    server_step (x, w) (y, v)
| step_decode alloc now data size msg x y w v rc msg' :
    mcp_adapter_decode alloc now (Some x) data size msg w = Done (rc, msg', Some y, v) ->
    server_step (x, w) (y, v)
| step_connect lookup t address x y w rc t' e :
    mcp_adapter_connect lookup (Some x) t address = (rc, Some y, t', e) ->
    server_step (x, w) (y, w)
| step_disconnect x y w rc :
    mcp_adapter_disconnect (Some x) = (rc, Some y) -> server_step (x, w) (y, w).

(** The arrays of the server and their limits. *)
Definition arrays x :=
  (mx_tools x, mx_tool_capacity x, (mx_resources x, mx_resource_capacity x),
   (mx_templates x, mx_template_capacity x), (mx_prompts x, mx_prompt_capacity x),
   (mc_max_tools (mx_config x), mc_max_resources (mx_config x))).

Lemma arrays_ok x y n :
  arrays y = arrays x -> context_ok x -> at_most n x -> context_ok y /\ at_most n y.
Proof.
  unfold arrays, context_ok, at_most. intros Ha. injection Ha as -> -> -> -> -> -> -> -> -> ->. done.
Qed.

Lemma counted_arrays x y : counted x y -> arrays y = arrays x.
Proof. intros ->. done. Qed.

Lemma route_arrays alloc x method params r oy w :
  mcp_v1_route_request alloc (Some x) (Some method) params true w = Done (r, oy) ->
  exists y, oy = Some y /\ arrays y = arrays x.
Proof.
  intros Hr. destruct (route_request_counted _ _ _ _ _ _ _ Hr) as (y & -> & Hy).
  exists y. split; [done|by apply counted_arrays].
Qed.

(** A call that is not a registration leaves the arrays alone. *)
Lemma step_arrays s s' :
  server_step s s' ->
  arrays s'.1 = arrays s.1 \/ exists op rc, register op s.1 = Done (rc, Some s'.1).
Proof.
  intros Hs. destruct Hs as
    [op x y w rc Hr|op x y w rc Hr|alloc msg x y w v rc out Hr|alloc msg x y w v rc out size Hr
    |alloc now data size msg x y w v rc msg' Hr|lookup t address x y w rc t' e Hr|x y w rc Hr];
    cbn [fst]; [right; eauto|left..].
  - destruct op; cbn in Hr; injection Hr as _ <-; by repeat case_match.
  - unfold mcp_adapter_handle_request in Hr. cbn [negb] in Hr.
    apply outcome_bind_inv in Hr as (params & _ & Hr).
    apply outcome_bind_inv in Hr as ([[[rc1 o] v1] oy] & Hr & Hout).
    destruct (route_arrays _ _ _ _ _ _ _ Hr) as (z & -> & Hz). rewrite <- Hz.
    by repeat case_match; injection Hout as _ _ <- _.
  - unfold mcp_adapter_encode in Hr. cbn [negb] in Hr.
    apply outcome_bind_inv in Hr as (params & _ & Hr).
    apply outcome_bind_inv in Hr as ([[[rc1 o] v1] oy] & Hr & Hout).
    destruct (route_arrays _ _ _ _ _ _ _ Hr) as (z & -> & Hz). rewrite <- Hz.
    by repeat case_match; injection Hout as _ _ _ <- _.
  - unfold mcp_adapter_decode in Hr.
    destruct data as [d|], msg as [m|]; try (by injection Hr as _ _ <- _).
    destruct (size =? 0); [by injection Hr as _ _ <- _|]. destruct (lenZ d <? size); [done|].
    destruct (negb (alloc 0%nat)); [by injection Hr as _ _ <- _|].
    apply outcome_bind_inv in Hr as ([[[rc1 o] v1] oy] & Hr & Hout).
    destruct (route_arrays _ _ _ _ _ _ _ Hr) as (z & -> & Hz). rewrite <- Hz.
    by repeat case_match; injection Hout as _ _ <- _.
  - unfold mcp_adapter_connect in Hr. destruct address; repeat case_match; by injection Hr as _ <- _ _.
  - by injection Hr as _ <-.
Qed.

(** What a step keeps, and how the tools grow. *)
Lemma step_ok s s' n :
  server_step s s' -> context_ok s.1 -> at_most n s.1 -> 0 <= n < 2 ^ 32 ->
  context_ok s'.1 /\ at_most (n + 1) s'.1 /\ mx_tools s.1 `prefix_of` mx_tools s'.1.
Proof.
  intros Hs Hok Hn Hlt. destruct (step_arrays _ _ Hs) as [Ha|(op & rc & Hr)].
  - destruct (arrays_ok _ _ _ Ha Hok Hn) as [Hok' (L1 & L2 & L3 & L4)]. split; [exact Hok'|].
    split; [unfold at_most; lia|]. by injection Ha as -> _ _ _ _ _ _ _ _ _.
  - destruct (register_ok op s.1 n Hok Hn ltac:(lia)) as (rc' & y & Hr' & Hok' & Hn' & Ht).
    rewrite Hr in Hr'. injection Hr' as <- <-. split; [exact Hok'|]. split; [exact Hn'|].
    rewrite Ht. by apply prefix_app_r.
Qed.

Lemma steps_ok k s s' n :
  nsteps server_step k s s' -> context_ok s.1 -> at_most n s.1 -> 0 <= n -> n + Z.of_nat k < 2 ^ 32 ->
  context_ok s'.1 /\ at_most (n + Z.of_nat k) s'.1 /\ mx_tools s.1 `prefix_of` mx_tools s'.1.
Proof.
  intros Hs. revert n. induction Hs as [s|k s s1 s' Hstep _ IH]; intros n Hok Hn Hpos Hlt.
  - rewrite Z.add_0_r. split_and!; [exact Hok|exact Hn|done].
  - destruct (step_ok _ _ n Hstep Hok Hn ltac:(lia)) as (Hok1 & Hn1 & Hp1).
    destruct (IH (n + 1) Hok1 Hn1 ltac:(lia) ltac:(lia)) as (Hok2 & Hn2 & Hp2).
    split; [exact Hok2|]. split; [|by etrans].
    replace (n + Z.of_nat (S k)) with (n + 1 + Z.of_nat k) by lia. exact Hn2.
Qed.

(** The first tool of a name stays the first. *)
Lemma tool_named_prefix x y name e :
  mx_tools x `prefix_of` mx_tools y -> tool_named x name = Some e -> tool_named y name = Some e.
Proof.
  unfold tool_named. intros [k ->] (i & Hf & Hi)%bind_Some. apply bind_Some. exists i.
  split; [by apply find_idx_app_l|]. rewrite lookup_app_l by (by eapply lookup_lt_Some). exact Hi.
Qed.

(** A server just initialised. *)
Lemma init_ok old x : mcp_adapter_init true (Some old) = (0, Some x) -> context_ok x /\ at_most 0 x.
Proof.
  intros Hi. injection Hi as <-. repeat split; by vm_compute.
Qed.
End session.

(** C11. The server as long as it lives.  Initialise an MCP adapter and make any
    calls, fewer than 2^32: registrations with any allocation failing, setters,
    requests and messages, connections.  Then every array has room for its
    entries and respects its limit, no array holds more entries than calls were
    made, and no registration writes outside an array, now or next.  And
    whatever is called afterwards, a tool that a name stands for now is the one
    the name stands for then. *)
Theorem server_invariant {W} `{AiryErr} `{AiryString} `{CJson} n (old x0 x : @mcp_v1_context_t W) w0 w :
  mcp_adapter_init true (Some old) = (0, Some x0) ->
  nsteps server_step n (x0, w0) (x, w) -> Z.of_nat n < 2 ^ 32 ->
  context_ok x /\ at_most (Z.of_nat n) x /\
  (forall op, exists rc y, register op x = Done (rc, Some y)) /\
  forall k y v, nsteps server_step k (x, w) (y, v) -> Z.of_nat (n + k) < 2 ^ 32 ->
    forall name e, tool_named x name = Some e -> tool_named y name = Some e.
Proof.
  intros Hi Hs Hn. destruct (init_ok _ _ Hi) as [Hok0 Hn0].
  destruct (steps_ok _ _ _ 0 Hs Hok0 Hn0) as (Hok & Hmost & _); [lia..|]. cbn [fst Z.add] in *.
  split_and!; [exact Hok|exact Hmost|..].
  - intros op. destruct (register_ok op x _ Hok Hmost Hn) as (rc & y & Hr & _). eauto.
  - intros k y v Hk Hlt name e. apply tool_named_prefix.
    by destruct (steps_ok _ _ _ _ Hk Hok Hmost) as (_ & _ & Hp); [lia..|].
Qed.

(** An initialised server with one tool registered, then called. *)
Lemma server_invariant_witness :
  exists old x0 x, @mcp_adapter_init Z inst_err true (Some old) = (0, Some x0) /\
    nsteps (@server_step Z inst_err inst_string inst_cjson) 2 (x0, 5) (x, 6) /\
    (exists e, tool_named x "hello"%cs = Some e) /\ context_ok x.
Proof.
  pose (msg := um_zero <| um_payload := Some ("{'name':'hello'}"%cs ++ [NUL]) |>).
  pose (start := default mcp_zeroed (@mcp_adapter_init Z inst_err true (Some mcp_zeroed)).2).
  pose (tool := te_tool hello_tool).
  destruct (@register Z inst_err (RegTool true tool (te_handler hello_tool)) start) as [[rc [x1|]]|] eqn:Hr;
    [|discriminate..].
  destruct (@mcp_adapter_handle_request Z inst_err inst_string inst_cjson true (Some x1) (Some msg) true 5)
    as [[[[rc2 out] [x2|]] v]|] eqn:Hq; [|by vm_compute in Hr; injection Hr as _ <-; vm_compute in Hq..].
  assert (v = 6) as ->.
  { vm_compute in Hr. injection Hr as _ <-. vm_compute in Hq. by injection Hq as _ _ _ <-. }
  assert (nsteps (@server_step Z inst_err inst_string inst_cjson) 2 (start, 5) (x2, 6)) as Hs.
  { eapply nsteps_l; [by eapply step_reg|]. eapply nsteps_l; [by eapply step_request|]. constructor. }
  exists mcp_zeroed, start, x2. split; [reflexivity|]. split; [exact Hs|].
  destruct (@server_invariant Z inst_err inst_string inst_cjson 2 mcp_zeroed start x2 5 6 eq_refl Hs
    ltac:(lia)) as (Hok & _). split; [|exact Hok].
  vm_compute in Hr. injection Hr as _ <-. vm_compute in Hq. injection Hq as _ _ <-. by eexists.
Defined.
