(* ===== verification/Sha256.v ===== *)
(** * SHA-256 and HMAC: standards/a2a/src/a2a_v03_adapter_auth.c

    The streaming hash as the code runs it, a byte at a time over a 64-byte
    buffer, and the reference it implements: the fold of the compression
    function over the blocks of the padded message.  Bytes and words are
    integers of 8 and 32 bits; the part of the buffer in use is a list. *)

From S2P Require Export CString.

Record a2a_sha256_ctx_t := mkSha {
  sh_state : list Z;
  sh_bitlen : Z;
  sh_data : list Z
}.

#[export] Instance eta_sha : Eta a2a_sha256_ctx_t := fun c =>
  mkSha (sh_state c) (sh_bitlen c) (sh_data c).

(** A 32-bit constant, from its two halves. *)
Definition w32 (hi lo : Z) : Z := hi * 2 ^ 16 + lo.

Definition a2a_sha256_k : list Z := [
  w32 0x428a 0x2f98; w32 0x7137 0x4491; w32 0xb5c0 0xfbcf; w32 0xe9b5 0xdba5;
  w32 0x3956 0xc25b; w32 0x59f1 0x11f1; w32 0x923f 0x82a4; w32 0xab1c 0x5ed5;
  w32 0xd807 0xaa98; w32 0x1283 0x5b01; w32 0x2431 0x85be; w32 0x550c 0x7dc3;
  w32 0x72be 0x5d74; w32 0x80de 0xb1fe; w32 0x9bdc 0x06a7; w32 0xc19b 0xf174;
  w32 0xe49b 0x69c1; w32 0xefbe 0x4786; w32 0x0fc1 0x9dc6; w32 0x240c 0xa1cc;
  w32 0x2de9 0x2c6f; w32 0x4a74 0x84aa; w32 0x5cb0 0xa9dc; w32 0x76f9 0x88da;
  w32 0x983e 0x5152; w32 0xa831 0xc66d; w32 0xb003 0x27c8; w32 0xbf59 0x7fc7;
  w32 0xc6e0 0x0bf3; w32 0xd5a7 0x9147; w32 0x06ca 0x6351; w32 0x1429 0x2967;
  w32 0x27b7 0x0a85; w32 0x2e1b 0x2138; w32 0x4d2c 0x6dfc; w32 0x5338 0x0d13;
  w32 0x650a 0x7354; w32 0x766a 0x0abb; w32 0x81c2 0xc92e; w32 0x9272 0x2c85;
  w32 0xa2bf 0xe8a1; w32 0xa81a 0x664b; w32 0xc24b 0x8b70; w32 0xc76c 0x51a3;
  w32 0xd192 0xe819; w32 0xd699 0x0624; w32 0xf40e 0x3585; w32 0x106a 0xa070;
  w32 0x19a4 0xc116; w32 0x1e37 0x6c08; w32 0x2748 0x774c; w32 0x34b0 0xbcb5;
  w32 0x391c 0x0cb3; w32 0x4ed8 0xaa4a; w32 0x5b9c 0xca4f; w32 0x682e 0x6ff3;
  w32 0x748f 0x82ee; w32 0x78a5 0x636f; w32 0x84c8 0x7814; w32 0x8cc7 0x0208;
  w32 0x90be 0xfffa; w32 0xa450 0x6ceb; w32 0xbef9 0xa3f7; w32 0xc671 0x78f2].

Definition a2a_ror32 (x n : Z) : Z := Z.lor (Z.shiftr x n) (u32 (Z.shiftl x (32 - n))).

(** Index [i] of an array that has one. *)
Definition at_ (l : list Z) (i : nat) : Z := nth i l 0.

(** ** The compression function *)

(** The [i]-th big-endian word of the block. *)
Definition load_word (data : list Z) (i : nat) : Z :=
  Z.lor (Z.lor (Z.lor (Z.shiftl (at_ data (i * 4)) 24) (Z.shiftl (at_ data (i * 4 + 1)) 16))
               (Z.shiftl (at_ data (i * 4 + 2)) 8)) (at_ data (i * 4 + 3)).

Definition next_word (w : list Z) (i : nat) : Z :=
  let w15 := at_ w (i - 15) in
  let w2 := at_ w (i - 2) in
  let s0 := Z.lxor (Z.lxor (a2a_ror32 w15 7) (a2a_ror32 w15 18)) (Z.shiftr w15 3) in
  let s1 := Z.lxor (Z.lxor (a2a_ror32 w2 17) (a2a_ror32 w2 19)) (Z.shiftr w2 10) in
  u32 (at_ w (i - 16) + s0 + at_ w (i - 7) + s1).

Definition message_schedule (data : list Z) : list Z :=
  fold_left (fun w i => w ++ [next_word w i]) (seq 16 48) (load_word data <$> seq 0 16).

Definition vars : Type := Z * Z * Z * Z * Z * Z * Z * Z.

Definition sha_round (w : list Z) (v : vars) (i : nat) : vars :=
  let '(a, b, c, d, e, f, g, h) := v in
  let S1 := Z.lxor (Z.lxor (a2a_ror32 e 6) (a2a_ror32 e 11)) (a2a_ror32 e 25) in
  let ch := Z.lxor (Z.land e f) (Z.land (Z.lxor e 0xffffffff) g) in
  let t1 := u32 (h + S1 + ch + at_ a2a_sha256_k i + at_ w i) in
  let S0 := Z.lxor (Z.lxor (a2a_ror32 a 2) (a2a_ror32 a 13)) (a2a_ror32 a 22) in
  let maj := Z.lxor (Z.lxor (Z.land a b) (Z.land a c)) (Z.land b c) in
  let t2 := u32 (S0 + maj) in
  (u32 (t1 + t2), a, b, c, u32 (d + t1), e, f, g).

Definition compress (state block : list Z) : list Z :=
  let w := message_schedule block in
  let s := at_ state in
  let '(a, b, c, d, e, f, g, h) :=
    fold_left (sha_round w) (seq 0 64)
      (s 0%nat, s 1%nat, s 2%nat, s 3%nat, s 4%nat, s 5%nat, s 6%nat, s 7%nat) in
  (fun '(x, y) => u32 (x + y)) <$> zip state [a; b; c; d; e; f; g; h].

(** ** Streaming *)

Definition a2a_sha256_transform (ctx : a2a_sha256_ctx_t) : a2a_sha256_ctx_t :=
  ctx <| sh_state ::= (fun st => compress st (sh_data ctx)) |>.

Definition sha256_iv : list Z := [
  w32 0x6a09 0xe667; w32 0xbb67 0xae85; w32 0x3c6e 0xf372; w32 0xa54f 0xf53a;
  w32 0x510e 0x527f; w32 0x9b05 0x688c; w32 0x1f83 0xd9ab; w32 0x5be0 0xcd19].

Definition a2a_sha256_init : a2a_sha256_ctx_t := mkSha sha256_iv 0 [].

(** A full buffer is compressed and emptied. *)
Definition flush_block (ctx : a2a_sha256_ctx_t) : a2a_sha256_ctx_t :=
  (a2a_sha256_transform ctx) <| sh_bitlen ::= (fun n => u64 (n + 512)) |> <| sh_data := [] |>.

Definition update_byte (ctx : a2a_sha256_ctx_t) (b : Z) : a2a_sha256_ctx_t :=
  let ctx := ctx <| sh_data ::= (fun d => d ++ [b]) |> in
  if decide (length (sh_data ctx) = 64%nat) then flush_block ctx else ctx.

Definition a2a_sha256_update (ctx : a2a_sha256_ctx_t) (data : list Z) : a2a_sha256_ctx_t :=
  fold_left update_byte data ctx.

(** The bytes of a 64-bit integer, most significant first. *)
Definition be64 (n : Z) : list Z := (fun i => u8 (Z.shiftr n (56 - Z.of_nat i * 8))) <$> seq 0 8.

Definition be32 (n : Z) : list Z :=
  [u8 (Z.shiftr n 24); u8 (Z.shiftr n 16); u8 (Z.shiftr n 8); u8 n].

(** [while (ctx->datalen < n) ctx->data[ctx->datalen++] = 0] *)
Definition zero_to (n : nat) (ctx : a2a_sha256_ctx_t) : a2a_sha256_ctx_t :=
  ctx <| sh_data ::= (fun d => d ++ replicate (n - length d) 0) |>.

Definition a2a_sha256_final (ctx : a2a_sha256_ctx_t) : list Z :=
  let bitlen := u64 (sh_bitlen ctx + lenZ (sh_data ctx) * 8) in
  let ctx := ctx <| sh_data ::= (fun d => d ++ [0x80]) |> in
  let ctx := if decide (56 < length (sh_data ctx))%nat then flush_block (zero_to 64 ctx) else ctx in
  let ctx := zero_to 56 ctx in
  let ctx := ctx <| sh_data ::= (fun d => d ++ be64 bitlen) |> in
  let ctx := a2a_sha256_transform ctx in
  concat (be32 <$> sh_state ctx).

(** One message in one piece. *)
Definition sha256_of (data : list Z) : list Z :=
  a2a_sha256_final (a2a_sha256_update a2a_sha256_init data).

Definition hmac_key (key : list Z) : list Z :=
  let k := if decide (64 < length key)%nat then sha256_of key else key in
  k ++ replicate (64 - length k) 0.

Definition a2a_hmac_sha256 (key msg : list Z) : list Z :=
  let k := hmac_key key in
  let ipad := (fun b => Z.lxor b 0x36) <$> k in
  let opad := (fun b => Z.lxor b 0x5c) <$> k in
  let inner := a2a_sha256_final
                 (a2a_sha256_update (a2a_sha256_update a2a_sha256_init ipad) msg) in
  a2a_sha256_final (a2a_sha256_update (a2a_sha256_update a2a_sha256_init opad) inner).

(** ** Comparison, hexadecimal, the simple hash *)

(** [len] bytes of two arrays that have them. *)
Definition a2a_const_time_eq (a b : list Z) (len : nat) : bool :=
  fold_left (fun diff '(x, y) => Z.lor diff (u8 (Z.lxor x y)))
    (zip (take len a) (take len b)) 0 =? 0.

Definition hex_byte (b : Z) : bytes :=
  [hexdigit (Z.land (Z.shiftr b 4) 0x0F); hexdigit (Z.land b 0x0F)].

(** The string left in a zeroed buffer of [out_size] characters.  The loop
    stops before a byte whose two digits would fill the buffer, but the NUL is
    written at [len * 2] all the same: [slack] is the number of padding bytes
    that follow the buffer in the structure it is part of. *)
Definition a2a_hex_encode (data : list Z) (out_size slack : Z) : outcome bytes :=
  let fitting := Z.to_nat ((out_size - 1) `div` 2) in
  if lenZ data * 2 <? out_size + slack
  then Done (concat (hex_byte <$> take fitting data))
  else Fault.

Definition a2a_simple_hash (data : bytes) : Z :=
  fold_left (fun hash c => u32 (u32 (u32 (Z.shiftl hash 5) + hash) + code c)) data 5381.

(** ** The reference *)

(** FIPS 180-4: a one bit, zeros, and the bit length in 64 bits, up to a
    multiple of 64 bytes. *)
Definition sha256_pad (m : list Z) : list Z :=
  m ++ 0x80 :: replicate (Z.to_nat ((55 - lenZ m) mod 64)) 0 ++ be64 (u64 (lenZ m * 8)).

Fixpoint blocks (n : nat) (m : list Z) : list (list Z) :=
  match n with
  | O => []
  | S n => take 64 m :: blocks n (drop 64 m)
  end.

(** The digest of a message. *)
Definition SHA256 (m : list Z) : list Z :=
  let p := sha256_pad m in
  concat (be32 <$> fold_left compress (blocks (length p `div` 64) p) sha256_iv).

(** RFC 2104 over that hash. *)
Definition HMAC (key msg : list Z) : list Z :=
  let k0 := if decide (64 < length key)%nat then SHA256 key else key in
  let k := k0 ++ replicate (64 - length k0) 0 in
  SHA256 (((fun b => Z.lxor b 0x5c) <$> k) ++ SHA256 (((fun b => Z.lxor b 0x36) <$> k) ++ msg)).

(** ** Streaming computes the reference *)

#[local] Arguments compress : simpl never.
#[local] Arguments be64 : simpl never.
#[local] Arguments u64 : simpl never.

Lemma update_app ctx a b :
  a2a_sha256_update ctx (a ++ b) = a2a_sha256_update (a2a_sha256_update ctx a) b.
Proof. apply fold_left_app. Qed.

(** Bytes that do not fill the buffer are only stored. *)
Lemma update_partial st n d data :
  (length d + length data < 64)%nat ->
  a2a_sha256_update (mkSha st n d) data = mkSha st n (d ++ data).
Proof.
  revert d. induction data as [|b data IH]; intros d Hl; cbn [length] in Hl.
  - by rewrite app_nil_r.
  - unfold a2a_sha256_update. cbn [fold_left]. unfold update_byte at 2. cbn.
    rewrite decide_False by (rewrite length_app; cbn; lia).
    change (fold_left update_byte data ?c) with (a2a_sha256_update c data).
    rewrite IH by (rewrite length_app; cbn; lia). by rewrite <- app_assoc.
Qed.

(** Bytes that fill it exactly are compressed. *)
Lemma update_fill st n d data :
  (length d < 64)%nat -> (length d + length data = 64)%nat ->
  a2a_sha256_update (mkSha st n d) data = mkSha (compress st (d ++ data)) (u64 (n + 512)) [].
Proof.
  intros Hd Hl. destruct data as [|b data _] using rev_ind; [cbn in Hl; lia|].
  rewrite length_app in Hl. cbn in Hl.
  rewrite update_app, update_partial by lia. cbn. unfold update_byte. cbn.
  rewrite decide_True by (rewrite !length_app; cbn; lia).
  unfold flush_block. cbn. by rewrite <- app_assoc.
Qed.

Lemma update_block st n m :
  (64 <= length m)%nat ->
  a2a_sha256_update (mkSha st n []) m
  = a2a_sha256_update (mkSha (compress st (take 64 m)) (u64 (n + 512)) []) (drop 64 m).
Proof.
  intros Hl. rewrite <- (take_drop 64 m) at 1. rewrite update_app, update_fill.
  - reflexivity.
  - cbn. lia.
  - cbn [length]. rewrite length_take. lia.
Qed.

Lemma fold_blocks (f : list Z -> list Z -> list Z) k st m :
  fold_left f (blocks (S k) m) st = fold_left f (blocks k (drop 64 m)) (f st (take 64 m)).
Proof. reflexivity. Qed.

Lemma update_blocks k st n m :
  length m = (64 * k)%nat ->
  a2a_sha256_update (mkSha st n []) m
  = mkSha (fold_left compress (blocks k m) st) (Nat.iter k (fun x => u64 (x + 512)) n) [].
Proof.
  revert st n m. induction k as [|k IH]; intros st n m Hl.
  - apply nil_length_inv in Hl as ->. done.
  - rewrite update_block by lia. rewrite IH by (rewrite length_drop; lia).
    rewrite Nat.iter_succ_r, (fold_blocks compress). f_equal.
Qed.

Lemma iter_bitlen k : Z.of_nat k < 2 ^ 54 -> Nat.iter k (fun x => u64 (x + 512)) 0 = 512 * Z.of_nat k.
Proof.
  induction k as [|k IH]; intros Hk; [done|]. rewrite Nat.iter_succ, IH by lia.
  rewrite u64_small by lia. lia.
Qed.

Lemma length_be64 n : length (be64 n) = 8%nat.
Proof. done. Qed.

Lemma length_padded (d : list Z) z b :
  length (d ++ 0x80 :: replicate z 0 ++ be64 b) = (length d + z + 9)%nat.
Proof.
  rewrite length_app. cbn [length]. rewrite length_app, length_replicate, length_be64. lia.
Qed.

(** Finishing feeds the padding. *)
Lemma final_feeds st n d :
  (length d < 64)%nat ->
  let bitlen := u64 (n + lenZ d * 8) in
  let tail := 0x80 :: replicate (Z.to_nat ((55 - lenZ d) mod 64)) 0 ++ be64 bitlen in
  a2a_sha256_final (mkSha st n d)
  = concat (be32 <$> sh_state (a2a_sha256_update (mkSha st n d) tail)) /\
  (length (d ++ tail) = 64 \/ length (d ++ tail) = 128)%nat.
Proof.
  intros Hd bitlen tail. unfold a2a_sha256_final. cbn [sh_bitlen sh_data]. fold bitlen.
  cbn -[Nat.sub compress be64 Z.mul Z.add a2a_sha256_update tail]. rewrite length_app. cbn [length].
  destruct (decide (56 < length d + 1)%nat) as [Hlong|Hshort].
  - assert (Z.to_nat ((55 - lenZ d) mod 64) = (63 - length d) + 56)%nat as Hz.
    { unfold lenZ. replace (55 - Z.of_nat (length d)) with ((119 - Z.of_nat (length d)) + (-1) * 64) by lia.
      rewrite Z.mod_add, Z.mod_small by lia. lia. }
    split; [|right; subst tail; rewrite length_padded; lia].
    subst tail. rewrite Hz, replicate_add.
    replace (0x80 :: (replicate (63 - length d) 0 ++ replicate 56 0) ++ be64 bitlen)
      with ((0x80 :: replicate (63 - length d) 0) ++ (replicate 56 0 ++ be64 bitlen))
      by (cbn [app]; by rewrite <- app_assoc).
    rewrite update_app, update_fill; [|lia|cbn [length]; rewrite length_replicate; lia].
    rewrite update_fill; [|cbn; lia|rewrite length_app, length_replicate, length_be64; cbn; lia].
    cbn -[Nat.sub compress be64 Z.mul Z.add replicate]. rewrite length_app. cbn [length].
    replace (64 - (length d + 1))%nat with (63 - length d)%nat by lia.
    rewrite <- app_assoc. done.
  - assert (Z.to_nat ((55 - lenZ d) mod 64) = 55 - length d)%nat as Hz.
    { unfold lenZ. rewrite Z.mod_small by lia. lia. }
    split; [|left; subst tail; rewrite length_padded; lia].
    subst tail. rewrite Hz. rewrite update_fill; [|lia|].
    2:{ cbn [length]. rewrite length_app, length_replicate, length_be64. lia. }
    cbn -[Nat.sub compress be64 Z.mul Z.add replicate]. rewrite length_app. cbn [length].
    replace (56 - (length d + 1))%nat with (55 - length d)%nat by lia.
    rewrite <- !app_assoc. done.
Qed.

(** After [m], the buffer holds what is left over from whole blocks. *)
Lemma update_init m :
  lenZ m < 2 ^ 60 ->
  exists st d, a2a_sha256_update a2a_sha256_init m = mkSha st (8 * (lenZ m - lenZ d)) d /\
    (length d < 64)%nat /\ lenZ d = lenZ m mod 64.
Proof.
  intros Hm. pose proof (lenZ_nonneg m) as H0. set (k := (length m `div` 64)%nat).
  assert (length m = 64 * k + length m `mod` 64)%nat as Hk by apply Nat.div_mod_eq.
  assert (length m `mod` 64 < 64)%nat as Hr by (apply Nat.mod_upper_bound; lia).
  assert (length (take (64 * k) m) = 64 * k)%nat as Ht by (rewrite length_take; lia).
  assert (length (drop (64 * k) m) = length m `mod` 64)%nat as Hd by (rewrite length_drop; lia).
  exists (fold_left compress (blocks k (take (64 * k) m)) sha256_iv), (drop (64 * k) m).
  unfold lenZ in *. rewrite Hd, Nat2Z.inj_mod. split; [|split; [done|done]].
  unfold a2a_sha256_init. rewrite <- (take_drop (64 * k) m) at 1.
  rewrite update_app, (update_blocks k) by done.
  rewrite iter_bitlen by lia. rewrite update_partial by (rewrite Hd; cbn; lia).
  cbn [app]. f_equal. rewrite <- Nat2Z.inj_mod. lia.
Qed.

Lemma sha256_whole m :
  lenZ m < 2 ^ 60 -> a2a_sha256_final (a2a_sha256_update a2a_sha256_init m) = SHA256 m.
Proof.
  intros Hm. destruct (update_init m Hm) as (st & d & Hu & Hd & Hmod).
  destruct (final_feeds st (8 * (lenZ m - lenZ d)) d Hd) as [Hf Hlen].
  rewrite Hu, Hf, <- Hu, <- update_app. revert Hlen. clear Hf.
  replace (8 * (lenZ m - lenZ d) + lenZ d * 8) with (lenZ m * 8) by lia.
  assert ((55 - lenZ d) mod 64 = (55 - lenZ m) mod 64) as ->
    by (rewrite Hmod; apply Zminus_mod_idemp_r).
  intros Hlen. unfold SHA256. fold (sha256_pad m).
  assert (length (sha256_pad m) = 64 * (length (sha256_pad m) `div` 64))%nat as Hp.
  { assert (exists q, length (sha256_pad m) = q * 64)%nat as [q ->].
    2:{ rewrite Nat.div_mul by lia. lia. }
    assert (exists q, length m = 64 * q + length d)%nat as [q Hq].
    { exists (length m `div` 64)%nat. unfold lenZ in Hmod. rewrite <- (Nat2Z.inj_mod _ 64) in Hmod.
      pose proof (Nat.div_mod_eq (length m) 64). lia. }
    unfold sha256_pad. rewrite length_padded in Hlen |- *.
    destruct Hlen as [Hlen|Hlen]; [exists (q + 1)%nat|exists (q + 2)%nat]; lia. }
  unfold a2a_sha256_init. rewrite (update_blocks _ _ _ _ Hp). done.
Qed.

(** C21. The hash.  However a message of fewer than 2^60 bytes is split into
    the pieces given to [a2a_sha256_update], the digest is SHA-256 of the whole
    message: the compression function folded over the blocks of the message
    padded with a one bit, zeros and its 64-bit length. *)
Theorem sha256_streaming ds :
  lenZ (concat ds) < 2 ^ 60 ->
  a2a_sha256_final (fold_left a2a_sha256_update ds a2a_sha256_init) = SHA256 (concat ds).
Proof.
  assert (forall c, fold_left a2a_sha256_update ds c = a2a_sha256_update c (concat ds)) as ->.
  { induction ds as [|d ds IH]; intros c; [done|]. cbn [fold_left concat].
    by rewrite IH, update_app. }
  apply sha256_whole.
Qed.

Lemma sha256_streaming_witness :
  let ds := [code <$> "ab"%cs; []; replicate 130 7; code <$> "c"%cs] in
  a2a_sha256_final (fold_left a2a_sha256_update ds a2a_sha256_init) = SHA256 (concat ds).
Proof. intros ds. apply (sha256_streaming ds). by vm_compute. Defined.

(** ** HMAC *)

Lemma length_compress st b : length st = 8%nat -> length (compress st b) = 8%nat.
Proof.
  intros Hst. unfold compress.
  destruct (fold_left _ _ _) as [[[[[[[a b'] c] d] e] f] g] h].
  by rewrite length_fmap, length_zip_with_r by (cbn; lia).
Qed.

Lemma length_concat_be32 st : length (concat (be32 <$> st)) = (4 * length st)%nat.
Proof. induction st as [|x st IH]; cbn [fmap list_fmap concat length]; [done|].
  rewrite length_app, IH. cbn. lia. Qed.

Lemma length_fold (f : list Z -> list Z -> list Z) (l : list (list Z)) st n :
  (forall st b, length st = n -> length (f st b) = n) -> length st = n ->
  length (fold_left f l st) = n.
Proof. intros Hf. revert st. induction l as [|b l IH]; intros st Hst; [done|]. by apply IH, Hf. Qed.

Lemma length_SHA256 m : length (SHA256 m) = 32%nat.
Proof.
  unfold SHA256. rewrite length_concat_be32. generalize (length (sha256_pad m) `div` 64)%nat.
  intros n. by rewrite (length_fold compress _ _ 8 length_compress).
Qed.

Lemma length_hmac_key (k : list Z) :
  (length k <= 64)%nat -> length (k ++ replicate (64 - length k) 0) = 64%nat.
Proof. intros ?. rewrite length_app, length_replicate. lia. Qed.

Lemma hmac_key_spec key :
  lenZ key < 2 ^ 60 ->
  hmac_key key = (let k0 := if decide (64 < length key)%nat then SHA256 key else key in
                  k0 ++ replicate (64 - length k0) 0) /\
  length (hmac_key key) = 64%nat.
Proof.
  intros Hk. unfold hmac_key, sha256_of. rewrite sha256_whole by done. split; [done|].
  destruct (decide _); apply length_hmac_key; [rewrite length_SHA256; lia|lia].
Qed.

(** [a2a_hmac_sha256] is HMAC over SHA-256 (RFC 2104). *)
Lemma hmac_is_HMAC key msg :
  lenZ key < 2 ^ 60 -> lenZ msg < 2 ^ 59 -> a2a_hmac_sha256 key msg = HMAC key msg.
Proof.
  intros Hk Hm. destruct (hmac_key_spec key Hk) as [Hkey Hlen].
  unfold a2a_hmac_sha256. rewrite <- !update_app. fold (sha256_of).
  assert (forall x m, length m = 64%nat -> lenZ x < 2 ^ 59 ->
            a2a_sha256_final (a2a_sha256_update a2a_sha256_init (m ++ x)) = SHA256 (m ++ x)) as Hs.
  { intros x m Hl Hx. apply sha256_whole. rewrite lenZ_app. unfold lenZ in *. lia. }
  rewrite (Hs msg) by (by rewrite ?length_fmap).
  rewrite Hs by (rewrite ?length_fmap; unfold lenZ; rewrite ?length_SHA256; done).
  unfold HMAC. cbv zeta in Hkey |- *. rewrite <- Hkey. reflexivity.
Qed.

(** C22. The message authentication code.  For every key and message of a size
    that fits in memory, [a2a_hmac_sha256] is HMAC-SHA-256 of RFC 2104, keys
    longer than a block included; and hash and code agree with the published
    vectors (FIPS 180-4 for [abc], RFC 4231 test case 2). *)
Theorem hmac_sha256_spec key msg :
  lenZ key < 2 ^ 60 -> lenZ msg < 2 ^ 59 ->
  a2a_hmac_sha256 key msg = HMAC key msg /\ length (a2a_hmac_sha256 key msg) = 32%nat /\
  concat (hex_byte <$> sha256_of (code <$> "abc"%cs))
  = "ba7816bf8f01cfea414140de5dae2223b00361a396177a9cb410ff61f20015ad"%cs /\
  concat (hex_byte <$> a2a_hmac_sha256 (code <$> "Jefe"%cs)
                         (code <$> "what do ya want for nothing?"%cs))
  = "5bdcc146bf60754e6a042426089575c75a003f089d2739839dec58b964ec3843"%cs.
Proof.
  intros Hk Hm. split; [by apply hmac_is_HMAC|]. split.
  - rewrite hmac_is_HMAC by done. apply length_SHA256.
  - split; vm_compute; reflexivity.
Qed.

Lemma hmac_sha256_spec_witness :
  let key := replicate 131 170 in let msg := code <$> "Test Using Larger"%cs in
  a2a_hmac_sha256 key msg = HMAC key msg /\ length (a2a_hmac_sha256 key msg) = 32%nat /\
  concat (hex_byte <$> sha256_of (code <$> "abc"%cs))
  = "ba7816bf8f01cfea414140de5dae2223b00361a396177a9cb410ff61f20015ad"%cs /\
  concat (hex_byte <$> a2a_hmac_sha256 (code <$> "Jefe"%cs)
                         (code <$> "what do ya want for nothing?"%cs))
  = "5bdcc146bf60754e6a042426089575c75a003f089d2739839dec58b964ec3843"%cs.
Proof. intros key msg. apply (hmac_sha256_spec key msg); by vm_compute. Defined.

(** ** The comparison and the encoding *)

Lemma lor_fold_zero (l : list (Z * Z)) acc :
  0 <= acc -> Forall (fun p => 0 <= p.1 < 256 /\ 0 <= p.2 < 256) l ->
  fold_left (fun diff '(x, y) => Z.lor diff (u8 (Z.lxor x y))) l acc = 0 <->
  acc = 0 /\ Forall (fun p => p.1 = p.2) l.
Proof.
  revert acc. induction l as [|[x y] l IH]; intros acc Ha Hl; cbn [fold_left].
  - split; [by intros ->|by intros [-> _]].
  - apply Forall_cons in Hl as [Hxy Hl]. cbn in Hxy. rewrite IH; [|apply Z.lor_nonneg; pose proof (u8_range (Z.lxor x y)); lia|done].
    rewrite Z.lor_eq_0_iff, Forall_cons. cbn.
    assert (u8 (Z.lxor x y) = 0 <-> x = y) as ->; [|tauto].
    split; [|intros ->; by rewrite Z.lxor_nilpotent].
    rewrite u8_small. { apply Z.lxor_eq. }
    split; [apply Z.lxor_nonneg; lia|].
    destruct (Z.eq_dec (Z.lxor x y) 0) as [->|Hne]; [lia|].
    apply Z.log2_lt_pow2; [pose proof (proj2 (Z.lxor_nonneg x y)); lia|].
    eapply Z.le_lt_trans; [apply Z.log2_lxor; lia|].
    apply Z.max_lub_lt; (destruct (Z.eq_dec x 0) as [->|]; destruct (Z.eq_dec y 0) as [->|];
      try done; apply Z.log2_lt_pow2; lia).
Qed.

Definition byte_ok (b : Z) : Prop := 0 <= b < 256.

(** The constant-time comparison is equality of the first [len] bytes. *)
Lemma const_time_eq_spec a b len :
  Forall byte_ok a -> Forall byte_ok b -> (len <= length a)%nat -> (len <= length b)%nat ->
  a2a_const_time_eq a b len = true <-> take len a = take len b.
Proof.
  intros Ha Hb Hla Hlb. unfold a2a_const_time_eq. rewrite Z.eqb_eq, lor_fold_zero; [|lia|].
  - split; [intros [_ H]|intros H; split; [done|]].
    + assert (length (take len a) = length (take len b)) as Hl by (rewrite !length_take; lia).
      revert H Hl. generalize (take len a) (take len b). intros l. induction l as [|x l IH];
        intros [|y k] H Hl; cbn in *; try done.
      apply Forall_cons in H as [Hxy H]. cbn in Hxy. subst y. f_equal. apply IH; [done|lia].
    + rewrite H. generalize (take len b). intros l. induction l; constructor; done.
  - apply (Forall_take _ len) in Ha. apply (Forall_take _ len) in Hb. revert Ha Hb.
    generalize (take len a) (take len b). intros l k Hl. revert k. induction Hl as [|x l Hx Hl IH]; intros k Hk;
      [constructor|]. destruct Hk as [|y k Hy Hk]; [constructor|]. constructor; [done|by apply IH].
Qed.

Lemma code_bytes s : Forall byte_ok (code <$> s).
Proof. rewrite Forall_fmap. apply Forall_true. intros c. apply code_range. Qed.

Lemma fmap_code_inj (a b : bytes) : (code <$> a) = (code <$> b) -> a = b.
Proof.
  revert b. induction a as [|x a IH]; intros [|y b]; cbn; try done.
  intros [= Hxy Hab]. f_equal; [|by apply IH]. by rewrite <- (chr_code x), Hxy, chr_code.
Qed.

Lemma hex_encode_fits data out_size :
  2 * lenZ data < out_size ->
  a2a_hex_encode data out_size 0 = Done (concat (hex_byte <$> data)).
Proof.
  intros Hl. unfold a2a_hex_encode. rewrite (proj2 (Z.ltb_lt _ _)) by lia.
  rewrite take_ge; [done|]. pose proof (lenZ_nonneg data).
  assert (lenZ data <= (out_size - 1) `div` 2) by (apply Z.div_le_lower_bound; lia).
  unfold lenZ in *. lia.
Qed.

Lemma length_hex_bytes data : length (concat (hex_byte <$> data)) = (2 * length data)%nat.
Proof. induction data as [|b data IH]; cbn [fmap list_fmap concat length]; [done|].
  rewrite length_app, IH. cbn. lia. Qed.

(** The code's digests have 32 bytes, whatever the message. *)
Lemma transform_length ctx :
  length (sh_state ctx) = 8%nat -> length (sh_state (a2a_sha256_transform ctx)) = 8%nat.
Proof. intros Hc. exact (length_compress (sh_state ctx) (sh_data ctx) Hc). Qed.

Lemma flush_length ctx :
  length (sh_state ctx) = 8%nat -> length (sh_state (flush_block ctx)) = 8%nat.
Proof. exact (transform_length ctx). Qed.

Lemma update_state_length data ctx :
  length (sh_state ctx) = 8%nat -> length (sh_state (a2a_sha256_update ctx data)) = 8%nat.
Proof.
  unfold a2a_sha256_update. revert ctx. induction data as [|b data IH]; intros ctx Hc; [exact Hc|].
  cbn [fold_left]. apply IH. unfold update_byte. case_decide; [|exact Hc]. apply flush_length.
  exact Hc.
Qed.

Lemma final_length ctx :
  length (sh_state ctx) = 8%nat -> length (a2a_sha256_final ctx) = 32%nat.
Proof.
  intros Hc. unfold a2a_sha256_final. rewrite length_concat_be32.
  change 32%nat with (4 * 8)%nat. f_equal. apply transform_length.
  case_decide; [|exact Hc]. change (length (sh_state (flush_block (zero_to 64
    (ctx <| sh_data ::= (fun d => d ++ [128]) |>)))) = 8%nat). apply flush_length. exact Hc.
Qed.

Lemma length_hmac key msg : length (a2a_hmac_sha256 key msg) = 32%nat.
Proof. apply final_length, update_state_length, update_state_length. done. Qed.
