(* ===== verification/A2aAuth.v ===== *)
(** * A2A authentication and sessions: standards/a2a/src/a2a_v03_adapter_auth.c

    The one process-wide authentication state is passed explicitly.  Arrays
    with a count are the lists of their used entries, pointers into them are
    indices.  The wall clock ([airy_time_wall_ms]) is an argument. *)

From S2P Require Export Env Sha256.
From S2P Require Import EnvInst.

Definition A2A_MAX_SESSIONS : Z := 128.
Definition A2A_MAX_TOKENS : Z := 256.
Definition A2A_AUTH_TOKEN_SIZE : Z := 64.
Definition A2A_AUTH_SECRET_MAX_LEN : Z := 128.
Definition A2A_SESSION_ID_SIZE : nat := 36.
Definition A2A_MAX_FAILED_AUTH_ATTEMPTS : Z := 5.
Definition A2A_TOKEN_EXPIRY_SEC : Z := 3600.

Inductive a2a_auth_method_t :=
| A2A_AUTH_NONE
| A2A_AUTH_API_KEY
| A2A_AUTH_HMAC_SHA256
| A2A_AUTH_JWT_BEARER.

Inductive a2a_crypto_method_t :=
| A2A_CRYPTO_NONE
| A2A_CRYPTO_AES_128_GCM
| A2A_CRYPTO_AES_256_GCM.

#[export] Instance auth_method_eq_dec : EqDecision a2a_auth_method_t.
Proof. solve_decision. Defined.
#[export] Instance crypto_method_eq_dec : EqDecision a2a_crypto_method_t.
Proof. solve_decision. Defined.

Record a2a_auth_token_t := mkToken {
  at_agent_id : bytes;
  at_token : bytes;
  at_issued_at : Z;
  at_expires_at : Z;
  at_permissions : Z;
  at_valid : bool
}.

#[export] Instance eta_token : Eta a2a_auth_token_t := fun t =>
  mkToken (at_agent_id t) (at_token t) (at_issued_at t) (at_expires_at t) (at_permissions t)
    (at_valid t).

Definition token_zero : a2a_auth_token_t := mkToken [] [] 0 0 0 false.

Record a2a_session_t := mkSession {
  as_session_id : bytes;
  as_remote_agent_id : bytes;
  as_auth_method : a2a_auth_method_t;
  as_crypto_method : a2a_crypto_method_t;
  as_created_at : Z;
  as_last_activity : Z;
  as_request_count : Z;
  as_authenticated : bool;
  as_encrypted : bool
}.

#[export] Instance eta_session : Eta a2a_session_t := fun s =>
  mkSession (as_session_id s) (as_remote_agent_id s) (as_auth_method s) (as_crypto_method s)
    (as_created_at s) (as_last_activity s) (as_request_count s) (as_authenticated s)
    (as_encrypted s).

Definition session_zero : a2a_session_t :=
  mkSession [] [] A2A_AUTH_NONE A2A_CRYPTO_NONE 0 0 0 false false.

(** [ac_shared_secret] is the whole array of 128 bytes. *)
Record a2a_auth_config_t := mkAuthConfig {
  ac_method : a2a_auth_method_t;
  ac_shared_secret : bytes;
  ac_secret_len : Z;
  ac_require_auth : bool;
  ac_max_failed_attempts : Z;
  ac_token_ttl_sec : Z;
  ac_max_sessions : Z
}.

#[export] Instance eta_auth_config : Eta a2a_auth_config_t := fun c =>
  mkAuthConfig (ac_method c) (ac_shared_secret c) (ac_secret_len c) (ac_require_auth c)
    (ac_max_failed_attempts c) (ac_token_ttl_sec c) (ac_max_sessions c).

Record a2a_auth_state_t := mkAuth {
  au_initialized : bool;
  au_config : a2a_auth_config_t;
  au_tokens : list a2a_auth_token_t;
  au_sessions : list a2a_session_t;
  au_failed_attempts : Z;
  au_lockout_until : Z
}.

#[export] Instance eta_auth : Eta a2a_auth_state_t := fun s =>
  mkAuth (au_initialized s) (au_config s) (au_tokens s) (au_sessions s) (au_failed_attempts s)
    (au_lockout_until s).

Definition config_zero : a2a_auth_config_t :=
  mkAuthConfig A2A_AUTH_NONE (replicate 128 NUL) 0 false 0 0 0.

(** The zeroed state. *)
Definition g_a2a_auth : a2a_auth_state_t := mkAuth false config_zero [] [] 0 0.

(** ** Lifecycle *)

Definition a2a_v03_auth_init `{AiryErr} (has_ctx : bool) (auth_config : option a2a_auth_config_t)
    (s : a2a_auth_state_t) : Z * a2a_auth_state_t :=
  match auth_config with
  | Some c =>
      if negb has_ctx then (AIRY_ERR_UNKNOWN, s)
      else
        let c := c <| ac_max_failed_attempts ::= (fun n =>
                        if n <=? 0 then A2A_MAX_FAILED_AUTH_ATTEMPTS else n) |>
                   <| ac_token_ttl_sec ::= (fun n =>
                        if n =? 0 then A2A_TOKEN_EXPIRY_SEC else n) |>
                   <| ac_max_sessions ::= (fun n => if n =? 0 then A2A_MAX_SESSIONS else n) |> in
        (0, mkAuth true c [] [] 0 0)
  | None => (AIRY_ERR_UNKNOWN, s)
  end.

Definition a2a_v03_auth_shutdown (has_ctx : bool) (s : a2a_auth_state_t) : a2a_auth_state_t :=
  if has_ctx then g_a2a_auth else s.

(** ** Tokens *)

Definition usable_secret (c : a2a_auth_config_t) : bool :=
  (0 <? ac_secret_len c) && (ac_secret_len c <=? 64).

Definition secret_key (c : a2a_auth_config_t) : list Z :=
  code <$> take (Z.to_nat (ac_secret_len c)) (ac_shared_secret c).

(** The bytes of a 64-bit integer, least significant first. *)
Definition le64 (n : Z) : list Z := (fun i => u8 (Z.shiftr n (Z.of_nat i * 8))) <$> seq 0 8.

Definition shuffled_byte (src : bytes) (timestamp i : Z) : Z :=
  u8 (Z.lxor (Z.lxor (Z.lxor (a2a_simple_hash src) (Z.shiftr timestamp (i mod 8)))
                     (u8 (i * 37 + 0xAB)))
             (u8 (Z.land (u64 (timestamp * (i + 1))) 0xFF))).

(** The [token] array of the structure is followed by four bytes of padding. *)
Definition token_padding : Z := 4.

Definition a2a_generate_token_string (s : a2a_auth_state_t) (buf_size : Z)
    (agent_id : option bytes) (timestamp : Z) : outcome bytes :=
  let src := take 32 (default "anonymous"%cs agent_id) in
  let raw :=
    if au_initialized s && usable_secret (au_config s)
    then a2a_hmac_sha256 (secret_key (au_config s)) ((code <$> src) ++ le64 timestamp)
    else (fun i => shuffled_byte src timestamp (Z.of_nat i)) <$> seq 0 32 in
  text ← a2a_hex_encode raw buf_size token_padding;
  Done (if 0 <? buf_size then take (Z.to_nat (buf_size - 1)) text else text).

(** ** Authentication *)

Definition cred_valid (c : a2a_auth_config_t) (agent_id credential : bytes) : outcome bool :=
  match ac_method c with
  | A2A_AUTH_API_KEY =>
      if strlen credential =? ac_secret_len c then
        if A2A_AUTH_SECRET_MAX_LEN <? ac_secret_len c then Fault
        else Done (a2a_const_time_eq (code <$> credential) (code <$> ac_shared_secret c)
                     (Z.to_nat (ac_secret_len c)))
      else Done false
  | A2A_AUTH_HMAC_SHA256 =>
      if (ac_secret_len c <=? 0) || (64 <? ac_secret_len c) then Done false
      else
        let expect := a2a_hmac_sha256 (secret_key c) (code <$> agent_id) in
        expect_hex ← a2a_hex_encode expect 65 0;
        Done ((strlen credential =? 64)
              && a2a_const_time_eq (code <$> expect_hex) (code <$> credential) 64)
  | A2A_AUTH_NONE | A2A_AUTH_JWT_BEARER => Done true
  end.

Definition note_failure (now : Z) (s : a2a_auth_state_t) : a2a_auth_state_t :=
  let s := s <| au_failed_attempts ::= Z.add 1 |> in
  if ac_max_failed_attempts (au_config s) <=? au_failed_attempts s
  then s <| au_lockout_until := u64 (now + 300) |> <| au_failed_attempts := 0 |>
  else s.

(** The stored token is returned as its index. *)
Definition a2a_v03_authenticate `{AiryErr} `{AiryString} (s : a2a_auth_state_t) (has_ctx : bool)
    (agent_id credential : option bytes) (has_out : bool) (now_ms : Z)
    : outcome (Z * a2a_auth_state_t * option nat) :=
  match agent_id, credential with
  | Some agent_id, Some credential =>
      if negb (has_ctx && has_out) then Done (AIRY_ERR_UNKNOWN, s, None)
      else if negb (au_initialized s) then Done (AIRY_ERR_STATE_ERROR, s, None)
      else
        let now := now_ms `div` 1000 in
        if (0 <? au_lockout_until s) && (now <? au_lockout_until s)
        then Done (AIRY_ERR_PERMISSION_DENIED, s, None)
        else
          ok ← cred_valid (au_config s) agent_id credential;
          if negb ok then Done (AIRY_ERR_BUFFER_TOO_SMALL, note_failure now s, None)
          else
            let s := s <| au_failed_attempts := 0 |> in
            let s := if A2A_MAX_TOKENS <=? lenZ (au_tokens s)
                     then s <| au_tokens ::= drop 1 |> else s in
            text ← a2a_generate_token_string s A2A_AUTH_TOKEN_SIZE (Some agent_id) now;
            let tok := mkToken (AIRY_STRNCPY_TERM agent_id A2A_SESSION_ID_SIZE) text now
                         (u64 (now + ac_token_ttl_sec (au_config s))) 0xFFFFFFFF true in
            Done (0, s <| au_tokens ::= (fun l => l ++ [tok]) |>, Some (length (au_tokens s)))
  | _, _ => Done (AIRY_ERR_UNKNOWN, s, None)
  end.

Definition token_match (token_str : bytes) (t : a2a_auth_token_t) : bool :=
  at_valid t && streq (at_token t) token_str.

Definition a2a_v03_verify_token `{AiryErr} (s : a2a_auth_state_t) (has_ctx : bool)
    (token_str : option bytes) (has_out : bool) (now_ms : Z)
    : Z * a2a_auth_state_t * option nat :=
  match token_str with
  | Some str =>
      if negb (has_ctx && has_out) then (AIRY_ERR_UNKNOWN, s, None)
      else if negb (au_initialized s) then (AIRY_ERR_STATE_ERROR, s, None)
      else
        let now := now_ms `div` 1000 in
        match find_idx (token_match str) (au_tokens s) with
        | None => (AIRY_ERR_UNKNOWN, s, None)
        | Some i =>
            match au_tokens s !! i with
            | Some t =>
                if at_expires_at t <=? now
                then (AIRY_ERR_UNKNOWN, s <| au_tokens ::= <[i := t <| at_valid := false |>]> |>,
                      None)
                else (0, s, Some i)
            | None => (AIRY_ERR_UNKNOWN, s, None)
            end
        end
  | None => (AIRY_ERR_UNKNOWN, s, None)
  end.

Definition a2a_v03_invalidate_token `{AiryErr} (s : a2a_auth_state_t) (has_ctx : bool)
    (token_str : option bytes) : Z * a2a_auth_state_t :=
  match token_str with
  | Some str =>
      if negb has_ctx then (AIRY_ERR_UNKNOWN, s)
      else
        match find_idx (token_match str) (au_tokens s) with
        | Some i => (0, s <| au_tokens ::= <[i := token_zero]> |>)
        | None => (AIRY_ERR_NULL_POINTER, s)
        end
  | None => (AIRY_ERR_UNKNOWN, s)
  end.

(** ** Signatures *)

Definition sign_data (method params_json : bytes) (token_str : option bytes) : bytes :=
  method ++ "|"%cs ++ params_json ++ "|"%cs ++ default [] token_str.

Definition hash_signature (data : bytes) : bytes :=
  let hash := a2a_simple_hash data in
  hex 8 hash ++ hex 8 (Z.lxor hash 0xA5A5A5A5) ++ hex 8 (Z.lxor hash 0x5A5A5A5A)
  ++ hex 8 (Z.lxor hash 0x12345678).

Definition mac_signature (c : a2a_auth_config_t) (data : bytes) (sig_buf_size : Z)
    : outcome (option bytes) :=
  text ← a2a_hex_encode (a2a_hmac_sha256 (secret_key c) (code <$> data)) sig_buf_size 0;
  Done (Some text).

(** The string left in the caller's buffer, [None] for a null result. *)
Definition a2a_v03_sign_request (s : a2a_auth_state_t) (has_ctx : bool)
    (method params_json token_str : option bytes) (has_out : bool) (sig_buf_size : Z)
    : outcome (option bytes) :=
  match method, params_json with
  | Some method, Some params =>
      if negb (has_ctx && has_out) || (sig_buf_size <? 65) then Done None
      else if negb (au_initialized s) then Done None
      else
        let data := sign_data method params token_str in
        if 4096 <=? strlen data then Done None
        else
          let c := au_config s in
          if bool_decide (ac_method c = A2A_AUTH_HMAC_SHA256) && usable_secret c
          then mac_signature c data sig_buf_size
          else if usable_secret c then mac_signature c data sig_buf_size
          else Done (Some (take (Z.to_nat (sig_buf_size - 1)) (hash_signature data)))
  | _, _ => Done None
  end.

(** [expected] holds what was signed and its NUL; the rest of it is not
    initialised. *)
Definition a2a_v03_verify_signature `{AiryErr} (s : a2a_auth_state_t) (has_ctx : bool)
    (method params_json signature token_str : option bytes) : outcome Z :=
  match method, params_json, signature with
  | Some _, Some _, Some sig =>
      if negb has_ctx then Done AIRY_ERR_UNKNOWN
      else
        signed ← a2a_v03_sign_request s has_ctx method params_json token_str true 65;
        match signed with
        | None => Done AIRY_ERR_NULL_POINTER
        | Some expected =>
            if 64 <=? strlen sig then
              if strlen expected <? 63 then Fault
              else if a2a_const_time_eq (code <$> expected ++ [NUL]) (code <$> sig) 64 then Done 0
              else Done AIRY_ERR_UNKNOWN
            else Done AIRY_ERR_UNKNOWN
        end
  | _, _, _ => Done AIRY_ERR_UNKNOWN
  end.

(** ** Sessions *)

(** The first of the sessions with the least activity time. *)
Fixpoint oldest_from (l : list a2a_session_t) (i oldest_idx : nat) (oldest_time : Z) : nat :=
  match l with
  | [] => oldest_idx
  | x :: r =>
      if as_last_activity x <? oldest_time then oldest_from r (S i) i (as_last_activity x)
      else oldest_from r (S i) oldest_idx oldest_time
  end.

(** The oldest session's slot is taken by the last one. *)
Definition evict_oldest (l : list a2a_session_t) : list a2a_session_t :=
  let oldest := oldest_from l 0 0 (2 ^ 64 - 1) in
  match last l with
  | Some z => removelast (<[oldest := z]> l)
  | None => l
  end.

Definition session_id_of (remote_agent_id : bytes) (now : Z) : bytes :=
  fits A2A_SESSION_ID_SIZE
    ("sess_"%cs ++ remote_agent_id ++ "_"%cs ++ dec (now `div` 1000) ++ "_"%cs
     ++ hex 8 (a2a_simple_hash remote_agent_id)).

Definition a2a_v03_create_session `{AiryErr} `{AiryString} (s : a2a_auth_state_t) (has_ctx : bool)
    (remote_agent_id : option bytes) (auth_method : a2a_auth_method_t)
    (crypto_method : a2a_crypto_method_t) (has_out : bool) (now : Z)
    : outcome (Z * a2a_auth_state_t * option nat) :=
  match remote_agent_id with
  | Some remote =>
      if negb (has_ctx && has_out) then Done (AIRY_ERR_UNKNOWN, s, None)
      else if negb (au_initialized s) then Done (AIRY_ERR_STATE_ERROR, s, None)
      else
        let s := if ac_max_sessions (au_config s) <=? lenZ (au_sessions s)
                 then s <| au_sessions ::= evict_oldest |> else s in
        if A2A_MAX_SESSIONS <=? lenZ (au_sessions s) then Fault
        else
          let sess := mkSession (session_id_of remote now) (AIRY_STRNCPY_TERM remote 64%nat)
                        auth_method crypto_method now now 0
                        (negb (bool_decide (auth_method = A2A_AUTH_NONE)))
                        (negb (bool_decide (crypto_method = A2A_CRYPTO_NONE))) in
          Done (0, s <| au_sessions ::= (fun l => l ++ [sess]) |>, Some (length (au_sessions s)))
  | None => Done (AIRY_ERR_UNKNOWN, s, None)
  end.

Definition session_match (session_id : bytes) (x : a2a_session_t) : bool :=
  strneq A2A_SESSION_ID_SIZE (as_session_id x) session_id.

Definition a2a_v03_validate_session `{AiryErr} (s : a2a_auth_state_t) (has_ctx : bool)
    (session_id : option bytes) (has_out : bool) (now : Z) : Z * a2a_auth_state_t * option nat :=
  match session_id with
  | Some id =>
      if negb (has_ctx && has_out) then (AIRY_ERR_UNKNOWN, s, None)
      else
        match find_idx (session_match id) (au_sessions s) with
        | None => (AIRY_ERR_UNKNOWN, s, None)
        | Some i =>
            match au_sessions s !! i with
            | None => (AIRY_ERR_UNKNOWN, s, None)
            | Some x =>
                let age_sec := u64 (now - as_created_at x) `div` 1000 in
                if ac_token_ttl_sec (au_config s) * 2 <? age_sec
                then (AIRY_ERR_STATE_ERROR, s <| au_sessions ::= <[i := session_zero]> |>, None)
                else (0, s <| au_sessions ::= <[i := x <| as_last_activity := now |>
                              <| as_request_count ::= (fun n => u64 (n + 1)) |>]> |>, Some i)
            end
        end
  | None => (AIRY_ERR_UNKNOWN, s, None)
  end.

Definition a2a_v03_destroy_session (s : a2a_auth_state_t) (has_ctx : bool)
    (session_id : option bytes) : a2a_auth_state_t :=
  match session_id with
  | Some id =>
      if negb has_ctx then s
      else match find_idx (session_match id) (au_sessions s) with
           | Some i => s <| au_sessions ::= <[i := session_zero]> |>
           | None => s
           end
  | None => s
  end.

Definition a2a_v03_get_active_session_count (s : a2a_auth_state_t) : Z := lenZ (au_sessions s).

Definition a2a_auth_method_string (method : a2a_auth_method_t) : bytes :=
  match method with
  | A2A_AUTH_NONE => "none"%cs
  | A2A_AUTH_API_KEY => "api_key"%cs
  | A2A_AUTH_HMAC_SHA256 => "hmac-sha256"%cs
  | A2A_AUTH_JWT_BEARER => "jwt-bearer"%cs
  end.

Definition a2a_crypto_method_string (method : a2a_crypto_method_t) : bytes :=
  match method with
  | A2A_CRYPTO_NONE => "none"%cs
  | A2A_CRYPTO_AES_128_GCM => "aes-128-gcm"%cs
  | A2A_CRYPTO_AES_256_GCM => "aes-256-gcm"%cs
  end.

(** ** Credentials *)

#[local] Opaque a2a_hmac_sha256.
#[local] Arguments a2a_const_time_eq : simpl never.
#[local] Arguments hex_byte : simpl never.
#[local] Arguments a2a_v03_authenticate : simpl never.
#[local] Arguments u64 : simpl never.

(** The secret is an array of 128 bytes of which [secret_len] count. *)
Definition secret_ok (c : a2a_auth_config_t) : Prop :=
  length (ac_shared_secret c) = 128%nat /\ 0 <= ac_secret_len c <= 128.

(** The MAC of a text under the configured secret, in hexadecimal. *)
Definition mac_hex (c : a2a_auth_config_t) (data : bytes) : bytes :=
  concat (hex_byte <$> a2a_hmac_sha256 (secret_key c) (code <$> data)).

Lemma length_mac_hex c data : length (mac_hex c data) = 64%nat.
Proof. unfold mac_hex. by rewrite length_hex_bytes, length_hmac. Qed.

Lemma mac_encoded c data size :
  65 <= size -> a2a_hex_encode (a2a_hmac_sha256 (secret_key c) (code <$> data)) size 0
                = Done (mac_hex c data).
Proof.
  intros ?. unfold mac_hex. rewrite hex_encode_fits; [reflexivity|].
  unfold lenZ. rewrite length_hmac. lia.
Qed.

Lemma code_eq_spec (a b : bytes) len :
  (len <= length a)%nat -> (len <= length b)%nat ->
  a2a_const_time_eq (code <$> a) (code <$> b) len = bool_decide (take len a = take len b).
Proof.
  intros Ha Hb. apply eq_true_iff_eq. rewrite bool_decide_eq_true.
  rewrite const_time_eq_spec by (rewrite ?length_fmap; done || apply code_bytes).
  rewrite <- !fmap_take. split; [apply fmap_code_inj|by intros ->].
Qed.

(** The credential the method asks for. *)
Definition right_credential (c : a2a_auth_config_t) (agent_id credential : bytes) : Prop :=
  match ac_method c with
  | A2A_AUTH_API_KEY => credential = take (Z.to_nat (ac_secret_len c)) (ac_shared_secret c)
  | A2A_AUTH_HMAC_SHA256 => usable_secret c = true /\ credential = mac_hex c agent_id
  | A2A_AUTH_NONE | A2A_AUTH_JWT_BEARER => True
  end.

#[local] Instance right_credential_dec c a cr : Decision (right_credential c a cr).
Proof. unfold right_credential. destruct (ac_method c); apply _. Defined.

Lemma cred_valid_spec c a cr :
  secret_ok c ->
  exists ok, cred_valid c a cr = Done ok /\ (ok = true <-> right_credential c a cr).
Proof.
  intros [Hs Hl]. unfold cred_valid, right_credential. destruct (ac_method c) eqn:Hm.
  - by exists true.
  - unfold strlen, lenZ. set (n := Z.to_nat (ac_secret_len c)).
    destruct (Z.eqb_spec (Z.of_nat (length cr)) (ac_secret_len c)) as [He|Hne].
    + rewrite (proj2 (Z.ltb_ge _ _)) by (unfold A2A_AUTH_SECRET_MAX_LEN; lia).
      rewrite code_eq_spec by lia. rewrite (take_ge cr) by lia.
      eexists. split; [reflexivity|]. by rewrite bool_decide_eq_true.
    + eexists. split; [reflexivity|]. split; [done|]. intros ->. exfalso. apply Hne.
      rewrite length_take. lia.
  - unfold usable_secret. destruct (Z.leb_spec (ac_secret_len c) 0); cbn [orb].
    { eexists. split; [reflexivity|]. rewrite (proj2 (Z.ltb_ge _ _)) by lia. naive_solver. }
    destruct (Z.ltb_spec 64 (ac_secret_len c)).
    { eexists. split; [reflexivity|]. rewrite (proj2 (Z.leb_gt _ _)), andb_false_r by lia.
      naive_solver. }
    rewrite mac_encoded by lia. cbn [mbind outcome_bind]. eexists. split; [reflexivity|].
    pose proof (length_mac_hex c a) as Hml. unfold strlen, lenZ.
    rewrite (proj2 (Z.ltb_lt 0 (ac_secret_len c))) by lia.
    rewrite (proj2 (Z.leb_le (ac_secret_len c) 64)) by lia. cbn [andb].
    rewrite andb_true_iff, Z.eqb_eq. split.
    + intros [He Hc]. split; [done|]. rewrite code_eq_spec in Hc by lia.
      apply bool_decide_eq_true in Hc. by rewrite !take_ge in Hc by lia.
    + intros [_ ->]. rewrite code_eq_spec by lia. rewrite bool_decide_eq_true. split; [lia|reflexivity].
  - by exists true.
Qed.

Lemma shuffled_length src ts : length ((fun i => shuffled_byte src ts (Z.of_nat i)) <$> seq 0 32) = 32%nat.
Proof. by rewrite length_fmap, length_seq. Qed.

(** Tokens are 62 digits: the loop of the encoder stops one byte early. *)
Lemma generate_token s agent ts :
  exists text, a2a_generate_token_string s A2A_AUTH_TOKEN_SIZE agent ts = Done text /\
    length text = 62%nat.
Proof.
  unfold a2a_generate_token_string. match goal with |- context [a2a_hex_encode ?r _ _] => set (raw := r) end.
  assert (length raw = 32%nat) as Hraw.
  { subst raw. destruct (_ && _); [apply length_hmac|apply shuffled_length]. }
  unfold a2a_hex_encode, A2A_AUTH_TOKEN_SIZE, token_padding, lenZ. rewrite Hraw.
  cbn [mbind outcome_bind]. eexists. split; [reflexivity|].
  change (Z.to_nat ((64 - 1) `div` 2)) with 31%nat. change (0 <? 64) with true. cbv iota.
  rewrite length_take, length_hex_bytes, length_take. lia.
Qed.

(** ** Authentication *)

Definition locked (s : a2a_auth_state_t) (now_ms : Z) : Prop :=
  0 < au_lockout_until s /\ now_ms `div` 1000 < au_lockout_until s.

#[local] Instance locked_dec s now : Decision (locked s now).
Proof. unfold locked. apply _. Defined.

Section auth.
Context `{AiryErr} `{AiryString}.

Lemma authenticate_locked s a cr now :
  au_initialized s = true -> locked s now ->
  a2a_v03_authenticate s true (Some a) (Some cr) true now
  = Done (AIRY_ERR_PERMISSION_DENIED, s, None).
Proof.
  intros Hi [Hpos Hn]. unfold a2a_v03_authenticate. cbn [andb negb]. rewrite Hi. cbn [negb].
  by rewrite (proj2 (Z.ltb_lt _ _) Hpos), (proj2 (Z.ltb_lt _ _) Hn).
Qed.

Lemma authenticate_open s a cr now :
  au_initialized s = true -> secret_ok (au_config s) -> ~ locked s now ->
  a2a_v03_authenticate s true (Some a) (Some cr) true now
  = if decide (right_credential (au_config s) a cr) then
      let s := s <| au_failed_attempts := 0 |> in
      let s := if A2A_MAX_TOKENS <=? lenZ (au_tokens s) then s <| au_tokens ::= drop 1 |> else s in
      text ← a2a_generate_token_string s A2A_AUTH_TOKEN_SIZE (Some a) (now `div` 1000);
      let tok := mkToken (AIRY_STRNCPY_TERM a A2A_SESSION_ID_SIZE) text (now `div` 1000)
                   (u64 (now `div` 1000 + ac_token_ttl_sec (au_config s))) 0xFFFFFFFF true in
      Done (0, s <| au_tokens ::= (fun l => l ++ [tok]) |>, Some (length (au_tokens s)))
    else Done (AIRY_ERR_BUFFER_TOO_SMALL, note_failure (now `div` 1000) s, None).
Proof.
  intros Hi Hs Hl. unfold a2a_v03_authenticate. cbn [andb negb]. rewrite Hi. cbn [negb].
  assert ((0 <? au_lockout_until s) && (now `div` 1000 <? au_lockout_until s) = false) as ->.
  { apply not_true_iff_false. rewrite andb_true_iff, !Z.ltb_lt. exact Hl. }
  destruct (cred_valid_spec (au_config s) a cr Hs) as (ok & -> & Hok).
  cbn [mbind outcome_bind]. destruct ok; cbn [negb].
  - rewrite decide_True by (by apply Hok). reflexivity.
  - rewrite decide_False by (intros Hr; by apply Hok in Hr). reflexivity.
Qed.

(** A run of attempts: agent, credential, time. *)
Fixpoint attempts (l : list (bytes * bytes * Z)) (s : a2a_auth_state_t)
    : outcome (list Z * a2a_auth_state_t) :=
  match l with
  | [] => Done ([], s)
  | (a, cr, now) :: r =>
      '(rc, s, _) ← a2a_v03_authenticate s true (Some a) (Some cr) true now;
      '(rcs, s) ← attempts r s;
      Done (rc :: rcs, s)
  end.

Lemma attempts_wrong l s :
  au_initialized s = true -> secret_ok (au_config s) ->
  au_failed_attempts s + lenZ l < ac_max_failed_attempts (au_config s) ->
  Forall (fun '(a, cr, now) => ~ right_credential (au_config s) a cr /\ ~ locked s now) l ->
  attempts l s
  = Done (replicate (length l) AIRY_ERR_BUFFER_TOO_SMALL,
          s <| au_failed_attempts ::= Z.add (lenZ l) |>).
Proof.
  revert s. induction l as [|[[a cr] now] l IH]; intros s Hi Hs Hf Hl.
  - cbn. by destruct s.
  - apply Forall_cons in Hl as [[Hw Ho] Hl]. rewrite lenZ_cons in Hf. pose proof (lenZ_nonneg l).
    cbn [attempts]. rewrite authenticate_open, decide_False by done. cbn [mbind outcome_bind].
    unfold note_failure. cbn -[Z.add Z.leb lenZ]. rewrite (proj2 (Z.leb_gt _ _)) by lia.
    rewrite IH; [|done|done|cbn -[Z.add lenZ]; lia|exact Hl].
    cbn [mbind outcome_bind length replicate]. f_equal. f_equal. destruct s.
    cbn -[Z.add lenZ]. f_equal. rewrite lenZ_cons. lia.
Qed.
End auth.

(** C19. Lockout.  When as many attempts in a row as the configuration allows
    carry wrong credentials, each is refused, no token is issued, and from then
    on every attempt - with whatever agent and credential, right ones included
    - is refused for 300 seconds without changing anything. *)
Theorem auth_lockout `{AiryErr} `{AiryString} s l a0 cr0 t :
  au_initialized s = true -> secret_ok (au_config s) -> au_failed_attempts s = 0 ->
  ac_max_failed_attempts (au_config s) = lenZ l + 1 ->
  Forall (fun '(a, cr, now) => ~ right_credential (au_config s) a cr /\ ~ locked s now)
    (l ++ [(a0, cr0, t)]) ->
  exists s', attempts (l ++ [(a0, cr0, t)]) s
             = Done (replicate (length l + 1) AIRY_ERR_BUFFER_TOO_SMALL, s') /\
    au_tokens s' = au_tokens s /\ au_lockout_until s' = u64 (t `div` 1000 + 300) /\
    forall a cr now, 0 <= now -> now `div` 1000 < u64 (t `div` 1000 + 300) ->
      a2a_v03_authenticate s' true (Some a) (Some cr) true now
      = Done (AIRY_ERR_PERMISSION_DENIED, s', None).
Proof.
  intros Hi Hs Hf Hm Hl. apply Forall_app in Hl as [Hl [[Hw Ho] _]%Forall_cons].
  assert (forall l2 s1 rcs s2, attempts l s1 = Done (rcs, s2) ->
    attempts (l ++ l2) s1 = ('(rcs2, s3) ← attempts l2 s2; Done (rcs ++ rcs2, s3))) as Happ.
  { clear. induction l as [|[[a cr] now] l IH]; intros l2 s1 rcs s2; cbn [attempts app].
    - intros [<- <-]%Done_inj%pair_equal_spec. by destruct (attempts l2 s1) as [[? ?]|].
    - destruct (a2a_v03_authenticate _ _ _ _ _ _) as [[[rc s'] o]|]; cbn [mbind outcome_bind]; [|done].
      destruct (attempts l s') as [[rcs' s'']|] eqn:E; cbn [mbind outcome_bind]; [|done].
      intros [<- <-]%Done_inj%pair_equal_spec. rewrite (IH _ _ _ _ E).
      by destruct (attempts l2 s'') as [[? ?]|]. }
  erewrite Happ; [|apply attempts_wrong; [done|done|lia|exact Hl]].
  set (s1 := s <| au_failed_attempts ::= Z.add (lenZ l) |>).
  cbn [attempts]. rewrite authenticate_open, decide_False; [|exact Hw|exact Hi|exact Hs|exact Ho].
  cbn [mbind outcome_bind]. eexists. split; [rewrite replicate_add; reflexivity|].
  unfold note_failure. subst s1. cbn -[Z.add Z.leb lenZ Z.div Z.mul].
  rewrite (proj2 (Z.leb_le _ _)) by lia. cbn -[Z.add Z.leb lenZ Z.div Z.mul].
  split; [done|]. split; [done|]. intros a cr now Hnow Hn. apply authenticate_locked; [done|].
  split; [|exact Hn]. cbn -[Z.div]. pose proof (Z.div_pos now 1000 Hnow ltac:(lia)). lia.
Qed.

Definition test_secret (s : bytes) : bytes := s ++ replicate (128 - length s) NUL.

Definition test_config (m : a2a_auth_method_t) (secret : bytes) (max_failed : Z) : a2a_auth_config_t :=
  mkAuthConfig m (test_secret secret) (lenZ secret) true max_failed 3600 4.

Definition test_auth (m : a2a_auth_method_t) (secret : bytes) (max_failed : Z) : a2a_auth_state_t :=
  mkAuth true (test_config m secret max_failed) [] [] 0 0.

Lemma auth_lockout_witness :
  let s := test_auth A2A_AUTH_API_KEY "key"%cs 2 in
  exists s', @attempts inst_err inst_string
      [("a"%cs, "bad"%cs, 1000); ("b"%cs, "kex"%cs, 5000)] s
    = Done (replicate 2 (@AIRY_ERR_BUFFER_TOO_SMALL inst_err), s') /\
    au_tokens s' = au_tokens s /\ au_lockout_until s' = u64 (5000 `div` 1000 + 300) /\
    forall a cr now, 0 <= now -> now `div` 1000 < u64 (5000 `div` 1000 + 300) ->
      @a2a_v03_authenticate inst_err inst_string s' true (Some a) (Some cr) true now
      = Done (@AIRY_ERR_PERMISSION_DENIED inst_err, s', None).
Proof.
  intros s. apply (@auth_lockout inst_err inst_string s [("a"%cs, "bad"%cs, 1000)] "b"%cs "kex"%cs 5000).
  - reflexivity.
  - split; [reflexivity | by vm_compute].
  - reflexivity.
  - reflexivity.
  - repeat apply Forall_cons_2; [split..|apply Forall_nil_2]; intros Hx; vm_compute in Hx;
      [discriminate | by destruct Hx | discriminate | by destruct Hx].
Defined.

(** ** Tokens *)

Lemma find_last {A} (p : A -> bool) (l : list A) x :
  Forall (fun y => p y = false) l -> p x = true -> find_idx p (l ++ [x]) = Some (length l).
Proof. intros Hl Hx. rewrite find_idx_app_r by done. cbn. rewrite Hx. cbn. f_equal. lia. Qed.



(** ** Signatures *)

(** What a request is signed with. *)
Lemma sign_request_spec `{AiryErr} s method params token size :
  au_initialized s = true -> strlen (sign_data method params token) < 4096 -> 65 <= size ->
  a2a_v03_sign_request s true (Some method) (Some params) token true size
  = if usable_secret (au_config s)
    then Done (Some (mac_hex (au_config s) (sign_data method params token)))
    else Done (Some (hash_signature (sign_data method params token))).
Proof.
  intros Hi Hl Hsz. unfold a2a_v03_sign_request. cbn [andb negb orb].
  rewrite (proj2 (Z.ltb_ge size 65)), Hi by lia. cbn [negb].
  rewrite (proj2 (Z.leb_gt 4096 _)) by lia. unfold mac_signature. rewrite mac_encoded by lia.
  destruct (usable_secret (au_config s)).
  - by destruct (bool_decide _).
  - rewrite andb_false_r. f_equal. f_equal. apply take_ge. unfold hash_signature.
    rewrite !length_app, !length_hex. lia.
Qed.



(** ** Bounds *)

Inductive auth_op :=
| OpAuthenticate (agent_id credential : bytes) (now_ms : Z)
| OpVerify (token_str : bytes) (now_ms : Z)
| OpInvalidate (token_str : bytes)
| OpCreate (remote : bytes) (m : a2a_auth_method_t) (c : a2a_crypto_method_t) (now : Z)
| OpValidate (session_id : bytes) (now : Z)
| OpDestroy (session_id : bytes).

Section bounds.
Context `{AiryErr} `{AiryString}.

Definition auth_step (op : auth_op) (s : a2a_auth_state_t) : outcome a2a_auth_state_t :=
  match op with
  | OpAuthenticate a cr now =>
      '(_, s, _) ← a2a_v03_authenticate s true (Some a) (Some cr) true now; Done s
  | OpVerify str now => Done (a2a_v03_verify_token s true (Some str) true now).1.2
  | OpInvalidate str => Done (a2a_v03_invalidate_token s true (Some str)).2
  | OpCreate remote m c now =>
      '(_, s, _) ← a2a_v03_create_session s true (Some remote) m c true now; Done s
  | OpValidate id now => Done (a2a_v03_validate_session s true (Some id) true now).1.2
  | OpDestroy id => Done (a2a_v03_destroy_session s true (Some id))
  end.

Fixpoint auth_run (ops : list auth_op) (s : a2a_auth_state_t) : outcome a2a_auth_state_t :=
  match ops with
  | [] => Done s
  | op :: r => s ← auth_step op s; auth_run r s
  end.

Record auth_ok (c : a2a_auth_config_t) (s : a2a_auth_state_t) : Prop := {
  ok_init : au_initialized s = true;
  ok_config : au_config s = c;
  ok_secret : secret_ok c;
  ok_limit : 0 < ac_max_sessions c <= 128;
  ok_max_failed : 0 < ac_max_failed_attempts c;
  ok_failed : 0 <= au_failed_attempts s < ac_max_failed_attempts c;
  ok_tokens : lenZ (au_tokens s) <= 256;
  ok_sessions : lenZ (au_sessions s) <= ac_max_sessions c
}.

Lemma lenZ_insert {A} i (x : A) l : lenZ (<[i := x]> l) = lenZ l.
Proof. unfold lenZ. by rewrite length_insert. Qed.

Lemma evict_length l : l <> [] -> lenZ (evict_oldest l) = lenZ l - 1.
Proof.
  intros Hl. unfold evict_oldest. destruct (last l) as [z|] eqn:E.
  - unfold lenZ. destruct (exists_last (l:=<[oldest_from l 0 0 (2 ^ 64 - 1) := z]> l)) as (k & y & Hk).
    + intros Hn. apply (f_equal length) in Hn. rewrite length_insert in Hn. by destruct l.
    + pose proof (f_equal length Hk) as Hlen. rewrite length_insert, length_app in Hlen.
      rewrite Hk, removelast_last. cbn in Hlen. lia.
  - by apply last_None in E.
Qed.

Lemma auth_step_ok c op s :
  auth_ok c s -> exists s', auth_step op s = Done s' /\ auth_ok c s'.
Proof.
  intros [Hi Hc Hs Hlim Hmf Hf Ht Hss]. destruct op as [a cr now|str now|str|remote m cm now|id now|id];
    cbn [auth_step].
  - destruct (decide (locked s now)) as [Hl|Hl].
    { rewrite authenticate_locked by done. eexists. split; [reflexivity|]. by constructor. }
    rewrite authenticate_open by (rewrite ?Hc; done). case_decide as Hr; cbn zeta.
    + match goal with |- context [a2a_generate_token_string ?s1] => set (s2 := s1) end.
      destruct (generate_token s2 (Some a) (now `div` 1000)) as (text & -> & _).
      cbn [mbind outcome_bind]. eexists. split; [reflexivity|]. subst s2. unfold A2A_MAX_TOKENS.
      pose proof (lenZ_nonneg (au_tokens s)).
      case_match eqn:E; constructor; try done; cbn [upd au_tokens au_failed_attempts]; try lia;
        rewrite ?lenZ_app, lenZ_cons, lenZ_nil, ?lenZ_drop; try lia; cbn [au_tokens upd] in E |- *.
      apply Z.leb_gt in E. lia.
    + cbn [mbind outcome_bind]. eexists. split; [reflexivity|]. unfold note_failure.
      cbn -[Z.add Z.leb]. rewrite Hc.
      destruct (Z.leb_spec (ac_max_failed_attempts c) (1 + au_failed_attempts s));
        constructor; try done; cbn -[Z.add]; lia.
  - eexists. split; [reflexivity|]. unfold a2a_v03_verify_token. cbn [andb negb]. rewrite Hi. cbn [negb].
    repeat case_match; cbn [fst snd]; constructor; try done. cbn -[lenZ]. by rewrite lenZ_insert.
  - eexists. split; [reflexivity|]. unfold a2a_v03_invalidate_token. cbn [andb negb].
    repeat case_match; cbn [fst snd]; constructor; try done. cbn -[lenZ]. by rewrite lenZ_insert.
  - unfold a2a_v03_create_session. cbn [andb negb]. rewrite Hi, Hc. cbn [negb]. unfold A2A_MAX_SESSIONS.
    pose proof (lenZ_nonneg (au_sessions s)).
    destruct (Z.leb_spec (ac_max_sessions c) (lenZ (au_sessions s))) as [Hfull|Hfree].
    + assert (au_sessions s <> []) as Hne by (intros Hn; rewrite Hn, lenZ_nil in *; lia).
      cbn [upd au_sessions]. rewrite (proj2 (Z.leb_gt _ _)) by (rewrite evict_length by done; lia).
      cbn [mbind outcome_bind]. eexists. split; [reflexivity|]. constructor; try done.
      cbn -[lenZ]. rewrite lenZ_app, evict_length by done. rewrite lenZ_cons, lenZ_nil. lia.
    + rewrite (proj2 (Z.leb_gt _ _)) by lia. cbn [mbind outcome_bind]. eexists.
      split; [reflexivity|]. constructor; try done. cbn -[lenZ].
      rewrite lenZ_app, lenZ_cons, lenZ_nil. lia.
  - eexists. split; [reflexivity|]. unfold a2a_v03_validate_session. cbn [andb negb].
    repeat case_match; cbn [fst snd]; constructor; try done; cbn -[lenZ]; by rewrite lenZ_insert.
  - eexists. split; [reflexivity|]. unfold a2a_v03_destroy_session. cbn [negb].
    case_match; constructor; try done. cbn -[lenZ]. by rewrite lenZ_insert.
Qed.

Lemma auth_run_ok c ops s :
  auth_ok c s -> exists s', auth_run ops s = Done s' /\ auth_ok c s'.
Proof.
  revert s. induction ops as [|op ops IH]; intros s Hs; [by exists s|].
  destruct (auth_step_ok c op s Hs) as (s1 & H1 & Hs1). cbn [auth_run]. rewrite H1. by apply IH.
Qed.

(** Sessions pile up to the size of the array when the limit is above it. *)
Lemma sessions_pile_up n s :
  au_initialized s = true -> 128 < ac_max_sessions (au_config s) ->
  lenZ (au_sessions s) <= 128 -> lenZ (au_sessions s) + Z.of_nat n = 129 ->
  auth_run (replicate n (OpCreate "a"%cs A2A_AUTH_NONE A2A_CRYPTO_NONE 0)) s = Fault.
Proof.
  revert s. induction n as [|n IH]; intros s Hi Hm Hle Hn; [lia|].
  cbn [replicate auth_run auth_step]. unfold a2a_v03_create_session. cbn [andb negb].
  rewrite Hi. cbn [negb]. rewrite (proj2 (Z.leb_gt (ac_max_sessions _) _)) by lia.
  unfold A2A_MAX_SESSIONS. destruct (Z.leb_spec 128 (lenZ (au_sessions s))); [done|].
  cbn [mbind outcome_bind]. apply IH; [done|done|..]; cbn -[lenZ Z.of_nat];
    rewrite lenZ_app, lenZ_cons, lenZ_nil; lia.
Qed.
End bounds.


