(* ===== verification/A2aCore.v ===== *)
(** * A2A context and agents: standards/a2a/src/a2a_v03_adapter{,_agent,_internal}

    The adapter's state and the registry of agents.  The agent array keeps what
    earlier agents left in the slots past the count.  Handlers and transports
    are functions on the state [W] of the world. *)

From S2P Require Export Env.
From S2P Require Import EnvInst Unified.
From stdpp Require Import gmap.
#[local] Open Scope Z_scope.

Definition A2A_V03_VERSION : bytes := "0.3.0"%cs.
Definition A2A_VERSION : bytes := "0.3"%cs.
Definition A2A_MAX_AGENTS : Z := 256.
Definition A2A_V03_MAX_TASKS : Z := 4096.
Definition A2A_DEFAULT_TIMEOUT_MS : Z := 60000.
Definition A2A_TASK_ID_SIZE : nat := 40.

(** [a2a_capability_t], a bit mask. *)
Definition A2A_CAP_TASK_EXECUTION : Z := 0x01.
Definition A2A_CAP_STREAMING : Z := 0x02.
Definition A2A_CAP_PUSH_NOTIFICATIONS : Z := 0x04.
Definition A2A_CAP_NEGOTIATION : Z := 0x08.
Definition A2A_CAP_MULTI_TURN : Z := 0x10.
Definition A2A_CAP_STATE_TRANSITION : Z := 0x20.

(** [a2a_task_state_t]; requests may set any value of the enumeration's
    integer type. *)
Definition A2A_TASK_SUBMITTED : Z := 0.
Definition A2A_TASK_COMPLETED : Z := 3.
Definition A2A_TASK_CANCELED : Z := 4.

Inductive a2a_message_type_t :=
| A2A_MSG_TEXT
| A2A_MSG_FILE
| A2A_MSG_STRUCTURED
| A2A_MSG_ERROR.

Inductive a2a_negotiation_action_t :=
| A2A_NEGOTIATE_PROPOSE
| A2A_NEGOTIATE_ACCEPT
| A2A_NEGOTIATE_REJECT
| A2A_NEGOTIATE_COUNTER.

(** ** Data *)

Record a2a_skill_t := mkSkill {
  sk_name : option bytes;
  sk_description : option bytes;
  sk_schema_json : option bytes
}.

Record a2a_agent_card_t := mkCard {
  ca_id : option bytes;
  ca_name : option bytes;
  ca_description : option bytes;
  ca_url : option bytes;
  ca_version : option bytes;
  ca_protocol_version : Z;
  ca_capabilities : Z;
  ca_skills : list a2a_skill_t;
  ca_provider_name : option bytes;
  ca_provider_url : option bytes;
  ca_documentation_url : option bytes;
  ca_authentication_schemes_json : option bytes;
  ca_capabilities_json : option bytes;
  ca_available : bool
}.

#[export] Instance eta_card : Eta a2a_agent_card_t := fun c =>
  mkCard (ca_id c) (ca_name c) (ca_description c) (ca_url c) (ca_version c)
    (ca_protocol_version c) (ca_capabilities c) (ca_skills c) (ca_provider_name c)
    (ca_provider_url c) (ca_documentation_url c) (ca_authentication_schemes_json c)
    (ca_capabilities_json c) (ca_available c).

Definition card_zero : a2a_agent_card_t :=
  mkCard None None None None None 0 0 [] None None None None None false.

(** The entry of an agent: fixed arrays as their strings. *)
Record a2a_internal_card_t := mkInternal {
  ic_id : bytes;
  ic_name : bytes;
  ic_url : bytes;
  ic_capabilities : bytes;
  ic_version : Z;
  ic_protocol_version : Z;
  ic_available : bool;
  ic_capabilities_json : option bytes;
  ic_capabilities_mask : Z
}.

#[export] Instance eta_internal : Eta a2a_internal_card_t := fun c =>
  mkInternal (ic_id c) (ic_name c) (ic_url c) (ic_capabilities c) (ic_version c)
    (ic_protocol_version c) (ic_available c) (ic_capabilities_json c) (ic_capabilities_mask c).

Definition internal_zero : a2a_internal_card_t := mkInternal [] [] [] [] 0 0 false None 0.

Record a2a_task_t := mkTask {
  tk_id : bytes;
  tk_session_id : option bytes;
  tk_agent_id : option bytes;
  tk_state : Z;
  tk_description : option bytes;
  tk_input_json : option bytes;
  tk_output_json : option bytes;
  tk_created_at : Z;
  tk_updated_at : Z;
  tk_progress : double;
  tk_error_message : option bytes
}.

#[export] Instance eta_task : Eta a2a_task_t := fun t =>
  mkTask (tk_id t) (tk_session_id t) (tk_agent_id t) (tk_state t) (tk_description t)
    (tk_input_json t) (tk_output_json t) (tk_created_at t) (tk_updated_at t) (tk_progress t)
    (tk_error_message t).

Record a2a_message_t := mkA2aMessage {
  ms_role : option bytes;
  ms_type : a2a_message_type_t;
  ms_content_json : option bytes;
  ms_mime_type : option bytes;
  ms_file_name : option bytes;
  ms_file_data : option bytes
}.

Record a2a_negotiation_t := mkNegotiation {
  ng_action : a2a_negotiation_action_t;
  ng_task_id : option bytes;
  ng_agent_id : option bytes;
  ng_terms_json : option bytes;
  ng_counter_proposal_json : option bytes;
  ng_reason : option bytes
}.

Record a2a_notification_t := mkNotification {
  nt_event_type : option bytes;
  nt_task_id : option bytes;
  nt_agent_id : option bytes;
  nt_data_json : option bytes;
  nt_timestamp : Z
}.

Record a2a_v03_config_t := mkA2aConfig {
  af_capabilities : Z;
  af_default_timeout_ms : Z;
  af_max_agents : Z;
  af_max_tasks : Z;
  af_max_message_size : Z;
  af_enable_negotiation : bool;
  af_enable_streaming : bool;
  af_enable_push_notifications : bool;
  af_require_authentication : bool;
  af_default_authentication : option bytes
}.

#[export] Instance eta_a2a_config : Eta a2a_v03_config_t := fun c =>
  mkA2aConfig (af_capabilities c) (af_default_timeout_ms c) (af_max_agents c) (af_max_tasks c)
    (af_max_message_size c) (af_enable_negotiation c) (af_enable_streaming c)
    (af_enable_push_notifications c) (af_require_authentication c) (af_default_authentication c).

Definition a2a_config_zero : a2a_v03_config_t := mkA2aConfig 0 0 0 0 0 false false false false None.

Section context.
Context {W : Type}.

(** The new state of the task and its output. *)
Definition a2a_task_handler_t : Type := a2a_task_t -> W -> W * (Z * option bytes).
(** The code and, if the handler stores them, the responses. *)
Definition a2a_message_handler_t : Type :=
  bytes -> a2a_message_t -> W -> W * (Z * option (list a2a_message_t)).
Definition a2a_negotiation_handler_t : Type :=
  a2a_negotiation_t -> W -> W * (Z * option (a2a_negotiation_action_t * option bytes)).
Definition a2a_notification_handler_t : Type := a2a_notification_t -> W -> W.
Definition a2a_streaming_handler_t : Type := bytes -> double -> option bytes -> bool -> W -> W.
(** The first argument is the transport's context, an address. *)
Definition a2a_transport_write_fn : Type := Z -> bytes -> W -> W * Z.
(** The code and the message, if one is stored, for a timeout. *)
Definition a2a_transport_read_fn : Type := Z -> Z -> W -> W * (Z * option bytes).

Record a2a_v03_adapter_s := mkA2a {
  aa_slots : list a2a_internal_card_t;
  aa_agent_count : nat;
  aa_task_counter : Z;
  aa_active_task_count : Z;
  aa_completed_task_count : Z;
  aa_failed_task_count : Z;
  aa_total_delegation_ms : Z;
  aa_total_consensus_ms : Z;
  aa_initialized : bool;
  aa_config : a2a_v03_config_t;
  aa_tasks : list a2a_task_t;
  aa_notification_handler : option a2a_notification_handler_t;
  aa_task_handler : option a2a_task_handler_t;
  aa_message_handler : option a2a_message_handler_t;
  aa_negotiation_handler : option a2a_negotiation_handler_t;
  aa_streaming_handler : option a2a_streaming_handler_t;
  aa_transport_write : option a2a_transport_write_fn;
  aa_transport_read : option a2a_transport_read_fn;
  aa_transport_ctx : Z;
  aa_connected : bool;
  aa_bytes_sent : Z;
  aa_messages_sent : Z;
  aa_bytes_received : Z;
  aa_messages_received : Z
}.

#[global] Instance eta_a2a : Eta a2a_v03_adapter_s := fun a =>
  mkA2a (aa_slots a) (aa_agent_count a) (aa_task_counter a) (aa_active_task_count a)
    (aa_completed_task_count a) (aa_failed_task_count a) (aa_total_delegation_ms a)
    (aa_total_consensus_ms a) (aa_initialized a) (aa_config a) (aa_tasks a)
    (aa_notification_handler a) (aa_task_handler a) (aa_message_handler a)
    (aa_negotiation_handler a) (aa_streaming_handler a) (aa_transport_write a)
    (aa_transport_read a) (aa_transport_ctx a) (aa_connected a) (aa_bytes_sent a) (aa_messages_sent a)
    (aa_bytes_received a) (aa_messages_received a).

Definition adapter_zeroed : a2a_v03_adapter_s :=
  mkA2a [] 0 0 0 0 0 0 0 false a2a_config_zero [] None None None None None None None 0 false 0 0 0 0.

Definition a2a_v03_ctx_ready (a2a : option a2a_v03_adapter_s) : bool :=
  match a2a with Some a => aa_initialized a | None => false end.

(** The entries in use. *)
Definition agents (a : a2a_v03_adapter_s) : list a2a_internal_card_t :=
  take (aa_agent_count a) (aa_slots a).

(** ** Lifecycle *)

Definition a2a_v03_create `{AiryErr} (alloc : bool) (default_timeout_ms : Z)
    : Z * option a2a_v03_adapter_s :=
  if negb alloc then (AIRY_ERR_OUT_OF_MEMORY, None)
  else
    let a := adapter_zeroed in
    let a := if 0 <? default_timeout_ms
             then a <| aa_config ::= (fun c => c <| af_default_timeout_ms := default_timeout_ms |>) |>
             else a in
    (0, Some (a <| aa_agent_count := 0%nat |> <| aa_task_counter := 1 |>
                <| aa_initialized := true |>)).

Definition a2a_v03_is_initialized (handle : option a2a_v03_adapter_s) : bool :=
  match handle with Some a => aa_initialized a | None => false end.

Definition a2a_v03_version : bytes := "AgentRT-A2A/"%cs ++ A2A_VERSION.

Definition a2a_v03_config_default : a2a_v03_config_t :=
  mkA2aConfig
    (Z.lor (Z.lor (Z.lor (Z.lor (Z.lor A2A_CAP_TASK_EXECUTION A2A_CAP_STREAMING)
       A2A_CAP_NEGOTIATION) A2A_CAP_PUSH_NOTIFICATIONS) A2A_CAP_MULTI_TURN)
       A2A_CAP_STATE_TRANSITION)
    60000 256 4096 65536 true true true false None.

Definition a2a_v03_context_create `{AiryErr} (alloc : bool) (config : option a2a_v03_config_t)
    : option a2a_v03_adapter_s :=
  match config with
  | None => None
  | Some c =>
      let '(rc, handle) := a2a_v03_create alloc (af_default_timeout_ms c) in
      if negb (rc =? 0) then None else handle
  end.

Definition a2a_v03_get_agent_count (ctx : option a2a_v03_adapter_s) : Z :=
  match ctx with Some a => Z.of_nat (aa_agent_count a) | None => 0 end.

Definition a2a_v03_get_task_count (ctx : option a2a_v03_adapter_s) : Z :=
  match ctx with Some a => lenZ (aa_tasks a) | None => 0 end.

Definition a2a_v03_get_capabilities (ctx : option a2a_v03_adapter_s) : Z :=
  match ctx with Some a => af_capabilities (aa_config a) | None => 0 end.

(** ** Agents *)

(** Writing the slot at index [i], which becomes the last used one when it was
    the first free one. *)
Definition set_slot (i : nat) (c : a2a_internal_card_t) (slots : list a2a_internal_card_t)
    : list a2a_internal_card_t :=
  if decide (i < length slots)%nat then <[i := c]> slots else slots ++ [c].

Definition find_agent (a : a2a_v03_adapter_s) (id : bytes) : option nat :=
  find_idx (fun c => streq (ic_id c) id) (agents a).

(** What both branches of the registration copy. *)
Definition fill_card `{AiryString} (card : a2a_agent_card_t) (ic : a2a_internal_card_t)
    : a2a_internal_card_t :=
  let ic := ic <| ic_name := AIRY_STRNCPY_TERM (default "Unknown"%cs (ca_name card)) 128 |>
               <| ic_url := AIRY_STRNCPY_TERM (default [] (ca_url card)) 512 |> in
  let ic := match ca_capabilities_json card with
            | Some j => ic <| ic_capabilities := AIRY_STRNCPY_TERM j 1024 |>
            | None => ic
            end in
  ic <| ic_version := if 0 <? ca_protocol_version card then ca_protocol_version card else 3 |>
     <| ic_available := ca_available card |>.

Definition usable_id (card : a2a_agent_card_t) : option bytes :=
  match ca_id card with
  | Some (c :: r) => Some (c :: r)
  | _ => None
  end.

Definition a2a_v03_register_agent `{AiryErr} `{AiryString} (ctx : option a2a_v03_adapter_s)
    (card : option a2a_agent_card_t) : Z * option a2a_v03_adapter_s :=
  match ctx, card with
  | Some a, Some card =>
      if negb (a2a_v03_ctx_ready ctx) then (AIRY_ERR_STATE_ERROR, ctx)
      else
        let existing := new_id ← usable_id card; i ← find_agent a new_id;
                        c ← agents a !! i; Some (i, c) in
        match existing with
        | Some (i, ic) =>
            let ic := (fill_card card ic) <| ic_capabilities_mask ::=
                        (fun m => u32 (Z.lor m (ca_capabilities card))) |> in
            (0, Some (a <| aa_slots ::= <[i := ic]> |>))
        | None =>
            if A2A_MAX_AGENTS <=? Z.of_nat (aa_agent_count a)
            then (AIRY_ERR_BUFFER_TOO_SMALL, ctx)
            else
              let ic := default internal_zero (aa_slots a !! aa_agent_count a) in
              let '(id, counter) :=
                match usable_id card with
                | Some new_id => (AIRY_STRNCPY_TERM new_id 64, aa_task_counter a)
                | None =>
                    (fits 64 ("agent_"%cs ++ dec (Z.of_nat (aa_agent_count a) + 1) ++ "_"%cs
                              ++ dec (aa_task_counter a)),
                     u64 (aa_task_counter a + 1))
                end in
              let ic := (fill_card card (ic <| ic_id := id |>))
                          <| ic_capabilities_mask := u32 (ca_capabilities card) |> in
              (0, Some (a <| aa_task_counter := counter |>
                          <| aa_slots ::= set_slot (aa_agent_count a) ic |>
                          <| aa_agent_count ::= S |>))
        end
  | _, _ => (AIRY_ERR_UNKNOWN, ctx)
  end.

Definition discover_match (capability : option bytes) (c : a2a_internal_card_t) : bool :=
  ic_available c &&
  match capability with
  | Some (x :: r) => bool_decide (is_Some (strstr (ic_capabilities c) (x :: r)))
  | _ => true
  end.

Definition discovered_card (c : a2a_internal_card_t) : a2a_agent_card_t :=
  card_zero <| ca_id := Some (ic_id c) |> <| ca_name := Some (ic_name c) |>
            <| ca_url := Some (ic_url c) |> <| ca_capabilities_json := Some (ic_capabilities c) |>
            <| ca_protocol_version := ic_version c |>.

(** The entries filled in; those whose allocation fails are skipped.  [alloc]
    is indexed by the position among the matching agents. *)
Fixpoint discovered (alloc : nat -> bool) (k : nat) (l : list a2a_internal_card_t)
    : list a2a_agent_card_t :=
  match l with
  | [] => []
  | c :: r => (if alloc k then [discovered_card c] else []) ++ discovered alloc (S k) r
  end.

(** [alloc 0] is the array, [alloc (1 + k)] the card of the [k]-th match.  The
    result is the array, null when nothing matches, and the count. *)
Definition a2a_v03_discover_agents `{AiryErr} (alloc : nat -> bool)
    (ctx : option a2a_v03_adapter_s) (capability skill_name : option bytes) (has_out : bool)
    : Z * option (option (list (option a2a_agent_card_t)) * Z) :=
  match ctx with
  | Some a =>
      if negb has_out then (AIRY_ERR_UNKNOWN, None)
      else if negb (a2a_v03_ctx_ready ctx) then (AIRY_ERR_STATE_ERROR, None)
      else
        let matching := filter (fun c => discover_match capability c = true) (agents a) in
        let matched := length matching in
        if decide (0 < matched)%nat then
          if negb (alloc 0%nat) then (AIRY_ERR_OUT_OF_MEMORY, Some (None, 0))
          else
            let cards := discovered (fun k => alloc (S k)) 0 matching in
            (0, Some (Some ((Some <$> cards) ++ replicate (matched - length cards) None),
                      Z.of_nat matched))
        else (0, Some (None, 0))
  | None => (AIRY_ERR_UNKNOWN, None)
  end.

(** The result is the address of the static card, whose new contents come
    first; [false] is a null result. *)
Definition a2a_v03_get_agent_card (g_cached_card : a2a_agent_card_t)
    (ctx : option a2a_v03_adapter_s) (agent_id : option bytes) : a2a_agent_card_t * bool :=
  match ctx, agent_id with
  | None, None => (card_zero, false)
  | Some a, Some id =>
      if negb (aa_initialized a) then (g_cached_card, false)
      else match find_agent a id ≫= (agents a !!.) with
           | Some ic =>
               ((discovered_card ic) <| ca_capabilities := ic_capabilities_mask ic |>
                                     <| ca_available := ic_available ic |>, true)
           | None => (g_cached_card, false)
           end
  | _, _ => (g_cached_card, false)
  end.

(** The last agent takes the place of the one removed; its old slot keeps its
    contents. *)
Definition a2a_v03_unregister_agent `{AiryErr} (ctx : option a2a_v03_adapter_s)
    (agent_id : option bytes) : Z * option a2a_v03_adapter_s :=
  match ctx, agent_id with
  | Some a, Some id =>
      if negb (a2a_v03_ctx_ready ctx) then (AIRY_ERR_STATE_ERROR, ctx)
      else match find_agent a id with
           | Some i =>
               let last := (aa_agent_count a - 1)%nat in
               let a := if decide (i < last)%nat then
                          match aa_slots a !! last with
                          | Some c => a <| aa_slots ::= <[i := c]> |>
                          | None => a
                          end
                        else a in
               (0, Some (a <| aa_agent_count ::= Nat.pred |>))
           | None => (AIRY_ERR_NOT_FOUND, ctx)
           end
  | _, _ => (AIRY_ERR_UNKNOWN, ctx)
  end.

(** The static card is released as well. *)
Definition a2a_v03_ctx_clear (g_cached_card : a2a_agent_card_t) (ctx : option a2a_v03_adapter_s)
    : a2a_agent_card_t * option a2a_v03_adapter_s :=
  match ctx with
  | None => (g_cached_card, None)
  | Some a =>
      let clear c := c <| ic_capabilities_json := None |> in
      ((a2a_v03_get_agent_card g_cached_card None None).1,
       Some (a <| aa_initialized := false |>
               <| aa_slots ::= (fun l => (clear <$> take (aa_agent_count a) l)
                                         ++ drop (aa_agent_count a) l) |>
               <| aa_agent_count := 0%nat |> <| aa_tasks := [] |>))
  end.

(** The cleared context is then freed. *)
Definition a2a_v03_destroy (g_cached_card : a2a_agent_card_t) (handle : option a2a_v03_adapter_s)
    : a2a_agent_card_t :=
  (a2a_v03_ctx_clear g_cached_card handle).1.
End context.

(** ** The agents as a map *)

(** What the specification keeps of an agent. *)
Record agent_info := mkInfo {
  in_name : bytes;
  in_url : bytes;
  in_version : Z;
  in_available : bool;
  in_mask : Z
}.

Definition info_of (c : a2a_internal_card_t) : agent_info :=
  mkInfo (ic_name c) (ic_url c) (ic_version c) (ic_available c) (ic_capabilities_mask c).

Abbreviation agent_map := (gmap bytes agent_info).

Definition info_pair (c : a2a_internal_card_t) : bytes * agent_info := (ic_id c, info_of c).

Definition map_of (l : list a2a_internal_card_t) : agent_map := list_to_map (info_pair <$> l).

(** The operations of the specification. *)
Definition spec_info (card : a2a_agent_card_t) (mask : Z) : agent_info :=
  mkInfo (take 127 (default "Unknown"%cs (ca_name card))) (take 511 (default [] (ca_url card)))
    (if 0 <? ca_protocol_version card then ca_protocol_version card else 3)
    (ca_available card) mask.

Definition spec_register `{AiryErr} (id : bytes) (card : a2a_agent_card_t) (m : agent_map)
    : Z * agent_map :=
  match m !! id with
  | Some v => (0, <[id := spec_info card (u32 (Z.lor (in_mask v) (ca_capabilities card)))]> m)
  | None =>
      if 256 <=? Z.of_nat (size m) then (AIRY_ERR_BUFFER_TOO_SMALL, m)
      else (0, <[id := spec_info card (u32 (ca_capabilities card))]> m)
  end.

Definition spec_unregister `{AiryErr} (id : bytes) (m : agent_map) : Z * agent_map :=
  match m !! id with
  | Some _ => (0, delete id m)
  | None => (AIRY_ERR_NOT_FOUND, m)
  end.

Lemma map_of_fst l : (info_pair <$> l).*1 = ic_id <$> l.
Proof. induction l as [|c l IH]; [done|]. cbn. by rewrite IH. Qed.

Lemma map_of_perm l k : NoDup (ic_id <$> l) -> l ≡ₚ k -> map_of l = map_of k.
Proof.
  intros Hnd Hp. unfold map_of. apply (list_to_map_proper (M:=gmap bytes)).
  - by rewrite map_of_fst.
  - by rewrite Hp.
Qed.

Lemma map_of_cons c l : map_of (c :: l) = <[ic_id c := info_of c]> (map_of l).
Proof. done. Qed.

Lemma map_of_none id l : id ∉ (ic_id <$> l) -> map_of l !! id = None.
Proof. intros Hid. apply (not_elem_of_list_to_map_1 (M:=gmap bytes)). by rewrite map_of_fst. Qed.

Lemma map_of_size l : NoDup (ic_id <$> l) -> size (map_of l) = length l.
Proof.
  intros Hnd. unfold map_of. rewrite (map_size_list_to_map (M:=gmap bytes)) by (by rewrite map_of_fst).
  by rewrite length_fmap.
Qed.

(** Replacing the element at a position by one of the same identifier. *)
Lemma insert_perm {A} i (x y : A) l :
  l !! i = Some x -> <[i := y]> l ≡ₚ y :: remove_at i l.
Proof.
  intros Hi. pose proof (lookup_lt_Some _ _ _ Hi). unfold remove_at.
  rewrite insert_take_drop by done. by rewrite Permutation_middle.
Qed.

Section agents.
Context {W : Type} `{AiryErr} `{AiryString}.
Implicit Types (a : @a2a_v03_adapter_s W).

(** The count never exceeds the slots that were written, ids are distinct. *)
Definition agents_wf a : Prop :=
  aa_initialized a = true /\ (aa_agent_count a <= length (aa_slots a))%nat /\
  Z.of_nat (aa_agent_count a) <= 256 /\ NoDup (ic_id <$> agents a).

Lemma length_agents a : agents_wf a -> length (agents a) = aa_agent_count a.
Proof. intros (_ & Hc & _). unfold agents. rewrite length_take. lia. Qed.

Lemma find_agent_spec a id :
  match find_agent a id with
  | Some i => exists c, agents a !! i = Some c /\ ic_id c = id /\ (i < aa_agent_count a)%nat
  | None => id ∉ (ic_id <$> agents a)
  end.
Proof.
  unfold find_agent. destruct (find_idx _ _) as [i|] eqn:Hf.
  - apply find_idx_Some in Hf as [(c & Hc & Hid) _]. exists c. apply streq_true in Hid.
    split; [done|]. split; [done|]. apply lookup_lt_Some in Hc. unfold agents in Hc.
    rewrite length_take in Hc. lia.
  - apply find_idx_None in Hf. intros (c & -> & Hc)%list_elem_of_fmap.
    rewrite Forall_forall in Hf. specialize (Hf c Hc). by rewrite streq_refl in Hf.
Qed.

Lemma take_set_slot n c (slots : list a2a_internal_card_t) :
  (n <= length slots)%nat -> take (S n) (set_slot n c slots) = take n slots ++ [c].
Proof.
  intros Hn. unfold set_slot. case_decide.
  - rewrite (take_S_r _ n c) by (by apply list_lookup_insert_eq). by rewrite take_insert_ge by lia.
  - assert (n = length slots) as -> by lia. rewrite take_ge by (rewrite length_app; cbn; lia).
    by rewrite take_ge by lia.
Qed.

Lemma fill_card_info card ic :
  ic_id (fill_card card ic) = ic_id ic /\
  info_of (fill_card card ic) = spec_info card (ic_capabilities_mask ic).
Proof.
  unfold fill_card, info_of, spec_info. rewrite !strncpy_term_spec by lia.
  destruct (ca_capabilities_json card); by cbn.
Qed.

(** Registering an agent again updates its card in place. *)
Lemma register_known a card id i :
  agents_wf a -> ca_id card = Some id -> (0 < length id < 64)%nat -> find_agent a id = Some i ->
  exists rc a', a2a_v03_register_agent (Some a) (Some card) = (rc, Some a') /\ agents_wf a' /\
    spec_register id card (map_of (agents a)) = (rc, map_of (agents a')).
Proof.
  intros Hwf Hid Hlen Hfind. pose proof Hwf as (Hi & Hc & Hmax & Hnd).
  assert (usable_id card = Some id) as Hu by (unfold usable_id; rewrite Hid; by destruct id; [cbn in Hlen; lia|]).
  unfold a2a_v03_register_agent, a2a_v03_ctx_ready, spec_register. rewrite Hi, Hu. cbn [negb mbind option_bind].
  pose proof (find_agent_spec a id) as Hf. rewrite Hfind in *. cbn [mbind option_bind].
  destruct Hf as (c & Hci & Hcid & Hlt). rewrite Hci. cbn [mbind option_bind].
  set (c' := _ <| ic_capabilities_mask ::= _ |>). assert (ic_id c' = id /\ info_of c' = spec_info card
    (u32 (Z.lor (ic_capabilities_mask c) (ca_capabilities card)))) as [Hid' Hinfo].
  { subst c'. destruct (fill_card_info card c) as [H1 H2]. split; [exact (eq_trans H1 Hcid)|].
    unfold info_of in H2 |- *. unfold spec_info in *. cbn in H2 |- *. congruence. }
  clearbody c'. do 2 eexists. split; [reflexivity|].
  pose proof (remove_at_perm i _ _ Hci) as Hp.
  set (a' := _ <| aa_slots ::= _ |>).
  assert (agents a' = <[i := c']> (agents a)) as Hag.
  { unfold agents, a'. cbn. by rewrite take_insert_lt by done. }
  pose proof (insert_perm i c c' _ Hci) as Hp'. rewrite <- Hag in Hp'.
  assert (NoDup (ic_id <$> c :: remove_at i (agents a))) as Hnd1 by (by rewrite <- Hp).
  assert (NoDup (ic_id <$> c' :: remove_at i (agents a))) as Hnd2
    by (cbn; rewrite Hid', <- Hcid; exact Hnd1).
  split.
  { split; [exact Hi|]. split; [cbn; by rewrite length_insert|]. split; [exact Hmax|]. by rewrite Hp'. }
  rewrite (map_of_perm _ _ Hnd Hp), map_of_cons, Hcid, lookup_insert_eq.
  rewrite (map_of_perm (agents a') (c' :: remove_at i (agents a))) by (by rewrite ?Hp').
  by rewrite map_of_cons, Hid', Hinfo, insert_insert_eq.
Qed.

(** A new agent goes into the first free slot, if there is one. *)
Lemma register_new a card id :
  agents_wf a -> ca_id card = Some id -> (0 < length id < 64)%nat -> find_agent a id = None ->
  exists rc a', a2a_v03_register_agent (Some a) (Some card) = (rc, Some a') /\ agents_wf a' /\
    spec_register id card (map_of (agents a)) = (rc, map_of (agents a')).
Proof.
  intros Hwf Hid Hlen Hfind. pose proof Hwf as (Hi & Hc & Hmax & Hnd).
  assert (usable_id card = Some id) as Hu by (unfold usable_id; rewrite Hid; by destruct id; [cbn in Hlen; lia|]).
  unfold a2a_v03_register_agent, a2a_v03_ctx_ready, spec_register. rewrite Hi, Hu. cbn [negb mbind option_bind].
  pose proof (find_agent_spec a id) as Hf. rewrite Hfind in *. cbn [mbind option_bind].
  unfold A2A_MAX_AGENTS. rewrite map_of_none by done.
  rewrite map_of_size, length_agents by done.
  destruct (Z.leb_spec 256 (Z.of_nat (aa_agent_count a))) as [_|Hroom]; [by do 2 eexists|].
  set (c' := _ <| ic_capabilities_mask := _ |>). assert (ic_id c' = id /\ info_of c' = spec_info card
    (u32 (ca_capabilities card))) as [Hid' Hinfo].
  { subst c'. match goal with |- context [fill_card card ?x] => destruct (fill_card_info card x) as [H1 H2] end.
    split; [refine (eq_trans H1 _); cbn; rewrite strncpy_term_spec by lia; apply take_ge; lia|].
    unfold info_of in H2 |- *. unfold spec_info in *. cbn in H2 |- *. congruence. }
  clearbody c'. do 2 eexists. split; [reflexivity|].
  set (a' := _ <| aa_agent_count ::= _ |>). assert (agents a' = agents a ++ [c']) as Hag.
  { unfold agents, a'. cbn. by apply take_set_slot. }
  assert (agents a' ≡ₚ c' :: agents a) as Hp by (rewrite Hag; by rewrite Permutation_app_comm).
  assert (NoDup (ic_id <$> c' :: agents a)) as Hnd' by (cbn; rewrite Hid'; by apply NoDup_cons).
  split.
  { split; [exact Hi|]. split; [|split].
    - cbn. unfold set_slot. case_decide; rewrite ?length_insert, ?length_app; cbn; lia.
    - cbn. lia.
    - by rewrite Hp. }
  rewrite (map_of_perm (agents a') (c' :: agents a)) by (by rewrite ?Hp).
  by rewrite map_of_cons, Hid', Hinfo.
Qed.

Lemma register_refines a card id :
  agents_wf a -> ca_id card = Some id -> (0 < length id < 64)%nat ->
  exists rc a', a2a_v03_register_agent (Some a) (Some card) = (rc, Some a') /\ agents_wf a' /\
    spec_register id card (map_of (agents a)) = (rc, map_of (agents a')).
Proof.
  intros. destruct (find_agent a id) as [i|] eqn:Hf; [by eapply register_known|by apply register_new].
Qed.
End agents.

Section agents_trace.
Context {W : Type} `{AiryErr} `{AiryString}.
Implicit Types (a : @a2a_v03_adapter_s W).

Lemma unregister_refines a id :
  agents_wf a ->
  exists rc a', a2a_v03_unregister_agent (Some a) (Some id) = (rc, Some a') /\ agents_wf a' /\
    spec_unregister id (map_of (agents a)) = (rc, map_of (agents a')).
Proof.
  intros Hwf. pose proof Hwf as (Hi & Hc & Hmax & Hnd).
  unfold a2a_v03_unregister_agent, a2a_v03_ctx_ready, spec_unregister. rewrite Hi. cbn [negb].
  pose proof (find_agent_spec a id) as Hf. destruct (find_agent a id) as [i|].
  2:{ rewrite map_of_none by done. by do 2 eexists. }
  destruct Hf as (c & Hci & Hcid & Hlt). set (n := aa_agent_count a) in *.
  destruct (lookup_lt_is_Some_2 (aa_slots a) (n - 1)) as [z Hz]; [lia|].
  assert (agents a = take (n - 1) (aa_slots a) ++ [z]) as Hag.
  { unfold agents. fold n. rewrite <- (take_S_r _ _ z Hz). f_equal. lia. }
  rewrite Hz. do 2 eexists. split; [reflexivity|].
  set (a1 := if decide _ then _ else a). set (a' := a1 <| aa_agent_count ::= Nat.pred |>).
  assert (aa_initialized a' = true /\ aa_agent_count a' = (n - 1)%nat /\
          length (aa_slots a') = length (aa_slots a)) as (Hi' & Hn' & Hl').
  { unfold a', a1. case_decide; cbn; rewrite ?length_insert; (split; [exact Hi|]; split; [unfold n; lia|done]). }
  assert (agents a ≡ₚ c :: agents a') as Hp.
  { unfold agents at 2. rewrite Hn', Hag. unfold a', a1. case_decide as Hd; cbn [upd aa_slots].
    - rewrite take_insert_lt by lia. rewrite Hag, lookup_app_l in Hci by (rewrite length_take; lia).
      rewrite (remove_at_perm i _ c Hci) at 1. rewrite (insert_perm i c z _ Hci).
      cbn. rewrite Permutation_app_comm. cbn. by rewrite Permutation_swap.
    - assert (i = n - 1)%nat as -> by lia. rewrite Hag, lookup_app_r in Hci by (rewrite length_take; lia).
      rewrite length_take, Nat.min_l, Nat.sub_diag in Hci by lia. injection Hci as ->.
      by rewrite Permutation_app_comm. }
  assert (NoDup (ic_id <$> c :: agents a')) as Hnd' by (by rewrite <- Hp).
  apply NoDup_cons in Hnd' as [Hnot Hnd'].
  split.
  { split; [exact Hi'|]. rewrite Hn', Hl'. split; [lia|]. split; [lia|exact Hnd']. }
  rewrite (map_of_perm _ _ Hnd Hp), map_of_cons, Hcid, lookup_insert_eq.
  f_equal. rewrite delete_insert_eq. apply delete_id. apply map_of_none. by rewrite <- Hcid.
Qed.

(** A registration with its identifier, or a removal. *)
Inductive agent_op :=
| OpRegisterAgent (id : bytes) (card : a2a_agent_card_t)
| OpUnregisterAgent (id : bytes).

(** Identifiers of 1 to 63 characters, which the entry's array keeps whole. *)
Definition op_ok (op : agent_op) : Prop :=
  match op with
  | OpRegisterAgent id _ => (0 < length id < 64)%nat
  | OpUnregisterAgent _ => True
  end.

Definition agent_step (op : agent_op) (ctx : option a2a_v03_adapter_s) : Z * option (@a2a_v03_adapter_s W) :=
  match op with
  | OpRegisterAgent id card => a2a_v03_register_agent ctx (Some (card <| ca_id := Some id |>))
  | OpUnregisterAgent id => a2a_v03_unregister_agent ctx (Some id)
  end.

Definition spec_agent_step (op : agent_op) (m : agent_map) : Z * agent_map :=
  match op with
  | OpRegisterAgent id card => spec_register id card m
  | OpUnregisterAgent id => spec_unregister id m
  end.

Fixpoint agent_run (ops : list agent_op) (ctx : option a2a_v03_adapter_s) :=
  match ops with
  | [] => ([], ctx)
  | op :: r => let '(rc, ctx) := agent_step op ctx in
               let '(rcs, ctx) := agent_run r ctx in (rc :: rcs, ctx)
  end.

Fixpoint spec_agent_run (ops : list agent_op) (m : agent_map) : list Z * agent_map :=
  match ops with
  | [] => ([], m)
  | op :: r => let '(rc, m) := spec_agent_step op m in
               let '(rcs, m) := spec_agent_run r m in (rc :: rcs, m)
  end.

Lemma agent_run_refines ops a :
  Forall op_ok ops -> agents_wf a ->
  exists rcs a', agent_run ops (Some a) = (rcs, Some a') /\ agents_wf a' /\
    spec_agent_run ops (map_of (agents a)) = (rcs, map_of (agents a')).
Proof.
  revert a. induction ops as [|op ops IH]; intros a Hops Hwf; [by exists [], a|].
  apply Forall_cons in Hops as [Hop Hops].
  assert (exists rc a1, agent_step op (Some a) = (rc, Some a1) /\ agents_wf a1 /\
            spec_agent_step op (map_of (agents a)) = (rc, map_of (agents a1)))
    as (rc & a1 & H1 & Hwf1 & Hs1).
  { destruct op as [id card|id]; cbn [agent_step spec_agent_step].
    - destruct (register_refines a (card <| ca_id := Some id |>) id Hwf)
        as (rc & a1 & ? & ? & Hs); [by destruct card | exact Hop |]. by exists rc, a1.
    - by apply unregister_refines. }
  destruct (IH a1 Hops Hwf1) as (rcs & a2 & H2 & Hwf2 & Hs2).
  exists (rc :: rcs), a2. cbn [agent_run spec_agent_run]. by rewrite H1, H2, Hs1, Hs2.
Qed.

(** What a lookup returns is what the map holds. *)
Lemma get_card_spec a cache id :
  agents_wf a ->
  match a2a_v03_get_agent_card cache (Some a) (Some id) with
  | (card, true) =>
      ca_id card = Some id /\
      exists v, map_of (agents a) !! id = Some v /\ ca_name card = Some (in_name v) /\
        ca_url card = Some (in_url v) /\ ca_protocol_version card = in_version v /\
        ca_capabilities card = in_mask v /\ ca_available card = in_available v
  | (card, false) => map_of (agents a) !! id = None /\ card = cache
  end.
Proof.
  intros Hwf. pose proof Hwf as (Hi & _ & _ & Hnd). unfold a2a_v03_get_agent_card. rewrite Hi. cbn [negb].
  pose proof (find_agent_spec a id) as Hf. destruct (find_agent a id) as [i|]; cbn [mbind option_bind].
  - destruct Hf as (c & Hci & Hcid & _). rewrite Hci. cbn. split; [by rewrite Hcid|].
    exists (info_of c). rewrite (map_of_perm _ _ Hnd (remove_at_perm i _ _ Hci)), map_of_cons, Hcid.
    by rewrite lookup_insert_eq.
  - by rewrite map_of_none.
Qed.
End agents_trace.

(** C14. The agent registry implements a finite map.  Whatever sequence of
    registrations (with identifiers of 1 to 63 characters) and removals is run
    on a new context, the return codes are those of a map with at most 256
    keys, in which registering a known agent replaces its data and adds to its
    capability mask; identifiers stay distinct; and looking an agent up returns
    what the map holds for it. *)
Theorem agents_refine_map {W} `{AiryErr} `{AiryString} ops (a0 : @a2a_v03_adapter_s W) ms :
  a2a_v03_create true ms = (0, Some a0) -> Forall op_ok ops ->
  exists rcs a m, agent_run ops (Some a0) = (rcs, Some a) /\ spec_agent_run ops ∅ = (rcs, m) /\
    NoDup (ic_id <$> agents a) /\ aa_agent_count a = size m /\ Z.of_nat (size m) <= 256 /\
    forall cache id,
    match a2a_v03_get_agent_card cache (Some a) (Some id) with
    | (card, true) =>
        ca_id card = Some id /\
        exists v, m !! id = Some v /\ ca_name card = Some (in_name v) /\
          ca_url card = Some (in_url v) /\ ca_protocol_version card = in_version v /\
          ca_capabilities card = in_mask v /\ ca_available card = in_available v
    | (card, false) => m !! id = None /\ card = cache
    end.
Proof.
  intros Hc Hops.
  assert (agents_wf a0 /\ map_of (agents a0) = ∅) as [Hwf0 Hm0].
  { revert Hc. unfold a2a_v03_create. cbn [negb]. intros [_ [= <-]]%pair_equal_spec.
    assert (forall b : @a2a_v03_adapter_s W, aa_slots b = [] ->
      let a := b <| aa_agent_count := 0%nat |> <| aa_task_counter := 1 |> <| aa_initialized := true |> in
      agents_wf a /\ map_of (agents a) = ∅) as Hb.
    { intros b Hs a. split; [|done]. split; [done|]. cbn. split; [lia|]. split; [lia|].
      by rewrite take_0; constructor. }
    apply Hb. by case_match. }
  destruct (agent_run_refines ops a0 Hops Hwf0) as (rcs & a & Hr & Hwf & Hs).
  exists rcs, a, (map_of (agents a)). rewrite Hm0 in Hs. split; [exact Hr|]. split; [exact Hs|].
  pose proof Hwf as (_ & _ & Hmax & Hnd). split; [exact Hnd|].
  rewrite map_of_size, length_agents by done. split; [done|]. split; [lia|]. intros cache id. by apply get_card_spec.
Qed.

Lemma agents_refine_map_witness :
  let card := card_zero <| ca_name := Some "A"%cs |> <| ca_capabilities := 1 |> in
  let ops := [OpRegisterAgent "a"%cs card; OpRegisterAgent "b"%cs card;
              OpRegisterAgent "a"%cs (card <| ca_capabilities := 2 |>); OpUnregisterAgent "b"%cs] in
  exists a0 : @a2a_v03_adapter_s unit, @a2a_v03_create unit inst_err true 0 = (0, Some a0) /\
  exists rcs a m, @agent_run unit inst_err inst_string ops (Some a0) = (rcs, Some a) /\
    @spec_agent_run inst_err ops ∅ = (rcs, m) /\ NoDup (ic_id <$> agents a) /\
    aa_agent_count a = size m /\ Z.of_nat (size m) <= 256.
Proof.
  intros card ops. eexists. split; [reflexivity|].
  destruct (@agents_refine_map unit inst_err inst_string ops _ 0 eq_refl)
    as (rcs & a & m & H1 & H2 & H3 & H4 & H5 & _).
  - repeat apply Forall_cons_2; try apply Forall_nil_2; cbn; lia.
  - by exists rcs, a, m.
Defined.
