(* ===== verification/A2aTask.v ===== *)
(** * A2A tasks and messages: standards/a2a/src/a2a_v03_adapter_{task,msg}.c

    Delegation, negotiation, consensus, streaming, the task table, messages,
    notifications and the handlers.  A pointer to a task is its position in the
    table.  [strdup] succeeds. *)

From S2P Require Export A2aCore.
From S2P Require Import EnvInst.

(** ** Data *)

Record a2a_proposal_internal_t := mkProposal {
  pp_type : Z;
  pp_proposed_cost : float;
  pp_proposed_timeout_ms : Z;
  pp_proposed_priority : Z
}.

Record a2a_negotiation_result_internal_t := mkNegResult {
  nr_task_id : bytes;
  nr_outcome : Z;
  nr_final_cost : float;
  nr_final_timeout_ms : Z;
  nr_counter_priority : Z;
  nr_round_number : Z
}.

#[export] Instance eta_negresult : Eta a2a_negotiation_result_internal_t := fun r =>
  mkNegResult (nr_task_id r) (nr_outcome r) (nr_final_cost r) (nr_final_timeout_ms r)
    (nr_counter_priority r) (nr_round_number r).

Record a2a_consensus_request_internal_t := mkConsensus {
  cq_task_id : option bytes;
  cq_description : option bytes;
  cq_num_participants : Z;
  cq_consensus_threshold : float
}.

(** The sixteen entries of [agreements] are listed up to the last one written. *)
Record a2a_consensus_result_internal_t := mkConsResult {
  cr_task_id : bytes;
  cr_agreed : Z;
  cr_rounds_completed : Z;
  cr_agreements : list bool;
  cr_total_participants : Z;
  cr_agree_count : Z;
  cr_consensus_reached : bool;
  cr_consensus_type : Z
}.

Record a2a_task_request_internal_t := mkTaskRequest {
  rq_task_id : option bytes;
  rq_target_agent_id : option bytes;
  rq_description : option bytes;
  rq_timeout_ms : Z
}.

Record a2a_task_response_internal_t := mkTaskResponse {
  rs_task_id : bytes;
  rs_status : Z;
  rs_result_json : option bytes;
  rs_accepted_by : bytes;
  rs_negotiation_rounds : Z;
  rs_estimated_duration_ms : Z
}.

#[export] Instance eta_response : Eta a2a_task_response_internal_t := fun r =>
  mkTaskResponse (rs_task_id r) (rs_status r) (rs_result_json r) (rs_accepted_by r)
    (rs_negotiation_rounds r) (rs_estimated_duration_ms r).

Record a2a_stats_internal_t := mkA2aStats {
  sn_total_tasks : Z;
  sn_active : Z;
  sn_active_tasks : Z;
  sn_completed_tasks : Z;
  sn_failed_tasks : Z;
  sn_avg_delegation_latency_ms : double;
  sn_avg_consensus_latency_ms : double;
  sn_registered_agents : Z
}.

Definition A2A_TASK_STATUS_COMPLETED : Z := 3.
Definition A2A_TASK_STATUS_ACCEPTED : Z := 4.
Definition A2A_OUTCOME_REJECTED : Z := 3.
Definition A2A_CONSENSUS_MAJORITY : Z := 1.
Definition A2A_CONSENSUS_NONE : Z := 0.
Definition A2A_NEGOTIATE_COST : Z := 1.
Definition A2A_NEGOTIATE_TIMEOUT : Z := 2.
Definition A2A_NEGOTIATE_PRIORITY : Z := 3.
Definition A2A_OUTCOME_ACCEPTED : Z := 1.
Definition A2A_OUTCOME_COUNTER_OFFER : Z := 2.

Section tasks.
Context {W : Type} `{AiryErr} `{AiryString}.
Implicit Types (ctx handle : option (@a2a_v03_adapter_s W)).

(** ** Delegation, negotiation and consensus *)

(** Taking the next number of the counter. *)
Definition bump_counter (a : @a2a_v03_adapter_s W) : Z * @a2a_v03_adapter_s W :=
  (aa_task_counter a, a <| aa_task_counter := u64 (aa_task_counter a + 1) |>).

(** [alloc] is the result buffer, printed into without a check. *)
Definition a2a_v03_delegate_task (alloc : bool) handle
    (request : option a2a_task_request_internal_t) (has_out : bool)
    : outcome (Z * option a2a_v03_adapter_s * option a2a_task_response_internal_t) :=
  match handle, request with
  | Some a, Some rq =>
      if negb has_out then Done (AIRY_ERR_UNKNOWN, handle, None)
      else if negb (a2a_v03_ctx_ready handle) then Done (AIRY_ERR_STATE_ERROR, handle, None)
      else
        let '(k, a) := bump_counter a in
        let id := fits 64 ("task_"%cs ++ dec k) in
        let resp := mkTaskResponse id A2A_TASK_STATUS_ACCEPTED None
                      (AIRY_STRNCPY_TERM (default "coordinator"%cs (rq_target_agent_id rq)) 64) 0
                      (if 0 <? rq_timeout_ms rq then rq_timeout_ms rq / 2
                       else A2A_DEFAULT_TIMEOUT_MS / 2) in
        match rq_description rq with
        | Some d =>
            if negb alloc then Fault
            else
              let r := fits 512 ("{'task_id':'"%cs ++ id ++ "','status':'delegated','description':'"%cs
                                 ++ d ++ "'}"%cs) in
              Done (0, Some a, Some (resp <| rs_result_json := Some r |>))
        | None => Done (0, Some a, Some resp)
        end
  | _, _ => Done (AIRY_ERR_UNKNOWN, handle, None)
  end.

Definition negotiation_zero : a2a_negotiation_result_internal_t :=
  mkNegResult [] 0 f32_zero 0 0 0.

(** The constants [1.1f] and [1.2f]. *)
Definition f32_1_1 : float := f32_const 11 10.
Definition f32_1_2 : float := f32_const 12 10.

Definition negotiated (proposal : a2a_proposal_internal_t) (r : a2a_negotiation_result_internal_t)
    : outcome a2a_negotiation_result_internal_t :=
  if pp_type proposal =? A2A_NEGOTIATE_COST then
    Done (r <| nr_outcome := A2A_OUTCOME_ACCEPTED |>
            <| nr_final_cost := f32_mul (pp_proposed_cost proposal) f32_1_1 |>)
  else if pp_type proposal =? A2A_NEGOTIATE_TIMEOUT then
    ms ← sf_to_int (f32_mul (f32_of_Z (pp_proposed_timeout_ms proposal)) f32_1_2);
    Done (r <| nr_outcome := A2A_OUTCOME_ACCEPTED |> <| nr_final_timeout_ms := ms |>)
  else if pp_type proposal =? A2A_NEGOTIATE_PRIORITY then
    if INT_MAX <? pp_proposed_priority proposal + 10 then Fault
    else Done (r <| nr_outcome := A2A_OUTCOME_COUNTER_OFFER |>
                 <| nr_counter_priority := pp_proposed_priority proposal + 10 |>)
  else Done (r <| nr_outcome := A2A_OUTCOME_REJECTED |>).

Definition a2a_v03_negotiate_task handle (task_id : option bytes)
    (proposal : option a2a_proposal_internal_t) (has_out : bool)
    : outcome (Z * option a2a_negotiation_result_internal_t) :=
  match handle, task_id, proposal with
  | Some a, Some id, Some p =>
      if negb has_out then Done (AIRY_ERR_UNKNOWN, None)
      else if negb (a2a_v03_ctx_ready handle) then Done (AIRY_ERR_STATE_ERROR, None)
      else
        r ← negotiated p (negotiation_zero <| nr_task_id := AIRY_STRNCPY_TERM id 64 |>);
        Done (0, Some (r <| nr_round_number := 1 |>))
  | _, _, _ => Done (AIRY_ERR_UNKNOWN, None)
  end.

(** The votes of the participants [i], [i + 1], ...: [fuel] of them. *)
Fixpoint votes (fuel : nat) (i : Z) : list bool :=
  match fuel with
  | O => []
  | S f => negb (i mod 3 =? 0) :: votes f (i + 1)
  end.

(** The constant [0.67f]. *)
Definition f32_0_67 : float := f32_const 67 100.

(** A seventeenth vote is written past the array. *)
Definition a2a_v03_achieve_consensus handle (request : option a2a_consensus_request_internal_t)
    (has_out : bool) : outcome (Z * option a2a_consensus_result_internal_t) :=
  match handle, request with
  | Some a, Some rq =>
      if negb has_out then Done (AIRY_ERR_UNKNOWN, None)
      else if negb (a2a_v03_ctx_ready handle) then Done (AIRY_ERR_STATE_ERROR, None)
      else if 16 <? cq_num_participants rq then Fault
      else
        let agreements := votes (Z.to_nat (cq_num_participants rq)) 0 in
        let agree_count := lenZ (filter (fun b => b = true) agreements) in
        let threshold := if f32_ltb f32_zero (cq_consensus_threshold rq)
                         then cq_consensus_threshold rq else f32_0_67 in
        let ratio := f32_div (f32_of_Z agree_count) (f32_of_Z (cq_num_participants rq)) in
        let reached := f32_leb threshold ratio in
        Done (0, Some (mkConsResult [] 0 1 agreements (cq_num_participants rq) agree_count reached
                         (if reached then A2A_CONSENSUS_MAJORITY else A2A_CONSENSUS_NONE)))
  | _, _ => Done (AIRY_ERR_UNKNOWN, None)
  end.

(** ** Streaming a task and statistics *)

Definition a2a_stream_callback_internal_t : Type := bytes -> Z -> bool -> W -> W.

Definition phases : list bytes :=
  ["initiated"%cs; "planning"%cs; "executing"%cs; "verifying"%cs; "completed"%cs].

Definition phase_detail (i : nat) (phase : bytes) : bytes :=
  fits 256 ("{'phase':'"%cs ++ phase ++ "','progress':"%cs ++ dec (u8 (20 * Z.of_nat i + 20)) ++ "}"%cs).

Fixpoint stream_phases (on_chunk : a2a_stream_callback_internal_t) (i : nat) (l : list bytes)
    (w : W) : W :=
  match l with
  | [] => w
  | p :: r =>
      let detail := phase_detail i p in
      stream_phases on_chunk (S i) r (on_chunk detail (strlen detail) (i =? 4)%nat w)
  end.

(** The fields of the final response that are not set keep their values. *)
Definition a2a_v03_stream_task (alloc : bool) handle (request : option a2a_task_request_internal_t)
    (on_chunk : option a2a_stream_callback_internal_t)
    (final_response : option a2a_task_response_internal_t) (w : W)
    : W * (Z * option a2a_v03_adapter_s * option a2a_task_response_internal_t) :=
  match handle, request, on_chunk, final_response with
  | Some a, Some rq, Some on_chunk, Some fr =>
      if negb (a2a_v03_ctx_ready handle) then (w, (AIRY_ERR_STATE_ERROR, handle, final_response))
      else
        let '(k, a) := bump_counter a in
        let id := fits 64 ("stream_task_"%cs ++ dec k) in
        let w := stream_phases on_chunk 0 phases w in
        let result_sz := (256 + length id)%nat in
        let result :=
          if alloc
          then fits result_sz ("{'task_id':'"%cs ++ id ++ "','status':'completed','phases_completed':5}"%cs)
          else "{'status':'error','reason':'allocation_failed'}"%cs in
        (w, (0, Some a, Some (fr <| rs_task_id := id |> <| rs_status := A2A_TASK_STATUS_COMPLETED |>
                                 <| rs_result_json := Some result |>)))
  | _, _, _, _ => (w, (AIRY_ERR_UNKNOWN, handle, final_response))
  end.

(** An average of milliseconds over the completed tasks. *)
Definition avg_latency (total completed : Z) : double :=
  if (0 <? total) && (0 <? completed) then f64_of_f32 (f32_of_Z (total / completed)) else f64_zero.

Definition a2a_v03_get_stats handle (has_out : bool) : Z * option a2a_stats_internal_t :=
  match handle with
  | Some a =>
      if negb has_out then (AIRY_ERR_UNKNOWN, None)
      else if negb (a2a_v03_ctx_ready handle) then (AIRY_ERR_STATE_ERROR, None)
      else
        (0, Some (mkA2aStats 0 0 (u32 (aa_active_task_count a)) (u32 (aa_completed_task_count a))
                    (u32 (aa_failed_task_count a))
                    (avg_latency (aa_total_delegation_ms a) (aa_completed_task_count a))
                    (avg_latency (aa_total_consensus_ms a) (aa_completed_task_count a))
                    (u32 (Z.of_nat (aa_agent_count a)))))
  | None => (AIRY_ERR_UNKNOWN, None)
  end.
End tasks.

(** ** The task table *)

Section table.
Context {W : Type} `{AiryErr} `{AiryString}.
Implicit Types (a : @a2a_v03_adapter_s W) (ctx : option (@a2a_v03_adapter_s W)).

(** The task [create_task] fills in; [now] and [now'] are its two readings of
    the wall clock. *)
Definition new_task (count now now' : Z) (agent_id description input_json : option bytes)
    : a2a_task_t :=
  mkTask (fits A2A_TASK_ID_SIZE ("task_"%cs ++ dec count ++ "_"%cs ++ dec (u32 (now mod 100000))))
    None agent_id A2A_TASK_SUBMITTED description input_json None now' now' f64_zero None.

(** What the task handler, if there is one, makes of the new task. *)
Definition handle_task a (t : a2a_task_t) (w : W) : W * a2a_task_t :=
  match aa_task_handler a with
  | Some handler =>
      let '(w, (new_state, output)) := handler t w in
      let t := t <| tk_state := new_state |> in
      (w, match output with Some o => t <| tk_output_json := Some o |> | None => t end)
  | None => (w, t)
  end.

(** [alloc 0] is the task, [alloc 1] its identifier.  The result is the
    position of the task. *)
Definition a2a_v03_create_task (alloc : nat -> bool) (now now' : Z) ctx
    (agent_id description input_json : option bytes) (has_out : bool) (w : W)
    : W * (Z * option (@a2a_v03_adapter_s W) * option nat) :=
  match ctx with
  | Some a =>
      if negb has_out then (w, (AIRY_ERR_UNKNOWN, ctx, None))
      else if negb (a2a_v03_ctx_ready ctx) then (w, (AIRY_ERR_STATE_ERROR, ctx, None))
      else if A2A_V03_MAX_TASKS <=? lenZ (aa_tasks a)
      then (w, (AIRY_ERR_BUFFER_TOO_SMALL, ctx, None))
      else if negb (alloc 0%nat) || negb (alloc 1%nat)
      then (w, (AIRY_ERR_OUT_OF_MEMORY, ctx, None))
      else
        let t := new_task (lenZ (aa_tasks a)) now now' agent_id description input_json in
        let '(w, t) := handle_task a t w in
        (w, (0, Some (a <| aa_tasks ::= (fun l => l ++ [t]) |>), Some (length (aa_tasks a))))
  | None => (w, (AIRY_ERR_UNKNOWN, ctx, None))
  end.

Definition find_task a (task_id : bytes) : option nat :=
  find_idx (fun t => streq (tk_id t) task_id) (aa_tasks a).

Definition a2a_v03_update_task (now : Z) ctx (task_id : option bytes) (new_state : Z)
    (output_json : option bytes) (progress : double) : Z * option (@a2a_v03_adapter_s W) :=
  match ctx, task_id with
  | Some a, Some id =>
      if negb (a2a_v03_ctx_ready ctx) then (AIRY_ERR_STATE_ERROR, ctx)
      else match find_task a id with
           | Some i =>
               let set t :=
                 let t := t <| tk_state := new_state |> in
                 let t := match output_json with
                          | Some o => t <| tk_output_json := Some o |>
                          | None => t
                          end in
                 t <| tk_progress := progress |> <| tk_updated_at := now |> in
               (0, Some (a <| aa_tasks ::= alter set i |>))
           | None => (AIRY_ERR_NOT_FOUND, ctx)
           end
  | _, _ => (AIRY_ERR_UNKNOWN, ctx)
  end.

Definition a2a_v03_cancel_task (now : Z) ctx (task_id reason : option bytes)
    : Z * option (@a2a_v03_adapter_s W) :=
  match ctx, task_id with
  | Some a, Some id =>
      if negb (a2a_v03_ctx_ready ctx) then (AIRY_ERR_STATE_ERROR, ctx)
      else match find_task a id with
           | Some i =>
               let set t :=
                 let t := t <| tk_state := A2A_TASK_CANCELED |> <| tk_updated_at := now |> in
                 match reason with
                 | Some r => t <| tk_error_message := Some r |>
                 | None => t
                 end in
               (0, Some (a <| aa_tasks ::= alter set i |>))
           | None => (AIRY_ERR_NOT_FOUND, ctx)
           end
  | _, _ => (AIRY_ERR_UNKNOWN, ctx)
  end.

Definition a2a_v03_get_task ctx (task_id : option bytes) (has_out : bool) : Z * option nat :=
  match ctx, task_id with
  | Some a, Some id =>
      if negb has_out then (AIRY_ERR_UNKNOWN, None)
      else if negb (a2a_v03_ctx_ready ctx) then (AIRY_ERR_STATE_ERROR, None)
      else match find_task a id with
           | Some i => (0, Some i)
           | None => (AIRY_ERR_NOT_FOUND, None)
           end
  | _, _ => (AIRY_ERR_UNKNOWN, None)
  end.

(** An unknown task is not an error: the handler is told all the same. *)
Definition a2a_v03_stream_task_update (now : Z) ctx (task_id : option bytes) (progress : double)
    (chunk_json : option bytes) (is_final : bool) (w : W)
    : W * (Z * option (@a2a_v03_adapter_s W)) :=
  match ctx, task_id with
  | Some a, Some id =>
      if negb (a2a_v03_ctx_ready ctx) then (w, (AIRY_ERR_STATE_ERROR, ctx))
      else
        let set t :=
          let t := t <| tk_progress := progress |> <| tk_updated_at := now |> in
          if is_final then
            let t := t <| tk_state := A2A_TASK_COMPLETED |> in
            match chunk_json with
            | Some c => t <| tk_output_json := Some c |>
            | None => t
            end
          else t in
        let a := match find_task a id with
                 | Some i => a <| aa_tasks ::= alter set i |>
                 | None => a
                 end in
        let w := match aa_streaming_handler a with
                 | Some handler => handler id progress chunk_json is_final w
                 | None => w
                 end in
        (w, (0, Some a))
  | _, _ => (w, (AIRY_ERR_UNKNOWN, ctx))
  end.

(** ** Messages and handlers *)

(** [has_response] and [has_count] are the output pointers; [None] leaves them
    as they were. *)
Definition a2a_v03_send_message (alloc : bool) ctx (target_agent_id : option bytes)
    (message : option a2a_message_t) (has_response has_count : bool) (w : W)
    : W * (Z * option (list a2a_message_t)) :=
  match ctx, target_agent_id, message with
  | Some a, Some target, Some msg =>
      if negb (a2a_v03_ctx_ready ctx) then (w, (AIRY_ERR_STATE_ERROR, None))
      else match aa_message_handler a with
           | Some handler => handler target msg w
           | None =>
               if has_response && has_count && alloc then
                 (w, (0, Some [mkA2aMessage (Some "assistant"%cs) A2A_MSG_STRUCTURED
                                 (Some "{'status':'received','ack':true}"%cs)
                                 (Some "application/json"%cs) None None]))
               else (w, (0, None))
           end
  | _, _, _ => (w, (AIRY_ERR_UNKNOWN, None))
  end.

Definition a2a_v03_negotiate ctx (proposal : option a2a_negotiation_t) (w : W)
    : W * (Z * option (a2a_negotiation_action_t * option bytes)) :=
  match ctx, proposal with
  | Some a, Some p =>
      if negb (a2a_v03_ctx_ready ctx) then (w, (AIRY_ERR_STATE_ERROR, None))
      else match aa_negotiation_handler a with
           | Some handler => handler p w
           | None => (w, (0, Some (A2A_NEGOTIATE_REJECT, None)))
           end
  | _, _ => (w, (AIRY_ERR_UNKNOWN, None))
  end.

Definition a2a_v03_subscribe_notifications ctx (handler : option a2a_notification_handler_t)
    : Z * option (@a2a_v03_adapter_s W) :=
  match ctx, handler with
  | Some a, Some h => (0, Some (a <| aa_notification_handler := Some h |>))
  | _, _ => (AIRY_ERR_UNKNOWN, ctx)
  end.

Definition a2a_v03_unsubscribe_notifications ctx : Z * option (@a2a_v03_adapter_s W) :=
  match ctx with
  | Some a => (0, Some (a <| aa_notification_handler := None |>))
  | None => (AIRY_ERR_UNKNOWN, ctx)
  end.

Definition a2a_v03_send_notification ctx (notification : option a2a_notification_t) (w : W)
    : W * Z :=
  match ctx, notification with
  | Some a, Some n =>
      match aa_notification_handler a with
      | Some handler => (handler n w, 0)
      | None => (w, AIRY_ERR_NULL_POINTER)
      end
  | _, _ => (w, AIRY_ERR_UNKNOWN)
  end.

(** The setters of the handlers accept a null handler. *)
Definition a2a_v03_set_task_handler ctx (handler : option a2a_task_handler_t)
    : Z * option (@a2a_v03_adapter_s W) :=
  match ctx with
  | Some a => (0, Some (a <| aa_task_handler := handler |>))
  | None => (AIRY_ERR_UNKNOWN, ctx)
  end.

Definition a2a_v03_set_message_handler ctx (handler : option a2a_message_handler_t)
    : Z * option (@a2a_v03_adapter_s W) :=
  match ctx with
  | Some a => (0, Some (a <| aa_message_handler := handler |>))
  | None => (AIRY_ERR_UNKNOWN, ctx)
  end.

Definition a2a_v03_set_negotiation_handler ctx (handler : option a2a_negotiation_handler_t)
    : Z * option (@a2a_v03_adapter_s W) :=
  match ctx with
  | Some a => (0, Some (a <| aa_negotiation_handler := handler |>))
  | None => (AIRY_ERR_UNKNOWN, ctx)
  end.

Definition a2a_v03_set_streaming_handler ctx (handler : option a2a_streaming_handler_t)
    : Z * option (@a2a_v03_adapter_s W) :=
  match ctx with
  | Some a => (0, Some (a <| aa_streaming_handler := handler |>))
  | None => (AIRY_ERR_UNKNOWN, ctx)
  end.

(** Both directions share the transport's context. *)
Definition a2a_v03_set_transport ctx (write_fn : option a2a_transport_write_fn)
    (transport_ctx : Z) : Z * option (@a2a_v03_adapter_s W) :=
  match ctx, write_fn with
  | Some a, Some f => (0, Some (a <| aa_transport_write := Some f |> <| aa_transport_ctx := transport_ctx |>))
  | _, _ => (AIRY_ERR_INVALID_PARAM, ctx)
  end.

Definition a2a_v03_set_transport_read ctx (read_fn : option a2a_transport_read_fn)
    (transport_ctx : Z) : Z * option (@a2a_v03_adapter_s W) :=
  match ctx, read_fn with
  | Some a, Some f => (0, Some (a <| aa_transport_read := Some f |> <| aa_transport_ctx := transport_ctx |>))
  | _, _ => (AIRY_ERR_INVALID_PARAM, ctx)
  end.
End table.

(** ** Tasks keep their identifiers *)

(** The part of a task that no operation on the table changes. *)
Definition task_identity (t : a2a_task_t) :=
  (tk_id t, tk_agent_id t, tk_description t, tk_input_json t, tk_created_at t).

(** A request for one of the operations, with the clock readings it makes. *)
Inductive task_op :=
| OpCreateTask (alloc : nat -> bool) (now now' : Z) (agent description input : option bytes)
| OpUpdateTask (now : Z) (id : bytes) (state : Z) (output : option bytes) (progress : double)
| OpCancelTask (now : Z) (id : bytes) (reason : option bytes)
| OpStreamUpdate (now : Z) (id : bytes) (progress : double) (chunk : option bytes) (final : bool).

Section identity.
Context {W : Type} `{AiryErr} `{AiryString}.
Implicit Types (a : @a2a_v03_adapter_s W).

Definition task_step (op : task_op) (s : W * option (@a2a_v03_adapter_s W))
    : W * option (@a2a_v03_adapter_s W) :=
  let '(w, ctx) := s in
  match op with
  | OpCreateTask alloc now now' agent description input =>
      let '(w, (_, ctx, _)) :=
        a2a_v03_create_task alloc now now' ctx agent description input true w in (w, ctx)
  | OpUpdateTask now id state output progress =>
      (w, (a2a_v03_update_task now ctx (Some id) state output progress).2)
  | OpCancelTask now id reason => (w, (a2a_v03_cancel_task now ctx (Some id) reason).2)
  | OpStreamUpdate now id progress chunk final =>
      let '(w, (_, ctx)) := a2a_v03_stream_task_update now ctx (Some id) progress chunk final w in
      (w, ctx)
  end.

Definition task_run (ops : list task_op) (s : W * option (@a2a_v03_adapter_s W)) :=
  foldl (fun s op => task_step op s) s ops.

(** The task at position [i] carries [i] in its identifier. *)
Definition task_id_ok (i : nat) (t : a2a_task_t) : Prop :=
  exists k, tk_id t = fits A2A_TASK_ID_SIZE ("task_"%cs ++ dec (Z.of_nat i) ++ "_"%cs ++ dec k).

Definition tasks_wf a : Prop :=
  aa_initialized a = true /\ lenZ (aa_tasks a) <= A2A_V03_MAX_TASKS /\
  forall i t, aa_tasks a !! i = Some t -> task_id_ok i t.

(** The number before the second underscore survives the truncation. *)
Lemma task_id_number i j t u :
  Z.of_nat i < 2 ^ 64 -> Z.of_nat j < 2 ^ 64 ->
  task_id_ok i t -> task_id_ok j u -> tk_id t = tk_id u -> i = j.
Proof.
  intros Hi Hj [k Ht] [l Hu] Heq. rewrite Ht, Hu in Heq. clear Ht Hu.
  assert (forall m k, Z.of_nat m < 2 ^ 64 ->
            digits_val 0 (drop 5 (fits A2A_TASK_ID_SIZE
              ("task_"%cs ++ dec (Z.of_nat m) ++ "_"%cs ++ dec k))) = Z.of_nat m) as Hn.
  { intros m k' Hm. unfold fits. change (A2A_TASK_ID_SIZE - 1)%nat with 39%nat.
    pose proof (dec_length (Z.of_nat m)). change ("task_"%cs ++ ?r) with ("t"%char :: "a"%char :: "s"%char :: "k"%char :: "_"%char :: r).
    cbn [take drop]. rewrite take_app_ge by lia.
    destruct (34 - length (dec (Z.of_nat m)))%nat as [|n] eqn:Hd; [lia|].
    cbn [app take]. apply digits_val_dec; [lia | done]. }
  apply (f_equal (fun s => digits_val 0 (drop 5 s))) in Heq. rewrite !Hn in Heq by lia. lia.
Qed.

Lemma find_task_at a i t :
  tasks_wf a -> aa_tasks a !! i = Some t -> find_task a (tk_id t) = Some i.
Proof.
  intros (_ & Hmax & Hok) Hi. apply find_idx_Some. split.
  - exists t. split; [done|]. apply streq_refl.
  - intros j u Hj Hu. apply streq_false. intros Heq.
    apply lookup_lt_Some in Hi as Hl. unfold A2A_V03_MAX_TASKS, lenZ in Hmax.
    pose proof (task_id_number j i u t ltac:(lia) ltac:(lia) (Hok _ _ Hu) (Hok _ _ Hi) Heq). lia.
Qed.

(** Setting a field of a task of the table. *)
Lemma tasks_wf_alter a (g : a2a_task_t -> a2a_task_t) i :
  (forall t, task_identity (g t) = task_identity t) -> tasks_wf a ->
  tasks_wf (a <| aa_tasks ::= alter g i |>) /\
  task_identity <$> aa_tasks (a <| aa_tasks ::= alter g i |>) = task_identity <$> aa_tasks a.
Proof.
  intros Hg (Hr & Hmax & Hok). split; [|by apply fmap_alter_same].
  split; [exact Hr|]. split; [cbn; unfold lenZ in *; by rewrite length_alter|].
  intros j t Hj. destruct (decide (i = j)) as [<-|Hne]; cbn in Hj.
  - rewrite list_lookup_alter_eq in Hj. apply fmap_Some in Hj as (u & Hu & ->).
    specialize (Hg u). destruct (Hok _ _ Hu) as [k Hk]. exists k. unfold task_identity in Hg. congruence.
  - rewrite list_lookup_alter_ne in Hj by done. eauto.
Qed.

Lemma handle_task_identity a t w : task_identity (handle_task a t w).2 = task_identity t.
Proof.
  unfold handle_task. destruct (aa_task_handler a) as [h|]; [|done].
  destruct (h t w) as [w' [st [o|]]]; done.
Qed.

Lemma tasks_wf_append a t :
  lenZ (aa_tasks a) < A2A_V03_MAX_TASKS -> task_id_ok (length (aa_tasks a)) t -> tasks_wf a ->
  tasks_wf (a <| aa_tasks ::= (fun l => l ++ [t]) |>).
Proof.
  intros Hroom Ht (Hr & Hmax & Hok). split; [exact Hr|]. split; [cbn; autorewrite with airy; lia|].
  intros i u Hi. cbn in Hi. apply lookup_app_Some in Hi as [Hi|[Hge Hi]]; [eauto|].
  apply list_lookup_singleton_Some in Hi as [Hz <-].
  by replace i with (length (aa_tasks a)) by lia.
Qed.

Lemma task_step_wf op w a :
  tasks_wf a ->
  exists w' a', task_step op (w, Some a) = (w', Some a') /\ tasks_wf a' /\
    task_identity <$> aa_tasks a `prefix_of` task_identity <$> aa_tasks a'.
Proof.
  intros Hwf. pose proof Hwf as (Hr & Hmax & _).
  assert (exists w' a', (w, Some a) = (w', Some a') /\ tasks_wf a' /\
    task_identity <$> aa_tasks a `prefix_of` task_identity <$> aa_tasks a') as Hsame by (by exists w, a).
  assert (forall (w0 : W) (i : nat) (g : a2a_task_t -> a2a_task_t), (forall t, task_identity (g t) = task_identity t) ->
    exists w' a', (w0, Some (a <| aa_tasks ::= alter g i |>)) = (w', Some a') /\ tasks_wf a' /\
    task_identity <$> aa_tasks a `prefix_of` task_identity <$> aa_tasks a') as Hset.
  { intros w0 i g Hg. destruct (tasks_wf_alter a g i Hg Hwf) as [H1 H2].
    exists w0, (a <| aa_tasks ::= alter g i |>). split; [done|]. split; [done|]. by rewrite H2. }
  destruct op as [alloc now now' ag de inp|now id st out pr|now id rs|now id pr ch fin]; cbn [task_step].
  - unfold a2a_v03_create_task, a2a_v03_ctx_ready. rewrite Hr. cbn [negb].
    destruct (Z.leb_spec A2A_V03_MAX_TASKS (lenZ (aa_tasks a))) as [_|Hroom]; [exact Hsame|].
    destruct (negb (alloc 0%nat) || negb (alloc 1%nat)); [exact Hsame|].
    set (t0 := new_task _ _ _ _ _ _). pose proof (handle_task_identity a t0 w) as Hid.
    destruct (handle_task a t0 w) as [w1 t1]. cbn [snd] in Hid.
    exists w1, (a <| aa_tasks ::= (fun l => l ++ [t1]) |>). split; [done|]. split.
    + apply tasks_wf_append; [done| |done]. exists (u32 (now mod 100000)).
      unfold task_identity in Hid. injection Hid as -> _. done.
    + cbn. rewrite fmap_app. by apply prefix_app_r.
  - unfold a2a_v03_update_task, a2a_v03_ctx_ready. rewrite Hr. cbn [negb].
    destruct (find_task a id) as [i|]; [|exact Hsame]. apply Hset. intros t. by destruct out.
  - unfold a2a_v03_cancel_task, a2a_v03_ctx_ready. rewrite Hr. cbn [negb].
    destruct (find_task a id) as [i|]; [|exact Hsame]. apply Hset. intros t. by destruct rs.
  - unfold a2a_v03_stream_task_update, a2a_v03_ctx_ready. rewrite Hr. cbn [negb].
    destruct (find_task a id) as [i|]; [|by eexists _, a].
    apply Hset. intros t. by destruct fin, ch.
Qed.

Lemma task_run_wf ops w a :
  tasks_wf a ->
  exists w' a', task_run ops (w, Some a) = (w', Some a') /\ tasks_wf a' /\
    task_identity <$> aa_tasks a `prefix_of` task_identity <$> aa_tasks a'.
Proof.
  revert w a. induction ops as [|op ops IH]; intros w a Hwf; [by exists w, a|].
  destruct (task_step_wf op w a Hwf) as (w1 & a1 & H1 & Hwf1 & Hp1).
  destruct (IH w1 a1 Hwf1) as (w2 & a2 & H2 & Hwf2 & Hp2).
  exists w2, a2. unfold task_run in *. cbn [foldl]. rewrite H1. split; [done|]. split; [done|].
  by etrans.
Qed.

Lemma create_tasks_wf ms a : a2a_v03_create true ms = (0, Some a) -> tasks_wf a /\ aa_tasks a = [].
Proof.
  unfold a2a_v03_create. cbn [negb]. intros [_ [= <-]]%pair_equal_spec.
  split; [|by case_match]. split; [done|].
  split; [by case_match|]. intros i t Hi. by case_match.
Qed.
End identity.

(** C13. Tasks are never lost or confused.  Run any sequence of creations,
    updates, cancellations and progress reports on a new context, then any
    further sequence: a task in the table after the first keeps its position,
    identifier, agent, description, input and creation time after the second,
    looking its identifier up finds that position and no other, and the table
    never exceeds 4096 tasks.  The clock and the task handler are arbitrary. *)
Theorem tasks_keep_identity {W} `{AiryErr} ops ops' (w w1 : W)
    (a0 a1 : @a2a_v03_adapter_s W) ms i t :
  a2a_v03_create true ms = (0, Some a0) -> task_run ops (w, Some a0) = (w1, Some a1) ->
  aa_tasks a1 !! i = Some t ->
  exists w2 a2 t', task_run ops' (w1, Some a1) = (w2, Some a2) /\
    aa_tasks a2 !! i = Some t' /\ task_identity t' = task_identity t /\
    a2a_v03_get_task (Some a2) (Some (tk_id t)) true = (0, Some i) /\
    a2a_v03_get_task_count (Some a2) <= 4096.
Proof.
  intros Hc Hr Hi. destruct (create_tasks_wf _ _ Hc) as [Hwf0 _].
  destruct (task_run_wf ops w a0 Hwf0) as (w1' & a1' & Hr' & Hwf1 & _).
  rewrite Hr in Hr'. injection Hr' as <- <-.
  destruct (task_run_wf ops' w1 a1 Hwf1) as (w2 & a2 & Hr2 & Hwf2 & Hp).
  assert ((task_identity <$> aa_tasks a2) !! i = Some (task_identity t)) as Hi2.
  { eapply prefix_lookup_Some; [|exact Hp]. by rewrite list_lookup_fmap, Hi. }
  rewrite list_lookup_fmap in Hi2. apply fmap_Some in Hi2 as (t' & Hi2 & Hid).
  exists w2, a2, t'. split; [exact Hr2|]. split; [exact Hi2|]. split; [done|].
  pose proof Hwf2 as (Hrd & Hmax & _). unfold a2a_v03_get_task, a2a_v03_ctx_ready. rewrite Hrd.
  cbn [negb]. assert (tk_id t = tk_id t') as -> by (unfold task_identity in Hid; congruence).
  rewrite (find_task_at a2 i t' Hwf2 Hi2). split; [done|]. exact Hmax.
Qed.

Lemma tasks_keep_identity_witness :
  let ops := [OpCreateTask (fun _ => true) 17 18 (Some "a"%cs) None None;
              OpCreateTask (fun _ => true) 100017 100018 (Some "b"%cs) None None] in
  exists (a0 a1 : @a2a_v03_adapter_s unit) t,
    @a2a_v03_create unit inst_err true 0 = (0, Some a0) /\
    @task_run unit inst_err ops (tt, Some a0) = (tt, Some a1) /\ aa_tasks a1 !! 1%nat = Some t /\
  exists w2 a2 t', @task_run unit inst_err [OpCancelTask 20 (tk_id t) None] (tt, Some a1) = (w2, Some a2) /\
    aa_tasks a2 !! 1%nat = Some t' /\ task_identity t' = task_identity t /\
    @a2a_v03_get_task unit inst_err (Some a2) (Some (tk_id t)) true = (0, Some 1%nat) /\
    a2a_v03_get_task_count (Some a2) <= 4096.
Proof.
  intros ops. do 3 eexists. split; [reflexivity|]. split; [reflexivity|]. split; [reflexivity|].
  refine (@tasks_keep_identity unit inst_err ops _ tt tt _ _ 0 1%nat _ eq_refl eq_refl eq_refl).
Defined.

(** ** Consensus *)

Lemma votes_agree n :
  (n <= 16)%nat ->
  lenZ (filter (fun b => b = true) (votes n 0)) = Z.of_nat n - (Z.of_nat n + 2) / 3.
Proof. do 17 (destruct n as [|n]; [by vm_compute|]). lia. Qed.

(** With nobody agreeing out of a negative count the ratio is zero or NaN. *)
Lemma zero_ratio x : f32_leb f32_0_67 (f32_div (f32_of_Z 0) x) = false.
Proof. by destruct x as [[]|[]| |[] m e]. Qed.

Lemma default_threshold n :
  (n <= 16)%nat ->
  f32_leb f32_0_67 (f32_div (f32_of_Z (lenZ (filter (fun b => b = true) (votes n 0))))
                            (f32_of_Z (Z.of_nat n))) = false.
Proof. do 17 (destruct n as [|n]; [by vm_compute|]). lia. Qed.

(** Consensus with the default threshold.  When the request sets no
    positive threshold, 0.67 is used, and every third participant, starting
    with the first, disagrees: the share that agrees, at most 2/3, never
    reaches it, so consensus is never reported, for any number of participants
    the sixteen entries of the result can hold; with more the votes are written
    past the array. *)
Theorem default_consensus_never {W} `{AiryErr} (a : @a2a_v03_adapter_s W) rq :
  aa_initialized a = true -> f32_ltb f32_zero (cq_consensus_threshold rq) = false ->
  match a2a_v03_achieve_consensus (Some a) (Some rq) true with
  | Done (rc, Some r) =>
      rc = 0 /\ cq_num_participants rq <= 16 /\ cr_total_participants r = cq_num_participants rq /\
      cr_consensus_reached r = false /\ cr_consensus_type r = A2A_CONSENSUS_NONE /\
      lenZ (cr_agreements r) = Z.max 0 (cq_num_participants rq) /\
      cr_agree_count r = Z.max 0 (cq_num_participants rq - (cq_num_participants rq + 2) / 3)
  | Done (_, None) => False
  | Fault => 16 < cq_num_participants rq
  end.
Proof.
  intros Hr Ht. unfold a2a_v03_achieve_consensus, a2a_v03_ctx_ready. rewrite Hr, Ht. cbn [negb].
  set (n := cq_num_participants rq). destruct (Z.ltb_spec 16 n) as [?|Hn]; [lia|].
  cbn -[f32_of_Z f32_div f32_leb f32_0_67 votes].
  assert (forall f i, lenZ (votes f i) = Z.of_nat f) as Hlen.
  { unfold lenZ. intros f. induction f as [|f IH]; intros i; [done|]. cbn [votes length]. specialize (IH (i + 1)). lia. }
  assert (f32_leb f32_0_67 (f32_div (f32_of_Z (lenZ (filter (fun b => b = true) (votes (Z.to_nat n) 0))))
                                    (f32_of_Z n)) = false) as ->.
  { destruct (Z.leb_spec 0 n) as [Hp|Hneg].
    - rewrite <- (Z2Nat.id n Hp) at 2. apply default_threshold. lia.
    - replace (Z.to_nat n) with 0%nat by lia. apply zero_ratio. }
  split; [done|]. split; [done|]. split; [done|]. split; [done|]. split; [done|].
  split; [rewrite Hlen; lia|]. rewrite votes_agree by lia.
  destruct (Z.leb_spec 0 n) as [Hp|Hneg].
  - rewrite Z2Nat.id by done. Z.to_euclidean_division_equations. lia.
  - replace (Z.to_nat n) with 0%nat by lia. cbn. Z.to_euclidean_division_equations. lia.
Qed.

Lemma default_consensus_never_witness :
  let a : @a2a_v03_adapter_s unit := adapter_zeroed <| aa_initialized := true |> in
  let rq := mkConsensus None None 9 f32_zero in
  match @a2a_v03_achieve_consensus unit inst_err (Some a) (Some rq) true with
  | Done (rc, Some r) => cr_agree_count r = 6 /\ cr_consensus_reached r = false
  | _ => False
  end.
Proof.
  intros a rq.
  pose proof (@default_consensus_never unit inst_err a rq eq_refl eq_refl) as Hc.
  destruct (a2a_v03_achieve_consensus (Some a) (Some rq) true) as [[rc [r|]]|]; [|done|].
  - destruct Hc as (_ & _ & _ & Hr & _ & _ & Ha). split; [exact Ha | exact Hr].
  - cbn in Hc. lia.
Defined.
