(* ===== verification/A2aRoute.v ===== *)
(** * A2A requests: standards/a2a/src/a2a_v03_adapter_{route,cb}.c

    The method table, the handler of each method, and the callbacks the
    protocol adapter is made of.  Requests and results are cJSON trees; cJSON
    allocates what it is asked for. *)

From S2P Require Export A2aTask.
From S2P Require Import EnvInst Unified Transform.
From stdpp Require Import gmap.
#[local] Open Scope Z_scope.

(** ** Results *)

Section json.
Context `{AiryErr} `{AiryString} `{CJson}.

Definition a2a_add_str (obj : cJSON) (key : bytes) (val : option bytes) : cJSON :=
  match val with
  | Some v => cJSON_AddStringToObject obj key v
  | None => cJSON_AddNullToObject obj key
  end.

Definition a2a_card_json (card : a2a_agent_card_t) : cJSON :=
  let obj := cJSON_CreateObject in
  let obj := a2a_add_str obj "id"%cs (ca_id card) in
  let obj := a2a_add_str obj "name"%cs (ca_name card) in
  let obj := a2a_add_str obj "description"%cs (ca_description card) in
  let obj := a2a_add_str obj "url"%cs (ca_url card) in
  let obj := a2a_add_str obj "version"%cs (ca_version card) in
  let obj := cJSON_AddNumberToObject obj "protocol_version"%cs
               (f64_of_Z (ca_protocol_version card)) in
  let obj := cJSON_AddNumberToObject obj "capabilities"%cs
               (f64_of_Z (to_int (ca_capabilities card))) in
  cJSON_AddBoolToObject obj "available"%cs (ca_available card).

Definition a2a_task_json (task : a2a_task_t) : cJSON :=
  let obj := cJSON_CreateObject in
  let obj := a2a_add_str obj "id"%cs (Some (tk_id task)) in
  let obj := a2a_add_str obj "session_id"%cs (tk_session_id task) in
  let obj := a2a_add_str obj "agent_id"%cs (tk_agent_id task) in
  let obj := cJSON_AddNumberToObject obj "state"%cs (f64_of_Z (tk_state task)) in
  let obj := a2a_add_str obj "description"%cs (tk_description task) in
  let obj := a2a_add_str obj "input_json"%cs (tk_input_json task) in
  let obj := a2a_add_str obj "output_json"%cs (tk_output_json task) in
  let obj := cJSON_AddNumberToObject obj "progress"%cs (tk_progress task) in
  let obj := cJSON_AddNumberToObject obj "created_at"%cs (f64_of_Z (tk_created_at task)) in
  let obj := cJSON_AddNumberToObject obj "updated_at"%cs (f64_of_Z (tk_updated_at task)) in
  a2a_add_str obj "error_message"%cs (tk_error_message task).

Definition message_type_code (t : a2a_message_type_t) : Z :=
  match t with
  | A2A_MSG_TEXT => 0 | A2A_MSG_FILE => 1 | A2A_MSG_STRUCTURED => 2 | A2A_MSG_ERROR => 3
  end.

Definition a2a_msg_json (msg : a2a_message_t) : cJSON :=
  let obj := cJSON_CreateObject in
  let obj := a2a_add_str obj "role"%cs (ms_role msg) in
  let obj := cJSON_AddNumberToObject obj "type"%cs (f64_of_Z (message_type_code (ms_type msg))) in
  let obj := a2a_add_str obj "content_json"%cs (ms_content_json msg) in
  a2a_add_str obj "mime_type"%cs (ms_mime_type msg).

(** The code and the text stored as the response, if any. *)
Definition a2a_json_out (obj : cJSON) : Z * option bytes :=
  match cJSON_PrintUnformatted obj with
  | Some str => (AIRY_SUCCESS, Some str)
  | None => (AIRY_ERR_OUT_OF_MEMORY, None)
  end.

Definition a2a_obj_out (obj : option cJSON) (key : bytes) : Z * option bytes :=
  match obj with
  | Some o => a2a_json_out (cJSON_AddItemToObject cJSON_CreateObject key o)
  | None => (AIRY_ERR_OUT_OF_MEMORY, None)
  end.

(** Releasing the array of messages: each element is destroyed as if it had
    been allocated by itself, so the first call frees the array and the second
    one reads freed memory. *)
Definition a2a_msgs_free (response : list a2a_message_t) : outcome unit :=
  match response with
  | [] | [_] => Done tt
  | _ => Fault
  end.

(** The tree of the request's parameters. *)
Definition parse_params (params_json : option bytes) : option cJSON :=
  cJSON_Parse (match params_json with Some (c :: r) => c :: r | _ => "{}"%cs end).
End json.

(** ** Handlers *)

(** What a request can change: the static agent card, the context and the
    world of its handlers and transports. *)
Record route_state {W : Type} := mkRoute {
  rt_card : a2a_agent_card_t;
  rt_ctx : @a2a_v03_adapter_s W;
  rt_world : W
}.
Arguments route_state : clear implicits.

#[export] Instance eta_route W : Eta (route_state W) := fun s =>
  mkRoute W (rt_card s) (rt_ctx s) (rt_world s).

(** The answers of the environment to one request: the allocator and the two
    readings of the wall clock. *)
Record route_env := mkRouteEnv {
  re_alloc : nat -> bool;
  re_now : Z;
  re_now' : Z
}.

Section route.
Context {W : Type} `{AiryErr} `{AiryString} `{CJson}.
Implicit Types (s : route_state W) (params_json : option bytes).

Definition with_ctx s (ctx : option (@a2a_v03_adapter_s W)) : route_state W :=
  match ctx with Some a => s <| rt_ctx := a |> | None => s end.

Definition a2a_route_fn : Type :=
  route_env -> route_state W -> option bytes -> outcome (route_state W * (Z * option bytes)).

(** [{"key": true}], the result of most changes. *)
Definition flag_result (key : bytes) : cJSON :=
  cJSON_AddBoolToObject cJSON_CreateObject key true.

(** The card a registration request describes. *)
Definition card_of_json (root : cJSON) (id name : option bytes) : a2a_agent_card_t :=
  let protocol_version := cJSON_GetObjectItem root "protocol_version"%cs in
  let capabilities := cJSON_GetObjectItem root "capabilities"%cs in
  let available := cJSON_GetObjectItem root "available"%cs in
  let number (j : option cJSON) (d : Z) :=
    match j with Some v => if cJSON_IsNumber j then valueint v else d | None => d end in
  card_zero <| ca_id := id |> <| ca_name := name |>
    <| ca_url := json_string (cJSON_GetObjectItem root "url"%cs) |>
    <| ca_protocol_version := number protocol_version 3 |>
    <| ca_capabilities := u32 (number capabilities 0) |>
    <| ca_available := match available with Some _ => cJSON_IsTrue available | None => true end |>.

Definition a2a_route_reg : a2a_route_fn := fun env s params_json =>
  match parse_params params_json with
  | None => Done (s, (AIRY_ERR_INVALID_PARAM, None))
  | Some root =>
      let id := cJSON_GetObjectItem root "id"%cs in
      let name := cJSON_GetObjectItem root "name"%cs in
      match json_string id with
      | None | Some [] => Done (s, (AIRY_ERR_INVALID_PARAM, None))
      | Some agent_id =>
          if negb (cJSON_IsString name) then Done (s, (AIRY_ERR_INVALID_PARAM, None))
          else
            let card := card_of_json root (Some agent_id) (name ≫= valuestring) in
            let '(rc, ctx) := a2a_v03_register_agent (Some (rt_ctx s)) (Some card) in
            let s := with_ctx s ctx in
            if negb (rc =? AIRY_SUCCESS) then Done (s, (rc, None))
            else Done (s, a2a_json_out (cJSON_AddStringToObject (flag_result "registered"%cs)
                                          "agent_id"%cs agent_id))
      end
  end.

Definition a2a_route_unreg : a2a_route_fn := fun env s params_json =>
  match parse_params params_json with
  | None => Done (s, (AIRY_ERR_INVALID_PARAM, None))
  | Some root =>
      let agent_id := cJSON_GetObjectItem root "agent_id"%cs in
      if negb (cJSON_IsString agent_id) then Done (s, (AIRY_ERR_INVALID_PARAM, None))
      else
        let '(rc, ctx) := a2a_v03_unregister_agent (Some (rt_ctx s)) (agent_id ≫= valuestring) in
        let s := with_ctx s ctx in
        if negb (rc =? AIRY_SUCCESS) then Done (s, (rc, None))
        else Done (s, a2a_json_out (flag_result "unregistered"%cs))
  end.

Definition add_items {A} (f : A -> cJSON) (l : list A) (arr : cJSON) : cJSON :=
  foldl (fun arr x => cJSON_AddItemToArray arr (f x)) arr l.

(** [{"key": [items], "count": n}] *)
Definition list_result (key : bytes) (arr : cJSON) (count : Z) : cJSON :=
  cJSON_AddNumberToObject (cJSON_AddItemToObject cJSON_CreateObject key arr)
    "count"%cs (f64_of_Z count).

Definition a2a_route_disc : a2a_route_fn := fun env s params_json =>
  match parse_params params_json with
  | None => Done (s, (AIRY_ERR_INVALID_PARAM, None))
  | Some root =>
      let cap_str := json_string (cJSON_GetObjectItem root "capability"%cs) in
      let skill_str := json_string (cJSON_GetObjectItem root "skill"%cs) in
      match a2a_v03_discover_agents (re_alloc env) (Some (rt_ctx s)) cap_str skill_str true with
      | (rc, out) =>
          if negb (rc =? AIRY_SUCCESS) then Done (s, (rc, None))
          else
            let '(results, count) := default (None, 0) out in
            let cards := omap id (default [] results) in
            let arr := add_items a2a_card_json cards cJSON_CreateArray in
            Done (s, a2a_json_out (list_result "agents"%cs arr count))
      end
  end.

Definition a2a_route_new : a2a_route_fn := fun env s params_json =>
  match parse_params params_json with
  | None => Done (s, (AIRY_ERR_INVALID_PARAM, None))
  | Some root =>
      let agent_id := cJSON_GetObjectItem root "agent_id"%cs in
      let description := cJSON_GetObjectItem root "description"%cs in
      if negb (cJSON_IsString agent_id) || negb (cJSON_IsString description)
      then Done (s, (AIRY_ERR_INVALID_PARAM, None))
      else
        let input_str := json_string (cJSON_GetObjectItem root "input"%cs) in
        let '(w, (rc, ctx, task)) :=
          a2a_v03_create_task (re_alloc env) (re_now env) (re_now' env) (Some (rt_ctx s))
            (agent_id ≫= valuestring) (description ≫= valuestring) input_str true (rt_world s) in
        let s := (with_ctx s ctx) <| rt_world := w |> in
        match task with
        | Some i =>
            if negb (rc =? AIRY_SUCCESS) then Done (s, (rc, None))
            else Done (s, a2a_obj_out (a2a_task_json <$> aa_tasks (rt_ctx s) !! i) "task"%cs)
        | None => Done (s, (rc, None))
        end
  end.

Definition a2a_route_upd : a2a_route_fn := fun env s params_json =>
  match parse_params params_json with
  | None => Done (s, (AIRY_ERR_INVALID_PARAM, None))
  | Some root =>
      let task_id := cJSON_GetObjectItem root "task_id"%cs in
      let state := cJSON_GetObjectItem root "state"%cs in
      if negb (cJSON_IsString task_id) || negb (cJSON_IsNumber state)
      then Done (s, (AIRY_ERR_INVALID_PARAM, None))
      else
        let progress := cJSON_GetObjectItem root "progress"%cs in
        let output_str := json_string (cJSON_GetObjectItem root "output"%cs) in
        let prog := match progress with
                    | Some p => if cJSON_IsNumber progress then valuedouble p else f64_zero
                    | None => f64_zero
                    end in
        let '(rc, ctx) :=
          a2a_v03_update_task (re_now env) (Some (rt_ctx s)) (task_id ≫= valuestring)
            (u32 (default 0 (valueint <$> state))) output_str prog in
        let s := with_ctx s ctx in
        if negb (rc =? AIRY_SUCCESS) then Done (s, (rc, None))
        else Done (s, a2a_json_out (flag_result "updated"%cs))
  end.

Definition a2a_route_cncl : a2a_route_fn := fun env s params_json =>
  match parse_params params_json with
  | None => Done (s, (AIRY_ERR_INVALID_PARAM, None))
  | Some root =>
      let task_id := cJSON_GetObjectItem root "task_id"%cs in
      if negb (cJSON_IsString task_id) then Done (s, (AIRY_ERR_INVALID_PARAM, None))
      else
        let reason_str := json_string (cJSON_GetObjectItem root "reason"%cs) in
        let '(rc, ctx) :=
          a2a_v03_cancel_task (re_now env) (Some (rt_ctx s)) (task_id ≫= valuestring) reason_str in
        let s := with_ctx s ctx in
        if negb (rc =? AIRY_SUCCESS) then Done (s, (rc, None))
        else Done (s, a2a_json_out (flag_result "canceled"%cs))
  end.

Definition a2a_route_get : a2a_route_fn := fun env s params_json =>
  match parse_params params_json with
  | None => Done (s, (AIRY_ERR_INVALID_PARAM, None))
  | Some root =>
      let task_id := cJSON_GetObjectItem root "task_id"%cs in
      if negb (cJSON_IsString task_id) then Done (s, (AIRY_ERR_INVALID_PARAM, None))
      else
        let '(rc, task) := a2a_v03_get_task (Some (rt_ctx s)) (task_id ≫= valuestring) true in
        match task with
        | Some i =>
            if negb (rc =? AIRY_SUCCESS) then Done (s, (rc, None))
            else Done (s, a2a_obj_out (a2a_task_json <$> aa_tasks (rt_ctx s) !! i) "task"%cs)
        | None => Done (s, (rc, None))
        end
  end.

(** The responses a message handler stores are released when they have been
    copied into the result. *)
Definition a2a_route_send : a2a_route_fn := fun env s params_json =>
  match parse_params params_json with
  | None => Done (s, (AIRY_ERR_INVALID_PARAM, None))
  | Some root =>
      let target := cJSON_GetObjectItem root "target_agent_id"%cs in
      let role := cJSON_GetObjectItem root "role"%cs in
      let content := cJSON_GetObjectItem root "content"%cs in
      if negb (cJSON_IsString target) || negb (cJSON_IsString role) || negb (cJSON_IsString content)
      then Done (s, (AIRY_ERR_INVALID_PARAM, None))
      else
        let message := mkA2aMessage (role ≫= valuestring) A2A_MSG_TEXT (content ≫= valuestring)
                         None None None in
        let '(w, (rc, out)) :=
          a2a_v03_send_message (re_alloc env 0%nat) (Some (rt_ctx s)) (target ≫= valuestring)
            (Some message) true true (rt_world s) in
        let s := s <| rt_world := w |> in
        if negb (rc =? AIRY_SUCCESS) then Done (s, (rc, None))
        else
          let response := default [] out in
          let arr := add_items a2a_msg_json response cJSON_CreateArray in
          _ ← a2a_msgs_free response;
          Done (s, a2a_json_out (list_result "responses"%cs arr (lenZ response)))
  end.

Definition a2a_route_stats (s : route_state W) (with_caps : bool) : Z * option bytes :=
  let ctx := Some (rt_ctx s) in
  let result := cJSON_AddNumberToObject cJSON_CreateObject "agent_count"%cs
                  (f64_of_Z (a2a_v03_get_agent_count ctx)) in
  let result := cJSON_AddNumberToObject result "task_count"%cs
                  (f64_of_Z (a2a_v03_get_task_count ctx)) in
  let result := if with_caps
                then cJSON_AddNumberToObject result "capabilities"%cs
                       (f64_of_Z (a2a_v03_get_capabilities ctx))
                else result in
  a2a_json_out result.

Definition a2a_route_cnt : a2a_route_fn := fun env s params_json =>
  Done (s, a2a_route_stats s false).

Definition a2a_route_sta : a2a_route_fn := fun env s params_json =>
  Done (s, a2a_route_stats s true).

Definition a2a_route_card : a2a_route_fn := fun env s params_json =>
  match parse_params params_json with
  | None => Done (s, (AIRY_ERR_INVALID_PARAM, None))
  | Some root =>
      let agent_id := cJSON_GetObjectItem root "agent_id"%cs in
      if negb (cJSON_IsString agent_id) then Done (s, (AIRY_ERR_INVALID_PARAM, None))
      else
        let '(card, found) :=
          a2a_v03_get_agent_card (rt_card s) (Some (rt_ctx s)) (agent_id ≫= valuestring) in
        let s := s <| rt_card := card |> in
        if negb found then Done (s, (AIRY_ERR_NOT_FOUND, None))
        else Done (s, a2a_obj_out (Some (a2a_card_json card)) "agent"%cs)
  end.

Definition a2a_routes : list (bytes * a2a_route_fn) := [
  ("register_agent"%cs, a2a_route_reg); ("unregister_agent"%cs, a2a_route_unreg);
  ("discover_agents"%cs, a2a_route_disc); ("get_agent_card"%cs, a2a_route_card);
  ("create_task"%cs, a2a_route_new); ("update_task"%cs, a2a_route_upd);
  ("cancel_task"%cs, a2a_route_cncl); ("get_task"%cs, a2a_route_get);
  ("send_message"%cs, a2a_route_send); ("count"%cs, a2a_route_cnt);
  ("stats"%cs, a2a_route_sta)].

Definition a2a_method_not_found : bytes :=
  "{'error':{'code':-32601,'message':'Method not found'}}"%cs.

(** [method] and the address for the response may be null.  On an error of the
    handler the response is released. *)
Definition a2a_v03_route_request (env : route_env) s (method : option bytes) params_json
    (has_out : bool) : outcome (route_state W * (Z * option bytes)) :=
  match method with
  | Some m =>
      if negb has_out then Done (s, (AIRY_ERR_UNKNOWN, None))
      else match (i ← find_idx (fun r => streq m r.1) a2a_routes; a2a_routes !! i) with
           | Some (_, fn) =>
               '(s, (rc, response)) ← fn env s params_json;
               Done (s, (rc, if negb (rc =? AIRY_SUCCESS) then None else response))
           | None => Done (s, (AIRY_ERR_INVALID_PARAM, Some a2a_method_not_found))
           end
  | None => Done (s, (AIRY_ERR_UNKNOWN, None))
  end.
End route.

(** ** Failed requests change nothing *)

Section atomic.
Context {W : Type} `{AiryErr} `{AiryString} `{CJson}.
Implicit Types (s : route_state W) (fn : @a2a_route_fn W).

(** cJSON can print what it built. *)
Context (Hprint : forall j, is_Some (cJSON_PrintUnformatted j)).

(** The contract of a reply: success comes with a response, failure leaves the
    context alone, and undefined behaviour only when [bad] holds. *)
Definition reply_ok (bad : Prop) s (o : outcome (route_state W * (Z * option bytes))) : Prop :=
  match o with
  | Done (s', (rc, r)) => if rc =? 0 then is_Some r else rt_ctx s' = rt_ctx s
  | Fault => bad
  end.

Definition route_ok (bad : route_env -> route_state W -> Prop) fn : Prop :=
  forall env s params, reply_ok (bad env s) s (fn env s params).

Definition never (env : route_env) s : Prop := False.

(** A message handler that answers a message with more than one response. *)
Definition two_responses (env : route_env) s : Prop :=
  exists handler target msg w' rs, aa_message_handler (rt_ctx s) = Some handler /\
    handler target msg (rt_world s) = (w', (0, Some rs)) /\ (2 <= length rs)%nat.

Lemma json_out_ok j : a2a_json_out j = (0, (a2a_json_out j).2) /\ is_Some (a2a_json_out j).2.
Proof.
  unfold a2a_json_out. destruct (Hprint j) as [t ->]. cbn. split; [|by eexists].
  by rewrite airy_success_zero.
Qed.

(** A handler that ends by printing a result. *)
Lemma done_ok bad (s s' : route_state W) j : reply_ok bad s (Done (s', a2a_json_out j)).
Proof. unfold reply_ok. destruct (json_out_ok j) as [-> Hr]. exact Hr. Qed.

(** A handler that stops with an error. *)
Lemma err_ok bad (s s' : route_state W) rc r :
  rc <> 0 -> rt_ctx s' = rt_ctx s -> reply_ok bad s (Done (s', (rc, r))).
Proof. intros Hrc Hc. unfold reply_ok. by rewrite (proj2 (Z.eqb_neq rc 0) Hrc). Qed.

(** Passing on the code of an operation that failed. *)
Lemma rc_ok bad (s s' : route_state W) rc k :
  (rc <> 0 -> rt_ctx s' = rt_ctx s) -> reply_ok bad s k ->
  reply_ok bad s (if negb (rc =? AIRY_SUCCESS) then Done (s', (rc, None)) else k).
Proof.
  intros Hc Hk. rewrite airy_success_zero. destruct (Z.eqb_spec rc 0) as [->|Hrc]; cbn [negb]; [exact Hk|].
  by apply err_ok; [|apply Hc].
Qed.

Lemma with_ctx_same s : with_ctx s (Some (rt_ctx s)) = s.
Proof. by destruct s. Qed.

(** The operations of the context fail without changing it. *)
Lemma register_failed (a : @a2a_v03_adapter_s W) card rc ctx :
  a2a_v03_register_agent (Some a) card = (rc, ctx) -> rc <> 0 -> ctx = Some a.
Proof.
  unfold a2a_v03_register_agent. destruct card as [card|]; [|by intros [_ <-]%pair_equal_spec].
  destruct (negb _); [by intros [_ <-]%pair_equal_spec|].
  destruct (_ ← usable_id card; _) as [[i ic]|]; [by intros [<- _]%pair_equal_spec|].
  destruct (_ <=? _); [by intros [_ <-]%pair_equal_spec|].
  destruct (usable_id card); by intros [<- _]%pair_equal_spec.
Qed.

Lemma unregister_failed (a : @a2a_v03_adapter_s W) id rc ctx :
  a2a_v03_unregister_agent (Some a) id = (rc, ctx) -> rc <> 0 -> ctx = Some a.
Proof.
  unfold a2a_v03_unregister_agent. destruct id as [id|]; [|by intros [_ <-]%pair_equal_spec].
  destruct (negb _); [by intros [_ <-]%pair_equal_spec|].
  destruct (find_agent a id); [by intros [<- _]%pair_equal_spec|by intros [_ <-]%pair_equal_spec].
Qed.

Lemma update_failed now (a : @a2a_v03_adapter_s W) id st out pr rc ctx :
  a2a_v03_update_task now (Some a) id st out pr = (rc, ctx) -> rc <> 0 -> ctx = Some a.
Proof.
  unfold a2a_v03_update_task. destruct id as [id|]; [|by intros [_ <-]%pair_equal_spec].
  destruct (negb _); [by intros [_ <-]%pair_equal_spec|].
  destruct (find_task a id); [by intros [<- _]%pair_equal_spec|by intros [_ <-]%pair_equal_spec].
Qed.

Lemma cancel_failed now (a : @a2a_v03_adapter_s W) id rs rc ctx :
  a2a_v03_cancel_task now (Some a) id rs = (rc, ctx) -> rc <> 0 -> ctx = Some a.
Proof.
  unfold a2a_v03_cancel_task. destruct id as [id|]; [|by intros [_ <-]%pair_equal_spec].
  destruct (negb _); [by intros [_ <-]%pair_equal_spec|].
  destruct (find_task a id); [by intros [<- _]%pair_equal_spec|by intros [_ <-]%pair_equal_spec].
Qed.

(** Creating a task fails without a change or yields a position of the table. *)
Lemma create_task_result al n n' (a : @a2a_v03_adapter_s W) ag de inp w w' rc ctx i :
  a2a_v03_create_task al n n' (Some a) ag de inp true w = (w', (rc, ctx, i)) ->
  (rc <> 0 /\ ctx = Some a /\ i = None) \/
  (rc = 0 /\ exists a' k, ctx = Some a' /\ i = Some k /\ is_Some (aa_tasks a' !! k)).
Proof.
  unfold a2a_v03_create_task. cbn [negb]. intros Hc.
  assert (forall e, e <> 0 -> (w, (e, Some a, None)) = (w', (rc, ctx, i)) ->
            rc <> 0 /\ ctx = Some a /\ i = None) as Herr by (intros e He [= <- <- <- <-]; done).
  destruct (negb _); [left; eapply Herr; [|exact Hc]; errlia|].
  destruct (_ <=? _); [left; eapply Herr; [|exact Hc]; errlia|].
  destruct (negb _ || _); [left; eapply Herr; [|exact Hc]; errlia|].
  destruct (handle_task _ _ _) as [w1 t]. right.
  apply pair_equal_spec in Hc as [_ [[<- <-]%pair_equal_spec <-]%pair_equal_spec].
  split; [done|]. do 2 eexists. split; [done|]. split; [done|]. cbn.
  rewrite lookup_app_r by lia. rewrite Nat.sub_diag. by eexists.
Qed.

(** [bad_request] closes the cases where the parameters are refused. *)
Ltac bad_request := apply err_ok; [errlia | done].

Lemma route_reg_ok : route_ok never a2a_route_reg.
Proof.
  intros env s params. unfold a2a_route_reg, never.
  destruct (parse_params params) as [root|]; [|bad_request].
  destruct (json_string _) as [[|c id]|]; [bad_request| |bad_request].
  destruct (negb _); [bad_request|].
  destruct (a2a_v03_register_agent _ _) as [rc ctx] eqn:Hr.
  apply rc_ok; [|apply done_ok]. intros Hrc. rewrite (register_failed _ _ _ _ Hr Hrc). by rewrite with_ctx_same.
Qed.

Lemma route_unreg_ok : route_ok never a2a_route_unreg.
Proof.
  intros env s params. unfold a2a_route_unreg, never.
  destruct (parse_params params) as [root|]; [|bad_request]. destruct (negb _); [bad_request|].
  destruct (a2a_v03_unregister_agent _ _) as [rc ctx] eqn:Hr.
  apply rc_ok; [|apply done_ok]. intros Hrc. rewrite (unregister_failed _ _ _ _ Hr Hrc). by rewrite with_ctx_same.
Qed.

Lemma route_disc_ok : route_ok never a2a_route_disc.
Proof.
  intros env s params. unfold a2a_route_disc, never.
  destruct (parse_params params) as [root|]; [|bad_request].
  destruct (a2a_v03_discover_agents _ _ _ _ _) as [rc out].
  apply rc_ok; [done|]. destruct (default (None, 0) out) as [results count]. apply done_ok.
Qed.

(** A handler that ends by printing a task of the table. *)
Lemma obj_ok bad (s s' : route_state W) (l : list a2a_task_t) k :
  is_Some (l !! k) -> reply_ok bad s (Done (s', a2a_obj_out (a2a_task_json <$> l !! k) "task"%cs)).
Proof. intros [x ->]. cbn [fmap option_fmap option_map a2a_obj_out]. apply done_ok. Qed.

Lemma route_new_ok : route_ok never a2a_route_new.
Proof.
  intros env s params. unfold a2a_route_new, never.
  destruct (parse_params params) as [root|]; [|bad_request]. destruct (negb _ || _); [bad_request|].
  destruct (a2a_v03_create_task _ _ _ _ _ _ _ _ _) as [w [[rc ctx] i]] eqn:Hc.
  destruct (create_task_result _ _ _ _ _ _ _ _ _ _ _ _ Hc)
    as [(Hrc & -> & ->)|(-> & a' & k & -> & -> & Hk)].
  - rewrite with_ctx_same. by apply err_ok.
  - apply rc_ok; [done|]. by apply obj_ok.
Qed.

Lemma route_upd_ok : route_ok never a2a_route_upd.
Proof.
  intros env s params. unfold a2a_route_upd, never.
  destruct (parse_params params) as [root|]; [|bad_request]. destruct (negb _ || _); [bad_request|].
  destruct (a2a_v03_update_task _ _ _ _ _ _) as [rc ctx] eqn:Hr.
  apply rc_ok; [|apply done_ok]. intros Hrc. rewrite (update_failed _ _ _ _ _ _ _ _ Hr Hrc). by rewrite with_ctx_same.
Qed.

Lemma route_cncl_ok : route_ok never a2a_route_cncl.
Proof.
  intros env s params. unfold a2a_route_cncl, never.
  destruct (parse_params params) as [root|]; [|bad_request]. destruct (negb _); [bad_request|].
  destruct (a2a_v03_cancel_task _ _ _ _) as [rc ctx] eqn:Hr.
  apply rc_ok; [|apply done_ok]. intros Hrc. rewrite (cancel_failed _ _ _ _ _ _ Hr Hrc). by rewrite with_ctx_same.
Qed.

Lemma route_get_ok : route_ok never a2a_route_get.
Proof.
  intros env s params. unfold a2a_route_get, never.
  destruct (parse_params params) as [root|]; [|bad_request]. destruct (negb _); [bad_request|].
  unfold a2a_v03_get_task. cbn [negb].
  destruct (_ ≫= valuestring) as [id|]; [|bad_request].
  destruct (negb _); [bad_request|].
  destruct (find_task (rt_ctx s) id) as [i|] eqn:Hf; [|bad_request].
  apply rc_ok; [done|]. apply obj_ok. apply find_idx_Some in Hf as [(u & Hu & _) _]. by eexists.
Qed.

Lemma route_card_ok : route_ok never a2a_route_card.
Proof.
  intros env s params. unfold a2a_route_card, never.
  destruct (parse_params params) as [root|]; [|bad_request]. destruct (negb _); [bad_request|].
  destruct (a2a_v03_get_agent_card _ _ _) as [card [|]]; cbn [negb]; [|bad_request].
  cbn [a2a_obj_out]. apply done_ok.
Qed.

Lemma route_cnt_ok : route_ok never a2a_route_cnt.
Proof. intros env s params. apply done_ok. Qed.

Lemma route_sta_ok : route_ok never a2a_route_sta.
Proof. intros env s params. apply done_ok. Qed.

Lemma route_send_ok : route_ok two_responses a2a_route_send.
Proof.
  intros env s params. unfold a2a_route_send.
  destruct (parse_params params) as [root|]; [|bad_request].
  destruct (negb _ || _ || _); [bad_request|].
  destruct (a2a_v03_send_message _ _ _ _ _ _ _) as [w [rc out]] eqn:Hs.
  rewrite airy_success_zero. destruct (Z.eqb_spec rc 0) as [->|Hrc]; cbn [negb];
    [|by apply err_ok].
  destruct (a2a_msgs_free (default [] out)) as [[]|] eqn:Hfree; cbn [mbind outcome_bind];
    [apply done_ok|].
  destruct out as [[|m1 [|m2 rs]]|]; try done.
  revert Hs. unfold a2a_v03_send_message. cbn [andb].
  destruct (_ ≫= valuestring) as [target|]; [|by intros [_ [_ [=]]%pair_equal_spec]%pair_equal_spec].
  destruct (negb _); [by intros [_ [_ [=]]%pair_equal_spec]%pair_equal_spec|].
  destruct (aa_message_handler (rt_ctx s)) as [h|] eqn:Hh;
    [|destruct (re_alloc env 0%nat); by intros [_ [_ [=]]%pair_equal_spec]%pair_equal_spec].
  intros Hs. exists h, target. do 3 eexists. split; [done|]. split; [exact Hs|]. cbn. lia.
Qed.

(** Every entry of the table meets the contract. *)
Lemma routes_ok m fn :
  (m, fn) ∈ a2a_routes -> route_ok (fun env s => m = "send_message"%cs /\ two_responses env s) fn.
Proof.
  assert (forall bad bad' fn, route_ok bad fn -> (forall env s, bad env s -> bad' env s) ->
            route_ok bad' fn) as Hweak.
  { intros bad bad' f Hf Hb env s p. specialize (Hf env s p). unfold reply_ok in *. destruct (f env s p) as [[s' [rc r]]|]; auto. }
  unfold a2a_routes. rewrite !elem_of_cons, elem_of_nil.
  intros Hin. repeat (destruct Hin as [[= -> ->]|Hin]); [..|done];
    (eapply Hweak; [first [apply route_reg_ok | apply route_unreg_ok | apply route_disc_ok
      | apply route_card_ok | apply route_new_ok | apply route_upd_ok | apply route_cncl_ok
      | apply route_get_ok | apply route_send_ok | apply route_cnt_ok | apply route_sta_ok]
      | unfold never; done]).
Qed.
End atomic.


