(* ===== verification/A2aCb.v ===== *)
(** * The A2A protocol adapter: standards/a2a/src/a2a_v03_adapter_cb.c

    The callbacks of the adapter's table and the table itself, over a store of
    contexts.  An address that is not null is the address of a context. *)

From S2P Require Export A2aRoute Stack.
From S2P Require Import EnvInst Transform.
From stdpp Require Import gmap.
#[local] Open Scope Z_scope.

Definition A2A_V03_FRAME_MAGIC : bytes := "A2A/0.3"%cs.
Definition A2A_V03_FRAME_HDR_SEP : bytes := "\r\n"%cs.
Definition A2A_V03_FRAME_END : bytes := "\r\n\r\n"%cs.
Definition A2A_V03_FRAME_HDR_MAX : nat := 256.

Section callbacks.
Context {W : Type} `{AiryErr} `{AiryString} `{CJson}.
Implicit Types (a : @a2a_v03_adapter_s W) (c : option (@a2a_v03_adapter_s W)).

(** The context the address points to is overwritten by a fresh one; what the
    old one owned is not released. *)
Definition a2a_adapter_init_cb (alloc : bool) c : Z * option (@a2a_v03_adapter_s W) :=
  match c with
  | None => (AIRY_ERR_UNKNOWN, c)
  | Some _ =>
      match a2a_v03_context_create alloc (Some a2a_v03_config_default) with
      | None => (AIRY_ERR_INVALID_PARAM, c)
      | Some new_ctx => (0, Some new_ctx)
      end
  end.

Definition a2a_adapter_destroy_cb (g_cached_card : a2a_agent_card_t) c
    : a2a_agent_card_t * option (@a2a_v03_adapter_s W) :=
  match c with
  | None => (g_cached_card, None)
  | Some _ => ((a2a_v03_ctx_clear g_cached_card c).1, Some adapter_zeroed)
  end.

(** [m] is the memory at the message's address, taken for a string. *)
Definition a2a_adapter_encode_cb (alloc : bool) c (m : option bytes)
    : outcome (Z * option bytes * Z) :=
  match c, m with
  | Some _, Some m =>
      msg ← payload_str m;
      if negb alloc then Done (AIRY_ERR_OUT_OF_MEMORY, None, 0)
      else Done (0, Some (msg ++ [NUL]), strlen msg + 1)
  | _, _ => Done (AIRY_ERR_UNKNOWN, None, 0)
  end.

(** [o] is the object the output points to; its first [s] bytes are replaced. *)
Definition a2a_adapter_decode_cb c (d : option bytes) (s : Z) (o : option bytes)
    : outcome (Z * option bytes) :=
  match c, d, o with
  | Some _, Some d, Some o' =>
      if s =? 0 then Done (AIRY_ERR_UNKNOWN, o)
      else if (lenZ d <? s) || (lenZ o' <? s) then Fault
      else Done (0, Some (take (Z.to_nat s) d ++ drop (Z.to_nat s) o'))
  | _, _, _ => Done (AIRY_ERR_UNKNOWN, o)
  end.

Definition a2a_adapter_connect_cb c : Z * option (@a2a_v03_adapter_s W) :=
  match c with
  | None => (AIRY_ERR_UNKNOWN, c)
  | Some a => (0, Some (a <| aa_connected := true |>))
  end.

Definition a2a_adapter_disconnect_cb c : Z * option (@a2a_v03_adapter_s W) :=
  match c with
  | None => (AIRY_ERR_UNKNOWN, c)
  | Some a => (0, Some (a <| aa_connected := false |>))
  end.

Definition a2a_adapter_is_connected_cb c : Z :=
  match c with
  | None => 0
  | Some a => if aa_connected a then 1 else 0
  end.

Definition a2a_frame_header (s : Z) : bytes :=
  A2A_V03_FRAME_MAGIC ++ A2A_V03_FRAME_HDR_SEP ++ "Content-Length: "%cs ++ dec s
  ++ A2A_V03_FRAME_HDR_SEP ++ "Content-Type: application/json"%cs ++ A2A_V03_FRAME_END.

(** [d] is the data of [s] bytes. *)
Definition a2a_adapter_send_cb c (d : option bytes) (s : Z) (w : W)
    : W * (Z * option (@a2a_v03_adapter_s W)) :=
  match c, d with
  | Some a, Some data =>
      if s =? 0 then (w, (AIRY_ERR_INVALID_PARAM, c))
      else if negb (a2a_v03_ctx_ready c) then (w, (AIRY_ERR_STATE_ERROR, c))
      else match aa_connected a, aa_transport_write a with
           | true, Some transport_write =>
               let hdr := a2a_frame_header s in
               let hdr_len := strlen hdr in
               if (hdr_len <=? 0) || (Z.of_nat A2A_V03_FRAME_HDR_MAX <=? hdr_len)
               then (w, (AIRY_ERR_OVERFLOW, c))
               else
                 let '(w, rc) := transport_write (aa_transport_ctx a) hdr w in
                 if negb (rc =? AIRY_OK) then (w, (AIRY_ERR_IO, c))
                 else
                   let '(w, rc) := transport_write (aa_transport_ctx a)
                                     (take (Z.to_nat s) data) w in
                   if negb (rc =? AIRY_OK) then (w, (AIRY_ERR_IO, c))
                   else (w, (AIRY_OK, Some (a <| aa_bytes_sent ::= (fun n => u64 (n + (s + hdr_len))) |>
                                              <| aa_messages_sent ::= (fun n => u64 (n + 1)) |>)))
           | _, _ => (w, (AIRY_ENOTCONN, c))
           end
  | _, _ => (w, (AIRY_ERR_INVALID_PARAM, c))
  end.

(** The code and the message read, if the transport stored one. *)
Definition a2a_adapter_receive_cb c (has_out : bool) (t : Z) (w : W)
    : W * (Z * option bytes * option (@a2a_v03_adapter_s W)) :=
  match c with
  | Some a =>
      if negb has_out then (w, (AIRY_ERR_UNKNOWN, None, c))
      else if negb (a2a_v03_ctx_ready c) then (w, (AIRY_ERR_STATE_ERROR, None, c))
      else match aa_transport_read a with
           | None => (w, (AIRY_ERR_NOT_SUPPORTED, None, c))
           | Some transport_read =>
               let '(w, (rc, d)) := transport_read (aa_transport_ctx a) t w in
               if negb (rc =? AIRY_OK) then (w, (rc, d, c))
               else
                 let a := match d with
                          | Some m =>
                              if 0 <? lenZ m
                              then a <| aa_bytes_received ::= (fun n => u64 (n + lenZ m)) |>
                                     <| aa_messages_received ::= (fun n => u64 (n + 1)) |>
                              else a
                          | None => a
                          end in
                 (w, (AIRY_OK, d, Some a))
           end
  | None => (w, (AIRY_ERR_UNKNOWN, None, c))
  end.

Definition request_failed : bytes := "{'error':'request failed'}"%cs.

(** The request's payload is read as a string. *)
Definition a2a_adapter_handle_request_cb (env : route_env) (s : route_state W)
    (msg : unified_message_t) : outcome (route_state W * (Z * option bytes)) :=
  let method := if streq (um_method msg) [] then "stats"%cs else um_method msg in
  params ← match um_payload msg with Some p => payload_str p | None => Done "{}"%cs end;
  '(s, (result, response_json)) ← a2a_v03_route_request env s (Some method) (Some params) true;
  match response_json with
  | Some r =>
      if result =? AIRY_SUCCESS then Done (s, (AIRY_SUCCESS, Some r))
      else Done (s, (result, Some request_failed))
  | None => Done (s, (if result =? AIRY_SUCCESS then AIRY_ERR_UNKNOWN else result,
                      Some request_failed))
  end.

(** What is printed into a buffer of [s] bytes. *)
Definition a2a_adapter_get_version_cb (has_buf : bool) (s : nat) : Z * option bytes :=
  if negb has_buf || (s =? 0)%nat then (AIRY_ERR_UNKNOWN, None)
  else (0, Some (fits s A2A_V03_VERSION)).

Definition a2a_adapter_capabilities_cb : Z :=
  Z.lor (Z.lor A2A_CAP_TASK_EXECUTION A2A_CAP_STREAMING) A2A_CAP_NEGOTIATION.

Definition a2a_adapter_get_stats_cb c (has_buf : bool) (s : nat) : Z * option bytes :=
  match c with
  | Some a =>
      if negb has_buf || (s =? 0)%nat then (AIRY_ERR_UNKNOWN, None)
      else (0, Some (fits s ("{'agents':"%cs ++ dec (Z.of_nat (aa_agent_count a)) ++ ",'tasks':"%cs
                             ++ dec (lenZ (aa_tasks a)) ++ "}"%cs)))
  | None => (AIRY_ERR_UNKNOWN, None)
  end.
End callbacks.

(** ** The table *)

Section table.
Context {W : Type} `{AiryErr} `{AiryString} `{CJson}.

(** The contexts by address, the static agent card, the answers of the
    allocator with the address it gives next, whether a callback has read
    memory that is not there, and the world of the handlers. *)
Record a2a_world := mkA2aWorld {
  aw_contexts : gmap ptr (@a2a_v03_adapter_s W);
  aw_card : a2a_agent_card_t;
  aw_oracle : ptr -> bool;
  aw_next : ptr;
  aw_fault : bool;
  aw_world : W
}.

#[global] Instance eta_a2a_world : Eta a2a_world := fun w =>
  mkA2aWorld (aw_contexts w) (aw_card w) (aw_oracle w) (aw_next w) (aw_fault w) (aw_world w).

Definition ctx_at (c : context_t) (w : a2a_world) : option (@a2a_v03_adapter_s W) :=
  c ≫= fun p => aw_contexts w !! p.

Definition ctx_put (c : context_t) (a : option (@a2a_v03_adapter_s W)) (w : a2a_world)
    : a2a_world :=
  match c, a with
  | Some p, Some a => w <| aw_contexts ::= <[p := a]> |>
  | _, _ => w
  end.

Definition aw_malloc (w : a2a_world) : a2a_world * bool :=
  (w <| aw_next ::= S |>, aw_oracle w (aw_next w)).

Definition init_entry (c : context_t) (w : a2a_world) : a2a_world * Z :=
  let '(w', ok) := aw_malloc w in
  match a2a_adapter_init_cb ok (ctx_at c w) with
  | (rc, Some a) => (ctx_put c (Some a) w', rc)
  | (rc, None) => (w, rc)
  end.

Definition destroy_entry (c : context_t) (w : a2a_world) : a2a_world * Z :=
  let '(card, a) := a2a_adapter_destroy_cb (aw_card w) (ctx_at c w) in
  (ctx_put c a w <| aw_card := card |>, 0).

Definition lift_entry (f : option (@a2a_v03_adapter_s W) -> Z * option (@a2a_v03_adapter_s W))
    (c : context_t) (w : a2a_world) : a2a_world * Z :=
  let '(rc, a) := f (ctx_at c w) in (ctx_put c a w, rc).

(** [repr] is the memory of a message, [overlay] what a message becomes when
    its first bytes are overwritten: the layout of the structure. *)
Context (repr : unified_message_t -> bytes)
        (overlay : bytes -> unified_message_t -> unified_message_t).

Definition encode_entry (c : context_t) (m : unified_message_t) (w : a2a_world)
    : a2a_world * (Z * option buffer * Z) :=
  let '(w', ok) := aw_malloc w in
  match a2a_adapter_encode_cb ok (ctx_at c w) (Some (repr m)) with
  | Done (rc, Some b, size) => (w', (rc, Some (aw_next w, b), size))
  | Done (rc, None, size) => (w, (rc, None, size))
  | Fault => (w <| aw_fault := true |>, (0, None, 0))
  end.

Definition decode_entry (c : context_t) (d : bytes) (s : Z) (m : unified_message_t)
    (w : a2a_world) : a2a_world * (Z * unified_message_t) :=
  match ctx_at c w with
  | Some _ => if s =? 0 then (w, (AIRY_ERR_UNKNOWN, m))
              else (w, (0, overlay (take (Z.to_nat s) d) m))
  | None => (w, (AIRY_ERR_UNKNOWN, m))
  end.

Definition send_entry (c : context_t) (d : option bytes) (s : Z) (w : a2a_world)
    : a2a_world * Z :=
  let '(w1, (rc, a)) := a2a_adapter_send_cb (ctx_at c w) d s (aw_world w) in
  (ctx_put c a w <| aw_world := w1 |>, rc).

Definition receive_entry (c : context_t) (t : Z) (w : a2a_world)
    : a2a_world * (Z * option buffer * Z) :=
  let '(w1, (rc, d, a)) := a2a_adapter_receive_cb (ctx_at c w) true t (aw_world w) in
  let w' := ctx_put c a w <| aw_world := w1 |> in
  match d with
  | Some m => (w' <| aw_next ::= S |>, (rc, Some (aw_next w, m), lenZ m))
  | None => (w', (rc, None, 0))
  end.

(** [s_a2a_default_context] is the address of the static context. *)
Definition a2a_v03_get_adapter (s_a2a_default_context : ptr) : @protocol_adapter_t a2a_world :=
  mkAdapter AIRY_PROTOCOL_A2A "A2A v0.3 Protocol Adapter"%cs A2A_V03_VERSION
    "Agent-to-Agent Protocol v0.3 adapter"%cs
    (Some init_entry) (Some destroy_entry) (Some encode_entry) (Some decode_entry)
    (Some (fun c e => lift_entry a2a_adapter_connect_cb c))
    (Some (lift_entry a2a_adapter_disconnect_cb))
    (Some (fun c w => (w, a2a_adapter_is_connected_cb (ctx_at c w))))
    (Some send_entry) (Some receive_entry) (Some s_a2a_default_context).
End table.

#[export] Instance a2a_needs_context {W} `{AiryErr} `{AiryString} repr overlay p :
  NeedsContext (W := @a2a_world W) (a2a_v03_get_adapter repr overlay p).
Proof.
  split; [|exists (encode_entry repr); split; [done|]]; intros; eexists; (split; [done|errlia]).
Qed.
