(* ===== verification/A2aMem.v ===== *)
(** * Memory of the A2A code: who allocates and who releases

    The operations of standards/a2a/src/ that allocate, over the heap of [Heap]:
    cards, tasks, messages and the context, with the functions that release
    them.  A pointer to a structure is its block and its fields; erasing the
    blocks gives the values of [A2aCore] and [A2aTask]. *)

From S2P Require Export Heap A2aTask.
From S2P Require Import EnvInst A2aRoute.
#[local] Open Scope Z_scope.

(** ** Structures in memory *)

(** [a2a_skill_t] *)
Record skill_h := mkSkillH { hs_name : hstr; hs_description : hstr; hs_schema_json : hstr }.

(** [a2a_agent_card_t]; the skills are one array. *)
Record card_h := mkCardH {
  hc_id : hstr;
  hc_name : hstr;
  hc_description : hstr;
  hc_url : hstr;
  hc_version : hstr;
  hc_protocol_version : Z;
  hc_capabilities : Z;
  hc_skills : option (addr * list skill_h);
  hc_provider_name : hstr;
  hc_provider_url : hstr;
  hc_documentation_url : hstr;
  hc_authentication_schemes_json : hstr;
  hc_capabilities_json : hstr;
  hc_available : bool
}.

Definition card_h_zero : card_h :=
  mkCardH None None None None None 0 0 None None None None None None false.

(** [a2a_task_t], in a block of its own. *)
Record task_h := mkTaskH {
  ht_block : addr;
  ht_id : hstr;
  ht_session_id : hstr;
  ht_agent_id : hstr;
  ht_state : Z;
  ht_description : hstr;
  ht_input_json : hstr;
  ht_output_json : hstr;
  ht_created_at : Z;
  ht_updated_at : Z;
  ht_progress : double;
  ht_error_message : hstr
}.

#[export] Instance eta_task_h : Eta task_h := fun t =>
  mkTaskH (ht_block t) (ht_id t) (ht_session_id t) (ht_agent_id t) (ht_state t)
    (ht_description t) (ht_input_json t) (ht_output_json t) (ht_created_at t) (ht_updated_at t)
    (ht_progress t) (ht_error_message t).

(** [a2a_message_t], the fields of an element of an array. *)
Record message_h := mkMessageH {
  hm_role : hstr;
  hm_type : a2a_message_type_t;
  hm_content_json : hstr;
  hm_mime_type : hstr;
  hm_file_name : hstr;
  hm_file_data : hstr
}.

(** [a2a_negotiation_t], in a block of its own. *)
Record negotiation_h := mkNegotiationH {
  hn_block : addr;
  hn_action : a2a_negotiation_action_t;
  hn_task_id : hstr;
  hn_agent_id : hstr;
  hn_terms_json : hstr;
  hn_counter_proposal_json : hstr;
  hn_reason : hstr
}.

Definition skill_strs (s : skill_h) : list hstr := [hs_name s; hs_description s; hs_schema_json s].

Definition card_strs (c : card_h) : list hstr :=
  [hc_id c; hc_name c; hc_description c; hc_url c; hc_version c; hc_provider_name c;
   hc_provider_url c; hc_documentation_url c; hc_authentication_schemes_json c;
   hc_capabilities_json c].

Definition task_strs (t : task_h) : list hstr :=
  [ht_id t; ht_session_id t; ht_agent_id t; ht_description t; ht_input_json t; ht_output_json t;
   ht_error_message t].

Definition message_strs (m : message_h) : list hstr :=
  [hm_role m; hm_content_json m; hm_mime_type m; hm_file_name m; hm_file_data m].

Definition negotiation_strs (n : negotiation_h) : list hstr :=
  [hn_task_id n; hn_agent_id n; hn_terms_json n; hn_counter_proposal_json n; hn_reason n].

#[export] Instance own_skill : Owns skill_h := fun s => own (skill_strs s).
#[export] Instance own_card : Owns card_h := fun c => own (card_strs c) ⊎ own (hc_skills c).
#[export] Instance own_task : Owns task_h := fun t => own (task_strs t) ⊎ own (ht_block t).
#[export] Instance own_message : Owns message_h := fun m => own (message_strs m).
#[export] Instance own_negotiation : Owns negotiation_h := fun n =>
  own (negotiation_strs n) ⊎ own (hn_block n).

(** ** What the structures hold *)

Definition erase_skill (s : skill_h) : a2a_skill_t :=
  mkSkill (str (hs_name s)) (str (hs_description s)) (str (hs_schema_json s)).

Definition erase_card (c : card_h) : a2a_agent_card_t :=
  mkCard (str (hc_id c)) (str (hc_name c)) (str (hc_description c)) (str (hc_url c))
    (str (hc_version c)) (hc_protocol_version c) (hc_capabilities c)
    (match hc_skills c with Some (_, l) => erase_skill <$> l | None => [] end)
    (str (hc_provider_name c)) (str (hc_provider_url c)) (str (hc_documentation_url c))
    (str (hc_authentication_schemes_json c)) (str (hc_capabilities_json c)) (hc_available c).

Definition erase_task (t : task_h) : a2a_task_t :=
  mkTask (default [] (str (ht_id t))) (str (ht_session_id t)) (str (ht_agent_id t)) (ht_state t)
    (str (ht_description t)) (str (ht_input_json t)) (str (ht_output_json t)) (ht_created_at t)
    (ht_updated_at t) (ht_progress t) (str (ht_error_message t)).

(** ** Releasing *)

Definition free_all (l : list hstr) : mem unit := each free_str l.

Definition free_skills (s : option (addr * list skill_h)) : mem unit :=
  match s with
  | Some (p, l) => _ ← each (fun s => free_all (skill_strs s)) l; free (Some p)
  | None => mret tt
  end.

(** The card itself is not released: it may be static. *)
Definition a2a_agent_card_destroy (card : option card_h) : mem unit :=
  match card with
  | None => mret tt
  | Some c => _ ← free_all (card_strs c); free_skills (hc_skills c)
  end.

Definition a2a_task_destroy (task : option task_h) : mem unit :=
  match task with
  | None => mret tt
  | Some t => _ ← free_all (task_strs t); free (Some (ht_block t))
  end.

(** The message is released as a block of its own. *)
Definition a2a_message_destroy (msg : option (addr * message_h)) : mem unit :=
  match msg with
  | None => mret tt
  | Some (p, m) => _ ← free_all (message_strs m); free (Some p)
  end.

Definition a2a_negotiation_destroy (neg : option negotiation_h) : mem unit :=
  match neg with
  | None => mret tt
  | Some n => _ ← free_all (negotiation_strs n); free (Some (hn_block n))
  end.

(** A card in a block of its own, or missing. *)
Definition free_card_at (r : option (addr * card_h)) : mem unit :=
  match r with
  | Some (q, c) => _ ← a2a_agent_card_destroy (Some c); free (Some q)
  | None => mret tt
  end.

Definition a2a_cards_free (results : option (addr * list (option (addr * card_h)))) : mem unit :=
  match results with
  | None => mret tt
  | Some (p, l) => _ ← each free_card_at l; free (Some p)
  end.

(** A caller's list: four strings of each of the first [count] cards. *)
Definition a2a_free_agent_list (list : option (list card_h * nat)) : mem unit :=
  match list with
  | None => mret tt
  | Some (l, count) =>
      each (fun c => free_all [hc_id c; hc_name c; hc_url c; hc_capabilities_json c])
        (take (count `min` Z.to_nat A2A_MAX_AGENTS) l)
  end.

Lemma own_card_eq c :
  own c = own [hc_id c; hc_name c; hc_description c; hc_url c; hc_version c; hc_provider_name c;
    hc_provider_url c; hc_documentation_url c; hc_authentication_schemes_json c;
    hc_capabilities_json c] ⊎ own (hc_skills c).
Proof. done. Qed.

Section destroyers.
Context `{Grants}.

#[export] Instance destroys_all : Destroys free_all.
Proof. apply destroys_each, destroys_str. Qed.

#[export] Instance destroys_skill : Destroys (fun s => free_all (skill_strs s)).
Proof. intros s. apply (destroys (skill_strs s)). Qed.

#[export] Instance destroys_skills : Destroys free_skills.
Proof.
  intros [[p l]|]; [|by apply spec_ret]. cbn [free_skills].
  eapply (spec_destroy _ l); [|apply spec_free_block].
  blocks.
Qed.

#[export] Instance destroys_card : Destroys (fun c => a2a_agent_card_destroy (Some c)).
Proof.
  intros c. eapply (spec_destroy free_all (card_strs c)); [reflexivity|apply (destroys (hc_skills c))].
Qed.

#[export] Instance destroys_task : Destroys (fun t => a2a_task_destroy (Some t)).
Proof.
  intros t. eapply (spec_destroy free_all (task_strs t)); [reflexivity|apply spec_free_block].
Qed.

#[export] Instance destroys_message : Destroys a2a_message_destroy.
Proof.
  intros [[p m]|]; [|by apply spec_ret].
  eapply (spec_destroy free_all (message_strs m)); [|apply spec_free_block].
  change (own p ⊎ own (message_strs m) = own (message_strs m) ⊎ own p). blocks.
Qed.

#[export] Instance destroys_negotiation : Destroys (fun n => a2a_negotiation_destroy (Some n)).
Proof.
  intros n. eapply (spec_destroy free_all (negotiation_strs n)); [reflexivity|].
  apply spec_free_block.
Qed.

#[export] Instance destroys_card_at : Destroys free_card_at.
Proof.
  intros [[q c]|]; [|by apply spec_ret].
  eapply (spec_destroy (fun c => a2a_agent_card_destroy (Some c)) c); [|apply spec_free_block]. blocks.
Qed.

#[export] Instance destroys_cards : Destroys a2a_cards_free.
Proof.
  intros [[p l]|]; [|by apply spec_ret].
  eapply (spec_destroy (each free_card_at) l); [|apply spec_free_block]. blocks.
Qed.
End destroyers.

(** ** Cards handed out *)

(** The copies [discover_agents] and [get_agent_card] make of an entry. *)
Definition copy_internal (ic : a2a_internal_card_t) : mem card_h :=
  id ← strdup (ic_id ic);
  name ← strdup (ic_name ic);
  url ← strdup (ic_url ic);
  capabilities_json ← strdup (ic_capabilities ic);
  mret (mkCardH id name None url None (ic_version ic) 0 None None None None None
          capabilities_json false).

(** The cards made for the matching agents; where the block of one is refused,
    the next agent takes its place. *)
Fixpoint discover_fill (l : list a2a_internal_card_t) : mem (list (addr * card_h)) :=
  match l with
  | [] => mret []
  | ic :: r =>
      p ← malloc;
      match p with
      | Some p => c ← copy_internal ic; rest ← discover_fill r; mret ((p, c) :: rest)
      | None => discover_fill r
      end
  end.

Definition card_array : Type := option (addr * list (option (addr * card_h))).

Section cards.
Context {W : Type} `{AiryErr} `{AiryString}.

Definition discover_agents_mem (ctx : option (@a2a_v03_adapter_s W))
    (capability : option bytes) (has_out : bool) : mem (Z * option (card_array * Z)) :=
  match ctx with
  | Some a =>
      if negb has_out then mret (AIRY_ERR_UNKNOWN, None)
      else if negb (a2a_v03_ctx_ready ctx) then mret (AIRY_ERR_STATE_ERROR, None)
      else
        let matching := filter (fun c => discover_match capability c = true) (agents a) in
        let matched := length matching in
        if decide (0 < matched)%nat then
          agent_array ← malloc;
          match agent_array with
          | None => mret (AIRY_ERR_OUT_OF_MEMORY, Some (None, 0))
          | Some p =>
              cards ← discover_fill matching;
              mret (0, Some (Some (p, (Some <$> cards) ++ replicate (matched - length cards) None),
                             Z.of_nat matched))
          end
        else mret (0, Some (None, 0))
  | None => mret (AIRY_ERR_UNKNOWN, None)
  end.

(** The static card is released before it is filled again. *)
Definition get_agent_card_mem (g_cached_card : card_h) (ctx : option (@a2a_v03_adapter_s W))
    (agent_id : option bytes) : mem (card_h * bool) :=
  match ctx, agent_id with
  | None, None => _ ← a2a_agent_card_destroy (Some g_cached_card); mret (card_h_zero, false)
  | Some a, Some id =>
      if negb (aa_initialized a) then mret (g_cached_card, false)
      else match find_agent a id ≫= (agents a !!.) with
           | Some ic =>
               _ ← a2a_agent_card_destroy (Some g_cached_card);
               c ← copy_internal ic;
               mret (mkCardH (hc_id c) (hc_name c) None (hc_url c) None (hc_protocol_version c)
                       (ic_capabilities_mask ic) None None None None None
                       (hc_capabilities_json c) (ic_available ic), true)
           | None => mret (g_cached_card, false)
           end
  | _, _ => mret (g_cached_card, false)
  end.
End cards.

Section cards_spec.
Context `{Grants}.

(** The card has the fields of a copy only. *)
Definition card_of (ic : a2a_internal_card_t) (c : card_h) : Prop :=
  own c = own [hc_id c; hc_name c; hc_url c; hc_capabilities_json c] /\
  (grants -> erase_card c = discovered_card ic).

Lemma spec_copy_internal ic : constructs (copy_internal ic) (card_of ic).
Proof.
  unfold copy_internal, constructs.
  eapply spec_new; [apply spec_strdup|]. intros id [_ H1].
  eapply spec_new; [apply spec_strdup|]. intros name [_ H2].
  eapply spec_new; [apply spec_strdup|]. intros url [_ H3].
  eapply spec_new; [apply spec_strdup|]. intros caps [_ H4].
  apply spec_ret. unfold card_of.
  rewrite own_card_eq. cbn. split; [blocks|]. split; [blocks|]. intros HG. unfold erase_card. cbn.
  by rewrite (H1 HG), (H2 HG), (H3 HG), (H4 HG).
Qed.
Lemma spec_discover_fill l :
  constructs (discover_fill l) (fun cards =>
    (length cards <= length l)%nat /\
    (grants -> erase_card <$> cards.*2 = discovered_card <$> l)).
Proof.
  induction l as [|ic l IH]; cbn [discover_fill]; [apply spec_ret; split; [done|]; split; [done|done]|].
  eapply spec_new; [apply spec_malloc|]. intros [p|] Hp.
  - eapply spec_new; [apply spec_copy_internal|]. intros c [_ Hc].
    eapply spec_new; [exact IH|]. intros rest [Hlen Hr]. apply spec_ret.
    split; [blocks|]. cbn [length]. split; [lia|]. intros HG. cbn. by rewrite Hc, Hr.
  - eapply spec_conseq; [exact IH|blocks|]. intros rest Y (-> & Hlen & Hr).
    split; [done|]. cbn [length]. split; [lia|]. intros HG. by destruct (Hp HG).
Qed.

Lemma own_replicate_none n : own (replicate n (None : option (addr * card_h))) = ∅.
Proof. induction n as [|n IH]; [done|]. cbn [replicate]. autorewrite with own. rewrite IH. blocks. Qed.

Lemma own_somes (l : list (addr * card_h)) : own (Some <$> l) = own l.
Proof. induction l as [|p l IH]; [done|]. cbn. autorewrite with own. by rewrite IH. Qed.

Lemma own_card_array p (cards : list (addr * card_h)) n :
  own (Some (p, (Some <$> cards) ++ replicate n None) : card_array) = own p ⊎ own cards.
Proof.
  change (own p ⊎ own ((Some <$> cards) ++ replicate n None) = own p ⊎ own cards).
  rewrite own_app, own_somes, own_replicate_none. blocks.
Qed.
End cards_spec.

Section cards_ops.
Context `{Grants} {W : Type} `{AiryErr} `{AiryString}.

(** What a caller of [discover_agents] sees. *)
Definition erase_array (out : card_array * Z) : option (list (option a2a_agent_card_t)) * Z :=
  (fmap (fun a : addr * list (option (addr * card_h)) =>
           (fun c : option (addr * card_h) => erase_card <$> (snd <$> c)) <$> a.2) out.1, out.2).

Lemma discovered_all k l : discovered (fun _ => true) k l = discovered_card <$> l.
Proof. revert k. induction l as [|c l IH]; intros k; [done|]. cbn. by rewrite IH. Qed.

(** The array is the caller's; without refusals it holds what the specification
    says. *)
Lemma spec_discover_agents (ctx : option (@a2a_v03_adapter_s W)) capability skill has_out :
  spec (discover_agents_mem ctx capability has_out) ∅ (fun r Y =>
    Y = own (fst <$> r.2) /\
    (grants -> (r.1, erase_array <$> r.2) =
               a2a_v03_discover_agents (fun _ => true) ctx capability skill has_out)).
Proof.
  unfold discover_agents_mem, a2a_v03_discover_agents. destruct ctx as [a|]; [|by apply spec_ret].
  destruct has_out; cbn [negb]; [|by apply spec_ret].
  destruct (a2a_v03_ctx_ready (Some a)); cbn [negb]; [|by apply spec_ret].
  set (matching := filter _ _). case_decide as Hm; [|by apply spec_ret].
  eapply spec_new; [apply spec_malloc|]. intros [p|] Hp.
  2:{ apply spec_ret. split; [done|]. intros HG. by destruct (Hp HG). }
  eapply spec_new; [apply spec_discover_fill|]. intros cards [Hlen Hc]. apply spec_ret. cbn [fst snd].
  split.
  - etrans; [|symmetry; apply own_card_array]. blocks.
  - intros HG. specialize (Hc HG). cbn. unfold erase_array. cbn. rewrite discovered_all.
    assert (length cards = length matching) as Hl
      by (apply (f_equal length) in Hc; by rewrite !length_fmap in Hc).
    rewrite length_fmap, Hl, Nat.sub_diag. cbn [replicate]. rewrite !app_nil_r, <- Hc.
    by rewrite <- !list_fmap_compose.
Qed.

Lemma spec_get_agent_card cache (ctx : option (@a2a_v03_adapter_s W)) id :
  spec (get_agent_card_mem cache ctx id) (own cache) (fun r Y =>
    Y = own r.1 /\
    (grants -> (erase_card r.1, r.2) = a2a_v03_get_agent_card (erase_card cache) ctx id)).
Proof.
  unfold get_agent_card_mem, a2a_v03_get_agent_card.
  assert (own card_h_zero = ∅) as Hz by (rewrite own_card_eq; cbn; blocks).
  destruct ctx as [a|], id as [id|]; try by apply spec_ret.
  - destruct (aa_initialized a); cbn [negb]; [|by apply spec_ret].
    destruct (_ ≫= _) as [ic|]; [|by apply spec_ret].
    eapply (spec_destroy (fun c => a2a_agent_card_destroy (Some c)));
      [symmetry; apply (right_id_L ∅ (⊎))|].
    eapply spec_new; [apply spec_copy_internal|]. intros c [Ho Hc]. apply spec_ret. cbn [fst snd].
    split; [rewrite Ho, own_card_eq; cbn; blocks|]. intros HG. specialize (Hc HG).
    unfold erase_card in *. cbn. unfold discovered_card in Hc. cbn in Hc.
    injection Hc. intros. f_equal. f_equal; done.
  - eapply (spec_destroy (fun c => a2a_agent_card_destroy (Some c)));
      [symmetry; apply (right_id_L ∅ (⊎))|]. by apply spec_ret.
Qed.
End cards_ops.

(** ** The context *)

(** The context: its block, its fields other than the tasks, and the tasks. *)
Record a2a_mem {W : Type} := mkA2aMem {
  am_block : addr;
  am_fields : @a2a_v03_adapter_s W;
  am_tasks : list task_h
}.
Arguments a2a_mem : clear implicits.

#[export] Instance own_a2a_mem W : Owns (a2a_mem W) := fun m =>
  own (am_block m) ⊎ own (am_tasks m).

Definition with_fields {W} (m : a2a_mem W) (a : @a2a_v03_adapter_s W) : a2a_mem W :=
  mkA2aMem W (am_block m) a (am_tasks m).

Definition with_tasks {W} (m : a2a_mem W) (l : list task_h) : a2a_mem W :=
  mkA2aMem W (am_block m) (am_fields m) l.

Definition erase {W} (m : a2a_mem W) : @a2a_v03_adapter_s W :=
  (am_fields m) <| aa_tasks := erase_task <$> am_tasks m |>.

(** No operation stores the pointer [capabilities_json] of an entry, so there
    is no block to release; a stored one would not be known to the heap. *)
Definition free_caps (c : a2a_internal_card_t) : mem unit :=
  match ic_capabilities_json c with None => free None | Some _ => fault end.

Section context_mem.
Context {W : Type} `{AiryErr} `{AiryString}.
Implicit Types (m : a2a_mem W) (ctx : option (a2a_mem W)).

Definition context_create_mem (config : option a2a_v03_config_t) : mem (option (a2a_mem W)) :=
  match config with
  | None => mret None
  | Some c =>
      p ← malloc;
      mret (p ← p; a ← a2a_v03_context_create true (Some c); Some (mkA2aMem W p a []))
  end.

Definition ctx_clear_mem (g_cached_card : card_h) m : mem (card_h * a2a_mem W) :=
  let a := am_fields m in
  _ ← each free_caps (agents a);
  _ ← each (fun t => a2a_task_destroy (Some t)) (am_tasks m);
  '(g_cached_card, _) ← get_agent_card_mem (W:=W) g_cached_card None None;
  mret (g_cached_card,
        mkA2aMem W (am_block m)
          (default a (a2a_v03_ctx_clear card_zero (Some a)).2) []).

Definition context_destroy_mem (g_cached_card : card_h) ctx : mem card_h :=
  match ctx with
  | None => mret g_cached_card
  | Some m =>
      '(g_cached_card, m) ← ctx_clear_mem g_cached_card m;
      _ ← free (Some (am_block m));
      mret g_cached_card
  end.

(** The handler allocates the output it stores. *)
Definition handle_task_mem (a : @a2a_v03_adapter_s W) (t : task_h) (w : W) : mem (W * task_h) :=
  match aa_task_handler a with
  | Some handler =>
      let '(w, (new_state, output)) := handler (erase_task t) w in
      let t := t <| ht_state := new_state |> in
      output ← strdup_opt output;
      match output with
      | Some o => _ ← free_str (ht_output_json t); mret (w, t <| ht_output_json := Some o |>)
      | None => mret (w, t)
      end
  | None => mret (w, t)
  end.

Definition create_task_mem (now now' : Z) ctx (agent_id description input_json : option bytes)
    (has_out : bool) (w : W) : mem (W * (Z * option (a2a_mem W) * option nat)) :=
  match ctx with
  | Some m =>
      if negb has_out then mret (w, (AIRY_ERR_UNKNOWN, ctx, None))
      else if negb (aa_initialized (am_fields m)) then mret (w, (AIRY_ERR_STATE_ERROR, ctx, None))
      else if A2A_V03_MAX_TASKS <=? lenZ (am_tasks m)
      then mret (w, (AIRY_ERR_BUFFER_TOO_SMALL, ctx, None))
      else
        t ← malloc;
        match t with
        | None => mret (w, (AIRY_ERR_OUT_OF_MEMORY, ctx, None))
        | Some t =>
            id ← malloc;
            match id with
            | None => _ ← free (Some t); mret (w, (AIRY_ERR_OUT_OF_MEMORY, ctx, None))
            | Some id =>
                let s := fits A2A_TASK_ID_SIZE ("task_"%cs ++ dec (lenZ (am_tasks m)) ++ "_"%cs
                                                ++ dec (u32 (now mod 100000))) in
                agent_id ← strdup_opt agent_id;
                description ← strdup_opt description;
                input_json ← strdup_opt input_json;
                let task := mkTaskH t (Some (id, s)) None agent_id A2A_TASK_SUBMITTED description
                              input_json None now' now' f64_zero None in
                '(w, task) ← handle_task_mem (am_fields m) task w;
                mret (w, (0, Some (with_tasks m (am_tasks m ++ [task])), Some (length (am_tasks m))))
            end
        end
  | None => mret (w, (AIRY_ERR_UNKNOWN, ctx, None))
  end.

(** Running [f] on the task with the identifier, if there is one. *)
Definition at_task (f : task_h -> mem task_h) m (id : bytes) : mem (option (a2a_mem W)) :=
  match i ← find_task (erase m) id; t ← am_tasks m !! i; Some (i, t) with
  | Some (i, t) => t ← f t; mret (Some (with_tasks m (<[i := t]> (am_tasks m))))
  | None => mret None
  end.

(** Replacing a string field when there is a new value. *)
Definition replace_opt (old : hstr) (s : option bytes) : mem hstr :=
  match s with Some s => replace_str old s | None => mret old end.

Definition update_task_mem (now : Z) ctx (task_id : option bytes) (new_state : Z)
    (output_json : option bytes) (progress : double) : mem (Z * option (a2a_mem W)) :=
  match ctx, task_id with
  | Some m, Some id =>
      if negb (aa_initialized (am_fields m)) then mret (AIRY_ERR_STATE_ERROR, ctx)
      else
        r ← at_task (fun t =>
               let t := t <| ht_state := new_state |> in
               o ← replace_opt (ht_output_json t) output_json;
               let t := t <| ht_output_json := o |> in
               mret (t <| ht_progress := progress |> <| ht_updated_at := now |>)) m id;
        mret (match r with Some m => (0, Some m) | None => (AIRY_ERR_NOT_FOUND, ctx) end)
  | _, _ => mret (AIRY_ERR_UNKNOWN, ctx)
  end.

Definition cancel_task_mem (now : Z) ctx (task_id reason : option bytes)
    : mem (Z * option (a2a_mem W)) :=
  match ctx, task_id with
  | Some m, Some id =>
      if negb (aa_initialized (am_fields m)) then mret (AIRY_ERR_STATE_ERROR, ctx)
      else
        r ← at_task (fun t =>
               let t := t <| ht_state := A2A_TASK_CANCELED |> <| ht_updated_at := now |> in
               e ← replace_opt (ht_error_message t) reason;
               mret (t <| ht_error_message := e |>)) m id;
        mret (match r with Some m => (0, Some m) | None => (AIRY_ERR_NOT_FOUND, ctx) end)
  | _, _ => mret (AIRY_ERR_UNKNOWN, ctx)
  end.

Definition stream_task_update_mem (now : Z) ctx (task_id : option bytes) (progress : double)
    (chunk_json : option bytes) (is_final : bool) (w : W) : mem (W * (Z * option (a2a_mem W))) :=
  match ctx, task_id with
  | Some m, Some id =>
      if negb (aa_initialized (am_fields m)) then mret (w, (AIRY_ERR_STATE_ERROR, ctx))
      else
        r ← at_task (fun t =>
               let t := t <| ht_progress := progress |> <| ht_updated_at := now |> in
               if is_final then
                 let t := t <| ht_state := A2A_TASK_COMPLETED |> in
                 o ← replace_opt (ht_output_json t) chunk_json;
                 mret (t <| ht_output_json := o |>)
               else mret t) m id;
        let m := default m r in
        let w := match aa_streaming_handler (am_fields m) with
                 | Some handler => handler id progress chunk_json is_final w
                 | None => w
                 end in
        mret (w, (0, Some m))
  | _, _ => mret (w, (AIRY_ERR_UNKNOWN, ctx))
  end.
End context_mem.

(** ** Every operation keeps what the context owns *)

Lemma own_task_eq t :
  own t = own [ht_id t; ht_session_id t; ht_agent_id t; ht_description t; ht_input_json t;
               ht_output_json t; ht_error_message t] ⊎ own (ht_block t).
Proof. done. Qed.

Section context_spec.
Context `{Grants} {W : Type} `{AiryErr} `{AiryString}.
Implicit Types (m : a2a_mem W).

Lemma own_mem_eq m : own m = own (am_block m) ⊎ own (am_tasks m).
Proof. done. Qed.

Lemma erase_with_fields m a :
  aa_tasks a = erase_task <$> am_tasks m -> erase (with_fields m a) = a.
Proof. intros Ht. unfold erase, with_fields. cbn [am_fields am_tasks]. rewrite <- Ht. by destruct a. Qed.

(** A task transformer that keeps the blocks straight and computes [g]. *)
Definition transforms (f : task_h -> mem task_h) (g : a2a_task_t -> a2a_task_t) : Prop :=
  forall t, spec (f t) (own t) (fun t' Y =>
    Y = own t' /\ (grants -> erase_task t' = g (erase_task t))).

(** An operation that leaves the context [m']: it is owned, its fields satisfy
    [P], and without refusals it erases to [a]. *)
Definition leaves (m' : a2a_mem W) (Y : gmultiset addr) (fields : @a2a_v03_adapter_s W)
    (a : @a2a_v03_adapter_s W) : Prop :=
  Y = own m' /\ am_fields m' = fields /\ (grants -> erase m' = a).

Lemma spec_at_task f g m id :
  transforms f g ->
  spec (at_task f m id) (own m) (fun r Y =>
    match find_task (erase m) id with
    | Some i => exists m', r = Some m' /\
                  leaves m' Y (am_fields m) ((erase m) <| aa_tasks ::= alter g i |>)
    | None => r = None /\ Y = own m
    end).
Proof.
  intros Hf. unfold at_task. destruct (find_task (erase m) id) as [i|] eqn:Hi; [|by apply spec_ret].
  assert (exists t, am_tasks m !! i = Some t) as [t Ht].
  { apply find_idx_Some in Hi as [(u & Hu & _) _]. cbn in Hu. rewrite list_lookup_fmap in Hu.
    apply fmap_Some in Hu as (t & Ht & _). by exists t. }
  cbn [mbind option_bind]. rewrite Ht. cbn [mbind option_bind].
  destruct (own_insert _ _ _ Ht) as (R & HR & Hins).
  eapply (spec_step _ _ _ (own t)); [apply Hf|rewrite own_mem_eq, HR; cbn; instantiate (1 := own (am_block m) ⊎ R); multiset_solver|].
  intros t' Z [-> Hg]. apply spec_ret. eexists. split; [done|]. split; [|split; [done|]].
  - rewrite own_mem_eq. unfold with_tasks. cbn [am_block am_tasks]. rewrite Hins. multiset_solver.
  - intros HG. unfold erase, with_tasks. cbn. f_equal.
    rewrite list_fmap_insert, (Hg HG). apply list_eq. intros j.
    destruct (decide (i = j)) as [<-|Hne].
    + rewrite list_lookup_insert_eq by (rewrite length_fmap; by eapply lookup_lt_Some).
      by rewrite list_lookup_alter_eq, list_lookup_fmap, Ht.
    + by rewrite list_lookup_insert_ne, list_lookup_alter_ne by done.
Qed.

Lemma spec_replace_opt old s :
  spec (replace_opt old s) (own old) (fun r Y =>
    Y = own r /\ (grants -> str r = match s with Some s => Some s | None => str old end)).
Proof.
  destruct s as [s|]; [|by apply spec_ret]. eapply spec_conseq; [apply spec_replace_str|done|].
  intros r Y [-> [_ Hr]]. done.
Qed.

(** Replacing the output or the error message of a task. *)
Lemma own_output t :
  own t = own (ht_output_json t) ⊎
          (own [ht_id t; ht_session_id t; ht_agent_id t; ht_description t; ht_input_json t;
                ht_error_message t] ⊎ own (ht_block t)).
Proof. rewrite own_task_eq. blocks. Qed.

Lemma own_error t :
  own t = own (ht_error_message t) ⊎
          (own [ht_id t; ht_session_id t; ht_agent_id t; ht_description t; ht_input_json t;
                ht_output_json t] ⊎ own (ht_block t)).
Proof. rewrite own_task_eq. blocks. Qed.

(** An operation of the table on an existing context. *)
Definition keeps (op : mem (Z * option (a2a_mem W))) (pure : Z * option (@a2a_v03_adapter_s W)) m : Prop :=
  spec op (own m) (fun r Y => exists m', r.2 = Some m' /\ Y = own m' /\ am_fields m' = am_fields m /\
    (grants -> (r.1, Some (erase m')) = pure)).

Lemma keeps_at_task f g m id :
  transforms f g ->
  keeps (r ← at_task f m id;
         mret (match r with Some m' => (0, Some m') | None => (AIRY_ERR_NOT_FOUND, Some m) end))
        (match find_task (erase m) id with
         | Some i => (0, Some ((erase m) <| aa_tasks ::= alter g i |>))
         | None => (AIRY_ERR_NOT_FOUND, Some (erase m))
         end) m.
Proof.
  intros Hf. eapply spec_bind; [by apply spec_at_task|].
  intros r Y. destruct (find_task (erase m) id) as [i|].
  - intros (m' & -> & HY & Hfl & He). apply spec_ret. exists m'.
    split; [done|]. split; [done|]. split; [done|]. intros HG. by rewrite (He HG).
  - intros [-> ->]. apply spec_ret. by exists m.
Qed.

(** The part of the operations before the search. *)
Ltac guards id :=
  unfold a2a_v03_ctx_ready; (destruct id as [id|]; [|apply spec_ret; by eexists]);
  match goal with |- context [aa_initialized (erase ?m)] =>
    change (aa_initialized (erase m)) with (aa_initialized (am_fields m));
    destruct (aa_initialized (am_fields m)); cbn [negb]; [|apply spec_ret; by eexists]
  end.

Lemma update_keeps now m id st out pr :
  keeps (update_task_mem now (Some m) id st out pr)
        (a2a_v03_update_task now (Some (erase m)) id st out pr) m.
Proof.
  unfold keeps, update_task_mem, a2a_v03_update_task. guards id. apply keeps_at_task. intros t.
  eapply spec_step; [apply spec_replace_opt|exact (own_output t)|].
  intros o Z [-> Ho]. apply spec_ret. split; [rewrite own_output; cbn; blocks|].
  intros HG. unfold erase_task. cbn. rewrite (Ho HG). by destruct out.
Qed.

Lemma cancel_keeps now m id reason :
  keeps (cancel_task_mem now (Some m) id reason)
        (a2a_v03_cancel_task now (Some (erase m)) id reason) m.
Proof.
  unfold keeps, cancel_task_mem, a2a_v03_cancel_task. guards id. apply keeps_at_task. intros t.
  eapply spec_step; [apply spec_replace_opt|exact (own_error t)|].
  intros o Z [-> Ho]. apply spec_ret. split; [rewrite own_error; cbn; blocks|].
  intros HG. unfold erase_task. cbn. rewrite (Ho HG). by destruct reason.
Qed.

Lemma stream_keeps now m tid pr chunk final w :
  spec (stream_task_update_mem now (Some m) (Some tid) pr chunk final w) (own m) (fun r Y =>
    exists m', r.2.2 = Some m' /\ Y = own m' /\ am_fields m' = am_fields m /\
    (grants -> (r.1, (r.2.1, Some (erase m'))) =
               a2a_v03_stream_task_update now (Some (erase m)) (Some tid) pr chunk final w)).
Proof.
  unfold stream_task_update_mem, a2a_v03_stream_task_update, a2a_v03_ctx_ready.
  change (aa_initialized (erase m)) with (aa_initialized (am_fields m)).
  destruct (aa_initialized (am_fields m)); cbn [negb]; [|apply spec_ret; by eexists].
  eapply spec_bind; [eapply (spec_at_task _ (fun t =>
    let t := t <| tk_progress := pr |> <| tk_updated_at := now |> in
    if final then
      let t := t <| tk_state := A2A_TASK_COMPLETED |> in
      match chunk with Some c => t <| tk_output_json := Some c |> | None => t end
    else t))|].
  - intros t. destruct final; [|apply spec_ret; by split].
    eapply spec_step; [apply spec_replace_opt|exact (own_output t)|].
    intros o Z [-> Ho]. apply spec_ret. split; [rewrite own_output; cbn; blocks|].
    intros HG. unfold erase_task. cbn. rewrite (Ho HG). by destruct chunk.
  - intros r Y. destruct (find_task (erase m) tid) as [i|].
    + intros (m' & -> & HY & Hf & He). apply spec_ret. exists m'. cbn [default from_option id fst snd].
      split; [done|]. split; [done|]. split; [done|]. intros HG. rewrite (He HG), Hf. done.
    + intros [-> ->]. apply spec_ret. exists m. done.
Qed.

(** The handler's output becomes the task's. *)
Lemma spec_handle_task a (t : task_h) w :
  spec (handle_task_mem (W:=W) (am_fields a) t w) (own t) (fun r Y =>
    Y = own r.2 /\ (grants -> (r.1, erase_task r.2) = handle_task (erase a) (erase_task t) w)).
Proof.
  unfold handle_task_mem, handle_task. change (aa_task_handler (erase a)) with (aa_task_handler (am_fields a)).
  destruct (aa_task_handler (am_fields a)) as [h|]; [|by apply spec_ret].
  destruct (h (erase_task t) w) as [w' [st out]].
  eapply spec_new; [apply spec_strdup_opt|]. intros o [Ho HG].
  destruct o as [[p s]|].
  - eapply (spec_destroy free_str (ht_output_json t)); [|apply spec_ret; split].
    + rewrite own_output. rewrite (assoc_L (⊎)), (comm_L (⊎) (own (Some (p, s)))), <- (assoc_L (⊎)).
      reflexivity.
    + cbn [fst snd]. rewrite own_output. cbn. blocks.
    + cbn [fst snd].
      intros Hg. specialize (HG Hg). by rewrite <- HG.
  - apply spec_ret. split; [exact (left_id_L ∅ (⊎) (own t))|].
    intros Hg. specialize (HG Hg). by rewrite <- HG.
Qed.

Lemma lenZ_tasks m : lenZ (aa_tasks (erase m)) = lenZ (am_tasks m).
Proof. unfold lenZ, erase. cbn. by rewrite length_fmap. Qed.

Lemma create_keeps now now' m agent desc input w :
  spec (create_task_mem now now' (Some m) agent desc input true w) (own m) (fun r Y =>
    exists m', r.2.1.2 = Some m' /\ Y = own m' /\ am_fields m' = am_fields m /\
    (grants -> (r.1, (r.2.1.1, Some (erase m'), r.2.2)) =
               a2a_v03_create_task (fun _ => true) now now' (Some (erase m)) agent desc input true w)).
Proof.
  unfold create_task_mem, a2a_v03_create_task, a2a_v03_ctx_ready, new_task. cbn [negb orb].
  rewrite lenZ_tasks. set (s := fits A2A_TASK_ID_SIZE _). clearbody s.
  change (aa_initialized (erase m)) with (aa_initialized (am_fields m)).
  destruct (aa_initialized (am_fields m)); cbn [negb]; [|apply spec_ret; by eexists].
  destruct (A2A_V03_MAX_TASKS <=? lenZ (am_tasks m)); [apply spec_ret; by eexists|].
  eapply spec_new; [apply spec_malloc|]. intros [t|] Ht.
  2:{ apply spec_ret. exists m. split; [done|]. split; [blocks|]. split; [done|].
      intros HG. by destruct (Ht HG). }
  eapply spec_new; [apply spec_malloc|]. intros [id|] Hid.
  2:{ eapply (spec_destroy free (Some t)); [autorewrite with own; instantiate (1 := own m); multiset_solver|].
      apply spec_ret. exists m. split; [done|]. split; [done|]. split; [done|].
      intros HG. by destruct (Hid HG). }
  eapply spec_new; [apply spec_strdup_opt|]. intros ag [_ Hag].
  eapply spec_new; [apply spec_strdup_opt|]. intros de [_ Hde].
  eapply spec_new; [apply spec_strdup_opt|]. intros inp [_ Hin].
  eapply (spec_step _ _ _ _ (own m)); [apply spec_handle_task| |].
  - rewrite own_task_eq. cbn. autorewrite with own.
    change (own (Some (id, s) : hstr)) with (own id). multiset_solver.
  - intros [w' t'] Z [-> He]. apply spec_ret. cbn [fst snd] in *.
    exists (with_tasks m (am_tasks m ++ [t'])). split; [done|].
    split; [rewrite !own_mem_eq; cbn; blocks|]. split; [done|]. intros HG. specialize (He HG).
    rewrite <- (Hag HG), <- (Hde HG), <- (Hin HG).
    unfold erase_task at 2 in He. cbn in He. change (str None) with (@None bytes) in He.
    change (str (Some (id, s))) with (Some s) in He. cbn [default from_option Datatypes.id] in He.
    rewrite <- He. unfold erase, with_tasks. cbn. by rewrite fmap_app, length_fmap.
Qed.
End context_spec.

(** ** Results handed to the caller *)

(** The caller releases the response's JSON. *)
Record response_h := mkResponseH { rh_response : a2a_task_response_internal_t; rh_json : hstr }.

Definition erase_response (r : response_h) : a2a_task_response_internal_t :=
  (rh_response r) <| rs_result_json := str (rh_json r) |>.

(** A copy of each string of a message, in the order of the fields. *)
Definition copy_message (m : a2a_message_t) : mem message_h :=
  role ← strdup_opt (ms_role m);
  content_json ← strdup_opt (ms_content_json m);
  mime_type ← strdup_opt (ms_mime_type m);
  file_name ← strdup_opt (ms_file_name m);
  file_data ← strdup_opt (ms_file_data m);
  mret (mkMessageH role (ms_type m) content_json mime_type file_name file_data).

Fixpoint copy_messages (l : list a2a_message_t) : mem (list message_h) :=
  match l with
  | [] => mret []
  | m :: r => m ← copy_message m; r ← copy_messages r; mret (m :: r)
  end.

Definition message_array : Type := option (addr * list message_h).

(** What a handler stores: no array, or one block with every message. *)
Definition alloc_responses (l : list a2a_message_t) : mem message_array :=
  match l with
  | [] => mret None
  | _ => p ← malloc;
         match p with
         | None => mret None
         | Some p => l ← copy_messages l; mret (Some (p, l))
         end
  end.

(** The first element is the block itself; a second one is read after it has
    been released. *)
Definition msgs_free_mem (response : message_array) : mem unit :=
  match response with
  | None => mret tt
  | Some (p, []) => mret tt
  | Some (p, [m]) => a2a_message_destroy (Some (p, m))
  | Some (p, m :: _ :: _) => _ ← a2a_message_destroy (Some (p, m)); fault
  end.

Section results_mem.
Context {W : Type} `{AiryErr} `{AiryString}.
Implicit Types (m : a2a_mem W).

Definition delegate_task_mem m (request : a2a_task_request_internal_t)
    : mem (Z * a2a_mem W * option response_h) :=
  if negb (aa_initialized (am_fields m)) then mret (AIRY_ERR_STATE_ERROR, m, None)
  else
    let '(k, a) := bump_counter (am_fields m) in
    let id := fits 64 ("task_"%cs ++ dec k) in
    let resp := mkTaskResponse id A2A_TASK_STATUS_ACCEPTED None
                  (AIRY_STRNCPY_TERM (default "coordinator"%cs (rq_target_agent_id request)) 64) 0
                  (if 0 <? rq_timeout_ms request then rq_timeout_ms request / 2
                   else A2A_DEFAULT_TIMEOUT_MS / 2) in
    let m := with_fields m a in
    match rq_description request with
    | Some d =>
        result_json ← malloc;
        match result_json with
        | None => fault
        | Some p =>
            let r := fits 512 ("{'task_id':'"%cs ++ id ++ "','status':'delegated','description':'"%cs
                               ++ d ++ "'}"%cs) in
            mret (0, m, Some (mkResponseH resp (Some (p, r))))
        end
    | None => mret (0, m, Some (mkResponseH resp None))
    end.

(** The length of the copy is taken without a check. *)
Fixpoint stream_phases_mem (on_chunk : @a2a_stream_callback_internal_t W) (i : nat) (l : list bytes)
    (w : W) : mem W :=
  match l with
  | [] => mret w
  | p :: r =>
      detail_json ← strdup (phase_detail i p);
      match detail_json with
      | None => fault
      | Some (q, s) =>
          let w := on_chunk s (strlen s) (i =? 4)%nat w in
          _ ← free_str (Some (q, s));
          stream_phases_mem on_chunk (S i) r w
      end
  end.

Definition stream_task_mem m (request : a2a_task_request_internal_t)
    (on_chunk : @a2a_stream_callback_internal_t W) (final_response : a2a_task_response_internal_t) (w : W)
    : mem (W * (Z * a2a_mem W * response_h)) :=
  if negb (aa_initialized (am_fields m))
  then mret (w, (AIRY_ERR_STATE_ERROR, m, mkResponseH final_response None))
  else
    let '(k, a) := bump_counter (am_fields m) in
    let id := fits 64 ("stream_task_"%cs ++ dec k) in
    w ← stream_phases_mem on_chunk 0 phases w;
    let result_sz := (256 + length id)%nat in
    result_buf ← malloc;
    result_json ← match result_buf with
                  | Some p => mret (Some (p, fits result_sz ("{'task_id':'"%cs ++ id ++
                                "','status':'completed','phases_completed':5}"%cs)))
                  | None => strdup "{'status':'error','reason':'allocation_failed'}"%cs
                  end;
    mret (w, (0, with_fields m a,
              mkResponseH (final_response <| rs_task_id := id |>
                             <| rs_status := A2A_TASK_STATUS_COMPLETED |>) result_json)).

Definition send_message_mem m (target_agent_id : bytes) (message : a2a_message_t) (w : W)
    : mem (W * (Z * message_array)) :=
  if negb (aa_initialized (am_fields m)) then mret (w, (AIRY_ERR_STATE_ERROR, None))
  else
    match aa_message_handler (am_fields m) with
    | Some handler =>
        let '(w, (rc, out)) := handler target_agent_id message w in
        out ← alloc_responses (default [] out);
        mret (w, (rc, out))
    | None =>
        resp ← malloc;
        match resp with
        | None => mret (w, (0, None))
        | Some p =>
            role ← strdup "assistant"%cs;
            content_json ← strdup "{'status':'received','ack':true}"%cs;
            mime_type ← strdup "application/json"%cs;
            mret (w, (0, Some (p, [mkMessageH role A2A_MSG_STRUCTURED content_json mime_type None None])))
        end
    end.
End results_mem.

(** ** A life of a context *)

(** One call, with the caller releasing what it was given. *)
Inductive mem_op {W : Type} :=
| MemRegister (card : a2a_agent_card_t)
| MemUnregister (id : bytes)
| MemGetCard (id : bytes)
| MemDiscover (capability : option bytes)
| MemSetTask (handler : option (@a2a_task_handler_t W))
| MemSetMessage (handler : option (@a2a_message_handler_t W))
| MemSetStreaming (handler : option (@a2a_streaming_handler_t W))
| MemCreate (now now' : Z) (agent description input : option bytes)
| MemUpdate (now : Z) (id : bytes) (state : Z) (output : option bytes) (progress : double)
| MemCancel (now : Z) (id : bytes) (reason : option bytes)
| MemStream (now : Z) (id : bytes) (progress : double) (chunk : option bytes) (final : bool)
| MemSend (target : bytes) (message : a2a_message_t)
| MemDelegate (request : a2a_task_request_internal_t)
| MemStreamTask (request : a2a_task_request_internal_t)
    (on_chunk : @a2a_stream_callback_internal_t W).
Arguments mem_op : clear implicits.

(** The world, the static card and the context. *)
Record mem_world {W : Type} := mkWorld {
  ah_world : W;
  ah_cache : card_h;
  ah_ctx : a2a_mem W
}.
Arguments mem_world : clear implicits.

#[export] Instance own_world W : Owns (mem_world W) := fun s => own (ah_cache s) ⊎ own (ah_ctx s).

Definition response_zero : a2a_task_response_internal_t := mkTaskResponse [] 0 None [] 0 0.

Section life.
Context {W : Type} `{AiryErr} `{AiryString}.

(** The state with another context. *)
Definition set_ctx (s : mem_world W) (ctx : option (a2a_mem W)) : mem_world W :=
  mkWorld W (ah_world s) (ah_cache s) (default (ah_ctx s) ctx).

(** The setters and the registration change fields only. *)
Definition set_fields (s : mem_world W) (r : Z * option (@a2a_v03_adapter_s W)) : Z * mem_world W :=
  (r.1, set_ctx s (with_fields (ah_ctx s) <$> r.2)).

(** The code and the text the call hands out, and the state it leaves. *)
Definition mem_step (op : mem_op W) (s : mem_world W) : mem (Z * option bytes * mem_world W) :=
  let m := ah_ctx s in
  let w := ah_world s in
  let fields (r : Z * option (@a2a_v03_adapter_s W)) : mem (Z * option bytes * mem_world W) :=
    mret ((set_fields s r).1, None, (set_fields s r).2) in
  match op with
  | MemRegister card => fields (a2a_v03_register_agent (Some (erase m)) (Some card))
  | MemUnregister id => fields (a2a_v03_unregister_agent (Some (erase m)) (Some id))
  | MemGetCard id =>
      '(cache, found) ← get_agent_card_mem (ah_cache s) (Some (erase m)) (Some id);
      mret (if found : bool then 1 else 0, if found : bool then str (hc_name cache) else None,
            mkWorld W w cache m)
  | MemDiscover capability =>
      '(rc, out) ← discover_agents_mem (Some (erase m)) capability true;
      _ ← a2a_cards_free (out ≫= fst);
      mret (rc, None, s)
  | MemSetTask h => fields (a2a_v03_set_task_handler (Some (erase m)) h)
  | MemSetMessage h => fields (a2a_v03_set_message_handler (Some (erase m)) h)
  | MemSetStreaming h => fields (a2a_v03_set_streaming_handler (Some (erase m)) h)
  | MemCreate now now' agent description input =>
      '(w, (rc, ctx, _)) ← create_task_mem now now' (Some m) agent description input true w;
      mret (rc, None, set_ctx (mkWorld W w (ah_cache s) m) ctx)
  | MemUpdate now id state output progress =>
      '(rc, ctx) ← update_task_mem now (Some m) (Some id) state output progress;
      mret (rc, None, set_ctx s ctx)
  | MemCancel now id reason =>
      '(rc, ctx) ← cancel_task_mem now (Some m) (Some id) reason;
      mret (rc, None, set_ctx s ctx)
  | MemStream now id progress chunk final =>
      '(w, (rc, ctx)) ← stream_task_update_mem now (Some m) (Some id) progress chunk final w;
      mret (rc, None, set_ctx (mkWorld W w (ah_cache s) m) ctx)
  | MemSend target message =>
      '(w, (rc, out)) ← send_message_mem m target message w;
      _ ← msgs_free_mem out;
      mret (rc, None, mkWorld W w (ah_cache s) m)
  | MemDelegate request =>
      '(rc, m, out) ← delegate_task_mem m request;
      _ ← free_str (out ≫= rh_json);
      mret (rc, out ≫= (fun r => str (rh_json r)), mkWorld W w (ah_cache s) m)
  | MemStreamTask request on_chunk =>
      '(w, (rc, m, out)) ← stream_task_mem m request on_chunk response_zero w;
      _ ← free_str (rh_json out);
      mret (rc, str (rh_json out), mkWorld W w (ah_cache s) m)
  end.

Fixpoint mem_run (ops : list (mem_op W)) (s : mem_world W)
    : mem (list (Z * option bytes) * mem_world W) :=
  match ops with
  | [] => mret ([], s)
  | op :: r => '(reply, s) ← mem_step op s; '(replies, s) ← mem_run r s; mret (reply :: replies, s)
  end.

(** Creating a context, using it and destroying it. *)
Definition a2a_life (config : a2a_v03_config_t) (ops : list (mem_op W)) (w : W)
    : mem (list (Z * option bytes) * W) :=
  ctx ← context_create_mem (Some config);
  match ctx with
  | None => mret ([], w)
  | Some m =>
      '(replies, s) ← mem_run ops (mkWorld W w card_h_zero m);
      _ ← context_destroy_mem (ah_cache s) (Some (ah_ctx s));
      mret (replies, ah_world s)
  end.

(** ** The same calls on values *)

Definition value_state : Type := W * a2a_agent_card_t * @a2a_v03_adapter_s W.

Definition erase_world (s : mem_world W) : value_state :=
  (ah_world s, erase_card (ah_cache s), erase (ah_ctx s)).

Definition value_step (op : mem_op W) (s : value_state) : Z * option bytes * value_state :=
  let '(w, cache, a) := s in
  let ctx := Some a in
  let fields (r : Z * option (@a2a_v03_adapter_s W)) := (r.1, None, (w, cache, default a r.2)) in
  match op with
  | MemRegister card => fields (a2a_v03_register_agent ctx (Some card))
  | MemUnregister id => fields (a2a_v03_unregister_agent ctx (Some id))
  | MemGetCard id =>
      let '(cache, found) := a2a_v03_get_agent_card cache ctx (Some id) in
      (if found : bool then 1 else 0, if found then ca_name cache else None, (w, cache, a))
  | MemDiscover capability =>
      ((a2a_v03_discover_agents (fun _ => true) ctx capability None true).1, None, s)
  | MemSetTask h => fields (a2a_v03_set_task_handler ctx h)
  | MemSetMessage h => fields (a2a_v03_set_message_handler ctx h)
  | MemSetStreaming h => fields (a2a_v03_set_streaming_handler ctx h)
  | MemCreate now now' agent description input =>
      let '(w, (rc, ctx, _)) :=
        a2a_v03_create_task (fun _ => true) now now' ctx agent description input true w in
      (rc, None, (w, cache, default a ctx))
  | MemUpdate now id state output progress =>
      fields (a2a_v03_update_task now ctx (Some id) state output progress)
  | MemCancel now id reason => fields (a2a_v03_cancel_task now ctx (Some id) reason)
  | MemStream now id progress chunk final =>
      let '(w, (rc, ctx)) := a2a_v03_stream_task_update now ctx (Some id) progress chunk final w in
      (rc, None, (w, cache, default a ctx))
  | MemSend target message =>
      let '(w, (rc, _)) := a2a_v03_send_message true ctx (Some target) (Some message) true true w in
      (rc, None, (w, cache, a))
  | MemDelegate request =>
      match a2a_v03_delegate_task true ctx (Some request) true with
      | Done (rc, ctx, out) => (rc, out ≫= rs_result_json, (w, cache, default a ctx))
      | Fault => (0, None, s)
      end
  | MemStreamTask request on_chunk =>
      let '(w, (rc, ctx, out)) :=
        a2a_v03_stream_task true ctx (Some request) (Some on_chunk) (Some response_zero) w in
      (rc, out ≫= rs_result_json, (w, cache, default a ctx))
  end.

Fixpoint value_run (ops : list (mem_op W)) (s : value_state)
    : list (Z * option bytes) * value_state :=
  match ops with
  | [] => ([], s)
  | op :: r => let '(reply, s) := value_step op s in
               let '(replies, s) := value_run r s in (reply :: replies, s)
  end.
End life.

(** ** Every call keeps the blocks straight *)

(** No entry has a stored pointer, and the message handler stores at most one
    response. *)
Definition one_response {W} (h : @a2a_message_handler_t W) : Prop :=
  forall target msg w, (length (default [] (h target msg w).2.2) <= 1)%nat.

Definition fields_ok {W} (a : @a2a_v03_adapter_s W) : Prop :=
  Forall (fun c => ic_capabilities_json c = None) (aa_slots a) /\
  (forall h, aa_message_handler a = Some h -> one_response h).

(** The two calls that use an allocation without looking at it need memory. *)
Definition mem_op_ok `{Grants} {W} (op : mem_op W) : Prop :=
  match op with
  | MemSetMessage (Some h) => one_response h
  | MemDelegate _ | MemStreamTask _ _ => grants
  | _ => True
  end.

Section agents_fields.
Context {W : Type} `{AiryErr} `{AiryString}.
Implicit Types (a : @a2a_v03_adapter_s W).

(** The registry does not touch the tasks and stores no pointer. *)
Definition same_tasks a (ctx : option (@a2a_v03_adapter_s W)) : Prop :=
  exists a', ctx = Some a' /\ aa_tasks a' = aa_tasks a /\ (fields_ok a -> fields_ok a').

Lemma same_tasks_refl a : same_tasks a (Some a).
Proof. by exists a. Qed.

Lemma fill_card_caps card c : ic_capabilities_json (fill_card card c) = ic_capabilities_json c.
Proof. unfold fill_card. by destruct (ca_capabilities_json card). Qed.

Lemma register_same_tasks a card :
  same_tasks a (a2a_v03_register_agent (Some a) (Some card)).2.
Proof.
  unfold a2a_v03_register_agent. destruct (negb _); [apply same_tasks_refl|].
  destruct (_ ≫= _) as [[i ic]|] eqn:Hex.
  - eexists. split; [done|]. split; [done|]. intros [Hs Hh]. split; [|exact Hh]. cbn.
    apply Forall_insert; [done|]. refine (eq_trans (fill_card_caps card ic) _).
    rewrite Forall_lookup in Hs. apply (Hs i).
    apply bind_Some in Hex as (id & _ & Hex). apply bind_Some in Hex as (j & _ & Hex).
    apply bind_Some in Hex as (c & Hc & [= -> ->]). unfold agents in Hc.
    by apply lookup_take_Some in Hc as [Hc _].
  - destruct (_ <=? _); [apply same_tasks_refl|]. destruct (match usable_id card with Some _ => _ | None => _ end) as [id k].
    eexists. split; [done|]. split; [done|]. intros [Hs Hh]. split; [|exact Hh]. cbn.
    match goal with |- Forall _ (set_slot _ ?c _) => assert (ic_capabilities_json c = None) as Hc end.
    { assert (ic_capabilities_json (default internal_zero (aa_slots a !! aa_agent_count a)) = None) as Hd.
      { destruct (aa_slots a !! aa_agent_count a) as [c|] eqn:Hl; [|done].
        cbn. rewrite Forall_lookup in Hs. eauto. }
      cbn. by destruct (ca_capabilities_json card). }
    unfold set_slot. case_decide; [by apply Forall_insert|]. apply Forall_app. by repeat constructor.
Qed.

Lemma unregister_same_tasks a id :
  same_tasks a (a2a_v03_unregister_agent (Some a) (Some id)).2.
Proof.
  unfold a2a_v03_unregister_agent. destruct (negb _); [apply same_tasks_refl|].
  destruct (find_agent a id) as [i|]; [|apply same_tasks_refl]. eexists. split; [done|].
  case_decide; [|by split]. destruct (aa_slots a !! _) as [c|] eqn:Hc; [|by split].
  split; [done|]. intros [Hs Hh]. split; [|exact Hh]. cbn. apply Forall_insert; [done|].
  rewrite Forall_lookup in Hs. eauto.
Qed.
End agents_fields.

Section steps.
Context `{Grants} {W : Type} `{AiryErr} `{AiryString}.
Implicit Types (s : mem_world W) (m : a2a_mem W) (op : mem_op W).

Lemma own_world_eq s : own s = own (ah_cache s) ⊎ own (ah_ctx s).
Proof. done. Qed.

(** A call in state [s] that does what [v] says. *)
Definition step_spec (p : mem (Z * option bytes * mem_world W)) s (v : Z * option bytes * value_state) :=
  spec p (own s) (fun r Y => Y = own r.2 /\ fields_ok (am_fields (ah_ctx r.2)) /\
    (grants -> (r.1, erase_world r.2) = v)).

Lemma fields_step s (r : Z * option (@a2a_v03_adapter_s W)) :
  fields_ok (am_fields (ah_ctx s)) -> same_tasks (erase (ah_ctx s)) r.2 ->
  step_spec (mret ((set_fields s r).1, None, (set_fields s r).2)) s
    (r.1, None, (ah_world s, erase_card (ah_cache s), default (erase (ah_ctx s)) r.2)).
Proof.
  intros Hok (a & Ha & Ht & Hf). destruct r as [rc ctx]. cbn [fst snd] in *. subst ctx. apply spec_ret. cbn.
  split; [done|]. split; [by apply Hf|]. intros HG. unfold erase_world. cbn [ah_ctx set_ctx ah_world ah_cache].
  do 2 f_equal. by apply erase_with_fields.
Qed.

Lemma keeps_step s (p : mem (Z * option (a2a_mem W))) v :
  fields_ok (am_fields (ah_ctx s)) -> keeps p v (ah_ctx s) ->
  step_spec ('(rc, ctx) ← p; mret (rc, None, set_ctx s ctx)) s
    (v.1, None, (ah_world s, erase_card (ah_cache s), default (erase (ah_ctx s)) v.2)).
Proof.
  intros Hok Hp. eapply (spec_step _ _ _ (own (ah_ctx s)) (own (ah_cache s)));
    [exact Hp|rewrite own_world_eq; multiset_solver|].
  intros [rc ctx] Z (m' & Hctx & -> & Hf & HG). cbn [fst snd] in *. subst ctx. apply spec_ret. cbn [snd fst].
  split; [rewrite own_world_eq; cbn; multiset_solver|]. split; [cbn; by rewrite Hf|].
  intros Hg. by rewrite <- (HG Hg).
Qed.

Lemma get_card_step s tid :
  fields_ok (am_fields (ah_ctx s)) ->
  step_spec (mem_step (MemGetCard tid) s) s (value_step (MemGetCard tid) (erase_world s)).
Proof.
  intros Hok. cbn [mem_step value_step erase_world].
  eapply (spec_step _ _ _ (own (ah_cache s)) (own (ah_ctx s)));
    [apply spec_get_agent_card|apply own_world_eq|].
  intros [cache found] Z [-> HG]. apply spec_ret. cbn [fst snd]. split; [done|]. split; [exact Hok|].
  intros Hg. specialize (HG Hg). cbn [fst snd] in HG. rewrite <- HG. by destruct found.
Qed.

Lemma discover_step s capability :
  fields_ok (am_fields (ah_ctx s)) ->
  step_spec (mem_step (MemDiscover capability) s) s (value_step (MemDiscover capability) (erase_world s)).
Proof.
  intros Hok. cbn [mem_step value_step erase_world].
  eapply (spec_step _ _ _ ∅ (own s)); [apply (spec_discover_agents _ capability None true)|multiset_solver|].
  intros [rc out] Z [-> HG]. cbn [fst snd] in *.
  eapply (spec_destroy a2a_cards_free (out ≫= fst)).
  - destruct out as [[arr n]|]; cbn; autorewrite with own; reflexivity.
  - apply spec_ret. cbn [fst snd]. split; [done|]. split; [done|]. intros Hg. by rewrite <- (HG Hg).
Qed.

Lemma create_step s now now' agent desc input :
  fields_ok (am_fields (ah_ctx s)) ->
  step_spec (mem_step (MemCreate now now' agent desc input) s) s
    (value_step (MemCreate now now' agent desc input) (erase_world s)).
Proof.
  intros Hok. cbn [mem_step value_step erase_world].
  eapply (spec_step _ _ _ (own (ah_ctx s)) (own (ah_cache s)));
    [apply create_keeps|rewrite own_world_eq; multiset_solver|].
  intros [w [[rc ctx] pos]] Z (m' & Hctx & -> & Hf & HG). cbn [fst snd] in *. subst ctx. apply spec_ret.
  cbn [fst snd]. split; [rewrite own_world_eq; cbn; multiset_solver|]. split; [cbn; by rewrite Hf|].
  intros Hg. by rewrite <- (HG Hg).
Qed.

Lemma stream_step s now tid pr chunk final :
  fields_ok (am_fields (ah_ctx s)) ->
  step_spec (mem_step (MemStream now tid pr chunk final) s) s
    (value_step (MemStream now tid pr chunk final) (erase_world s)).
Proof.
  intros Hok. cbn [mem_step value_step erase_world].
  eapply (spec_step _ _ _ (own (ah_ctx s)) (own (ah_cache s)));
    [apply stream_keeps|rewrite own_world_eq; multiset_solver|].
  intros [w [rc ctx]] Z (m' & Hctx & -> & Hf & HG). cbn [fst snd] in *. subst ctx. apply spec_ret.
  cbn [fst snd]. split; [rewrite own_world_eq; cbn; multiset_solver|]. split; [cbn; by rewrite Hf|].
  intros Hg. by rewrite <- (HG Hg).
Qed.

(** *** Results *)

Lemma own_message_eq (x : message_h) :
  own x = own [hm_role x; hm_content_json x; hm_mime_type x; hm_file_name x; hm_file_data x].
Proof. done. Qed.

Lemma spec_copy_message x : constructs (copy_message x) (fun _ => True).
Proof.
  unfold copy_message, constructs.
  do 5 (eapply spec_new; [apply spec_strdup_opt|]; intros ? _).
  apply spec_ret. rewrite own_message_eq. cbn. split; [blocks|done].
Qed.

Lemma spec_copy_messages l : constructs (copy_messages l) (fun r => length r = length l).
Proof.
  induction l as [|x l IH]; cbn [copy_messages]; [by apply spec_ret|].
  eapply spec_new; [apply spec_copy_message|]. intros y _.
  eapply spec_new; [exact IH|]. intros r Hr. apply spec_ret. split; [blocks|]. cbn. by rewrite Hr.
Qed.

(** At most one element. *)
Definition small (out : message_array) : Prop :=
  match out with Some (_, l) => length l = 1%nat | None => True end.

Lemma spec_alloc_responses l :
  (length l <= 1)%nat -> constructs (alloc_responses l) small.
Proof.
  intros Hl. destruct l as [|x l]; cbn [alloc_responses]; [by apply spec_ret|].
  eapply spec_new; [apply spec_malloc|]. intros [p|] _; [|by apply spec_ret].
  eapply spec_new; [apply spec_copy_messages|]. intros r Hr. apply spec_ret.
  split; [blocks|]. cbn in *. lia.
Qed.

Lemma own_message_array p (l : list message_h) : own (A:=message_array) (Some (p, l)) = own p ⊎ own l.
Proof. done. Qed.

Lemma destroys_responses out : small out -> spec (msgs_free_mem out) (own out) (fun _ Y => Y = ∅).
Proof.
  destruct out as [[p [|x [|y l]]]|]; cbn [small length]; intros Hs; [done| |done|by apply spec_ret].
  eapply spec_conseq; [apply (destroys (Some (p, x)))|rewrite own_message_array; blocks|done].
Qed.

Lemma spec_send_message m target message w :
  fields_ok (am_fields m) ->
  spec (send_message_mem m target message w) ∅ (fun r Y => Y = own r.2.2 /\ small r.2.2 /\
    (grants -> let v := a2a_v03_send_message true (Some (erase m)) (Some target) (Some message)
                          true true w in (r.1, r.2.1) = (v.1, v.2.1))).
Proof.
  intros [_ Hh]. unfold send_message_mem, a2a_v03_send_message, a2a_v03_ctx_ready.
  change (aa_initialized (erase m)) with (aa_initialized (am_fields m)).
  change (aa_message_handler (erase m)) with (aa_message_handler (am_fields m)).
  destruct (aa_initialized (am_fields m)); cbn [negb andb]; [|by apply spec_ret].
  destruct (aa_message_handler (am_fields m)) as [h|].
  - specialize (Hh h eq_refl target message w). destruct (h target message w) as [w' [rc out]].
    cbn [fst snd] in Hh. eapply spec_new; [by apply spec_alloc_responses|]. intros r Hr. apply spec_ret.
    split; [blocks|]. by split.
  - eapply spec_new; [apply spec_malloc|]. intros [p|] Hp; [|by apply spec_ret].
    do 3 (eapply spec_new; [apply spec_strdup|]; intros ? _). apply spec_ret. cbn [fst snd].
    split; [|by split]. rewrite own_message_array, own_cons, own_message_eq. cbn. blocks.
Qed.

Lemma send_step s target message :
  fields_ok (am_fields (ah_ctx s)) ->
  step_spec (mem_step (MemSend target message) s) s (value_step (MemSend target message) (erase_world s)).
Proof.
  intros Hok. cbn [mem_step value_step erase_world].
  eapply (spec_step _ _ _ ∅ (own s)); [by apply spec_send_message|multiset_solver|].
  intros [w [rc out]] Z (-> & Hs & HG). cbn [fst snd] in *.
  eapply (spec_step _ _ _ (own out) (own s)); [by apply destroys_responses|done|].
  intros _ Z ->. apply spec_ret. cbn [fst snd]. split; [rewrite !own_world_eq; cbn [ah_cache ah_ctx]; multiset_solver|].
  split; [exact Hok|]. intros Hg. specialize (HG Hg). unfold erase_world.
  destruct (a2a_v03_send_message _ _ _ _ _ _ _) as [w' [rc' out']]. cbn in HG. by injection HG as -> ->.
Qed.

Lemma own_with_fields m a : own (with_fields m a) = own m.
Proof. done. Qed.

Lemma erase_bump m :
  bump_counter (erase m) = ((bump_counter (am_fields m)).1,
                            erase (with_fields m (bump_counter (am_fields m)).2)).
Proof. done. Qed.

Lemma bump_fields_ok a : fields_ok a -> fields_ok (bump_counter (W:=W) a).2.
Proof. done. Qed.

Lemma spec_delegate m request :
  grants -> fields_ok (am_fields m) ->
  spec (delegate_task_mem m request) (own m) (fun r Y =>
    Y = own (r.2 ≫= rh_json) ⊎ own r.1.2 /\ fields_ok (am_fields r.1.2) /\
    a2a_v03_delegate_task true (Some (erase m)) (Some request) true =
      Done (r.1.1, Some (erase r.1.2), erase_response <$> r.2)).
Proof.
  intros Hg Hok. unfold delegate_task_mem, a2a_v03_delegate_task, a2a_v03_ctx_ready. cbn [negb].
  change (aa_initialized (erase m)) with (aa_initialized (am_fields m)).
  assert (forall Y : gmultiset addr, Y = own (None : hstr) ⊎ Y) as Hnone by (intros Y; symmetry; apply (left_id_L ∅ (⊎))).
  destruct (aa_initialized (am_fields m)); cbn [negb]; [|apply spec_ret; split; [apply Hnone|done]].
  pose proof (bump_fields_ok _ Hok) as Ha.
  rewrite erase_bump. destruct (bump_counter (am_fields m)) as [k a]. cbn [fst snd] in *.
  destruct (rq_description request) as [d|]; [|apply spec_ret; split; [apply Hnone|done]].
  eapply spec_new; [apply spec_malloc|]. intros [p|] Hp; [|by destruct (Hp Hg)].
  apply spec_ret. split; [done|]. split; [done|]. done.
Qed.

Lemma delegate_step s request :
  grants -> fields_ok (am_fields (ah_ctx s)) ->
  step_spec (mem_step (MemDelegate request) s) s (value_step (MemDelegate request) (erase_world s)).
Proof.
  intros Hg Hok. cbn [mem_step value_step erase_world].
  eapply (spec_step _ _ _ (own (ah_ctx s)) (own (ah_cache s)));
    [by apply spec_delegate|rewrite own_world_eq; multiset_solver|].
  intros [[rc m] out] Z (-> & Hok' & Hv). cbn [fst snd] in *.
  eapply (spec_destroy free_str (out ≫= rh_json)); [rewrite <- (assoc_L (⊎)); reflexivity|].
  apply spec_ret. cbn [fst snd]. split; [rewrite own_world_eq; cbn [ah_cache ah_ctx]; multiset_solver|].
  split; [exact Hok'|]. intros _. unfold erase_world. rewrite Hv. by destruct out.
Qed.

Lemma spec_stream_phases on_chunk i l (w : W) :
  grants -> spec (stream_phases_mem on_chunk i l w) ∅ (fun r Y => Y = ∅ /\ r = stream_phases on_chunk i l w).
Proof.
  intros Hg. revert i w. induction l as [|p l IH]; intros i w; cbn [stream_phases_mem]; [by apply spec_ret|].
  eapply spec_new; [apply spec_strdup|]. intros [[q d]|] [_ Hd]; specialize (Hd Hg); [|done].
  injection Hd as ->. eapply (spec_destroy free_str (Some (q, _))); [reflexivity|]. apply IH.
Qed.

Lemma spec_stream_task m request on_chunk fr (w : W) :
  grants -> fields_ok (am_fields m) -> rs_result_json fr = None ->
  spec (stream_task_mem m request on_chunk fr w) (own m) (fun r Y =>
    Y = own (rh_json r.2.2) ⊎ own r.2.1.2 /\ fields_ok (am_fields r.2.1.2) /\
    a2a_v03_stream_task true (Some (erase m)) (Some request) (Some on_chunk) (Some fr) w =
      (r.1, (r.2.1.1, Some (erase r.2.1.2), Some (erase_response r.2.2)))).
Proof.
  intros Hg Hok Hfr. unfold stream_task_mem, a2a_v03_stream_task, a2a_v03_ctx_ready. cbn [negb].
  change (aa_initialized (erase m)) with (aa_initialized (am_fields m)).
  destruct (aa_initialized (am_fields m)); cbn [negb].
  2:{ apply spec_ret. split; [symmetry; apply (left_id_L ∅ (⊎))|]. split; [done|].
      destruct fr. cbn in Hfr. by subst. }
  pose proof (bump_fields_ok _ Hok) as Ha.
  rewrite erase_bump. destruct (bump_counter (am_fields m)) as [k a]. cbn [fst snd] in *.
  set (text := fits _ (_ ++ _ ++ "','status':'completed','phases_completed':5}"%cs)). clearbody text.
  eapply (spec_step _ _ _ ∅ (own m)); [by apply spec_stream_phases|multiset_solver|].
  intros w' Z [-> ->]. rewrite (left_id_L ∅ (⊎)).
  eapply spec_new; [apply spec_malloc|]. intros [p|] Hp; [|by destruct (Hp Hg)].
  eapply (spec_bind _ _ _ (fun r Y => r = Some (p, text) /\ Y = own p ⊎ own m)); [by apply spec_ret|].
  intros r Y [-> ->]. apply spec_ret. by split.
Qed.

Lemma stream_task_step s request on_chunk :
  grants -> fields_ok (am_fields (ah_ctx s)) ->
  step_spec (mem_step (MemStreamTask request on_chunk) s) s
    (value_step (MemStreamTask request on_chunk) (erase_world s)).
Proof.
  intros Hg Hok. cbn [mem_step value_step erase_world].
  eapply (spec_step _ _ _ (own (ah_ctx s)) (own (ah_cache s)));
    [by apply spec_stream_task|rewrite own_world_eq; multiset_solver|].
  intros [w [[rc m] out]] Z (-> & Hok' & Hv). cbn [fst snd] in *.
  eapply (spec_destroy free_str (rh_json out)); [rewrite <- (assoc_L (⊎)); reflexivity|].
  apply spec_ret. cbn [fst snd]. split; [rewrite own_world_eq; cbn [ah_cache ah_ctx]; multiset_solver|].
  split; [exact Hok'|]. intros _. unfold erase_world. by rewrite Hv.
Qed.

(** *** Any call, any sequence of calls *)

Lemma mem_step_spec op s :
  mem_op_ok op -> fields_ok (am_fields (ah_ctx s)) ->
  step_spec (mem_step op s) s (value_step op (erase_world s)).
Proof.
  intros Hop Hok. destruct op.
  - apply fields_step; [done|]. apply register_same_tasks.
  - apply fields_step; [done|]. apply unregister_same_tasks.
  - by apply get_card_step.
  - by apply discover_step.
  - apply fields_step; [done|]. eexists. split; [done|]. by split.
  - apply fields_step; [done|]. eexists. split; [done|]. split; [done|].
    intros [Hs _]. split; [exact Hs|]. cbn. by intros h ->.
  - apply fields_step; [done|]. eexists. split; [done|]. by split.
  - by apply create_step.
  - by apply keeps_step, update_keeps.
  - by apply keeps_step, cancel_keeps.
  - by apply stream_step.
  - by apply send_step.
  - by apply delegate_step.
  - by apply stream_task_step.
Qed.

Lemma mem_run_spec ops s :
  Forall mem_op_ok ops -> fields_ok (am_fields (ah_ctx s)) ->
  spec (mem_run ops s) (own s) (fun r Y => Y = own r.2 /\ fields_ok (am_fields (ah_ctx r.2)) /\
    (grants -> (r.1, erase_world r.2) = value_run ops (erase_world s))).
Proof.
  revert s. induction ops as [|op ops IH]; intros s Hops Hok; cbn [mem_run]; [by apply spec_ret|].
  apply Forall_cons in Hops as [Hop Hops].
  eapply spec_bind; [by apply mem_step_spec|]. intros [reply s1] Y (-> & Hok1 & Hv1). cbn [fst snd] in *.
  eapply spec_bind; [by apply IH|]. intros [replies s2] Y (-> & Hok2 & Hv2). cbn [fst snd] in *.
  apply spec_ret. cbn [fst snd]. split; [done|]. split; [done|]. intros Hg.
  cbn [value_run]. by rewrite <- (Hv1 Hg), <- (Hv2 Hg).
Qed.

(** *** Creating and destroying *)

Lemma spec_free_caps (a : @a2a_v03_adapter_s W) :
  fields_ok a -> spec (each free_caps (agents a)) ∅ (fun _ Y => Y = ∅).
Proof.
  intros [Hs _]. assert (Forall (fun c => ic_capabilities_json c = None) (agents a)) as Ha
    by (by apply Forall_take).
  induction Ha as [|c l Hc Hl IH]; cbn [each]; [by apply spec_ret|].
  apply (spec_bind _ _ _ (fun _ Y => Y = ∅)); [|intros _ Y ->; exact IH]. unfold free_caps. rewrite Hc. exact (destroys (d:=free) None).
Qed.

Lemma spec_drop_cache cache :
  spec (get_agent_card_mem (W:=W) cache None None) (own cache) (fun r Y =>
    Y = ∅ /\ r = (card_h_zero, false)).
Proof.
  cbn [get_agent_card_mem].
  eapply (spec_destroy (fun c => a2a_agent_card_destroy (Some c)));
    [symmetry; apply (right_id_L ∅ (⊎))|]. by apply spec_ret.
Qed.

Lemma spec_ctx_clear cache m :
  fields_ok (am_fields m) ->
  spec (ctx_clear_mem cache m) (own cache ⊎ own m) (fun r Y =>
    Y = own (am_block m) /\ am_block r.2 = am_block m /\ r.1 = card_h_zero).
Proof.
  intros Hok. unfold ctx_clear_mem.
  eapply (spec_step _ _ _ ∅); [by apply spec_free_caps|symmetry; apply (left_id_L ∅ (⊎))|]. intros _ Z ->.
  eapply (spec_destroy (each (fun t => a2a_task_destroy (Some t))) (am_tasks m) _ _
            (own cache ⊎ own (am_block m))); [rewrite own_mem_eq; multiset_solver|].
  eapply (spec_step _ _ _ (own cache) (own (am_block m))); [apply spec_drop_cache|done|].
  intros r Z [-> ->]. apply spec_ret. split; [apply (left_id_L ∅ (⊎))|done].
Qed.

Lemma spec_context_destroy cache m :
  fields_ok (am_fields m) ->
  spec (context_destroy_mem cache (Some m)) (own cache ⊎ own m) (fun r Y => Y = ∅ /\ r = card_h_zero).
Proof.
  intros Hok. cbn [context_destroy_mem]. eapply spec_bind; [by apply spec_ctx_clear|].
  intros [c m'] Y (-> & Hb & Hc). cbn [fst snd] in *. subst c. rewrite Hb.
  eapply (spec_destroy free (Some (am_block m))); [symmetry; apply (right_id_L ∅ (⊎))|]. by apply spec_ret.
Qed.

Lemma context_create_fields config a :
  a2a_v03_context_create (W:=W) true (Some config) = Some a -> fields_ok a /\ aa_tasks a = [].
Proof.
  unfold a2a_v03_context_create, a2a_v03_create. cbn [negb].
  destruct (0 <? af_default_timeout_ms config); cbn; intros [= <-]; by split.
Qed.

(** What the calls answer, on values. *)
Definition value_life (config : a2a_v03_config_t) (ops : list (mem_op W)) (w : W)
    : list (Z * option bytes) * W :=
  match a2a_v03_context_create true (Some config) with
  | None => ([], w)
  | Some a => let '(replies, (w, _, _)) := value_run ops (w, card_zero, a) in (replies, w)
  end.

Lemma spec_life config ops w :
  Forall mem_op_ok ops ->
  spec (a2a_life config ops w) ∅ (fun r Y => Y = ∅ /\ (grants -> r = value_life config ops w)).
Proof.
  intros Hops. unfold a2a_life, value_life.
  destruct (a2a_v03_context_create true (Some config)) as [a|] eqn:Ha; [|by vm_compute in Ha; case_match].
  destruct (context_create_fields _ _ Ha) as [Hok Ht].
  eapply (spec_bind _ _ _ (fun r Y => match r with
    | Some m => Y = own m /\ am_fields m = a /\ am_tasks m = []
    | None => Y = ∅ /\ ~ grants end)).
  { unfold context_create_mem. rewrite Ha. eapply spec_new; [apply spec_malloc|].
    intros [p|] Hp; apply spec_ret; cbn [mbind option_bind].
    - split; [rewrite own_mem_eq; cbn [am_block am_tasks]; blocks|done].
    - split; [by blocks|]. intros Hg. by destruct (Hp Hg). }
  intros [m|] Y; [|intros [-> Hn]; by apply spec_ret]. intros (-> & Hf & Hnil).
  eapply spec_bind; [eapply (spec_conseq _ (own (mkWorld W w card_h_zero m)))|].
  - apply mem_run_spec; [done|]. cbn. by rewrite Hf.
  - rewrite own_world_eq, own_card_eq. cbn [ah_cache ah_ctx]. cbn. blocks.
  - intros r Z HQ. exact HQ.
  - intros [replies s] Z (-> & Hok' & HG). cbn [fst snd] in *.
    eapply spec_bind; [by apply spec_context_destroy|]. intros c Z [-> _]. apply spec_ret.
    split; [done|]. intros Hg. specialize (HG Hg). unfold erase_world in HG at 2. cbn [ah_world ah_cache ah_ctx] in HG.
    assert (erase m = a) as Hem by (unfold erase; rewrite Hnil, Hf; cbn; rewrite <- Ht; by destruct a).
    rewrite Hem in HG. change (erase_card card_h_zero) with card_zero in HG. rewrite <- HG. done.
Qed.
End steps.

(** Destroying a structure releases its blocks, each once, and nothing else:
    an agent card with its skills, a task, a message and a negotiation with
    their strings, and the array of a discovery with the cards in it, some of
    which may be missing.  A null field or a null pointer is accepted; the card
    itself stays, since it may be static. *)
Theorem destroyers_release (c : card_h) (t : task_h) (x : option (addr * message_h))
    (n : negotiation_h) (r : card_array) :
  frees_exactly (a2a_agent_card_destroy (Some c)) (own c) /\
  frees_exactly (a2a_task_destroy (Some t)) (own t) /\
  frees_exactly (a2a_message_destroy x) (own x) /\
  frees_exactly (a2a_negotiation_destroy (Some n)) (own n) /\
  frees_exactly (a2a_cards_free r) (own r).
Proof.
  repeat split; apply spec_releases.
  - apply destroys_card.
  - apply destroys_task.
  - apply destroys_message.
  - apply destroys_negotiation.
  - apply destroys_cards.
Qed.



(** The same with a heap that refuses every fifth request. *)
Example a2a_life_refused :
  let card := card_zero <| ca_id := Some "a"%cs |> <| ca_available := true |> in
  let ops : list (mem_op unit) :=
    [MemRegister card; MemGetCard "a"%cs; MemGetCard "a"%cs; MemDiscover None;
     MemCreate 17 18 (Some "a"%cs) (Some "d"%cs) None] in
  let h := heap_init (fun p => negb (p mod 5 =? 4)%nat) in
  match @a2a_life unit inst_err inst_string a2a_v03_config_default ops tt h with
  | Done (replies, _, h') => hp_next h' = 14%nat /\ elements (hp_live h') = [] /\ length replies = 5%nat
  | Fault => False
  end.
Proof. vm_compute. done. Qed.
