(* ===== verification/McpMem.v ===== *)
(** * Memory of the MCP code: who allocates and who releases

    The MCP server's context over the heap of [Heap]: its creation with every
    allocation that may fail, the arrays that grow, the copies a registration
    makes, and the functions that release them; the tool list of the client and
    the results of handlers.  Erasing the blocks gives the values of
    [McpContext] and [McpClient]. *)

From S2P Require Export Heap McpContext.
From S2P Require Import EnvInst McpClient.
#[local] Open Scope Z_scope.

(** ** Arrays that grow *)

Record harray {A : Type} := mkArray {
  ar_block : option addr;
  ar_items : list A;
  ar_capacity : Z
}.
Arguments harray : clear implicits.

#[export] Instance own_array `{Owns A} : Owns (harray A) := fun r =>
  own (ar_block r) ⊎ own (ar_items r).

(** Making room for an entry, doubling the array when it is full, and filling
    the entry; a null result is a refused reallocation. *)
Definition push_mem {A} (fill : mem A) (r : harray A) : mem (option (harray A)) :=
  room ← if ar_capacity r <=? lenZ (ar_items r) then
           let new_cap := u64 (ar_capacity r * 2) in
           q ← realloc (ar_block r);
           mret (match q with
                 | Some _ => Some (mkArray A q (ar_items r) new_cap)
                 | None => None
                 end)
         else mret (Some r);
  match room with
  | None => mret None
  | Some r =>
      if lenZ (ar_items r) <? ar_capacity r
      then a ← fill; mret (Some (mkArray A (ar_block r) (ar_items r ++ [a]) (ar_capacity r)))
      else fault
  end.

Definition free_array {A} (d : A -> mem unit) (r : harray A) : mem unit :=
  _ ← each d (ar_items r); free (ar_block r).

Section arrays.
Context `{Grants} {A B : Type} `{Owns A}.

Lemma own_array_eq (r : harray A) : own r = own (ar_block r) ⊎ own (ar_items r).
Proof. done. Qed.

#[export] Instance destroys_array (d : A -> mem unit) `{!Destroys d} : Destroys (free_array d).
Proof.
  intros r. eapply (spec_destroy (each d) (ar_items r)); [rewrite own_array_eq; apply (comm_L (⊎))|].
  exact (destroys (ar_block r)).
Qed.

(** What an array with room to grow becomes: one more entry, or, when memory
    runs out, what it was. *)
Definition pushed (f : A -> B) (P : A -> Prop) (r : harray A) (limit : Z) (b : B)
    (o : option (harray A)) (Y : gmultiset addr) : Prop :=
  match o with
  | None => Y = own r /\ ~ grants
  | Some r' => Y = own r' /\ array_ok (ar_items r') (ar_capacity r') limit /\
               (exists a, P a /\ ar_items r' = ar_items r ++ [a]) /\
               (grants -> push true (f <$> ar_items r) (ar_capacity r) b =
                          Done (Some (f <$> ar_items r', ar_capacity r')))
  end.

Lemma spec_push (f : A -> B) (P : A -> Prop) fill (r : harray A) limit b :
  array_ok (ar_items r) (ar_capacity r) limit -> lenZ (ar_items r) < limit ->
  lenZ (ar_items r) < 2 ^ 32 ->
  constructs fill P -> (forall a, P a -> grants -> f a = b) ->
  spec (push_mem fill r) (own r) (pushed f P r limit b).
Proof.
  intros (Hc & Hl & _) Hlim Hsmall Hfill Hb. pose proof (lenZ_nonneg (ar_items r)) as Hnn.
  unfold push_mem.
  assert (forall q cap, lenZ (ar_items r) < cap -> 0 < cap ->
    (grants -> push true (f <$> ar_items r) (ar_capacity r) b =
               Done (Some ((f <$> ar_items r) ++ [b], cap))) ->
    spec (if lenZ (ar_items r) <? cap
          then a ← fill; mret (Some (mkArray A q (ar_items r ++ [a]) cap)) else fault)
      (own q ⊎ own (ar_items r)) (pushed f P r limit b)) as Hstore.
  { intros q cap Hroom Hpos Hv. rewrite (proj2 (Z.ltb_lt _ _)) by done.
    eapply spec_new; [exact Hfill|]. intros a Ha. apply spec_ret. split.
    { rewrite own_array_eq. cbn [ar_block ar_items]. blocks. }
    split; [unfold array_ok; cbn [ar_items ar_capacity]; autorewrite with airy; lia|].
    split; [by exists a|]. intros Hg. rewrite (Hv Hg). cbn [ar_items ar_capacity].
    by rewrite fmap_app, <- (Hb a Ha Hg). }
  destruct (Z.leb_spec (ar_capacity r) (lenZ (ar_items r))) as [Hfull|Hfree].
  - eapply (spec_bind _ _ _ (fun room Y => match room with
      | Some r' => exists q, r' = mkArray A q (ar_items r) (u64 (ar_capacity r * 2)) /\
                             Y = own q ⊎ own (ar_items r)
      | None => Y = own r /\ ~ grants end)).
    + eapply (spec_step _ _ _ (own (ar_block r)) (own (ar_items r)));
        [apply spec_realloc|apply own_array_eq|].
      intros [q|] Z HZ; apply spec_ret.
      * exists (Some q). by rewrite HZ.
      * destruct HZ as [-> Hn]. by rewrite own_array_eq.
    + intros [r'|] Y; [intros (q & -> & ->)|intros [-> Hn]; by apply spec_ret].
      cbn [ar_items ar_capacity ar_block]. apply Hstore; [rewrite u64_small; lia..|].
      intros _. unfold push. rewrite lenZ_fmap, (proj2 (Z.leb_le _ _)) by done. cbn [negb].
      by rewrite (proj2 (Z.ltb_lt _ _)) by (rewrite u64_small; lia).
  - eapply (spec_bind _ _ _ (fun room Y => room = Some r /\ Y = own r)); [by apply spec_ret|].
    intros room Y [-> ->]. rewrite own_array_eq. apply Hstore; [lia..|].
    intros _. unfold push. rewrite lenZ_fmap. by rewrite (proj2 (Z.leb_gt _ _)) by done.
Qed.
End arrays.

(** ** Entries *)

Section entries.
Context {W : Type}.

Record tool_h := mkToolH {
  tg_name : hstr;
  tg_description : hstr;
  tg_input_schema_json : hstr;
  tg_required_caps : Z;
  tg_handler : option (@mcp_tool_handler_t W)
}.

Record resource_h := mkResourceH {
  rg_uri : hstr;
  rg_name : hstr;
  rg_description : hstr;
  rg_mime_type : hstr;
  rg_handler : option (@mcp_resource_handler_t W)
}.

Record template_h := mkTemplateH {
  mg_uri_template : hstr;
  mg_name : hstr;
  mg_description : hstr;
  mg_mime_type : hstr
}.

Record prompt_h := mkPromptH {
  pg_name : hstr;
  pg_description : hstr;
  pg_arguments_schema_json : hstr;
  pg_handler : option (@mcp_prompt_handler_t W)
}.

Definition tool_strs (t : tool_h) : list hstr :=
  [tg_name t; tg_description t; tg_input_schema_json t].
Definition resource_strs (r : resource_h) : list hstr :=
  [rg_uri r; rg_name r; rg_description r; rg_mime_type r].
Definition template_strs (t : template_h) : list hstr :=
  [mg_uri_template t; mg_name t; mg_description t; mg_mime_type t].
Definition prompt_strs (p : prompt_h) : list hstr :=
  [pg_name p; pg_description p; pg_arguments_schema_json p].

#[global] Instance own_tool : Owns tool_h := fun t => own (tool_strs t).
#[global] Instance own_resource : Owns resource_h := fun r => own (resource_strs r).
#[global] Instance own_template : Owns template_h := fun t => own (template_strs t).
#[global] Instance own_prompt : Owns prompt_h := fun p => own (prompt_strs p).

Definition erase_tool (t : tool_h) : mcp_tool_entry_t :=
  mkToolEntry (mkTool (str (tg_name t)) (str (tg_description t)) (str (tg_input_schema_json t))
                 (tg_required_caps t)) (tg_handler t).
Definition erase_resource (r : resource_h) : mcp_resource_entry_t :=
  mkResourceEntry (mkResource (str (rg_uri r)) (str (rg_name r)) (str (rg_description r))
                     (str (rg_mime_type r))) (rg_handler r).
Definition erase_template (t : template_h) : mcp_resource_template_t :=
  mkTemplate (str (mg_uri_template t)) (str (mg_name t)) (str (mg_description t))
    (str (mg_mime_type t)).
Definition erase_prompt (p : prompt_h) : mcp_prompt_entry_t :=
  mkPromptEntry (mkPrompt (str (pg_name p)) (str (pg_description p))
                   (str (pg_arguments_schema_json p))) (pg_handler p).

Definition free_tool (t : tool_h) : mem unit := each free_str (tool_strs t).
Definition free_resource (r : resource_h) : mem unit := each free_str (resource_strs r).
Definition free_template (t : template_h) : mem unit := each free_str (template_strs t).
Definition free_prompt (p : prompt_h) : mem unit := each free_str (prompt_strs p).

(** The copies a registration stores. *)
Definition fill_tool (t : mcp_tool_t) (handler : option mcp_tool_handler_t) : mem tool_h :=
  name ← strdup_opt (tl_name t);
  description ← strdup_opt (tl_description t);
  schema ← strdup_opt (tl_input_schema_json t);
  mret (mkToolH name description schema (tl_required_caps t) handler).

Definition fill_resource (r : mcp_resource_t) (handler : option mcp_resource_handler_t) : mem resource_h :=
  uri ← strdup_opt (rs_uri r);
  name ← strdup_opt (rs_name r);
  description ← strdup_opt (rs_description r);
  mime_type ← strdup_opt (rs_mime_type r);
  mret (mkResourceH uri name description mime_type handler).

Definition fill_template (t : mcp_resource_template_t) : mem template_h :=
  uri_template ← strdup_opt (tp_uri_template t);
  name ← strdup_opt (tp_name t);
  description ← strdup_opt (tp_description t);
  mime_type ← strdup_opt (tp_mime_type t);
  mret (mkTemplateH uri_template name description mime_type).

Definition fill_prompt (p : mcp_prompt_t) (handler : option mcp_prompt_handler_t) : mem prompt_h :=
  name ← strdup_opt (pt_name p);
  description ← strdup_opt (pt_description p);
  schema ← strdup_opt (pt_arguments_schema_json p);
  mret (mkPromptH name description schema handler).

Section entries_spec.
Context `{Grants}.

#[global] Instance destroys_tool : Destroys free_tool.
Proof. intros t. exact (destroys (tool_strs t)). Qed.
#[global] Instance destroys_resource : Destroys free_resource.
Proof. intros t. exact (destroys (resource_strs t)). Qed.
#[global] Instance destroys_template : Destroys free_template.
Proof. intros t. exact (destroys (template_strs t)). Qed.
#[global] Instance destroys_prompt : Destroys free_prompt.
Proof. intros t. exact (destroys (prompt_strs t)). Qed.

(** Each copy in turn, then the entry; [eq] is the list of what it owns. *)
Ltac copies eq t :=
  unfold constructs; repeat (eapply spec_new; [apply spec_strdup_opt|]; intros ? [_ ?]);
  apply spec_ret; split; [rewrite eq; blocks|];
  let Hg := fresh in intros Hg; unfold erase_tool, erase_resource, erase_template, erase_prompt; cbn;
  repeat match goal with H : grants -> str _ = _ |- _ => rewrite (H Hg); clear H end; by destruct t.

Lemma own_tool_eq n d i c h : own (mkToolH n d i c h) = own [n; d; i].
Proof. done. Qed.
Lemma own_resource_eq u n d m h : own (mkResourceH u n d m h) = own [u; n; d; m].
Proof. done. Qed.
Lemma own_template_eq u n d m : own (mkTemplateH u n d m) = own [u; n; d; m].
Proof. done. Qed.
Lemma own_prompt_eq n d i h : own (mkPromptH n d i h) = own [n; d; i].
Proof. done. Qed.

Lemma spec_fill_tool t h :
  constructs (fill_tool t h) (fun r => grants -> erase_tool r = mkToolEntry t h).
Proof.
  unfold fill_tool. copies own_tool_eq t.
Qed.

Lemma spec_fill_resource t h :
  constructs (fill_resource t h) (fun r => grants -> erase_resource r = mkResourceEntry t h).
Proof.
  unfold fill_resource. copies own_resource_eq t.
Qed.

Lemma spec_fill_template t :
  constructs (fill_template t) (fun r => grants -> erase_template r = t).
Proof.
  unfold fill_template. copies own_template_eq t.
Qed.

Lemma spec_fill_prompt t h :
  constructs (fill_prompt t h) (fun r => grants -> erase_prompt r = mkPromptEntry t h).
Proof.
  unfold fill_prompt. copies own_prompt_eq t.
Qed.
End entries_spec.
End entries.
Arguments tool_h : clear implicits.
Arguments resource_h : clear implicits.
Arguments prompt_h : clear implicits.

(** ** The context *)

Record mcp_mem {W : Type} := mkMcpMem {
  pm_block : addr;
  pm_fields : @mcp_v1_context_t W;
  pm_server_name : hstr;
  pm_server_version : hstr;
  pm_tools : harray (tool_h W);
  pm_resources : harray (resource_h W);
  pm_templates : harray template_h;
  pm_prompts : harray (prompt_h W)
}.
Arguments mcp_mem : clear implicits.

#[export] Instance eta_mcp_mem W : Eta (mcp_mem W) := fun m =>
  mkMcpMem W (pm_block m) (pm_fields m) (pm_server_name m) (pm_server_version m) (pm_tools m)
    (pm_resources m) (pm_templates m) (pm_prompts m).

Section context_h.
Context {W : Type} `{AiryErr}.
Implicit Types (m : mcp_mem W).

#[global] Instance own_mcp : Owns (mcp_mem W) := fun m =>
  own (pm_tools m) ⊎ (own (pm_resources m) ⊎ (own (pm_templates m) ⊎ (own (pm_prompts m) ⊎
  (own (pm_server_name m) ⊎ (own (pm_server_version m) ⊎ own (pm_block m)))))).

(** What the context holds. *)
Definition erase_mcp m : @mcp_v1_context_t W :=
  let x := pm_fields m in
  mkMcp ((mx_config x) <| mc_server_name := str (pm_server_name m) |>
                       <| mc_server_version := str (pm_server_version m) |>)
    (erase_tool <$> ar_items (pm_tools m)) (ar_capacity (pm_tools m))
    (erase_resource <$> ar_items (pm_resources m)) (ar_capacity (pm_resources m))
    (erase_template <$> ar_items (pm_templates m)) (ar_capacity (pm_templates m))
    (erase_prompt <$> ar_items (pm_prompts m)) (ar_capacity (pm_prompts m))
    (mx_sampling_handler x) (mx_completion_handler x) (mx_progress_callback x)
    (mx_log_callback x) (mx_log_level x) (mx_transport x) (mx_request_counter x)
    (mx_stream_config x) (mx_stream_active x).

(** The fields of a new context other than the pointers. *)
Definition fields_new (c : mcp_v1_config_t) : @mcp_v1_context_t W :=
  mkMcp c [] 0 [] 0 [] 0 [] 0 None None None None MCP_LOG_INFO None 0
    (mkStreamConfig false 0 0 0) 0.

(** The copies of the server's name and version are not released when one of
    the arrays is refused. *)
Definition context_create_mcp (config : option mcp_v1_config_t) : mem (option (mcp_mem W)) :=
  match config with
  | None => mret None
  | Some c =>
      ctx ← malloc;
      match ctx with
      | None => mret None
      | Some ctx =>
          server_name ← strdup_opt (mc_server_name c);
          server_version ← strdup_opt (mc_server_version c);
          tools ← malloc;
          match tools with
          | None => _ ← free (Some ctx); mret None
          | Some tools =>
              resources ← malloc;
              match resources with
              | None => _ ← free (Some tools); _ ← free (Some ctx); mret None
              | Some resources =>
                  templates ← malloc;
                  match templates with
                  | None => _ ← free (Some resources); _ ← free (Some tools);
                            _ ← free (Some ctx); mret None
                  | Some templates =>
                      prompts ← malloc;
                      match prompts with
                      | None => _ ← free (Some templates); _ ← free (Some resources);
                                _ ← free (Some tools); _ ← free (Some ctx); mret None
                      | Some prompts =>
                          mret (Some (mkMcpMem W ctx (fields_new c) server_name server_version
                                        (mkArray _ (Some tools) [] 32)
                                        (mkArray _ (Some resources) [] 16)
                                        (mkArray _ (Some templates) [] 16)
                                        (mkArray _ (Some prompts) [] 16)))
                      end
                  end
              end
          end
      end
  end.

Definition array_empty (A : Type) : harray A := mkArray A None [] 0.

Definition context_clear_mcp m : mem (mcp_mem W) :=
  _ ← free_array free_tool (pm_tools m);
  _ ← free_array free_resource (pm_resources m);
  _ ← free_array free_template (pm_templates m);
  _ ← free_array free_prompt (pm_prompts m);
  _ ← free_str (pm_server_name m);
  _ ← free_str (pm_server_version m);
  mret (mkMcpMem W (pm_block m) (pm_fields m) None None (array_empty _) (array_empty _)
          (array_empty _) (array_empty _)).

Definition context_destroy_mcp (ctx : option (mcp_mem W)) : mem unit :=
  match ctx with
  | None => mret tt
  | Some m => m ← context_clear_mcp m; free (Some (pm_block m))
  end.

Definition register_tool_mem m (tool : mcp_tool_t) (handler : option mcp_tool_handler_t)
    : mem (Z * mcp_mem W) :=
  if mc_max_tools (mx_config (pm_fields m)) <=? lenZ (ar_items (pm_tools m))
  then mret (AIRY_ERR_INVALID_PARAM, m)
  else
    r ← push_mem (fill_tool tool handler) (pm_tools m);
    mret (match r with
          | Some r => (0, m <| pm_tools := r |>)
          | None => (AIRY_ERR_NULL_POINTER, m)
          end).

Definition register_resource_mem m (resource : mcp_resource_t)
    (handler : option mcp_resource_handler_t) : mem (Z * mcp_mem W) :=
  if mc_max_resources (mx_config (pm_fields m)) <=? lenZ (ar_items (pm_resources m))
  then mret (AIRY_ERR_INVALID_PARAM, m)
  else
    r ← push_mem (fill_resource resource handler) (pm_resources m);
    mret (match r with
          | Some r => (0, m <| pm_resources := r |>)
          | None => (AIRY_ERR_NULL_POINTER, m)
          end).

Definition register_template_mem m (template : mcp_resource_template_t) : mem (Z * mcp_mem W) :=
  r ← push_mem (fill_template template) (pm_templates m);
  mret (match r with
        | Some r => (0, m <| pm_templates := r |>)
        | None => (AIRY_ERR_NULL_POINTER, m)
        end).

Definition register_prompt_mem m (prompt : mcp_prompt_t) (handler : option mcp_prompt_handler_t)
    : mem (Z * mcp_mem W) :=
  if MCP_V1_MAX_PROMPTS <=? lenZ (ar_items (pm_prompts m))
  then mret (AIRY_ERR_INVALID_PARAM, m)
  else
    r ← push_mem (fill_prompt prompt handler) (pm_prompts m);
    mret (match r with
          | Some r => (0, m <| pm_prompts := r |>)
          | None => (AIRY_ERR_NULL_POINTER, m)
          end).

(** The new name is copied before the old one is released; starting the
    transport is not part of it. *)
Definition adapter_connect_mem m (address : option bytes) : mem (mcp_mem W) :=
  match address with
  | Some a =>
      let old_name := pm_server_name m in
      server_name ← strdup a;
      _ ← free_str old_name;
      mret (m <| pm_server_name := server_name |>)
  | None => mret m
  end.

Definition adapter_disconnect_mem m : mem (mcp_mem W) :=
  match pm_server_name m with
  | Some s => _ ← free_str (Some s); mret (m <| pm_server_name := None |>)
  | None => mret m
  end.

(** The new context is copied over the old one, whose fields are not
    released, and its shell is freed. *)
Definition adapter_init_mem (m : mcp_mem W) : mem (Z * mcp_mem W) :=
  new_ctx ← context_create_mcp (Some mcp_v1_config_default);
  match new_ctx with
  | None => mret (AIRY_ERR_INVALID_PARAM, m)
  | Some n =>
      _ ← free (Some (pm_block n));
      mret (0, n <| pm_block := pm_block m |>)
  end.
End context_h.

(** ** Every operation keeps what the context owns *)

Section context_spec.
Context `{Grants} {W : Type} `{AiryErr}.
Implicit Types (m : mcp_mem W).

Lemma own_mcp_eq m :
  own m = own (pm_tools m) ⊎ (own (pm_resources m) ⊎ (own (pm_templates m) ⊎ (own (pm_prompts m) ⊎
    (own (pm_server_name m) ⊎ (own (pm_server_version m) ⊎ own (pm_block m)))))).
Proof. done. Qed.

(** The part of a context that is not the field [f]. *)
Definition other_than {A} `{Owns A} (f : mcp_mem W -> A) (set : mcp_mem W -> A -> mcp_mem W) : Prop :=
  forall m, exists R, own m = own (f m) ⊎ R /\ forall a, own (set m a) = own a ⊎ R.

Ltac other X := exists X; (split; [|intros a]); rewrite own_mcp_eq; cbn; multiset_solver.

Lemma other_tools : other_than pm_tools (fun m r => m <| pm_tools := r |>).
Proof.
  intros m. other (own (pm_block m) ⊎ own (pm_server_name m) ⊎ own (pm_server_version m) ⊎
         own (pm_resources m) ⊎ own (pm_templates m) ⊎ own (pm_prompts m)).
Qed.

Lemma other_resources : other_than pm_resources (fun m r => m <| pm_resources := r |>).
Proof.
  intros m. other (own (pm_block m) ⊎ own (pm_server_name m) ⊎ own (pm_server_version m) ⊎
         own (pm_tools m) ⊎ own (pm_templates m) ⊎ own (pm_prompts m)).
Qed.

Lemma other_templates : other_than pm_templates (fun m r => m <| pm_templates := r |>).
Proof.
  intros m. other (own (pm_block m) ⊎ own (pm_server_name m) ⊎ own (pm_server_version m) ⊎
         own (pm_tools m) ⊎ own (pm_resources m) ⊎ own (pm_prompts m)).
Qed.

Lemma other_prompts : other_than pm_prompts (fun m r => m <| pm_prompts := r |>).
Proof.
  intros m. other (own (pm_block m) ⊎ own (pm_server_name m) ⊎ own (pm_server_version m) ⊎
         own (pm_tools m) ⊎ own (pm_resources m) ⊎ own (pm_templates m)).
Qed.

Lemma other_name : other_than pm_server_name (fun m r => m <| pm_server_name := r |>).
Proof.
  intros m. other (own (pm_block m) ⊎ own (pm_server_version m) ⊎
         own (pm_tools m) ⊎ own (pm_resources m) ⊎ own (pm_templates m) ⊎ own (pm_prompts m)).
Qed.

(** What an operation promises: the context owns its blocks, its arrays are
    good and no longer than [n], and without refusals its value is [v]. *)
Definition gives (n : Z) (v : @mcp_v1_context_t W) (m : mcp_mem W) (Y : gmultiset addr) : Prop :=
  Y = own m /\ context_ok (erase_mcp m) /\ at_most n (erase_mcp m) /\
  (grants -> erase_mcp m = v).

Definition gives_code (n : Z) (v : outcome (Z * option (@mcp_v1_context_t W)))
    (r : Z * mcp_mem W) (Y : gmultiset addr) : Prop :=
  Y = own r.2 /\ context_ok (erase_mcp r.2) /\ at_most n (erase_mcp r.2) /\
  (grants -> v = Done (r.1, Some (erase_mcp r.2))).

Lemma array_ok_fmap {A B} (f : A -> B) l cap limit : array_ok (f <$> l) cap limit <-> array_ok l cap limit.
Proof. unfold array_ok. by rewrite lenZ_fmap. Qed.

Lemma gives_same n m rc v :
  context_ok (erase_mcp m) -> at_most n (erase_mcp m) -> v = Done (rc, Some (erase_mcp m)) ->
  spec (mret (rc, m)) (own m) (gives_code (n + 1) v).
Proof.
  intros Hok Hn Hv. apply spec_ret. split; [done|]. split; [done|]. split; [|done].
  destruct Hn as (? & ? & ? & ?). cbn [snd]. unfold at_most. lia.
Qed.

Lemma gives_push {A B} `{Owns A} (get : mcp_mem W -> harray A) set (f : A -> B) fill P limit b m n v :
  other_than get set -> context_ok (erase_mcp m) -> at_most n (erase_mcp m) -> n < 2 ^ 32 ->
  array_ok (f <$> ar_items (get m)) (ar_capacity (get m)) limit ->
  lenZ (ar_items (get m)) < limit -> lenZ (ar_items (get m)) <= n ->
  constructs fill P -> (forall a, P a -> grants -> f a = b) ->
  (forall r, array_ok (f <$> ar_items r) (ar_capacity r) limit ->
             lenZ (f <$> ar_items r) = lenZ (ar_items (get m)) + 1 ->
             context_ok (erase_mcp (set m r)) /\ at_most (n + 1) (erase_mcp (set m r))) ->
  (forall r, push true (f <$> ar_items (get m)) (ar_capacity (get m)) b =
               Done (Some (f <$> ar_items r, ar_capacity r)) ->
             v = Done (0, Some (erase_mcp (set m r)))) ->
  spec (r ← push_mem fill (get m);
        mret (match r with Some r => (0, set m r) | None => (AIRY_ERR_NULL_POINTER, m) end))
       (own m) (gives_code (n + 1) v).
Proof.
  intros Hother Hok Hn Hlt Har Hlim Hle Hfill Hb Hnew Hv. destruct (Hother m) as (R & HR & Hset).
  rewrite array_ok_fmap in Har.
  eapply (spec_step _ _ _ (own (get m)) R); [|exact HR|].
  - apply (spec_push f P _ _ limit b Har); [done|lia|done|done].
  - intros [r|] Z HZ; apply spec_ret.
    + destruct HZ as (-> & Hok' & (a & _ & Hit) & HG). split; [symmetry; apply Hset|]. cbn [snd fst].
      destruct (Hnew r) as [Hc Ha]; [by rewrite array_ok_fmap|rewrite lenZ_fmap, Hit; autorewrite with airy; lia|].
      split; [done|]. split; [done|]. intros Hg. by apply Hv, HG.
    + destruct HZ as [-> Hno]. split; [symmetry; exact HR|]. split; [done|].
      split; [unfold at_most in *; cbn [snd]; lia|]. by intros Hg.
Qed.

(** The condition of a registration on the new array, from those on the old
    context. *)
Ltac new_array :=
  intros r Hr' Hl'; unfold context_ok, at_most, array_ok in *; cbn -[lenZ] in *;
  rewrite ?lenZ_fmap in *; lia.

Lemma register_tool_gives m t h n :
  context_ok (erase_mcp m) -> at_most n (erase_mcp m) -> n < 2 ^ 32 ->
  spec (register_tool_mem m t h) (own m)
    (gives_code (n + 1) (register (RegTool true t h) (erase_mcp m))).
Proof.
  intros Hok Hn Hlt. pose proof Hok as (Ht & _). pose proof Hn as (Lt & _).
  cbn [register]. unfold register_tool_mem, mcp_v1_register_tool.
  change (mc_max_tools (mx_config (erase_mcp m))) with (mc_max_tools (mx_config (pm_fields m))).
  cbn -[lenZ] in Lt. rewrite lenZ_fmap in Lt. cbn [erase_mcp mx_tools]. rewrite lenZ_fmap.
  destruct (Z.leb_spec (mc_max_tools (mx_config (pm_fields m))) (lenZ (ar_items (pm_tools m))));
    [by apply gives_same|].
  rewrite tool_eta.
  eapply (gives_push pm_tools _ erase_tool _ _ (mc_max_tools (mx_config (pm_fields m))) (mkToolEntry t h) _ _ _
           other_tools Hok Hn Hlt Ht); [done|done|apply spec_fill_tool|done| |].
  - new_array.
  - intros r Hr. cbn [erase_mcp mx_tool_capacity]. by rewrite Hr.
Qed.

Lemma resource_eta (r : mcp_resource_t) :
  mkResource (strdup_safe (rs_uri r)) (strdup_safe (rs_name r)) (strdup_safe (rs_description r))
    (strdup_safe (rs_mime_type r)) = r.
Proof. by destruct r. Qed.

Lemma template_eta (t : mcp_resource_template_t) :
  mkTemplate (strdup_safe (tp_uri_template t)) (strdup_safe (tp_name t))
    (strdup_safe (tp_description t)) (strdup_safe (tp_mime_type t)) = t.
Proof. by destruct t. Qed.

Lemma prompt_eta (t : mcp_prompt_t) :
  mkPrompt (strdup_safe (pt_name t)) (strdup_safe (pt_description t))
    (strdup_safe (pt_arguments_schema_json t)) = t.
Proof. by destruct t. Qed.

Lemma register_resource_gives m t h n :
  context_ok (erase_mcp m) -> at_most n (erase_mcp m) -> n < 2 ^ 32 ->
  spec (register_resource_mem m t h) (own m)
    (gives_code (n + 1) (register (RegResource true t h) (erase_mcp m))).
Proof.
  intros Hok Hn Hlt. pose proof Hok as (_ & Ht & _). pose proof Hn as (_ & Lt & _).
  cbn [register]. unfold register_resource_mem, mcp_v1_register_resource.
  change (mc_max_resources (mx_config (erase_mcp m))) with (mc_max_resources (mx_config (pm_fields m))).
  cbn -[lenZ] in Lt. rewrite lenZ_fmap in Lt. cbn [erase_mcp mx_resources]. rewrite lenZ_fmap.
  destruct (Z.leb_spec (mc_max_resources (mx_config (pm_fields m))) (lenZ (ar_items (pm_resources m))));
    [by apply gives_same|].
  rewrite resource_eta.
  eapply (gives_push pm_resources _ erase_resource _ _ (mc_max_resources (mx_config (pm_fields m)))
           (mkResourceEntry t h) _ _ _ other_resources Hok Hn Hlt Ht);
    [done|done|apply spec_fill_resource|done| |].
  - new_array.
  - intros r Hr. cbn [erase_mcp mx_resource_capacity]. by rewrite Hr.
Qed.

Lemma register_template_gives m t n :
  context_ok (erase_mcp m) -> at_most n (erase_mcp m) -> n < 2 ^ 32 ->
  spec (register_template_mem m t) (own m)
    (gives_code (n + 1) (register (RegTemplate true t) (erase_mcp m))).
Proof.
  intros Hok Hn Hlt. pose proof Hok as (_ & _ & Ht & _). pose proof Hn as (_ & _ & Lt & _).
  cbn [register]. unfold register_template_mem, mcp_v1_register_resource_template.
  cbn -[lenZ] in Lt. rewrite lenZ_fmap in Lt. rewrite template_eta.
  eapply (gives_push pm_templates _ erase_template _ _ SIZE_MAX t _ _ _ other_templates Hok Hn Hlt Ht);
    [unfold SIZE_MAX; lia|done|apply spec_fill_template|done| |].
  - new_array.
  - intros r Hr. cbn [erase_mcp mx_templates mx_template_capacity]. by rewrite Hr.
Qed.

Lemma register_prompt_gives m t h n :
  context_ok (erase_mcp m) -> at_most n (erase_mcp m) -> n < 2 ^ 32 ->
  spec (register_prompt_mem m t h) (own m)
    (gives_code (n + 1) (register (RegPrompt true t h) (erase_mcp m))).
Proof.
  intros Hok Hn Hlt. pose proof Hok as (_ & _ & _ & Ht). pose proof Hn as (_ & _ & _ & Lt).
  cbn [register]. unfold register_prompt_mem, mcp_v1_register_prompt.
  cbn -[lenZ] in Lt. rewrite lenZ_fmap in Lt. cbn [erase_mcp mx_prompts]. rewrite lenZ_fmap.
  destruct (Z.leb_spec MCP_V1_MAX_PROMPTS (lenZ (ar_items (pm_prompts m)))); [by apply gives_same|].
  rewrite prompt_eta.
  eapply (gives_push pm_prompts _ erase_prompt _ _ MCP_V1_MAX_PROMPTS (mkPromptEntry t h) _ _ _
           other_prompts Hok Hn Hlt Ht); [done|done|apply spec_fill_prompt|done| |].
  - new_array.
  - intros r Hr. cbn [erase_mcp mx_prompt_capacity]. by rewrite Hr.
Qed.

(** Changing the server's name. *)
Definition set_server_name (s : option bytes) (x : @mcp_v1_context_t W) : @mcp_v1_context_t W :=
  x <| mx_config ::= (fun c => c <| mc_server_name := s |>) |>.

Lemma connect_gives m address n :
  context_ok (erase_mcp m) -> at_most n (erase_mcp m) ->
  spec (adapter_connect_mem m address) (own m)
    (gives n (match address with
              | Some a => set_server_name (Some a) (erase_mcp m)
              | None => erase_mcp m
              end)).
Proof.
  intros Hok Hn. unfold adapter_connect_mem. destruct address as [a|]; [|by apply spec_ret].
  destruct (other_name m) as (R & HR & Hset).
  eapply spec_new; [apply spec_strdup|]. intros s [_ Hs].
  eapply (spec_destroy free_str (pm_server_name m) _ _ (own s ⊎ R)); [rewrite HR; multiset_solver|].
  apply spec_ret. split; [symmetry; apply Hset|]. split; [exact Hok|]. split; [exact Hn|].
  intros Hg. unfold erase_mcp. cbn. by rewrite (Hs Hg).
Qed.

Lemma disconnect_gives m n :
  context_ok (erase_mcp m) -> at_most n (erase_mcp m) ->
  spec (adapter_disconnect_mem m) (own m) (gives n (set_server_name None (erase_mcp m))).
Proof.
  intros Hok Hn. unfold adapter_disconnect_mem. destruct (other_name m) as (R & HR & Hset).
  destruct (pm_server_name m) as [s|] eqn:Hs.
  - eapply (spec_destroy free_str (Some s) _ _ R); [exact HR|].
    apply spec_ret. split; [|by split].
    etrans; [|symmetry; apply (Hset None)]. symmetry. apply (left_id_L ∅ (⊎)).
  - apply spec_ret. split; [done|]. split; [done|]. split; [done|]. intros Hg.
    unfold erase_mcp. rewrite Hs. done.
Qed.

(** *** Creating and destroying *)

(** A new context, or, when memory runs out, the copies that were made. *)
Definition created (c : mcp_v1_config_t) (r : option (mcp_mem W)) (Y : gmultiset addr) : Prop :=
  match r with
  | Some m => Y = own m /\ context_ok (erase_mcp m) /\ at_most 0 (erase_mcp m) /\
              (grants -> mcp_v1_context_create true (Some c) = Some (erase_mcp m))
  | None => ~ grants /\ exists name version : hstr, Y = own name ⊎ own version /\
              copy_of (mc_server_name c) name /\ copy_of (mc_server_version c) version
  end.

(** Releasing a block and keeping [R]. *)
Ltac drop p R := eapply (spec_destroy free (Some p) _ _ R); [blocks|].

Lemma spec_create c :
  0 <= mc_max_tools c -> 0 <= mc_max_resources c ->
  spec (context_create_mcp (Some c)) ∅ (created c).
Proof.
  intros Hmt Hmr. cbn [context_create_mcp].
  assert (forall s, ~ grants -> copy_of s None) as Hnull by (intros s Hn; split; [by left|done]).
  eapply spec_new; [apply spec_malloc|]. intros [ctx|] Hctx.
  2:{ apply spec_ret. assert (~ grants) as Hn by (intros Hg; by destruct (Hctx Hg)).
      split; [done|]. exists None, None. split; [done|]. by split; apply Hnull. }
  eapply spec_new; [apply spec_strdup_opt|]. intros name Hname.
  eapply spec_new; [apply spec_strdup_opt|]. intros version Hversion.
  assert (forall p : option addr, p = None -> (grants -> is_Some p) ->
    spec (mret None) (own name ⊎ own version) (created c)) as Hleak.
  { intros p -> Hp. apply spec_ret. split; [intros Hg; by destruct (Hp Hg)|]. by exists name, version. }
  set (X := own name ⊎ own version) in *.
  eapply spec_new; [apply spec_malloc|]. intros [tools|] Ht.
  2:{ drop ctx X. by apply (Hleak None). }
  eapply spec_new; [apply spec_malloc|]. intros [resources|] Hr.
  2:{ drop tools (X ⊎ own ctx). drop ctx X. by apply (Hleak None). }
  eapply spec_new; [apply spec_malloc|]. intros [templates|] Htp.
  2:{ drop resources (X ⊎ own ctx ⊎ own tools). drop tools (X ⊎ own ctx). drop ctx X.
      by apply (Hleak None). }
  eapply spec_new; [apply spec_malloc|]. intros [prompts|] Hp.
  2:{ drop templates (X ⊎ own ctx ⊎ own tools ⊎ own resources).
      drop resources (X ⊎ own ctx ⊎ own tools). drop tools (X ⊎ own ctx). drop ctx X.
      by apply (Hleak None). }
  apply spec_ret. split; [|split; [|split]].
  - rewrite own_mcp_eq. cbn [pm_block pm_server_name pm_server_version pm_tools pm_resources
      pm_templates pm_prompts]. rewrite !own_array_eq. cbn [ar_block ar_items]. subst X. blocks.
  - unfold context_ok, array_ok. cbn. unfold lenZ, SIZE_MAX, MCP_V1_MAX_PROMPTS. cbn. lia.
  - unfold at_most, lenZ. cbn. lia.
  - intros Hg. destruct Hname as [_ Hname], Hversion as [_ Hversion].
    unfold mcp_v1_context_create. cbn [negb]. unfold erase_mcp. cbn.
    by rewrite (Hname Hg), (Hversion Hg).
Qed.

Lemma spec_context_destroy_mcp m :
  spec (context_destroy_mcp (Some m)) (own m) (fun _ Y => Y = ∅).
Proof.
  cbn [context_destroy_mcp]. unfold context_clear_mcp.
  eapply (spec_bind _ _ _ (fun m' Y => pm_block m' = pm_block m /\ Y = own (pm_block m))).
  - eapply (spec_destroy (free_array free_tool)); [reflexivity|].
    eapply (spec_destroy (free_array free_resource)); [reflexivity|].
    eapply (spec_destroy (free_array free_template)); [reflexivity|].
    eapply (spec_destroy (free_array free_prompt)); [reflexivity|].
    eapply (spec_destroy free_str); [reflexivity|].
    eapply (spec_destroy free_str); [reflexivity|].
    by apply spec_ret.
  - intros m' Y [-> ->]. apply spec_free_block.
Qed.
End context_spec.

(** ** A life of a context *)

Inductive mcp_op {W : Type} :=
| PmRegister (op : @registration W)
| PmConnect (address : option bytes)
| PmDisconnect.
Arguments mcp_op : clear implicits.

Section mcp_life.
Context {W : Type} `{AiryErr}.
Implicit Types (m : mcp_mem W).

(** The refusals are those of the heap. *)
Definition register_mem (op : @registration W) m : mem (Z * mcp_mem W) :=
  match op with
  | RegTool _ t h => register_tool_mem m t h
  | RegResource _ r h => register_resource_mem m r h
  | RegTemplate _ t => register_template_mem m t
  | RegPrompt _ p h => register_prompt_mem m p h
  end.

Definition mcp_step (op : mcp_op W) m : mem (Z * mcp_mem W) :=
  match op with
  | PmRegister op => register_mem op m
  | PmConnect address => m ← adapter_connect_mem m address; mret (0, m)
  | PmDisconnect => m ← adapter_disconnect_mem m; mret (0, m)
  end.

Fixpoint mcp_run (ops : list (mcp_op W)) m : mem (list Z * mcp_mem W) :=
  match ops with
  | [] => mret ([], m)
  | op :: r => '(rc, m) ← mcp_step op m; '(rcs, m) ← mcp_run r m; mret (rc :: rcs, m)
  end.

(** Null when the context could not be created. *)
Definition mcp_life (config : mcp_v1_config_t) (ops : list (mcp_op W)) : mem (option (list Z)) :=
  ctx ← context_create_mcp (Some config);
  match ctx with
  | None => mret None
  | Some m =>
      '(rcs, m) ← mcp_run ops m;
      _ ← context_destroy_mcp (Some m);
      mret (Some rcs)
  end.

(** The same operations on values. *)
Definition granted_registration (op : @registration W) : registration :=
  match op with
  | RegTool _ t h => RegTool true t h
  | RegResource _ r h => RegResource true r h
  | RegTemplate _ t => RegTemplate true t
  | RegPrompt _ p h => RegPrompt true p h
  end.

Definition mcp_value_step (op : mcp_op W) (x : @mcp_v1_context_t W)
    : outcome (Z * option (@mcp_v1_context_t W)) :=
  match op with
  | PmRegister op => register (granted_registration op) x
  | PmConnect address =>
      Done (0, Some (match address with Some a => set_server_name (Some a) x | None => x end))
  | PmDisconnect => Done (0, Some (set_server_name None x))
  end.

Fixpoint mcp_value_run (ops : list (mcp_op W)) (x : @mcp_v1_context_t W)
    : outcome (list Z * option (@mcp_v1_context_t W)) :=
  match ops with
  | [] => Done ([], Some x)
  | op :: r =>
      '(rc, x) ← mcp_value_step op x;
      match x with
      | Some x => '(rcs, x) ← mcp_value_run r x; Done (rc :: rcs, x)
      | None => Done ([rc], None)
      end
  end.
End mcp_life.

Section mcp_life_spec.
Context `{Grants} {W : Type} `{AiryErr}.
Implicit Types (m : mcp_mem W).

Lemma mcp_step_spec op m n :
  context_ok (erase_mcp m) -> at_most n (erase_mcp m) -> n < 2 ^ 32 ->
  spec (mcp_step op m) (own m) (gives_code (n + 1) (mcp_value_step op (erase_mcp m))).
Proof.
  intros Hok Hn Hlt.
  assert (forall (v : @mcp_v1_context_t W) (r : mcp_mem W) Y, gives n v r Y ->
    spec (mret (0, r)) Y (gives_code (W:=W) (n + 1) (Done (0, Some v)))) as Hret.
  { intros v r Y (-> & Hok' & Hn' & Hv). apply spec_ret. split; [done|]. split; [done|].
    split; [unfold at_most in *; cbn [snd]; lia|]. intros Hg. by rewrite <- (Hv Hg). }
  destruct op as [[a t h|a r h|a t|a p h]|address|]; cbn [mcp_step register_mem mcp_value_step granted_registration].
  - by apply register_tool_gives.
  - by apply register_resource_gives.
  - by apply register_template_gives.
  - by apply register_prompt_gives.
  - eapply spec_bind; [by apply connect_gives|]. intros r Y. apply Hret.
  - eapply spec_bind; [by apply disconnect_gives|]. intros r Y. apply Hret.
Qed.

Lemma mcp_run_spec ops m n :
  context_ok (erase_mcp m) -> at_most n (erase_mcp m) -> n + lenZ ops < 2 ^ 32 ->
  spec (mcp_run ops m) (own m) (fun r Y => Y = own r.2 /\
    (grants -> mcp_value_run ops (erase_mcp m) = Done (r.1, Some (erase_mcp r.2)))).
Proof.
  revert m n. induction ops as [|op ops IH]; intros m n Hok Hn Hlt; cbn [mcp_run]; [by apply spec_ret|].
  rewrite lenZ_cons in Hlt. pose proof (lenZ_nonneg ops).
  eapply spec_bind; [apply mcp_step_spec; [done|done|lia]|].
  intros [rc m1] Y (-> & Hok1 & Hn1 & Hv1). cbn [fst snd] in *.
  eapply spec_bind; [eapply (IH m1 (n + 1)); [done|done|lia]|].
  intros [rcs m2] Y [-> Hv2]. cbn [fst snd] in *. apply spec_ret. split; [done|]. intros Hg.
  cbn [mcp_value_run fst snd]. rewrite (Hv1 Hg). cbn [mbind outcome_bind]. by rewrite (Hv2 Hg).
Qed.

(** What is left of a life, and what it answers. *)
Definition life_leaves (c : mcp_v1_config_t) (ops : list (mcp_op W)) (r : option (list Z))
    (Y : gmultiset addr) : Prop :=
  match r with
  | Some rcs => Y = ∅ /\ (grants -> exists x0 x, mcp_v1_context_create true (Some c) = Some x0 /\
                  mcp_value_run ops x0 = Done (rcs, Some x))
  | None => created (W:=W) c None Y
  end.

Lemma spec_mcp_life c ops :
  0 <= mc_max_tools c -> 0 <= mc_max_resources c -> lenZ ops < 2 ^ 32 ->
  spec (mcp_life c ops) ∅ (life_leaves c ops).
Proof.
  intros Hmt Hmr Hops. unfold mcp_life. eapply spec_bind; [by apply spec_create|].
  intros [m|] Y HY; [|by apply spec_ret]. destruct HY as (-> & Hok & Hn & Hv).
  eapply spec_bind; [apply (mcp_run_spec ops m 0); [done|done|lia]|].
  intros [rcs m'] Y [-> Hrun]. cbn [fst snd] in Hrun.
  eapply spec_bind; [apply spec_context_destroy_mcp|]. intros _ Y ->. apply spec_ret.
  split; [done|]. intros Hg. by exists (erase_mcp m), (erase_mcp m'); auto.
Qed.
End mcp_life_spec.

(** ** Results of handlers, and the tool list of the client *)

Record content_h := mkContentH {
  ch_type : mcp_content_type_t;
  ch_text : hstr;
  ch_mime_type : hstr;
  ch_uri : hstr;
  ch_data : hstr;
  ch_data_size : Z
}.

Definition content_strs (c : content_h) : list hstr :=
  [ch_text c; ch_mime_type c; ch_uri c; ch_data c].

#[export] Instance own_content : Owns content_h := fun c => own (content_strs c).

Definition content_array : Type := option (addr * list content_h).

Definition free_content (c : content_h) : mem unit := each free_str (content_strs c).

Definition mcp_content_destroy (content : content_array) : mem unit :=
  match content with
  | None => mret tt
  | Some (p, l) => _ ← each free_content l; free (Some p)
  end.

(** The messages of the result are not released. *)
Record sampling_result_h := mkSamplingH {
  sh_model : hstr;
  sh_content : content_array;
  sh_messages : option addr;
  sh_stop_reason : hstr
}.

Definition mcp_sampling_result_destroy (result : option sampling_result_h) : mem unit :=
  match result with
  | None => mret tt
  | Some r =>
      _ ← free_str (sh_model r);
      _ ← free_str (sh_stop_reason r);
      mcp_content_destroy (sh_content r)
  end.

(** The values and the array they are in. *)
Definition mcp_completion_result_destroy (result : option (list hstr * option addr)) : mem unit :=
  match result with
  | None => mret tt
  | Some (values, array) => _ ← each free_str values; free array
  end.

Record client_tool_h := mkClientToolH {
  lh_name : hstr;
  lh_description : hstr;
  lh_input_schema_json : hstr
}.

Definition client_tool_strs (t : client_tool_h) : list hstr :=
  [lh_name t; lh_description t; lh_input_schema_json t].

#[export] Instance own_client_tool : Owns client_tool_h := fun t => own (client_tool_strs t).

Definition erase_client_tool (t : client_tool_h) : mcp_client_tool_t :=
  mkClientTool (default [] (str (lh_name t))) (str (lh_description t)) (str (lh_input_schema_json t)).

Definition client_tool_list : Type := option (addr * list client_tool_h).

Definition free_client_tool (t : client_tool_h) : mem unit := each free_str (client_tool_strs t).

Definition mcp_client_tool_list_free (tools : client_tool_list) : mem unit :=
  match tools with
  | None => mret tt
  | Some (p, l) => _ ← each free_client_tool l; free (Some p)
  end.

(** The entries of the answer that have a name; one whose name cannot be copied
    is skipped, and the next one takes its place. *)
Fixpoint fill_client_tools (l : list mcp_client_tool_t) : mem (list client_tool_h) :=
  match l with
  | [] => mret []
  | t :: r =>
      name ← strdup (ct_name t);
      match name with
      | None => fill_client_tools r
      | Some _ =>
          description ← strdup_opt (ct_description t);
          schema ← strdup_opt (ct_input_schema_json t);
          rest ← fill_client_tools r;
          mret (mkClientToolH name description schema :: rest)
      end
  end.

(** The list made of an answer whose [tools] is an array. *)
Definition client_tool_list_mem `{AiryErr} `{CJson} (tools : cJSON) : mem (Z * client_tool_list) :=
  if cJSON_GetArraySize tools <=? 0 then mret (0, None)
  else
    arr ← malloc;
    match arr with
    | None => mret (AIRY_ERR_OUT_OF_MEMORY, None)
    | Some p =>
        filled ← fill_client_tools (client_tools_of tools);
        match filled with
        | [] => _ ← mcp_client_tool_list_free (Some (p, [])); mret (0, None)
        | _ => mret (0, Some (p, filled))
        end
    end.

Section results.
Context `{Grants}.

#[export] Instance destroys_content : Destroys free_content.
Proof. intros c. exact (destroys (content_strs c)). Qed.

#[export] Instance destroys_client_tool : Destroys free_client_tool.
Proof. intros t. exact (destroys (client_tool_strs t)). Qed.

#[export] Instance destroys_contents : Destroys mcp_content_destroy.
Proof.
  intros [[p l]|]; [|by apply spec_ret].
  eapply (spec_destroy (each free_content) l); [|apply spec_free_block]. blocks.
Qed.

#[export] Instance destroys_client_tools : Destroys mcp_client_tool_list_free.
Proof.
  intros [[p l]|]; [|by apply spec_ret].
  eapply (spec_destroy (each free_client_tool) l); [|apply spec_free_block]. blocks.
Qed.

Lemma spec_sampling_destroy (r : sampling_result_h) :
  spec (mcp_sampling_result_destroy (Some r))
    (own (sh_model r) ⊎ (own (sh_stop_reason r) ⊎ own (sh_content r))) (fun _ Y => Y = ∅).
Proof.
  eapply (spec_destroy free_str); [reflexivity|]. eapply (spec_destroy free_str); [reflexivity|].
  exact (destroys (sh_content r)).
Qed.

Lemma spec_completion_destroy values array :
  spec (mcp_completion_result_destroy (Some (values, array))) (own values ⊎ own array) (fun _ Y => Y = ∅).
Proof. eapply (spec_destroy (each free_str)); [reflexivity|]. exact (destroys array). Qed.

Lemma own_client_tool_eq n d i : own (mkClientToolH n d i) = own [n; d; i].
Proof. done. Qed.

Lemma spec_fill_client_tools l :
  constructs (fill_client_tools l) (fun r =>
    (ct_name <$> (erase_client_tool <$> r)) `sublist_of` (ct_name <$> l) /\
    (grants -> erase_client_tool <$> r = l)).
Proof.
  induction l as [|t l IH]; cbn [fill_client_tools]; [by apply spec_ret|].
  eapply spec_new; [apply spec_strdup|]. intros name [Hn Hg]. destruct name as [[p s]|].
  - eapply spec_new; [apply spec_strdup_opt|]. intros d [_ Hd].
    eapply spec_new; [apply spec_strdup_opt|]. intros i [_ Hi].
    eapply spec_new; [exact IH|]. intros rest [Hsub Hr]. apply spec_ret.
    destruct Hn as [Hn|Hn]; [done|]. injection Hn as ->. split.
    { rewrite own_cons, own_client_tool_eq. generalize (Some (p, ct_name t)).
      change (option (addr * bytes)) with hstr. intros n. blocks. }
    split; [by apply sublist_skip|]. intros HG. cbn. rewrite (Hr HG). unfold erase_client_tool. cbn.
    rewrite (Hd HG), (Hi HG). by destruct t.
  - eapply spec_conseq; [exact IH|apply (left_id_L ∅ (⊎))|]. intros r Y (-> & Hsub & Hr).
    split; [done|]. split; [by apply sublist_cons|]. intros HG. by specialize (Hg HG).
Qed.

Lemma spec_client_tool_list `{AiryErr} `{CJson} tools :
  spec (client_tool_list_mem tools) ∅ (fun r Y =>
    Y = own r.2 /\
    (ct_name <$> (erase_client_tool <$> from_option snd [] r.2)) `sublist_of` (ct_name <$> client_tools_of tools) /\
    (grants -> r.1 = 0 /\ erase_client_tool <$> from_option snd [] r.2 = client_tools_of tools)).
Proof.
  unfold client_tool_list_mem. destruct (Z.leb_spec (cJSON_GetArraySize tools) 0) as [Hz|Hz].
  { apply spec_ret. split; [done|]. split; [apply sublist_nil_l|]. intros _. split; [done|].
    unfold client_tools_of. by replace (Z.to_nat (cJSON_GetArraySize tools)) with 0%nat by lia. }
  eapply spec_new; [apply spec_malloc|]. intros [p|] Hp.
  2:{ apply spec_ret. split; [done|]. split; [apply sublist_nil_l|]. intros Hg. by destruct (Hp Hg). }
  eapply spec_new; [apply spec_fill_client_tools|]. intros filled [Hsub Hf].
  destruct filled as [|t l].
  - eapply (spec_destroy mcp_client_tool_list_free (Some (p, []))); [|apply spec_ret].
    + autorewrite with own. instantiate (1 := ∅). multiset_solver.
    + split; [done|]. split; [done|]. intros Hg. by split; [|apply Hf].
  - apply spec_ret. cbn [fst snd from_option]. split; [|split; [exact Hsub|]].
    + change (own (Some (p, t :: l))) with (own p ⊎ own (t :: l)). blocks.
    + intros Hg. by split; [|apply Hf].
Qed.
End results.



(** The blocks of the fields of a context. *)
Definition own_fields {W} (m : mcp_mem W) : gmultiset addr :=
  own (pm_tools m) ⊎ own (pm_resources m) ⊎ own (pm_templates m) ⊎ own (pm_prompts m) ⊎
  own (pm_server_name m) ⊎ own (pm_server_version m).

Lemma spec_adapter_init `{Grants} {W} `{AiryErr} (m : mcp_mem W) :
  grants ->
  spec (adapter_init_mem m) (own m) (fun r Y => r.1 = 0 /\ Y = own r.2 ⊎ own_fields m).
Proof.
  intros Hg. unfold adapter_init_mem.
  eapply (spec_step _ _ _ ∅ (own m)); [by apply spec_create|multiset_solver|].
  intros [n|] Z HZ; [|by destruct HZ as [Hn _]]. destruct HZ as (-> & _).
  eapply (spec_destroy free (Some (pm_block n)) _ _
            (own (n <| pm_block := pm_block m |>) ⊎ own_fields m)); [|by apply spec_ret].
  autorewrite with own. unfold own_fields. rewrite !own_mcp_eq. cbn [upd pm_block pm_tools pm_resources
    pm_templates pm_prompts pm_server_name pm_server_version]. cbn. multiset_solver.
Qed.

#[local] Arguments gmultiset_disj_union : simpl never.
#[local] Arguments gmultiset_singleton : simpl never.
#[local] Arguments gmultiset_difference : simpl never.

(** Two leaks of the MCP context.  When the array of tools is refused after
    the name and the version have been copied, creation returns null and both
    copies stay live, with nothing left that points to them.  And initialising
    the adapter writes a new context over the one it is given: every block the
    fields of the old one owned stays live next to those of the new one. *)
Theorem mcp_leaks {W} `{AiryErr} :
  (forall c name version h,
     mc_server_name c = Some name -> mc_server_version c = Some version ->
     hp_oracle h (hp_next h) = true -> hp_oracle h (S (hp_next h)) = true ->
     hp_oracle h (S (S (hp_next h))) = true -> hp_oracle h (S (S (S (hp_next h)))) = false ->
     exists h', context_create_mcp (W:=W) (Some c) h = Done (None, h') /\
       hp_live h' = {[+ S (hp_next h); S (S (hp_next h)) +]} ⊎ hp_live h) /\
  (forall (m : mcp_mem W) F h,
     heap_wf h -> (forall p, hp_oracle h p = true) -> hp_live h = own m ⊎ F ->
     exists m' h', adapter_init_mem m h = Done (0, m', h') /\
       hp_live h' = own m' ⊎ own_fields m ⊎ F).
Proof.
  split.
  - intros c name version h Hn Hv H0 H1 H2 H3. unfold context_create_mcp, mbind, mem_bind, malloc.
    rewrite H0. cbn. rewrite Hn, Hv. cbn. unfold strdup, mbind, mem_bind, malloc. cbn.
    rewrite H1. cbn. rewrite H2. cbn. rewrite H3. cbn. rewrite decide_True by multiset_solver.
    eexists. split; [reflexivity|]. cbn. multiset_solver.
  - intros m F h Hwf Hg Hl.
    destruct (spec_adapter_init (H:=True) m I F h) as ([rc m'] & h' & Y & Hr & _ & Hl' & Hrc & ->); [by split|done|].
    cbn [fst snd] in *. subst rc. exists m', h'. by split.
Qed.

Lemma mcp_leaks_witness :
  let h := heap_init (fun p => negb (p =? 3)%nat) in
  exists h', @context_create_mcp unit (Some mcp_v1_config_default) h = Done (None, h') /\
    hp_live h' = {[+ 1%nat; 2%nat +]} ⊎ hp_live h.
Proof.
  intros h.
  exact (proj1 (@mcp_leaks unit inst_err) mcp_v1_config_default _ _ h eq_refl eq_refl
           eq_refl eq_refl eq_refl eq_refl).
Defined.

(** The tool list of the client and its memory.  Whatever requests are
    refused while the list is made, nothing faults; freeing the list leaves the
    live blocks from before; its tools are among those the server named, in
    their order; and with memory for every request it is the list of all of
    them, with their descriptions and schemas. *)
Theorem client_tools_memory `{AiryErr} `{CJson} (tools : cJSON) (h : heap) :
  heap_wf h ->
  exists rc out h1 h2, client_tool_list_mem tools h = Done (rc, out, h1) /\
    mcp_client_tool_list_free out h1 = Done (tt, h2) /\ hp_live h2 = hp_live h /\
    let made := erase_client_tool <$> from_option snd [] out in
    (ct_name <$> made) `sublist_of` (ct_name <$> client_tools_of tools) /\
    ((forall p, hp_oracle h p = true) -> rc = 0 /\ made = client_tools_of tools).
Proof.
  intros Hwf.
  destruct (spec_run (client_tool_list_mem tools) _ h Hwf
              (spec_client_tool_list (H:=forall p, hp_oracle h p = true) tools))
    as ([rc out] & h1 & Y & Hr & Hwf1 & Hl & -> & Hsub & Hall).
  destruct (spec_releases (mcp_client_tool_list_free out) (own out) (@destroys_client_tools False out)
              (hp_live h) h1 Hwf1 Hl) as (h2 & Hf & _ & Hl2).
  exists rc, out, h1, h2. split; [done|]. split; [done|]. split; [done|]. by split.
Qed.

Lemma client_tools_memory_witness :
  let h := heap_init (fun p => negb (p =? 2)%nat) in
  exists tools, @cJSON_Parse inst_cjson "[{'name':'a'},{'name':'b','description':'d'}]"%cs = Some tools /\
  exists rc out h1 h2, @client_tool_list_mem inst_err inst_cjson tools h = Done (rc, out, h1) /\
    mcp_client_tool_list_free out h1 = Done (tt, h2) /\ hp_live h2 = hp_live h.
Proof.
  intros h. eexists. split; [vm_compute; reflexivity|].
  match goal with |- context [client_tool_list_mem ?tools _] =>
    destruct (@client_tools_memory inst_err inst_cjson tools h (heap_init_wf _))
      as (rc & out & h1 & h2 & H1 & H2 & H3 & _) end.
  by exists rc, out, h1, h2.
Defined.
