(* ===== verification/ClientMem.v ===== *)
(** * Memory of the MCP client: who allocates and who releases

    The client of McpHttp, McpClient and McpLife over the heap of Heap: the
    frame parser's buffer and header, the strings of a connection, the requests
    and responses of an exchange, the results handed to the caller.  A call runs
    against the scripts of McpHttp and the heap at once; erasing the blocks
    gives the calls of those files. *)

From S2P Require Export Heap McpLife.
From S2P Require Import EnvInst McpMem.
#[local] Open Scope Z_scope.

(** ** Calls that wait for the peer and use the heap *)

Inductive hres (A : Type) :=
| HRet (a : A) (s : io)
| HBlocked
| HUndef.
Arguments HRet {A} a s.
Arguments HBlocked {A}.
Arguments HUndef {A}.

Definition hio (A : Type) : Type := io -> mem (hres A).

#[export] Instance hio_ret : MRet hio := fun A a s => mret (HRet a s).
#[export] Instance hio_bind : MBind hio := fun A B f m s =>
  r ← m s;
  match r with
  | HRet a s => f a s
  | HBlocked => mret HBlocked
  | HUndef => mret HUndef
  end.

(** A step on the heap, and a step against the scripts. *)
Definition on_heap {A} (m : mem A) : hio A := fun s => a ← m; mret (HRet a s).

Definition on_io {A} (m : IO A) : hio A := fun s =>
  mret (match m s with Ret a s => HRet a s | Blocked => HBlocked | Undef => HUndef end).

(** [m] does what [p], the call on values, does: it ends with [Q], and when
    every request is granted its result erases to that of [p]. *)
Definition follows `{Grants} {A B} (m : hio A) (s : io) (X : gmultiset addr) (p : res B)
    (Q : A -> gmultiset addr -> Prop) (V : A -> B) : Prop :=
  spec (m s) X (fun r Y =>
    match r with
    | HRet a s' => Q a Y /\ (grants -> p = Ret (V a) s')
    | HBlocked => grants -> p = Blocked
    | HUndef => grants -> p = Undef
    end).

Section follows_rules.
Context `{Grants} {A B C D : Type}.
Implicit Types (X Y R : gmultiset addr) (s : io).

Lemma follows_ret (a : A) s X (p : res B) (Q : A -> gmultiset addr -> Prop) V :
  Q a X -> (grants -> p = Ret (V a) s) -> follows (mret a) s X p Q V.
Proof. intros HQ Hp. by apply spec_ret. Qed.

(** Giving up when a request is refused. *)
Lemma follows_refused (a : A) s X (p : res B) (Q : A -> gmultiset addr -> Prop) V :
  Q a X -> ~ grants -> follows (mret a) s X p Q V.
Proof. intros HQ Hn. by apply follows_ret. Qed.

Lemma follows_bind (m : hio A) (f : A -> hio C) s X R X' (p : IO B) (g : B -> IO D) Q V Q' V' :
  follows m s X (p s) Q V -> X' = X ⊎ R ->
  (forall a s' Z, Q a Z -> follows (f a) s' (Z ⊎ R) (g (V a) s') Q' V') ->
  follows (m ≫= f) s X' ((p ≫= g) s) Q' V'.
Proof.
  intros Hm -> Hf. eapply spec_bind; [apply spec_frame; exact Hm|].
  intros r Y (Z & -> & Hr). destruct r as [a s'| |]; cbn beta iota.
  - destruct Hr as [HQ Hp]. eapply spec_conseq; [apply (Hf a s' Z HQ)|done|].
    intros r Y Hr. unfold mbind, io_bind.
    destruct r as [c s''| |]; [destruct Hr as [HQ' Hr]; split; [done|]|..];
      intros Hg; rewrite (Hp Hg); auto.
  - apply spec_ret. intros Hg. unfold mbind, io_bind. by rewrite (Hr Hg).
  - apply spec_ret. intros Hg. unfold mbind, io_bind. by rewrite (Hr Hg).
Qed.

Lemma follows_heap (m : mem A) (f : A -> hio C) s X X0 R (p : res D) P Q V :
  spec m X0 P -> X = X0 ⊎ R -> (forall a Z, P a Z -> follows (f a) s (Z ⊎ R) p Q V) ->
  follows (on_heap m ≫= f) s X p Q V.
Proof.
  intros Hm -> Hf. unfold follows, mbind, hio_bind, on_heap.
  eapply (spec_bind _ _ _ (fun r Y => exists a Z, r = HRet a s /\ Y = Z ⊎ R /\ P a Z)).
  - eapply spec_step; [exact Hm|done|]. intros a Z HP. apply spec_ret. eauto.
  - intros r Y (a & Z & -> & -> & HP). by apply Hf.
Qed.

Lemma follows_io (m : IO A) (f : A -> hio C) (g : A -> IO D) s X Q V :
  (forall a s', follows (f a) s' X (g a s') Q V) ->
  follows (on_io m ≫= f) s X ((m ≫= g) s) Q V.
Proof.
  intros Hf. unfold follows, mbind, hio_bind, on_io, io_bind.
  eapply (spec_bind _ _ _ (fun r Y => Y = X /\
    r = match m s with Ret a s => HRet a s | Blocked => HBlocked | Undef => HUndef end)).
  - by apply spec_ret.
  - intros r Y [-> ->]. destruct (m s); [apply Hf|by apply spec_ret..].
Qed.

(** What the values are matters only when every request is granted. *)
Lemma follows_pure (m : hio A) s X (p p' : res B) (Q : A -> gmultiset addr -> Prop) V :
  follows m s X p' Q V -> (grants -> p = p') -> follows m s X p Q V.
Proof.
  intros Hm Hp. eapply spec_conseq; [exact Hm|done|].
  intros [a s'| |] Y; [intros [HQ HV]; split; [done|]|intros HV..]; intros Hg; rewrite (Hp Hg); auto.
Qed.

(** Weaker conclusions, and other names for the blocks. *)
Lemma follows_conseq (m : hio A) s X X' (p : res B) (Q Q' : A -> gmultiset addr -> Prop) V :
  follows m s X p Q V -> X' = X -> (forall a Y, Q a Y -> Q' a Y) -> follows m s X' p Q' V.
Proof.
  intros Hm -> HQ. eapply spec_conseq; [exact Hm|done|]. intros [a s'| |] Y; [|done|done].
  intros [Ha Hp]. auto.
Qed.
End follows_rules.

Lemma follows_new `{Grants} {A C D} `{Owns A} (m : mem A) (f : A -> hio C) s X (p : res D) P Q V :
  constructs m P -> (forall a, P a -> follows (f a) s (own a ⊎ X) p Q V) ->
  follows (on_heap m ≫= f) s X p Q V.
Proof.
  intros Hm Hf. eapply follows_heap; [exact Hm|symmetry; apply (left_id_L ∅ (⊎))|].
  intros a Z [-> Ha]. by apply Hf.
Qed.

Lemma follows_free `{Grants} {A C D} `{Owns A} (d : A -> mem unit) `{!Destroys d} a (m : hio C) s X R
    (p : res D) Q V :
  X = own a ⊎ R -> follows m s R p Q V -> follows (_ ← on_heap (d a); m) s X p Q V.
Proof.
  intros -> Hm. eapply follows_heap; [apply (destroys a)|reflexivity|]. intros _ Z ->.
  by rewrite (left_id_L ∅ (⊎)).
Qed.

(** ** The frame parser *)

(** The parser's buffer and its copy of the header. *)
Record parser_h := mkParserH {
  ph_fields : mcp_frame_parser_t;
  ph_buf : option addr;
  ph_header : hstr
}.

#[export] Instance own_parser : Owns parser_h := fun p => own (ph_buf p) ⊎ own (ph_header p).

Definition erase_parser (p : parser_h) : mcp_frame_parser_t :=
  (ph_fields p) <| fp_header_text := str (ph_header p) |>.

Definition parser_init_mem : parser_h := mkParserH frame_parser_init None None.

Definition parser_destroy_mem (p : parser_h) : mem unit :=
  _ ← free (ph_buf p); free_str (ph_header p).

Section parser.
Context `{AiryErr}.

Definition parser_append_mem (p : parser_h) (data : bytes) : mem (Z * parser_h) :=
  let f := ph_fields p in
  let len := lenZ (fp_buf f) in
  let n := lenZ data in
  if n =? 0 then mret (0, p)
  else if MCP_CLIENT_MAX_MESSAGE_SIZE + MCP_CLIENT_HEADER_MAX <? len + n
  then mret (AIRY_ERR_OVERFLOW, p)
  else if fp_cap f <? len + n then
    let new_cap := if fp_cap f =? 0 then MCP_CLIENT_READ_CHUNK else fp_cap f in
    nb ← realloc (ph_buf p);
    match nb with
    | None => mret (AIRY_ERR_OUT_OF_MEMORY, p)
    | Some nb =>
        mret (0, mkParserH (f <| fp_cap := grow 64 new_cap (len + n) |>
                              <| fp_buf ::= (fun b => b ++ data) |>) (Some nb) (ph_header p))
    end
  else mret (0, mkParserH (f <| fp_buf ::= (fun b => b ++ data) |>) (ph_buf p) (ph_header p)).

(** The header of the last frame is replaced by that of the next one. *)
Definition take_header_mem (p : parser_h) : mem ((Z * parser_h) + parser_h) :=
  let f := ph_fields p in
  match fp_state f with
  | MCP_FRAME_STATE_BODY => mret (inr p)
  | MCP_FRAME_STATE_HEADER =>
      match find_header_end (fp_buf f) with
      | None => mret (inl (1, p))
      | Some hdr_end =>
          match parse_content_length (take hdr_end (fp_buf f)) with
          | None => mret (inl (MCP_CLIENT_ERR_FRAME, p))
          | Some clen =>
              if (clen =? 0) || (MCP_CLIENT_MAX_MESSAGE_SIZE <? clen)
              then mret (inl (MCP_CLIENT_ERR_FRAME, p))
              else
                header_text ← replace_str (ph_header p) (cstr_of (take hdr_end (fp_buf f)));
                mret (match header_text with
                      | None => inl (AIRY_ERR_OUT_OF_MEMORY, mkParserH f (ph_buf p) None)
                      | Some h =>
                          inr (mkParserH (f <| fp_state := MCP_FRAME_STATE_BODY |>
                                            <| fp_hdr_end := hdr_end |>
                                            <| fp_body_expected := clen |>) (ph_buf p) (Some h))
                      end)
          end
      end
  end.

Definition take_frame_mem (p : parser_h) : mem (Z * parser_h * hstr) :=
  r ← take_header_mem p;
  match r with
  | inl (rc, p) => mret (rc, p, None)
  | inr p =>
      let f := ph_fields p in
      let frame_total := Z.of_nat (fp_hdr_end f) + fp_body_expected f in
      if lenZ (fp_buf f) <? frame_total then mret (1, p, None)
      else
        out ← strdup (cstr_of (take (Z.to_nat (fp_body_expected f)) (drop (fp_hdr_end f) (fp_buf f))));
        mret (match out with
              | None => (AIRY_ERR_OUT_OF_MEMORY, p, None)
              | Some _ =>
                  (0, mkParserH (f <| fp_buf ::= drop (Z.to_nat frame_total) |>
                                   <| fp_state := MCP_FRAME_STATE_HEADER |> <| fp_hdr_end := 0%nat |>
                                   <| fp_body_expected := 0 |>) (ph_buf p) (ph_header p), out)
              end)
  end.

(** The loops that read one frame, from the pipe and from a socket; [None] when
    they still wait after the last answer. *)
Definition read_result : Type := option (Z * parser_h * hstr * list read_event).

Fixpoint stdio_read_mem (evs : list read_event) (p : parser_h) (timeout_ms : Z) : mem read_result :=
  '(rc, p, out) ← take_frame_mem p;
  if negb (rc =? 1) then mret (Some (rc, p, out, evs))
  else if timeout_ms <=? 0 then mret (Some (AIRY_ERR_TIMEOUT, p, None, evs))
  else match evs with
  | [] => mret None
  | ev :: evs =>
      match ev with
      | RTimeout => mret (Some (AIRY_ERR_TIMEOUT, p, None, evs))
      | RPollIntr | RAgain => stdio_read_mem evs p timeout_ms
      | RPollErr | RBadFd | RErr => mret (Some (AIRY_ERR_IO, p, None, evs))
      | REof => mret (Some (MCP_CLIENT_ERR_PROCESS_EXIT, p, None, evs))
      | RData chunk =>
          '(rc, p) ← parser_append_mem p chunk;
          if negb (rc =? 0) then mret (Some (rc, p, None, evs))
          else stdio_read_mem evs p timeout_ms
      end
  end.

Fixpoint http_read_mem (evs : list read_event) (p : parser_h) : mem read_result :=
  '(rc, p, out) ← take_frame_mem p;
  if negb (rc =? 1) then mret (Some (rc, p, out, evs))
  else match evs with
  | [] => mret None
  | ev :: evs =>
      match ev with
      | RTimeout => mret (Some (AIRY_ERR_TIMEOUT, p, None, evs))
      | RPollIntr => http_read_mem evs p
      | RPollErr | RBadFd | RAgain | RErr => mret (Some (AIRY_ERR_IO, p, None, evs))
      | REof => mret (Some (MCP_CLIENT_ERR_PROCESS_EXIT, p, None, evs))
      | RData chunk =>
          '(rc, p) ← parser_append_mem p chunk;
          if negb (rc =? 0) then mret (Some (rc, p, None, evs))
          else http_read_mem evs p
      end
  end.
End parser.

Section parser_spec.
Context `{Grants} `{AiryErr}.
Implicit Types (p : parser_h).

Lemma own_parser_eq p : own p = own (ph_buf p) ⊎ own (ph_header p).
Proof. done. Qed.

#[export] Instance destroys_parser : Destroys parser_destroy_mem.
Proof.
  intros p. eapply (spec_destroy free (ph_buf p)); [apply own_parser_eq|].
  exact (destroys (ph_header p)).
Qed.

Lemma spec_parser_append p data :
  spec (parser_append_mem p data) (own p) (fun r Y =>
    Y = own r.2 /\
    (grants -> frame_parser_append true (erase_parser p) data = (r.1, erase_parser r.2))).
Proof.
  destruct p as [[b cap st he be ht] buf h]. unfold parser_append_mem, frame_parser_append, erase_parser.
  cbn [ph_fields ph_buf ph_header upd fp_buf fp_cap negb].
  destruct (_ =? 0); [by apply spec_ret|]. destruct (_ <? _); [by apply spec_ret|].
  destruct (_ <? _); [|by apply spec_ret].
  eapply (spec_step (realloc buf) _ _ _ (own h)); [apply spec_realloc|done|].
  intros [q|] Z HZ; [subst Z; by apply spec_ret|]. destruct HZ as [-> Hn]. by apply spec_ret.
Qed.

Definition header_taken p (r : (Z * parser_h) + parser_h) (Y : gmultiset addr) : Prop :=
  match r with
  | inl (rc, q) => Y = own q /\ rc <> 0 /\ (grants -> take_header true (erase_parser p) = inl (rc, erase_parser q))
  | inr q => Y = own q /\ (grants -> take_header true (erase_parser p) = inr (erase_parser q))
  end.

Lemma spec_take_header p : spec (take_header_mem p) (own p) (header_taken p).
Proof.
  destruct p as [[b cap st he be ht] buf h].
  unfold take_header_mem, header_taken, take_header, erase_parser.
  cbn [ph_fields ph_buf ph_header upd fp_buf fp_cap fp_state negb].
  destruct st; [|by apply spec_ret].
  assert (MCP_CLIENT_ERR_FRAME <> 0) as Hframe by done.
  destruct (find_header_end b) as [k|]; [|by apply spec_ret].
  destruct (parse_content_length _) as [n|]; [|by apply spec_ret].
  destruct (_ || _); [by apply spec_ret|].
  eapply (spec_step (replace_str _ _) _ _ _ (own buf)); [apply spec_replace_str|apply (comm_L (⊎))|].
  intros r Z [-> [_ Hr]]. apply spec_ret. destruct r as [[q s]|].
  - split; [apply (comm_L (⊎))|]. intros Hg. injection (Hr Hg) as ->. reflexivity.
  - split; [apply (comm_L (⊎))|]. split; [errlia|]. intros Hg. by specialize (Hr Hg).
Qed.

(** A frame is handed out exactly with the code 0. *)
Definition read_ok (r : Z * parser_h * hstr) (Y : gmultiset addr) : Prop :=
  let '(rc, q, out) := r in 
  Y = own q ⊎ own out /\ match out with Some _ => rc = 0 | None => rc <> 0 end.

Definition erase_read (r : Z * parser_h * hstr) : Z * mcp_frame_parser_t * option bytes :=
  let '(rc, q, out) := r in (rc, erase_parser q, str out).

Lemma spec_take_frame p :
  spec (take_frame_mem p) (own p) (fun r Y =>
    read_ok r Y /\ (grants -> frame_parser_take_frame all_ok (erase_parser p) = erase_read r)).
Proof.
  unfold take_frame_mem, frame_parser_take_frame, all_ok.
  eapply spec_bind; [apply spec_take_header|]. intros [[rc q]|q] Y.
  { intros (-> & Hrc & Hv). apply spec_ret. cbn [read_ok]. rewrite own_str_none, (right_id_L ∅ (⊎)).
    split; [done|]. intros Hg. by rewrite (Hv Hg). }
  intros [-> Hv].
  assert (forall B (A : B) (f : Z * mcp_frame_parser_t -> B) (g : mcp_frame_parser_t -> B), (grants -> g (erase_parser q) = A) ->
    grants -> match take_header true (erase_parser p) with inl r => f r | inr q => g q end = A) as Hpure.
  { intros A B f g Hgg Hg. rewrite (Hv Hg). auto. }
  destruct q as [[b cap st he be ht] buf h]. cbn [ph_fields ph_buf ph_header fp_buf fp_hdr_end fp_body_expected].
  destruct (Z.ltb_spec (lenZ b) (Z.of_nat he + be)) as [Hlt|Hge].
  - apply spec_ret. split.
    + cbn [read_ok]. by rewrite own_str_none, (right_id_L ∅ (⊎)).
    + apply (Hpure _ _ (fun '(rc, p) => (rc, p, None))). intros _. cbn. by rewrite (proj2 (Z.ltb_lt _ _)).
  - eapply spec_new; [apply spec_strdup|]. intros [[a s]|] [_ Hs]; apply spec_ret.
    + split; [cbn [read_ok]; split; [apply (comm_L (⊎))|done]|].
      apply (Hpure _ _ (fun '(rc, p) => (rc, p, None))). intros Hg. cbn.
      rewrite (proj2 (Z.ltb_ge _ _)) by done. injection (Hs Hg) as ->. reflexivity.
    + split; [cbn [read_ok]; split; [apply (comm_L (⊎))|errlia]|].
      intros Hg. by specialize (Hs Hg).
Qed.

(** What a loop that reads a frame leaves, next to the loop on values. *)
Definition loop_ok (p : option (Z * mcp_frame_parser_t * option bytes * list read_event))
    (r : read_result) (Y : gmultiset addr) : Prop :=
  match r with
  | Some (rc, q, out, evs) =>
      read_ok (rc, q, out) Y /\ (grants -> p = Some (rc, erase_parser q, str out, evs))
  | None => grants -> p = None
  end.

Lemma loop_error v rc q evs :
  rc <> 0 ->
  (grants -> v = Some (rc, erase_parser q, None, evs)) ->
  loop_ok v (Some (rc, q, None, evs)) (own q).
Proof.
  intros Hrc Hv. cbn [loop_ok read_ok]. by rewrite own_str_none, (right_id_L ∅ (⊎)).
Qed.

(** The chunk just read is added to the buffer, and the loop goes on. *)
Lemma spec_read_chunk p chunk evs (loop : parser_h -> mem read_result)
    (ploop : mcp_frame_parser_t -> option (Z * mcp_frame_parser_t * option bytes * list read_event)) :
  (forall q, spec (loop q) (own q) (loop_ok (ploop (erase_parser q)))) ->
  spec ('(rc, q) ← parser_append_mem p chunk;
        if negb (rc =? 0) then mret (Some (rc, q, None, evs)) else loop q) (own p)
    (loop_ok (let '(rc, q) := frame_parser_append true (erase_parser p) chunk in
              if negb (rc =? 0) then Some (rc, q, None, evs) else ploop q)).
Proof.
  intros Hloop. eapply spec_bind; [apply spec_parser_append|]. intros [rc q] Y [-> Hv].
  cbn [fst snd] in *. destruct (rc =? 0) eqn:Hrc; cbn [negb].
  - eapply spec_conseq; [apply Hloop|done|]. intros [[[[rc' q'] out] evs']|] Y; cbn [loop_ok].
    + intros [Hok Hp]. split; [done|]. intros Hg. rewrite (Hv Hg), Hrc. auto.
    + intros Hp Hg. rewrite (Hv Hg), Hrc. auto.
  - apply spec_ret, loop_error; [by apply Z.eqb_neq|]. intros Hg. by rewrite (Hv Hg), Hrc.
Qed.

(** The start of both loops. *)
Lemma spec_read_frame p evs (loop : parser_h -> mem read_result)
    (ploop : mcp_frame_parser_t -> option (Z * mcp_frame_parser_t * option bytes * list read_event)) :
  (forall q, spec (loop q) (own q) (loop_ok (ploop (erase_parser q)))) ->
  spec ('(rc, q, out) ← take_frame_mem p;
        if negb (rc =? 1) then mret (Some (rc, q, out, evs)) else loop q) (own p)
    (loop_ok (let '(rc, q, out) := frame_parser_take_frame all_ok (erase_parser p) in
              if negb (rc =? 1) then Some (rc, q, out, evs) else ploop q)).
Proof.
  intros Hloop. eapply spec_bind; [apply spec_take_frame|]. intros [[rc q] out] Y [Hok Hv].
  destruct (Z.eqb_spec rc 1) as [->|Hrc]; cbn [negb].
  - destruct Hok as [-> Hout]. destruct out; [done|]. eapply spec_conseq; [apply (Hloop q)|autorewrite with own; apply (right_id_L ∅ (⊎))|].
    intros [[[[rc' q'] out] evs']|] Y; cbn [loop_ok].
    + intros [Hok Hp]. split; [done|]. intros Hg. rewrite (Hv Hg). cbn. auto.
    + intros Hp Hg. rewrite (Hv Hg). cbn. auto.
  - apply spec_ret. cbn [loop_ok]. split; [done|]. intros Hg. rewrite (Hv Hg). cbn [erase_read].
    by rewrite (proj2 (Z.eqb_neq _ _)).
Qed.

Lemma spec_stdio_read evs p timeout_ms :
  spec (stdio_read_mem evs p timeout_ms) (own p)
    (loop_ok (stdio_read_message all_ok evs (erase_parser p) timeout_ms)).
Proof.
  revert p. induction evs as [|ev evs IH]; intros p; cbn [stdio_read_mem stdio_read_message];
    eapply spec_read_frame; intros q; (destruct (timeout_ms <=? 0); [apply spec_ret, loop_error; [errlia|done]|]).
  - by apply spec_ret.
  - destruct ev; first [by apply spec_ret, loop_error; [errlia|] | by apply spec_ret, loop_error | apply IH | by apply spec_read_chunk].
Qed.

Lemma spec_http_read evs p :
  spec (http_read_mem evs p) (own p) (loop_ok (http_read_frame evs (erase_parser p))).
Proof.
  revert p. induction evs as [|ev evs IH]; intros p; cbn [http_read_mem http_read_frame];
    eapply spec_read_frame; intros q; [by apply spec_ret|].
  destruct ev; first [by apply spec_ret, loop_error; [errlia|] | by apply spec_ret, loop_error | apply IH | by apply spec_read_chunk].
Qed.
End parser_spec.

(** ** The client *)

(** [struct mcp_client_s]; the copy of the arguments is an array with a block for
    each of them. *)
Record client_h := mkClientH {
  kh_block : addr;
  kh_fields : mcp_client_s;
  kh_name : hstr;
  kh_argv : option (addr * list (addr * bytes));
  kh_host : hstr;
  kh_path : hstr;
  kh_parser : parser_h;
  kh_server_name : hstr
}.

#[export] Instance eta_client_h : Eta client_h := fun c =>
  mkClientH (kh_block c) (kh_fields c) (kh_name c) (kh_argv c) (kh_host c) (kh_path c)
    (kh_parser c) (kh_server_name c).

Definition argv_blocks (argv : option (addr * list (addr * bytes))) : gmultiset addr :=
  match argv with Some (p, l) => own (fst <$> l) ⊎ own p | None => ∅ end.

#[export] Instance own_client : Owns client_h := fun c =>
  own (kh_parser c) ⊎ (own (kh_name c) ⊎ (argv_blocks (kh_argv c) ⊎ (own (kh_host c) ⊎
  (own (kh_path c) ⊎ (own (kh_server_name c) ⊎ own (kh_block c)))))).

Definition erase_client (c : client_h) : mcp_client_s :=
  let f := kh_fields c in
  mkClient (default [] (str (kh_name c))) (cl_transport f) (cl_child_pid f) (cl_stdio_write_fd f)
    (cl_stdio_read_fd f) (match kh_argv c with Some (_, l) => Some (snd <$> l) | None => None end) (default [] (str (kh_host c)))
    (default [] (str (kh_path c))) (cl_http_port f) (erase_parser (kh_parser c))
    (cl_request_id f) (cl_initialized f) (str (kh_server_name c)).

(** *** Connecting and disconnecting *)

(** When a copy is refused, the ones made are released. *)
Fixpoint copy_strings_mem (done_ : list (addr * bytes)) (argv : list bytes)
    : mem (option (list (addr * bytes))) :=
  match argv with
  | [] => mret (Some done_)
  | a :: r =>
      copy ← strdup a;
      match copy with
      | None => _ ← each (fun e => free (Some (fst e))) done_; mret None
      | Some e => copy_strings_mem (done_ ++ [e]) r
      end
  end.

Definition copy_argv_mem (argv : list bytes) : mem (option (addr * list (addr * bytes))) :=
  copy ← malloc;
  match copy with
  | None => mret None
  | Some p =>
      l ← copy_strings_mem [] argv;
      match l with
      | None => _ ← free (Some p); mret None
      | Some l => mret (Some (p, l))
      end
  end.

Definition free_argv_mem (argv : option (addr * list (addr * bytes))) : mem unit :=
  match argv with
  | None => mret tt
  | Some (p, l) => _ ← each (fun e => free (Some (fst e))) l; free (Some p)
  end.

(** The parent's side; [child] is the process, if [fork] made one.  The child
    replaces its memory by the program's. *)
Definition connect_stdio_mem (to_child from_child : option (Z * Z)) (child : option Z)
    (name command : option bytes) (argv : option (list bytes)) : mem (option client_h) :=
  match named name, command, argv with
  | Some n, Some cmd, Some (a0 :: args) =>
      argv_copy ← copy_argv_mem (a0 :: args);
      match argv_copy with
      | None => mret None
      | Some _ =>
          match to_child, from_child, child with
          | Some (tr, tw), Some (fr, fw), Some pid =>
              c ← malloc;
              match c with
              | None => _ ← free_argv_mem argv_copy; mret None
              | Some p =>
                  name ← strdup n;
                  mret (Some (mkClientH p
                    (client_zero <| cl_transport := MCP_CLIENT_TRANSPORT_STDIO |>
                       <| cl_child_pid := pid |> <| cl_stdio_write_fd := tw |>
                       <| cl_stdio_read_fd := fr |>) name argv_copy None None parser_init_mem None))
              end
          | _, _, _ => _ ← free_argv_mem argv_copy; mret None
          end
      end
  | _, _, _ => mret None
  end.

(** The host and the path are copied while the address is parsed. *)
Definition connect_http_mem (name url : option bytes) : mem (option client_h) :=
  match named name, url with
  | Some n, Some u =>
      match parse_http_url u with
      | None => mret None
      | Some (host, port, path) =>
          host ← strdup host;
          match host with
          | None => mret None
          | Some _ =>
              path ← strdup path;
              match path with
              | None => _ ← free_str host; mret None
              | Some _ =>
                  c ← malloc;
                  match c with
                  | None => _ ← free_str host; _ ← free_str path; mret None
                  | Some p =>
                      name ← strdup n;
                      mret (Some (mkClientH p
                        (client_zero <| cl_transport := MCP_CLIENT_TRANSPORT_HTTP |>
                           <| cl_http_port := port |>) name None host path parser_init_mem None))
                  end
              end
          end
      end
  | _, _ => mret None
  end.

Definition disconnect_mem (c : client_h) : mem unit :=
  _ ← parser_destroy_mem (kh_parser c);
  _ ← free_str (kh_name c);
  _ ← free_argv_mem (kh_argv c);
  _ ← free_str (kh_host c);
  _ ← free_str (kh_path c);
  _ ← free_str (kh_server_name c);
  free (Some (kh_block c)).

(** *** Exchanges *)

Section exchange.
Context `{AiryErr} `{CJson}.

Definition io_read_mem (c : client_h) (timeout_ms : Z) : hio (Z * client_h * hstr) := fun s =>
  r ← stdio_read_mem (io_reads s) (kh_parser c) timeout_ms;
  mret (match r with
        | Some (rc, q, out, evs) => HRet (rc, c <| kh_parser := q |>, out) (s <| io_reads := evs |>)
        | None => HBlocked
        end).

(** The parser of a response is local to the call.  An event stream's first
    data line takes the place of the body. *)
Definition http_response_mem : hio (Z * hstr) := fun s =>
  r ← http_read_mem (io_reads s) parser_init_mem;
  match r with
  | None => mret HBlocked
  | Some (rc, p, out_body, evs) =>
      let s := s <| io_reads := evs |> in
      if negb (rc =? 0) then _ ← parser_destroy_mem p; mret (HRet (rc, out_body) s)
      else
        let is_sse := match str (ph_header p) with
                      | Some h => bool_decide (is_Some (strstr h "text/event-stream"%cs))
                      | None => false
                      end in
        out_body ← match is_sse, str out_body with
                   | true, Some b =>
                       data ← strdup_opt (extract_sse_data (Some b));
                       _ ← free_str out_body;
                       match data with Some _ => mret data | None => strdup [] end
                   | _, _ => mret out_body
                   end;
        _ ← parser_destroy_mem p;
        mret (HRet (0, out_body) s)
  end.

(** The host and the path are used without a test. *)
Definition http_send_mem (c : client_h) (body : bytes) : hio (Z * hstr) :=
  ok ← on_io http_connect_fd;
  if negb ok then mret (MCP_CLIENT_ERR_CONNECT, None)
  else
    match str (kh_host c), str (kh_path c) with
    | Some host, Some path =>
        let req_cap := (256 + length host + length path + length body)%nat in
        req ← on_heap malloc;
        match req with
        | None => mret (AIRY_ERR_OUT_OF_MEMORY, None)
        | Some req =>
            rc ← on_io (io_write (fits req_cap (http_request (erase_client c) body)));
            _ ← on_heap (free (Some req));
            if negb (rc =? 0) then mret (rc, None) else http_response_mem
        end
    | _, _ => on_heap fault
    end.

Fixpoint rpc_wait_mem (fuel : nat) (c : client_h) (id deadline : Z) : hio (Z * client_h * hstr) :=
  match fuel with
  | O => fun _ => mret HBlocked
  | S f =>
      now ← on_io now_ms;
      if deadline - now <=? 0 then mret (AIRY_ERR_TIMEOUT, c, None)
      else
        '(rc, c, frame) ← io_read_mem c (deadline - now);
        if negb (rc =? 0) then mret (rc, c, None)
        else
          m ← on_io (of_outcome (response_id_matches (default [] (str frame)) id));
          if m =? 1 then mret (0, c, frame)
          else
            _ ← on_heap (free_str frame);
            if m <? 0 then mret (m, c, None) else rpc_wait_mem f c id deadline
  end.

(** The fuel is that of the loop on values. *)
Definition with_fuel_mem {A} (measure : io -> nat) (m : nat -> hio A) : hio A :=
  fun s => m (S (measure s)) s.

Definition rpc_exchange_mem (c : client_h) (method : bytes) (params_json : option bytes)
    (expect_response : bool) : hio (Z * client_h * hstr) :=
  let id := u64 (cl_request_id (kh_fields c) + 1) in
  let c := c <| kh_fields ::= (fun f => f <| cl_request_id := id |>) |> in
  req_str ← on_heap (strdup_opt (cJSON_PrintUnformatted (rpc_request id method params_json)));
  match req_str with
  | None => mret (AIRY_ERR_OUT_OF_MEMORY, c, None)
  | Some (_, req) =>
      match cl_transport (kh_fields c) with
      | MCP_CLIENT_TRANSPORT_STDIO =>
          rc ← on_io (io_send req);
          _ ← on_heap (free_str req_str);
          if negb (rc =? 0) then mret (rc, c, None)
          else if negb expect_response then mret (0, c, None)
          else
            now ← on_io now_ms;
            with_fuel_mem (bytes_left (erase_client c)) (fun fuel =>
              rpc_wait_mem fuel c id (now + MCP_CLIENT_DEFAULT_TIMEOUT_MS))
      | MCP_CLIENT_TRANSPORT_HTTP =>
          '(rc, resp_body) ← http_send_mem c req;
          _ ← on_heap (free_str req_str);
          if negb (rc =? 0) then mret (rc, c, None)
          else if negb expect_response then _ ← on_heap (free_str resp_body); mret (0, c, None)
          else
            m ← on_io (of_outcome (match str resp_body with
                                   | Some b => response_id_matches b id
                                   | None => Done AIRY_ERR_PARSE_ERROR
                                   end));
            if m <? 0 then _ ← on_heap (free_str resp_body); mret (AIRY_ERR_PARSE_ERROR, c, None)
            else mret (0, c, resp_body)
      | MCP_CLIENT_TRANSPORT_NONE =>
          _ ← on_heap (free_str req_str); mret (MCP_CLIENT_ERR_NOT_CONNECTED, c, None)
      end
  end.
End exchange.

(** ** Connections own what they made *)

(** What every call relies on and keeps. *)
Definition client_ok (c : client_h) : Prop :=
  (cl_transport (kh_fields c) = MCP_CLIENT_TRANSPORT_HTTP ->
     is_Some (str (kh_host c)) /\ is_Some (str (kh_path c))) /\
  (cl_initialized (kh_fields c) = false -> kh_server_name c = None).

Lemma copy_strings_granted i done_ argv : is_Some (copy_strings (fun _ => true) i done_ argv).2.
Proof.
  revert i done_. induction argv as [|a r IH]; intros i done_; cbn [copy_strings]; [by eexists|].
  cbn [negb]. specialize (IH (S i) (done_ ++ [S i])).
  destruct (copy_strings _ _ _ r) as [ev copies]. cbn in *. destruct IH as [l ->]. by eexists.
Qed.

Lemma copy_argv_granted argv : is_Some (copy_argv (fun _ => true) argv).2.
Proof.
  unfold copy_argv. cbn [negb]. pose proof (copy_strings_granted 0 [] argv) as Hc.
  by destruct (copy_strings _ _ _ argv).
Qed.

Section connect_spec.
Context `{Grants}.

Lemma own_client_eq c :
  own c = own (kh_parser c) ⊎ (own (kh_name c) ⊎ (argv_blocks (kh_argv c) ⊎ (own (kh_host c) ⊎
          (own (kh_path c) ⊎ (own (kh_server_name c) ⊎ own (kh_block c)))))).
Proof. done. Qed.

Lemma spec_free_copies (l : list (addr * bytes)) :
  spec (each (fun e => free (Some (fst e))) l) (own (fst <$> l)) (fun _ Y => Y = ∅).
Proof.
  induction l as [|e l IH]; cbn [each fmap list_fmap]; [by apply spec_ret|].
  eapply spec_step; [apply spec_free_block|apply own_cons|]. intros _ Z ->.
  eapply spec_conseq; [exact IH|apply (left_id_L ∅ (⊎))|done].
Qed.

Lemma spec_free_argv argv : spec (free_argv_mem argv) (argv_blocks argv) (fun _ Y => Y = ∅).
Proof.
  destruct argv as [[p l]|]; cbn [free_argv_mem argv_blocks]; [|by apply spec_ret].
  eapply spec_step; [apply spec_free_copies|done|]. intros _ Z ->.
  eapply spec_conseq; [apply spec_free_block|apply (left_id_L ∅ (⊎))|done].
Qed.

Lemma spec_copy_strings done_ argv :
  spec (copy_strings_mem done_ argv) (own (fst <$> done_)) (fun r Y =>
    match r with
    | Some l => Y = own (fst <$> l) /\ snd <$> l = (snd <$> done_) ++ argv
    | None => Y = ∅ /\ ~ grants
    end).
Proof.
  revert done_. induction argv as [|a argv IH]; intros done_; cbn [copy_strings_mem].
  - apply spec_ret. by rewrite app_nil_r.
  - eapply spec_new; [apply spec_strdup|]. intros [[p s]|] [Hs Hg].
    + eapply spec_conseq; [apply IH| |].
      * rewrite fmap_app, own_app. change (own (Some (p, s))) with (own p). cbn [fmap list_fmap fst].
        rewrite own_cons, own_nil. multiset_solver.
      * intros [l|] Y; [|done]. intros [-> ->]. split; [done|]. rewrite fmap_app, <- app_assoc.
        destruct Hs as [?|Hs]; [done|]. injection Hs as ->. done.
    + eapply (spec_step _ _ _ _ ∅); [apply spec_free_copies|exact (comm_L (⊎) ∅ _)|].
      intros _ Z ->. apply spec_ret. split; [apply (left_id_L ∅ (⊎))|]. intros HG. by specialize (Hg HG).
Qed.

Lemma spec_copy_argv argv :
  spec (copy_argv_mem argv) ∅ (fun r Y => Y = argv_blocks r /\
    match r with Some (_, l) => snd <$> l = argv | None => ~ grants end).
Proof.
  eapply spec_new; [apply spec_malloc|]. intros [p|] Hp.
  2:{ apply spec_ret. split; [done|]. intros Hg. by destruct (Hp Hg). }
  eapply (spec_step _ _ _ ∅ (own p)); [apply (spec_copy_strings [] argv)|exact (comm_L (⊎) _ _)|].
  intros [l|] Z [-> Hl].
  - apply spec_ret. by split.
  - eapply spec_step; [apply spec_free_block|exact (comm_L (⊎) _ _)|]. intros _ Z ->. apply spec_ret.
    split; [apply (left_id_L ∅ (⊎))|done].
Qed.

#[export] Instance destroys_client : Destroys disconnect_mem.
Proof.
  intros c. unfold disconnect_mem.
  eapply (spec_destroy parser_destroy_mem); [apply own_client_eq|].
  eapply (spec_destroy free_str); [reflexivity|].
  eapply spec_step; [apply spec_free_argv|reflexivity|]. intros _ Z ->. rewrite (left_id_L ∅ (⊎)).
  eapply (spec_destroy free_str); [reflexivity|]. eapply (spec_destroy free_str); [reflexivity|].
  eapply (spec_destroy free_str); [reflexivity|]. apply spec_free_block.
Qed.

(** What a connection gives, next to the one on values. *)
Definition connected (v : option mcp_client_s) (r : option client_h) (Y : gmultiset addr) : Prop :=
  Y = own r /\ (forall c, r = Some c -> client_ok c) /\ (grants -> v = erase_client <$> r).

Lemma not_connected v : (grants -> v = None) -> connected v None ∅.
Proof. intros Hv. by split. Qed.

Lemma parse_init_own : own parser_init_mem = ∅.
Proof. apply (left_id_L ∅ (⊎)). Qed.

Lemma spec_connect_stdio to_child from_child child name command argv :
  (forall pid, child = Some pid -> 0 < pid) ->
  spec (connect_stdio_mem to_child from_child child name command argv) ∅
    (connected (mcp_client_connect_stdio (fun _ => true) true to_child from_child (default (-1) child)
                  name command argv).2).
Proof.
  intros Hpid. unfold connect_stdio_mem, mcp_client_connect_stdio.
  destruct (named name) as [n|]; [|by apply spec_ret, not_connected].
  destruct command as [cmd|]; [|by apply spec_ret, not_connected].
  destruct argv as [[|a0 args]|]; [by apply spec_ret, not_connected| |by apply spec_ret, not_connected].
  destruct (copy_argv_granted (a0 :: args)) as [copies ->].
  eapply spec_bind; [apply spec_copy_argv|]. intros [[q l]|] Y [-> Hl].
  2:{ apply spec_ret, not_connected. intros Hg. by destruct (Hl Hg). }
  assert (forall v, (grants -> v = None) ->
    spec (_ ← free_argv_mem (Some (q, l)); mret None) (argv_blocks (Some (q, l))) (connected v)) as Hfail.
  { intros v Hv. eapply spec_bind; [apply spec_free_argv|]. intros _ Y ->. by apply spec_ret, not_connected. }
  destruct to_child as [[tr tw]|]; [|by apply Hfail].
  destruct from_child as [[fr fw]|]; [|by apply Hfail].
  destruct child as [pid|]; [|by apply Hfail]. specialize (Hpid pid eq_refl). cbn [default from_option Datatypes.id].
  rewrite (proj2 (Z.ltb_ge pid 0)), (proj2 (Z.eqb_neq pid 0)) by lia. cbn [negb].
  eapply spec_new; [apply spec_malloc|]. intros [p|] Hp.
  - eapply spec_new; [apply spec_strdup|]. intros nm [_ Hn]. apply spec_ret. split; [|split].
    + rewrite !own_some, own_client_eq. cbn [kh_parser kh_name kh_argv kh_host kh_path kh_server_name kh_block].
      rewrite parse_init_own. change (own (None : hstr)) with (∅ : gmultiset addr). multiset_solver.
    + intros c [= <-]. split; [done|]. done.
    + intros Hg. rewrite <- Hl. cbn [fmap option_fmap option_map]. unfold erase_client. cbn. by rewrite (Hn Hg).
  - eapply spec_conseq; [apply Hfail|exact (left_id_L ∅ (⊎) _)|done]. intros Hg. by destruct (Hp Hg).
Qed.

Lemma spec_connect_http name url :
  spec (connect_http_mem name url) ∅ (connected (mcp_client_connect_http true name url)).
Proof.
  unfold connect_http_mem, mcp_client_connect_http.
  destruct (named name) as [n|]; [|by apply spec_ret, not_connected].
  destruct url as [u|]; [|by apply spec_ret, not_connected].
  destruct (parse_http_url u) as [[[host port] path]|]; [|by apply spec_ret, not_connected].
  eapply spec_new; [apply spec_strdup|]. intros hh [_ Hh]. destruct hh as [[hp hs]|] eqn:Eh.
  2:{ apply spec_ret. rewrite (right_id_L ∅ (⊎)). apply not_connected. intros Hg. by specialize (Hh Hg). }
  rewrite <- Eh. eapply spec_new; [apply spec_strdup|]. intros ph [_ Hp]. destruct ph as [[pp ps]|] eqn:Ep.
  2:{ eapply (spec_destroy free_str hh _ _ ∅); [exact (left_id_L ∅ (⊎) _)|]. apply spec_ret, not_connected. intros Hg. by specialize (Hp Hg). }
  rewrite <- Ep. eapply spec_new; [apply spec_malloc|]. intros [p|] Hm.
  - eapply spec_new; [apply spec_strdup|]. intros nm [_ Hn]. apply spec_ret. split; [|split].
    + rewrite !own_some, own_client_eq. cbn [kh_parser kh_name kh_argv kh_host kh_path kh_server_name kh_block argv_blocks].
      rewrite parse_init_own. change (own (None : hstr)) with (∅ : gmultiset addr). names_blocks.
    + intros c [= <-]. split; [|done]. intros _. rewrite Eh, Ep. by split; eexists.
    + intros Hg. rewrite Eh, Ep in *. cbn [fmap option_fmap option_map]. unfold erase_client. cbn. rewrite (Hn Hg).
      injection (Hh Hg) as ->. injection (Hp Hg) as ->. done.
  - eapply (spec_destroy free_str hh _ _ (own ph)); [change (own (None : option addr)) with (∅ : gmultiset addr); names_blocks|].
    eapply (spec_destroy free_str ph _ _ ∅); [symmetry; apply (right_id_L ∅ (⊎))|].
    apply spec_ret, not_connected. intros Hg. by destruct (Hm Hg).
Qed.
End connect_spec.

(** ** Exchanges follow those on values *)

(** A response, or nothing with an error. *)
Definition body_ok (r : Z * hstr) (Y : gmultiset addr) : Prop :=
  Y = own r.2 /\ (r.2 = None \/ r.1 = 0).

Definition erase_body (r : Z * hstr) : Z * option bytes := (r.1, str r.2).

(** The client a call gives back: its connection and its handshake are those of
    the one it was given. *)
Definition same_client (c c' : client_h) : Prop :=
  client_ok c' /\ cl_transport (kh_fields c') = cl_transport (kh_fields c) /\
  cl_initialized (kh_fields c') = cl_initialized (kh_fields c).

Definition response_ok (c : client_h) (r : Z * client_h * hstr) (Y : gmultiset addr) : Prop :=
  let '(rc, c', out) := r in
  same_client c c' /\ Y = own c' ⊎ own out /\ (out = None \/ rc = 0).

Definition erase_reply (r : Z * client_h * hstr) : Z * mcp_client_s * option bytes :=
  let '(rc, c, out) := r in (rc, erase_client c, str out).

Section exchange_spec.
Context `{Grants} `{AiryErr} `{CJson}.
Implicit Types (c : client_h) (s : io).

Lemma own_parser_change c q :
  exists R, own c = own (kh_parser c) ⊎ R /\ own (c <| kh_parser := q |>) = own q ⊎ R.
Proof. eexists. by split; [apply own_client_eq|]. Qed.

Lemma follows_io_read c timeout_ms s :
  client_ok c ->
  follows (io_read_mem c timeout_ms) s (own c) (io_read (erase_client c) timeout_ms s)
    (fun r Y => response_ok c r Y /\ (r.1.1 = 0 -> is_Some r.2)) erase_reply.
Proof.
  intros Hok. unfold follows, io_read_mem, io_read. cbn [erase_client cl_parser].
  destruct (own_parser_change c parser_init_mem) as (R & HR & _).
  eapply spec_step; [apply spec_stdio_read|apply own_client_eq|]. clear R HR.
  intros [[[[rc q] out] evs]|] Z HZ; apply spec_ret; cbn [loop_ok] in HZ.
  - destruct HZ as [[-> Hout] Hv]. split; [split; [split; [|split]|]|].
    + by split.
    + rewrite own_client_eq. cbn. names_blocks.
    + destruct out; [by right|by left].
    + cbn. by destruct out.
    + intros Hg. by rewrite (Hv Hg).
  - intros Hg. by rewrite (HZ Hg).
Qed.

Lemma follows_http_response s :
  follows http_response_mem s ∅ (http_read_response s) body_ok erase_body.
Proof.
  unfold follows, http_response_mem, http_read_response.
  eapply spec_bind; [eapply spec_conseq; [apply (spec_http_read (io_reads s) parser_init_mem)|
    symmetry; apply parse_init_own|intros r Y HY; exact HY]|].
  change (erase_parser parser_init_mem) with frame_parser_init.
  intros [[[[rc p] out] evs]|] Y HY; cbn [loop_ok] in HY; [|apply spec_ret; intros Hg; by rewrite (HY Hg)].
  destruct HY as [[-> Hout] Hv]. cbn zeta.
  destruct (Z.eqb_spec rc 0) as [->|Hrc]; cbn [negb].
  2:{ eapply (spec_destroy parser_destroy_mem p); [reflexivity|]. apply spec_ret.
      destruct out; [done|]. split; [by split; [|left]|]. intros Hg. rewrite (Hv Hg). by rewrite (proj2 (Z.eqb_neq _ _)). }
  set (sse := match str (ph_header p) with
    Some h => bool_decide (is_Some (strstr h "text/event-stream"%cs)) | None => false end).
  set (body := match sse, str out with
    | true, Some b => Some (default [] (extract_sse_data (Some b))) | _, _ => str out end).
  assert (grants -> match http_read_frame (io_reads s) frame_parser_init with
    | None => Blocked
    | Some (rc, p, out_body, evs) =>
        let s := s <| io_reads := evs |> in
        if negb (rc =? 0) then Ret (rc, out_body) s
        else
          let is_sse := match fp_header_text p with
                        | Some h => bool_decide (is_Some (strstr h "text/event-stream"%cs))
                        | None => false
                        end in
          match is_sse, out_body with
          | true, Some b => Ret (0, Some (default [] (extract_sse_data (Some b)))) s
          | _, _ => Ret (0, out_body) s
          end
    end = Ret (0, body) (s <| io_reads := evs |>)) as Hpure.
  { intros Hg. rewrite (Hv Hg). cbn. fold sse. unfold body. by destruct sse, (str out). }
  eapply (spec_step _ _ _ (own out) (own p) (fun r Y => Y = own r /\ (grants -> str r = body))).
  - unfold body. destruct sse; [|by apply spec_ret]. destruct (str out) as [b|] eqn:Hb; [|by apply spec_ret].
    eapply spec_new; [apply spec_strdup_opt|]. intros data [_ Hd].
    eapply (spec_destroy free_str out); [apply (comm_L (⊎))|]. destruct data as [[q t]|].
    + apply spec_ret. split; [done|]. intros Hg. by rewrite <- (Hd Hg).
    + eapply spec_conseq; [apply spec_strdup|done|]. intros r Y [-> [_ Hr]]. split; [done|].
      intros Hg. by rewrite <- (Hd Hg), (Hr Hg).
  - apply (comm_L (⊎)).
  - intros r Z [-> Hr]. eapply (spec_destroy parser_destroy_mem p); [apply (comm_L (⊎))|].
    apply spec_ret. split; [by split; [|right]|]. intros Hg.
    refine (eq_trans (Hpure Hg) _). unfold erase_body. by rewrite <- (Hr Hg).
Qed.

Lemma follows_http_send c body s :
  client_ok c -> cl_transport (kh_fields c) = MCP_CLIENT_TRANSPORT_HTTP ->
  follows (http_send_mem c body) s ∅ (http_send_message (erase_client c) body s) body_ok erase_body.
Proof.
  intros [Hok _] Ht. destruct (Hok Ht) as [[host Hh] [path Hp]].
  unfold http_send_mem, http_send_message. apply follows_io. intros ok s1.
  destruct ok; cbn [negb]; [|apply follows_ret; [by split; [|left]|done]].
  rewrite Hh, Hp. replace (cl_http_host (erase_client c)) with host by (cbn; by rewrite Hh).
  replace (cl_http_path (erase_client c)) with path by (cbn; by rewrite Hp). cbn zeta.
  eapply follows_new; [apply spec_malloc|]. intros [req|] Hreq.
  2:{ apply follows_refused; [by split; [|left]|]. intros Hg. by destruct (Hreq Hg). }
  apply follows_io. intros rc s2. eapply (follows_free free (Some req)); [reflexivity|].
  destruct (rc =? 0); cbn [negb]; [apply follows_http_response|].
  apply follows_ret; [by split; [|left]|done].
Qed.

Lemma same_client_refl c : client_ok c -> same_client c c.
Proof. by split. Qed.

Lemma same_client_ok c c' : same_client c c' -> client_ok c'.
Proof. by intros [? _]. Qed.

Lemma response_ok_trans c c' r Y : same_client c c' -> response_ok c' r Y -> response_ok c r Y.
Proof.
  destruct r as [[rc c''] out]. intros (_ & Ht & Hi) [(Hok & Ht' & Hi') Hr].
  split; [|done]. split; [done|]. by rewrite Ht', Hi'.
Qed.

(** A call that answers with a code only. *)
Lemma follows_code c rc s (p : res (Z * mcp_client_s * option bytes)) :
  client_ok c -> (grants -> p = Ret (rc, erase_client c, None) s) ->
  follows (mret (rc, c, None)) s (own c) p (response_ok c) erase_reply.
Proof.
  intros Hok Hp. apply follows_ret; [|done]. split; [by apply same_client_refl|].
  rewrite own_str_none, (right_id_L ∅ (⊎)). by split; [|left].
Qed.

Lemma follows_rpc_wait fuel c id deadline s :
  client_ok c ->
  follows (rpc_wait_mem fuel c id deadline) s (own c) (rpc_wait fuel (erase_client c) id deadline s)
    (response_ok c) erase_reply.
Proof.
  revert c s. induction fuel as [|f IH]; intros c s Hok; cbn [rpc_wait_mem rpc_wait]; [by apply spec_ret|].
  apply follows_io. intros now s1. destruct (_ <=? 0); [by apply follows_code|].
  eapply follows_bind; [by apply follows_io_read|symmetry; apply (right_id_L ∅ (⊎))|].
  intros [[rc c1] frame] s2 Z [(Hsame & -> & Hout) Hframe]. rewrite (right_id_L ∅ (⊎)).
  cbn [fst snd] in Hframe. cbn [erase_reply].
  pose proof (same_client_ok _ _ Hsame) as Hok1.
  destruct (Z.eqb_spec rc 0) as [->|Hrc]; cbn [negb].
  2:{ destruct Hout as [->|?]; [|done]. apply follows_ret; [|done]. split; [done|]. by split; [|left]. }
  specialize (Hframe eq_refl) as [e ->]. cbn zeta. apply follows_io. intros m s3.
  destruct (m =? 1).
  - apply follows_ret; [|done]. split; [done|]. by split; [|right].
  - eapply (follows_free free_str (Some e)); [apply (comm_L (⊎))|].
    destruct (m <? 0).
    + eapply follows_conseq; [by apply follows_code|done|]. intros r Y. by apply response_ok_trans.
    + eapply follows_conseq; [by apply IH|done|]. intros r Y. by apply response_ok_trans.
Qed.

Lemma own_request_id c id : own (c <| kh_fields ::= (fun f => f <| cl_request_id := id |>) |>) = own c.
Proof. done. Qed.

(** Without a response to expect, none is handed out. *)
Definition exchange_ok (expect : bool) c (r : Z * client_h * hstr) (Y : gmultiset addr) : Prop :=
  response_ok c r Y /\ (expect = false -> r.2 = None).

Lemma follows_answer expect c rc s (p : res (Z * mcp_client_s * option bytes)) :
  client_ok c -> (grants -> p = Ret (rc, erase_client c, None) s) ->
  follows (mret (rc, c, None)) s (own c) p (exchange_ok expect c) erase_reply.
Proof.
  intros Hok Hp. apply follows_ret; [|done]. split; [|done]. split; [by apply same_client_refl|].
  rewrite own_str_none, (right_id_L ∅ (⊎)). by split; [|left].
Qed.

Lemma follows_rpc_exchange c method params expect s :
  client_ok c ->
  follows (rpc_exchange_mem c method params expect) s (own c)
    (client_rpc_exchange (erase_client c) method params expect s) (exchange_ok expect c) erase_reply.
Proof.
  intros Hok. unfold rpc_exchange_mem, client_rpc_exchange. cbn zeta.
  change (cl_request_id (erase_client c)) with (cl_request_id (kh_fields c)).
  set (id := u64 (cl_request_id (kh_fields c) + 1)).
  set (c1 := c <| kh_fields ::= (fun f => f <| cl_request_id := id |>) |>).
  change ((erase_client c) <| cl_request_id := id |>) with (erase_client c1).
  assert (client_ok c1) as Hok1 by exact Hok.
  assert (same_client c c1) as Hsame by by split.
  change (own c) with (own c1).
  assert (forall r Y, exchange_ok expect c1 r Y -> exchange_ok expect c r Y) as Htrans
    by (intros r Y [??]; split; [by eapply response_ok_trans|done]).
  eapply follows_new; [apply spec_strdup_opt|]. intros req_str [Hreq Hg].
  destruct req_str as [[q req]|].
  2:{ eapply follows_conseq; [apply follows_answer; [done|]|exact (left_id_L ∅ (⊎) _)|exact Htrans].
      intros HG. by rewrite <- (Hg HG). }
  destruct Hreq as [?|Hreq]; [done|]. rewrite <- Hreq. cbn [str fmap option_fmap option_map snd].
  change (cl_transport (erase_client c1)) with (cl_transport (kh_fields c1)).
  eapply follows_conseq; [|reflexivity|exact Htrans].
  destruct (cl_transport (kh_fields c1)) eqn:Ht.
  - eapply (follows_free free_str (Some (q, req))); [reflexivity|]. by apply follows_answer.
  - apply follows_io. intros rc s1. eapply (follows_free free_str (Some (q, req))); [reflexivity|].
    destruct (rc =? 0); cbn [negb]; [|by apply follows_answer].
    destruct expect; cbn [negb]; [|by apply follows_answer].
    apply follows_io. intros now s2.
    eapply follows_conseq; [by apply follows_rpc_wait|done|by intros r Y; split].
  - eapply (follows_bind _ _ _ ∅ (own (Some (q, req) : hstr) ⊎ own c1)); [by apply follows_http_send|symmetry; apply (left_id_L ∅ (⊎))|].
    intros [rc body] s1 Z [-> Hbody]. cbn [erase_body fst snd] in *.
    eapply (follows_free free_str (Some (q, req)) _ _ _ (own body ⊎ own c1)); [names_blocks|].
    destruct (Z.eqb_spec rc 0) as [->|Hrc]; cbn [negb].
    2:{ destruct Hbody as [->|?]; [|done].
        eapply follows_conseq; [by apply follows_answer|exact (left_id_L ∅ (⊎) _)|done]. }
    destruct expect; cbn [negb].
    2:{ eapply (follows_free free_str body); [reflexivity|]. by apply follows_answer. }
    apply follows_io. intros m s2. destruct (m <? 0).
    + eapply (follows_free free_str body); [reflexivity|]. by apply follows_answer.
    + apply follows_ret; [|done]. split; [|done]. split; [by apply same_client_refl|].
      split; [apply (comm_L (⊎))|by right].
Qed.
End exchange_spec.

(** ** The handshake and the tools *)

Section tools.
Context `{AiryErr} `{CJson}.

(** The name of the server is stored over what was there. *)
Definition parse_initialize_mem (c : client_h) (resp : bytes) : mem (Z * client_h) :=
  match cJSON_Parse resp with
  | None => mret (AIRY_ERR_PARSE_ERROR, c)
  | Some root =>
      if cJSON_IsObject (cJSON_GetObjectItem root "error"%cs) then mret (MCP_CLIENT_ERR_RPC_ERROR, c)
      else match cJSON_GetObjectItem root "result"%cs with
           | Some result =>
               if negb (cJSON_IsObject (Some result)) then mret (AIRY_ERR_PARSE_ERROR, c)
               else match cJSON_GetObjectItem result "serverInfo"%cs with
                    | Some si =>
                        if cJSON_IsObject (Some si) then
                          match json_string (cJSON_GetObjectItem si "name"%cs) with
                          | Some sn =>
                              server_name ← strdup sn;
                              mret (0, c <| kh_server_name := server_name |>)
                          | None => mret (0, c)
                          end
                        else mret (0, c)
                    | None => mret (0, c)
                    end
           | None => mret (AIRY_ERR_PARSE_ERROR, c)
           end
  end.

Definition ensure_initialized_mem (c : client_h) : hio (Z * client_h) :=
  if cl_initialized (kh_fields c) then mret (0, c)
  else
    '(rc, c, resp) ← rpc_exchange_mem c "initialize"%cs (Some initialize_params) true;
    if negb (rc =? 0) then mret (rc, c)
    else
      '(rc, c) ← on_heap (parse_initialize_mem c (default [] (str resp)));
      _ ← on_heap (free_str resp);
      if negb (rc =? 0) then mret (rc, c)
      else
        let c := c <| kh_fields ::= (fun f => f <| cl_initialized := true |>) |> in
        '(_, c, _) ← rpc_exchange_mem c "notifications/initialized"%cs (Some "{}"%cs) false;
        mret (0, c).

Definition parse_tools_mem (resp : bytes) : mem (Z * client_tool_list) :=
  match cJSON_Parse resp with
  | None => mret (AIRY_ERR_PARSE_ERROR, None)
  | Some root =>
      if cJSON_IsObject (cJSON_GetObjectItem root "error"%cs) then mret (MCP_CLIENT_ERR_RPC_ERROR, None)
      else match cJSON_GetObjectItem root "result"%cs with
           | Some result =>
               if negb (cJSON_IsObject (Some result)) then mret (AIRY_ERR_PARSE_ERROR, None)
               else match cJSON_GetObjectItem result "tools"%cs with
                    | Some tools =>
                        if cJSON_IsArray (Some tools) then client_tool_list_mem tools
                        else mret (AIRY_ERR_PARSE_ERROR, None)
                    | None => mret (AIRY_ERR_PARSE_ERROR, None)
                    end
           | None => mret (AIRY_ERR_PARSE_ERROR, None)
           end
  end.

Definition list_tools_mem (c : client_h) : hio (Z * client_h * client_tool_list) :=
  match cl_transport (kh_fields c) with
  | MCP_CLIENT_TRANSPORT_NONE => mret (MCP_CLIENT_ERR_NOT_CONNECTED, c, None)
  | _ =>
      '(rc, c) ← ensure_initialized_mem c;
      if negb (rc =? 0) then mret (rc, c, None)
      else
        '(rc, c, resp) ← rpc_exchange_mem c "tools/list"%cs (Some "{}"%cs) true;
        if negb (rc =? 0) then mret (rc, c, None)
        else
          '(rc, tools) ← on_heap (parse_tools_mem (default [] (str resp)));
          _ ← on_heap (free_str resp);
          mret (rc, c, tools)
  end.

Definition call_tool_mem (c : client_h) (name : bytes) (arguments_json : option bytes)
    : hio (Z * client_h * hstr) :=
  match cl_transport (kh_fields c) with
  | MCP_CLIENT_TRANSPORT_NONE => mret (MCP_CLIENT_ERR_NOT_CONNECTED, c, None)
  | _ =>
      '(rc, c) ← ensure_initialized_mem c;
      if negb (rc =? 0) then mret (rc, c, None)
      else
        params_str ← on_heap (strdup_opt (cJSON_PrintUnformatted (call_params name arguments_json)));
        match str params_str with
        | None => mret (AIRY_ERR_OUT_OF_MEMORY, c, None)
        | Some params =>
            '(rc, c, result) ← rpc_exchange_mem c "tools/call"%cs (Some params) true;
            _ ← on_heap (free_str params_str);
            mret (rc, c, result)
        end
  end.

(** The text is allocated last; nothing is left to do when it is refused. *)
Definition extract_text_mem (response_json : option bytes) : mem (Z * hstr) :=
  let '(rc, text) := mcp_client_extract_text response_json in
  match text with
  | None => mret (rc, None)
  | Some t =>
      text_json ← strdup t;
      mret (match text_json with Some _ => 0 | None => AIRY_ERR_OUT_OF_MEMORY end, text_json)
  end.
End tools.

Section tools_spec.
Context `{Grants} `{AiryErr} `{CJson}.
Implicit Types (c : client_h) (s : io).

(** A code and the client. *)
Definition code_ok (r : Z * client_h) (Y : gmultiset addr) : Prop := client_ok r.2 /\ Y = own r.2.
Definition erase_code (r : Z * client_h) : Z * mcp_client_s := (r.1, erase_client r.2).

Lemma spec_parse_initialize c resp :
  kh_server_name c = None ->
  spec (parse_initialize_mem c resp) (own c) (fun r Y =>
    Y = own r.2 /\ (client_ok c -> r.1 <> 0 -> client_ok r.2) /\
    (client_ok c -> client_ok (r.2 <| kh_fields ::= (fun f => f <| cl_initialized := true |>) |>)) /\
    (grants -> parse_initialize_response (erase_client c) resp = erase_code r)).
Proof.
  intros Hs. unfold parse_initialize_mem, parse_initialize_response.
  assert (client_ok c -> client_ok (c <| kh_fields ::= (fun f => f <| cl_initialized := true |>) |>)) as Hinit
    by (intros [Ht _]; by split).
  repeat (case_match; try by apply spec_ret).
  eapply spec_new; [apply spec_strdup|]. intros name [_ Hn]. apply spec_ret. split; [|split; [|split]].
  - cbn [snd]. rewrite !own_client_eq, Hs. cbn. change (own (None : hstr)) with (∅ : gmultiset addr). names_blocks.
  - by intros _ [].
  - intros [Ht _]. by split.
  - intros Hg. unfold erase_code, erase_client. cbn. by rewrite (Hn Hg).
Qed.

Lemma follows_ensure_initialized c s :
  client_ok c ->
  follows (ensure_initialized_mem c) s (own c) (client_ensure_initialized (erase_client c) s)
    code_ok erase_code.
Proof.
  intros Hok. unfold ensure_initialized_mem, client_ensure_initialized.
  change (cl_initialized (erase_client c)) with (cl_initialized (kh_fields c)).
  destruct (cl_initialized (kh_fields c)) eqn:Hi; [by apply follows_ret|].
  eapply follows_bind; [by apply follows_rpc_exchange|symmetry; apply (right_id_L ∅ (⊎))|].
  intros [[rc c1] resp] s1 Z [(Hsame & -> & Hout) _]. rewrite (right_id_L ∅ (⊎)). cbn [erase_reply].
  destruct Hsame as (Hok1 & _ & Hi1). rewrite Hi in Hi1.
  destruct (Z.eqb_spec rc 0) as [->|Hrc]; cbn [negb].
  2:{ destruct Hout as [->|?]; [|done]. apply follows_ret; [|done]. split; [done|].
      autorewrite with own. apply (right_id_L ∅ (⊎)). }
  eapply follows_heap; [apply spec_parse_initialize, Hok1, Hi1|reflexivity|].
  intros [rc c2] Z (-> & Herr & Hgood & Hv). cbn [fst snd] in *.
  eapply (follows_free free_str resp); [apply (comm_L (⊎))|].
  eapply follows_pure; [|intros Hg; rewrite (Hv Hg); reflexivity]. cbn [erase_code fst snd].
  destruct (Z.eqb_spec rc 0) as [->|Hrc]; cbn [negb]; [|apply follows_ret; [split; [by apply Herr|done]|done]].
  specialize (Hgood Hok1). set (c3 := c2 <| kh_fields ::= (fun f => f <| cl_initialized := true |>) |>) in *.
  change ((erase_client c2) <| cl_initialized := true |>) with (erase_client c3).
  change (own c2) with (own c3). cbn zeta.
  eapply follows_bind; [by apply follows_rpc_exchange|symmetry; apply (right_id_L ∅ (⊎))|].
  intros [[rc c4] out] s2 Z [((Hok4 & _) & -> & _) Hnone]. cbn [snd] in Hnone. rewrite (Hnone eq_refl).
  apply follows_ret; [|done]. split; [done|]. autorewrite with own. by rewrite !(right_id_L ∅ (⊎)).
Qed.

(** A list of tools or nothing, and the client. *)
Definition tools_ok (r : Z * client_h * client_tool_list) (Y : gmultiset addr) : Prop :=
  let '(rc, c, tools) := r in client_ok c /\ Y = own c ⊎ own tools.

Definition tools_of (l : client_tool_list) : list mcp_client_tool_t :=
  erase_client_tool <$> from_option snd [] l.

Definition erase_tools (r : Z * client_h * client_tool_list)
    : Z * option mcp_client_s * list mcp_client_tool_t :=
  let '(rc, c, tools) := r in (rc, Some (erase_client c), tools_of tools).

Lemma spec_parse_tools resp :
  spec (parse_tools_mem resp) ∅ (fun r Y =>
    Y = own r.2 /\ (grants -> parse_tools resp = (r.1, tools_of r.2))).
Proof.
  unfold parse_tools_mem, parse_tools. repeat (case_match; try by apply spec_ret).
  eapply spec_conseq; [apply spec_client_tool_list|done|]. intros [rc l] Y (-> & _ & Hv).
  split; [done|]. intros Hg. destruct (Hv Hg) as [Hrc Hl]. cbn [fst snd] in *. unfold tools_of. by rewrite Hrc, Hl.
Qed.

Lemma follows_no_tools c rc s (p : res (Z * option mcp_client_s * list mcp_client_tool_t)) :
  client_ok c -> (grants -> p = Ret (rc, Some (erase_client c), []) s) ->
  follows (mret (rc, c, None)) s (own c) p tools_ok erase_tools.
Proof.
  intros Hok Hp. apply follows_ret; [|done]. split; [done|]. autorewrite with own.
  symmetry. apply (right_id_L ∅ (⊎)).
Qed.

(** Both transports run the same code. *)
Lemma follows_transport {A B} t (m0 m : hio A) (p0 p : IO B) s X Q V :
  follows m0 s X (p0 s) Q V -> follows m s X (p s) Q V ->
  follows (match t with
           | MCP_CLIENT_TRANSPORT_NONE => m0
           | MCP_CLIENT_TRANSPORT_STDIO => m
           | MCP_CLIENT_TRANSPORT_HTTP => m
           end) s X
    ((match t with
      | MCP_CLIENT_TRANSPORT_NONE => p0
      | MCP_CLIENT_TRANSPORT_STDIO => p
      | MCP_CLIENT_TRANSPORT_HTTP => p
      end) s) Q V.
Proof. by destruct t. Qed.

Lemma follows_list_tools c s :
  client_ok c ->
  follows (list_tools_mem c) s (own c) (mcp_client_list_tools (Some (erase_client c)) true s)
    tools_ok erase_tools.
Proof.
  intros Hok. apply follows_transport; [by apply follows_no_tools|].
  eapply follows_bind; [by apply follows_ensure_initialized|symmetry; apply (right_id_L ∅ (⊎))|].
  intros [rc c1] s1 Z [Hok1 ->]. rewrite (right_id_L ∅ (⊎)). cbn [erase_code fst snd] in *.
  destruct (rc =? 0); cbn [negb]; [|by apply follows_no_tools].
  eapply follows_bind; [by apply follows_rpc_exchange|symmetry; apply (right_id_L ∅ (⊎))|].
  intros [[rc2 c2] resp] s2 Z [((Hok2 & _) & -> & Hresp) _]. rewrite (right_id_L ∅ (⊎)). cbn [erase_reply].
  destruct (Z.eqb_spec rc2 0) as [->|Hrc]; cbn [negb].
  2:{ destruct Hresp as [->|?]; [|done].
      eapply follows_conseq; [by apply follows_no_tools|autorewrite with own; apply (right_id_L ∅ (⊎))|done]. }
  eapply (follows_heap _ _ _ _ ∅); [apply spec_parse_tools|symmetry; apply (left_id_L ∅ (⊎))|].
  intros [rc3 tools] Z [-> Hv]. cbn [fst snd] in *.
  eapply (follows_free free_str resp _ _ _ (own c2 ⊎ own tools)); [names_blocks|].
  eapply follows_pure; [|intros Hg; rewrite (Hv Hg); reflexivity]. by apply follows_ret.
Qed.

Lemma follows_call_tool c name args s :
  client_ok c ->
  follows (call_tool_mem c name args) s (own c)
    (mcp_client_call_tool (Some (erase_client c)) (Some name) args true s)
    (fun r Y => client_ok r.1.2 /\ Y = own r.1.2 ⊎ own r.2)
    (fun r => (r.1.1, Some (erase_client r.1.2), str r.2)).
Proof.
  intros Hok. assert (forall rc c s p, client_ok c -> (grants -> p = Ret (rc, Some (erase_client c), None) s) ->
    follows (mret (rc, c, None)) s (own c) p
      (fun r Y => client_ok r.1.2 /\ Y = own r.1.2 ⊎ own r.2)
      (fun r : Z * client_h * hstr => (r.1.1, Some (erase_client r.1.2), str r.2))) as Hcode.
  { intros rc c0 s0 p Hok0 Hp. apply follows_ret; [|done]. split; [done|]. symmetry. exact (right_id_L ∅ (⊎) _). }
  apply follows_transport; [by apply Hcode|].
  eapply follows_bind; [by apply follows_ensure_initialized|symmetry; apply (right_id_L ∅ (⊎))|].
  intros [rc c1] s1 Z [Hok1 ->]. rewrite (right_id_L ∅ (⊎)). cbn [erase_code fst snd] in *.
  destruct (rc =? 0); cbn [negb]; [|by apply Hcode].
  eapply follows_new; [apply spec_strdup_opt|]. intros params [Hparams Hg].
  destruct (str params) as [t|] eqn:Ht.
  2:{ destruct params as [[]|]; [done|].
      eapply follows_conseq; [apply Hcode; [done|]|exact (left_id_L ∅ (⊎) _)|done].
      intros HG. by rewrite <- (Hg HG). }
  destruct Hparams as [?|Hparams]; [done|]. rewrite <- Hparams.
  eapply follows_bind; [by apply follows_rpc_exchange|apply (comm_L (⊎))|].
  intros [[rc2 c2] result] s2 Z [((Hok2 & _) & -> & Hresult) _]. cbn [erase_reply].
  eapply (follows_free free_str params _ _ _ (own c2 ⊎ own result)); [names_blocks|].
  by apply follows_ret.
Qed.

Lemma spec_extract_text response :
  spec (extract_text_mem response) ∅ (fun r Y =>
    Y = own r.2 /\ (grants -> str r.2 = (mcp_client_extract_text response).2)).
Proof.
  unfold extract_text_mem. destruct (mcp_client_extract_text response) as [rc [t|]]; [|by apply spec_ret].
  eapply spec_bind; [apply spec_strdup|]. intros text Y [-> [_ Ht]]. by apply spec_ret.
Qed.
End tools_spec.

(** ** The life of a client *)

(** A connection: a program with its pipes and process, or an address. *)
Inductive connection :=
| ViaStdio (to_child from_child : option (Z * Z)) (child : option Z) (name command : option bytes)
    (argv : option (list bytes))
| ViaHttp (name url : option bytes).

(** [fork] gives the parent a positive number. *)
Definition connection_ok (v : connection) : Prop :=
  match v with ViaStdio _ _ (Some pid) _ _ _ => 0 < pid | _ => True end.

(** One call; the caller reads what it is handed and releases it. *)
Inductive client_op :=
| ClListTools
| ClCallTool (name : bytes) (arguments_json : option bytes).

(** The code, the tools, the response and the text in it. *)
Definition client_reply : Type := Z * list mcp_client_tool_t * option bytes * option bytes.

Section client_life.
Context `{AiryErr} `{CJson}.

Definition connect_mem (v : connection) : mem (option client_h) :=
  match v with
  | ViaStdio to_child from_child child name command argv =>
      connect_stdio_mem to_child from_child child name command argv
  | ViaHttp name url => connect_http_mem name url
  end.

Definition client_step (op : client_op) (c : client_h) : hio (client_reply * client_h) :=
  match op with
  | ClListTools =>
      '(rc, c, tools) ← list_tools_mem c;
      _ ← on_heap (mcp_client_tool_list_free tools);
      mret (rc, tools_of tools, None, None, c)
  | ClCallTool name args =>
      '(rc, c, result) ← call_tool_mem c name args;
      '(_, text) ← on_heap (extract_text_mem (str result));
      _ ← on_heap (free_str result);
      _ ← on_heap (free_str text);
      mret (rc, [], str result, str text, c)
  end.

Fixpoint client_run (ops : list client_op) (c : client_h) : hio (list client_reply * client_h) :=
  match ops with
  | [] => mret ([], c)
  | op :: r =>
      '(reply, c) ← client_step op c;
      '(replies, c) ← client_run r c;
      mret (reply :: replies, c)
  end.

(** Connecting, making calls and disconnecting; null without a connection. *)
Definition client_life (v : connection) (ops : list client_op) : hio (option (list client_reply)) :=
  c ← on_heap (connect_mem v);
  match c with
  | None => mret None
  | Some c =>
      '(replies, c) ← client_run ops c;
      _ ← on_heap (disconnect_mem c);
      mret (Some replies)
  end.

(** The same calls on values. *)
Definition client_value_connect (v : connection) : option mcp_client_s :=
  match v with
  | ViaStdio to_child from_child child name command argv =>
      (mcp_client_connect_stdio (fun _ => true) true to_child from_child (default (-1) child)
         name command argv).2
  | ViaHttp name url => mcp_client_connect_http true name url
  end.

Definition client_value_step (op : client_op) (c : mcp_client_s) : IO (client_reply * mcp_client_s) :=
  match op with
  | ClListTools =>
      '(rc, c', tools) ← mcp_client_list_tools (Some c) true;
      mret (rc, tools, None, None, default c c')
  | ClCallTool name args =>
      '(rc, c', result) ← mcp_client_call_tool (Some c) (Some name) args true;
      mret (rc, [], result, (mcp_client_extract_text result).2, default c c')
  end.

Fixpoint client_value_run (ops : list client_op) (c : mcp_client_s)
    : IO (list client_reply * mcp_client_s) :=
  match ops with
  | [] => mret ([], c)
  | op :: r =>
      '(reply, c) ← client_value_step op c;
      '(replies, c) ← client_value_run r c;
      mret (reply :: replies, c)
  end.

Definition client_value_life (v : connection) (ops : list client_op) : IO (option (list client_reply)) :=
  match client_value_connect v with
  | None => mret None
  | Some c => '(replies, _) ← client_value_run ops c; mret (Some replies)
  end.
End client_life.

Section client_life_spec.
Context `{Grants} `{AiryErr} `{CJson}.
Implicit Types (c : client_h) (s : io).

Definition step_kept {A} (r : A * client_h) (Y : gmultiset addr) : Prop := client_ok r.2 /\ Y = own r.2.
Definition erase_step {A} (r : A * client_h) : A * mcp_client_s := (r.1, erase_client r.2).

Lemma follows_client_step op c s :
  client_ok c ->
  follows (client_step op c) s (own c) (client_value_step op (erase_client c) s) step_kept erase_step.
Proof.
  intros Hok. destruct op as [|name args]; cbn [client_step client_value_step].
  - eapply follows_bind; [by apply follows_list_tools|symmetry; apply (right_id_L ∅ (⊎))|].
    intros [[rc c1] tools] s1 Z [Hok1 ->]. rewrite (right_id_L ∅ (⊎)).
    eapply (follows_free mcp_client_tool_list_free tools); [apply (comm_L (⊎))|]. by apply follows_ret.
  - eapply follows_bind; [by apply follows_call_tool|symmetry; apply (right_id_L ∅ (⊎))|].
    intros [[rc c1] result] s1 Z [Hok1 ->]. rewrite (right_id_L ∅ (⊎)). cbn [fst snd] in *.
    eapply (follows_heap _ _ _ _ ∅); [apply spec_extract_text|symmetry; apply (left_id_L ∅ (⊎))|].
    intros [trc text] Z [-> Ht]. cbn [snd] in *.
    eapply (follows_free free_str result _ _ _ (own text ⊎ own c1)); [names_blocks|].
    eapply (follows_free free_str text); [reflexivity|]. apply follows_ret; [done|].
    intros Hg. unfold erase_step. cbn. by rewrite (Ht Hg).
Qed.

Lemma follows_client_run ops c s :
  client_ok c ->
  follows (client_run ops c) s (own c) (client_value_run ops (erase_client c) s) step_kept erase_step.
Proof.
  revert c s. induction ops as [|op ops IH]; intros c s Hok; cbn [client_run client_value_run]; [by apply follows_ret|].
  eapply follows_bind; [by apply follows_client_step|symmetry; apply (right_id_L ∅ (⊎))|].
  intros [reply c1] s1 Z [Hok1 ->]. rewrite (right_id_L ∅ (⊎)). cbn [erase_step fst snd] in *.
  eapply follows_bind; [by apply IH|symmetry; apply (right_id_L ∅ (⊎))|].
  intros [replies c2] s2 Z [Hok2 ->]. rewrite (right_id_L ∅ (⊎)). by apply follows_ret.
Qed.

Lemma follows_client_life v ops s :
  connection_ok v ->
  follows (client_life v ops) s ∅ (client_value_life v ops s) (fun _ Y => Y = ∅) Datatypes.id.
Proof.
  intros Hv. unfold client_life, client_value_life.
  eapply (follows_heap _ _ _ ∅ ∅ ∅ _ (connected (client_value_connect v)));
    [|symmetry; apply (right_id_L ∅ (⊎))|].
  { destruct v as [tc fc child name cmd argv|name url]; [|apply spec_connect_http].
    apply spec_connect_stdio. intros pid ->. exact Hv. }
  intros [c|] Z (-> & Hok & Hc); rewrite (right_id_L ∅ (⊎)).
  2:{ apply follows_ret; [done|]. intros Hg. by rewrite (Hc Hg). }
  eapply follows_pure; [|intros Hg; rewrite (Hc Hg); reflexivity]. cbn [fmap option_fmap option_map].
  change (own (Some c)) with (own c).
  eapply follows_bind; [by apply follows_client_run, Hok|symmetry; apply (right_id_L ∅ (⊎))|].
  intros [replies c1] s1 Z [_ ->]. rewrite (right_id_L ∅ (⊎)). cbn [erase_step fst snd].
  eapply (follows_free disconnect_mem c1); [symmetry; apply (right_id_L ∅ (⊎))|]. by apply follows_ret.
Qed.
End client_life_spec.


(** A server with one tool, answered over pipes in three frames. *)
Definition sample_answers : list read_event :=
  RData (frame_of "{'id':1,'result':{'serverInfo':{'name':'srv'}}}"%cs) ::
  RData (frame_of "{'id':3,'result':{'tools':[{'name':'echo'}]}}"%cs) ::
  RData (frame_of "{'id':4,'result':{'content':[{'type':'text','text':'hi'}]}}"%cs) :: [].

Definition sample_script : io :=
  mkIo (repeat (WWrote 4096) 8) sample_answers [] (seqZ 5 9) [].

Definition sample_connection : connection :=
  ViaStdio (Some (3, 4)) (Some (5, 6)) (Some 77) (Some "c"%cs) (Some "server"%cs) (Some ["server"%cs; "-v"%cs]).


Example client_life_run :
  match @client_life inst_err inst_cjson sample_connection [ClListTools; ClCallTool "echo"%cs None]
          sample_script (heap_init (fun _ => true)) with
  | Done (HRet (Some [(rc, tools, _, _); (rc', _, _, text)]) _, h') =>
      rc = 0 /\ (ct_name <$> tools) = ["echo"%cs] /\ rc' = 0 /\ text = Some "'hi'"%cs /\ elements (hp_live h') = []
  | _ => False
  end.
Proof. vm_compute. done. Qed.

(** The copy of the second response is refused: the call gives up with the code
    of a failed allocation, and nothing stays behind. *)
Example client_life_refused_run :
  match @client_life inst_err inst_cjson sample_connection [ClListTools]
          sample_script (heap_init (fun p => negb (p =? 13)%nat)) with
  | Done (HRet (Some [(rc, tools, _, _)]) _, h') =>
      (rc, tools) = (@AIRY_ERR_OUT_OF_MEMORY inst_err, []) /\ elements (hp_live h') = []
  | _ => False
  end.
Proof. vm_compute. done. Qed.
