(* ===== verification/ServerMem.v ===== *)
(** * Memory of the MCP server's requests: standards/mcp/src/mcp_v1_adapter_{tool,resource,prompt,route,sampling,stream,cb}.c

    The request handlers of [McpServer] and [McpCb] over the heap of [Heap]:
    the response buffers, the escaped copies the loops print and release, the
    results the handlers hand over, and the events of the streaming calls.
    Handlers are not part of the library; what they hand over is a parameter. *)

From S2P Require Export McpMem McpCb.
From S2P Require Import EnvInst.
#[local] Open Scope Z_scope.

(** ** What handlers hand over *)

(** [mcp_sampling_message_t] *)
Record smessage_h := mkSMessageH { xh_role : hstr; xh_content : content_array }.

Definition smessage_array : Type := option (addr * list smessage_h).

#[export] Instance own_smessage : Owns smessage_h := fun m => own (xh_role m) ⊎ own (xh_content m).
#[export] Instance own_sampling : Owns sampling_result_h := fun r =>
  own (sh_model r) ⊎ (own (sh_stop_reason r) ⊎ (own (sh_content r) ⊎ own (sh_messages r))).

Definition erase_content (c : content_h) : mcp_content_t :=
  mkContent (ch_type c) (str (ch_text c)) (str (ch_mime_type c)) (str (ch_uri c)) (str (ch_data c))
    (ch_data_size c).

Definition contents_of (a : content_array) : list content_h := from_option snd [] a.

Definition erase_contents (a : content_array) : list mcp_content_t := erase_content <$> contents_of a.

Definition erase_smessage (m : smessage_h) : mcp_sampling_message_t :=
  mkSMessage (str (xh_role m)) ((fun _ => erase_contents (xh_content m)) <$> xh_content m).

Definition messages_of (a : smessage_array) : list smessage_h := from_option snd [] a.

Definition erase_messages (a : smessage_array) : list mcp_sampling_message_t :=
  erase_smessage <$> messages_of a.

(** The allocations of the handlers, by what they mean to hand over. *)
Class Handlers := {
  hand_string : option bytes -> mem hstr;
  hand_contents : list mcp_content_t -> mem content_array;
  hand_messages : list mcp_sampling_message_t -> mem smessage_array;
  hand_sampling : mcp_sampling_result_t -> mem sampling_result_h
}.

(** A refused escape is a null pointer, which prints as 6 characters; an escape
    has at least 2. *)
Definition short_contents (l : list mcp_content_t) : Prop :=
  lenZ l < 2 ^ 32 /\ Forall (fun c => lenZ (content_item c) + 4 < 1024) l.

Definition short_message (m : mcp_sampling_message_t) : Prop :=
  match message_item m with Done t => lenZ t + 8 < 1024 | Fault => False end.

Definition short_messages (l : list mcp_sampling_message_t) : Prop :=
  lenZ l < 2 ^ 32 /\ Forall short_message l.

(** A handler hands over blocks of its own.  What is short is so whatever
    requests are refused; and it is what was meant when none is. *)
Class HandlersOk `{Grants} `{Handlers} : Prop := {
  hand_string_ok s : constructs (hand_string s) (copy_of s);
  hand_contents_ok l : constructs (hand_contents l) (fun a =>
    (short_contents l -> short_contents (erase_contents a)) /\ (grants -> erase_contents a = l));
  hand_messages_ok l : constructs (hand_messages l) (fun a =>
    (short_messages l -> short_messages (erase_messages a)) /\ (grants -> erase_messages a = l));
  hand_sampling_ok r : constructs (hand_sampling r) (fun h => grants ->
    str (sh_model h) = sr_model r /\ str (sh_stop_reason h) = sr_stop_reason r /\
    (fun _ => erase_contents (sh_content h)) <$> sh_content h = sr_content r)
}.

(** ** Printing *)

(** What the C library prints for a string that may be null. *)
Definition printed_str (s : hstr) : bytes := default "(null)"%cs (str s).

Definition escape_mem (s : option bytes) : mem hstr := strdup (json_string_escape s).

Definition print_mem (s : bytes) (b : sbuf) : mem sbuf := lift (sn_put s b).

(** The loop over the entries: a comma before all but the first. *)
Fixpoint items_mem {A} (item : A -> sbuf -> mem sbuf) (first : bool) (l : list A) (b : sbuf) : mem sbuf :=
  match l with
  | [] => mret b
  | a :: r =>
      b ← if first then mret b else print_mem ","%cs b;
      b ← item a b;
      items_mem item false r b
  end.

Definition pieces_mem {A} (size : Z) (header : bytes) (item : A -> sbuf -> mem sbuf) (l : list A)
    : mem bytes :=
  b ← print_mem header (sb_new size);
  b ← items_mem item true l b;
  b ← print_mem "]}"%cs b;
  mret (sb_text b).

(** ** The entries *)

Section requests.
Context {W : Type}.
Implicit Types (x : @mcp_v1_context_t W) (w : W).

Definition tool_item_mem (e : @mcp_tool_entry_t W) (b : sbuf) : mem sbuf :=
  name ← escape_mem (tl_name (te_tool e));
  desc ← escape_mem (tl_description (te_tool e));
  b ← print_mem ("{'name':"%cs ++ printed_str name ++ ",'description':"%cs ++ printed_str desc
                 ++ ",'inputSchema':"%cs ++ default "{}"%cs (tl_input_schema_json (te_tool e))
                 ++ "}"%cs) b;
  _ ← free_str name;
  _ ← free_str desc;
  mret b.

Definition resource_item_mem (e : @mcp_resource_entry_t W) (b : sbuf) : mem sbuf :=
  uri ← escape_mem (rs_uri (rn_resource e));
  name ← escape_mem (rs_name (rn_resource e));
  desc ← escape_mem (rs_description (rn_resource e));
  mime ← escape_mem (rs_mime_type (rn_resource e));
  b ← print_mem ("{'uri':"%cs ++ printed_str uri ++ ",'name':"%cs ++ printed_str name
                 ++ ",'description':"%cs ++ printed_str desc
                 ++ ",'mimeType':"%cs ++ printed_str mime ++ "}"%cs) b;
  _ ← free_str uri;
  _ ← free_str name;
  _ ← free_str desc;
  _ ← free_str mime;
  mret b.

Definition template_item_mem (t : mcp_resource_template_t) (b : sbuf) : mem sbuf :=
  uri ← escape_mem (tp_uri_template t);
  name ← escape_mem (tp_name t);
  desc ← escape_mem (tp_description t);
  b ← print_mem ("{'uriTemplate':"%cs ++ printed_str uri ++ ",'name':"%cs ++ printed_str name
                 ++ ",'description':"%cs ++ printed_str desc ++ "}"%cs) b;
  _ ← free_str uri;
  _ ← free_str name;
  _ ← free_str desc;
  mret b.

Definition prompt_item_mem (e : @mcp_prompt_entry_t W) (b : sbuf) : mem sbuf :=
  name ← escape_mem (pt_name (pe_prompt e));
  desc ← escape_mem (pt_description (pe_prompt e));
  b ← print_mem ("{'name':"%cs ++ printed_str name ++ ",'description':"%cs ++ printed_str desc
                 ++ ",'arguments':"%cs ++ default "[]"%cs (pt_arguments_schema_json (pe_prompt e))
                 ++ "}"%cs) b;
  _ ← free_str name;
  _ ← free_str desc;
  mret b.

Definition content_item_mem (c : content_h) (b : sbuf) : mem sbuf :=
  text_esc ← escape_mem (str (ch_text c));
  b ← print_mem ("{'type':'"%cs ++ mcp_type_str (ch_type c) ++ "','text':"%cs ++ printed_str text_esc
                 ++ "}"%cs) b;
  _ ← free_str text_esc;
  mret b.

Definition message_item_mem (m : smessage_h) (b : sbuf) : mem sbuf :=
  role ← escape_mem (str (xh_role m));
  text ← lift (content_as_string (sm_content (erase_smessage m)));
  content ← escape_mem (Some text);
  b ← print_mem ("{'role':"%cs ++ printed_str role ++ ",'content':{'type':'text','text':'"%cs
                 ++ printed_str content ++ "'}}"%cs) b;
  _ ← free_str role;
  _ ← free_str content;
  mret b.

(** ** The handlers *)

(** The code, what is stored through [response_json] if anything is, and the
    world. *)
Definition reply_h : Type := Z * option hstr * W.

Definition render_list_mem `{AiryErr} {A} (header : bytes) (item : A -> sbuf -> mem sbuf)
    (l : list A) w : mem reply_h :=
  buf ← malloc;
  match buf with
  | None => mret (AIRY_ERR_NULL_POINTER, None, w)
  | Some p => text ← pieces_mem (list_buf_size l) header item l; mret (0, Some (Some (p, text)), w)
  end.

Definition handle_tools_list_mem `{AiryErr} x w : mem reply_h :=
  render_list_mem "{'tools':["%cs tool_item_mem (mx_tools x) w.
Definition handle_resources_list_mem `{AiryErr} x w : mem reply_h :=
  render_list_mem "{'resources':["%cs resource_item_mem (mx_resources x) w.
Definition handle_resources_templates_mem `{AiryErr} x w : mem reply_h :=
  render_list_mem "{'resourceTemplates':["%cs template_item_mem (mx_templates x) w.
Definition handle_prompts_list_mem `{AiryErr} x w : mem reply_h :=
  render_list_mem "{'prompts':["%cs prompt_item_mem (mx_prompts x) w.

(** The results are released on every path. *)
Definition handle_tools_call_mem `{AiryErr} `{Handlers} x (name : bytes) (arguments_json : option bytes) w
    : mem reply_h :=
  found ← lift (find_named (fun e => tl_name (te_tool e)) name (mx_tools x));
  match found with
  | None =>
      name_esc ← escape_mem (Some name);
      resp ← strdup ("{'isError':true,'content':[{'type':'text','text':'Tool not found: "%cs
                     ++ default name (str name_esc) ++ "'}]}"%cs);
      _ ← free_str name_esc;
      mret (AIRY_ERR_INVALID_PARAM, Some resp, w)
  | Some e =>
      match te_handler e with
      | None => fault
      | Some handler =>
          let '(w, (results, is_error)) := handler name arguments_json w in
          results ← hand_contents results;
          let l := contents_of results in
          if (SIZE_MAX - 4096) / 1024 <? lenZ l then
            _ ← mcp_content_destroy results; mret (AIRY_ERR_OVERFLOW, None, w)
          else
            buf ← malloc;
            match buf with
            | None => _ ← mcp_content_destroy results; mret (AIRY_ERR_NULL_POINTER, None, w)
            | Some p =>
                text ← pieces_mem (4096 + lenZ l * 1024)
                         ("{'isError':"%cs ++ bool_text is_error ++ ",'content':["%cs)
                         content_item_mem l;
                _ ← mcp_content_destroy results;
                mret (0, Some (Some (p, text)), w)
            end
      end
  end.

Definition handle_resources_read_mem `{AiryErr} `{Handlers} x (uri : bytes) w : mem reply_h :=
  found ← lift (find_named (fun e => rs_uri (rn_resource e)) uri (mx_resources x));
  match found ≫= rn_handler with
  | None =>
      uri_esc ← escape_mem (Some uri);
      resp ← strdup ("{'contents':[{'uri':"%cs ++ printed_str uri_esc
                     ++ ",'text':'Resource not found'}]}"%cs);
      _ ← free_str uri_esc;
      mret (AIRY_ERR_INVALID_PARAM, Some resp, w)
  | Some handler =>
      let '(w, (content, mime_type)) := handler uri w in
      content ← hand_string content;
      mime_type ← hand_string mime_type;
      uri_esc ← escape_mem (Some uri);
      content_esc ← escape_mem (str content);
      mime_esc ← escape_mem (str mime_type);
      resp ← strdup ("{'contents':[{'uri':"%cs ++ printed_str uri_esc ++ ",'mimeType':"%cs
                     ++ printed_str mime_esc ++ ",'text':"%cs ++ printed_str content_esc ++ "}]}"%cs);
      _ ← free_str uri_esc;
      _ ← free_str content_esc;
      _ ← free_str mime_esc;
      _ ← free_str content;
      _ ← free_str mime_type;
      mret (0, Some resp, w)
  end.

(** The messages are not released, neither here nor by a caller, who does not
    see them. *)
Definition handle_prompts_get_mem `{AiryErr} `{Handlers} x (name : bytes) (arguments_json : option bytes) w
    : mem reply_h :=
  found ← lift (find_named (fun e => pt_name (pe_prompt e)) name (mx_prompts x));
  match found ≫= pe_handler with
  | None =>
      resp ← strdup "{'description':'Prompt not found','messages':[]}"%cs;
      mret (AIRY_ERR_INVALID_PARAM, Some resp, w)
  | Some handler =>
      let '(w, messages) := handler name arguments_json w in
      messages ← hand_messages messages;
      let l := messages_of messages in
      buf ← malloc;
      match buf with
      | None => mret (AIRY_ERR_NULL_POINTER, None, w)
      | Some p =>
          name_esc ← escape_mem (Some name);
          b ← print_mem ("{'description':'Prompt: "%cs ++ printed_str name_esc ++ "','messages':["%cs)
                (sb_new (u64 (4096 + lenZ l * 1024)));
          _ ← free_str name_esc;
          b ← items_mem message_item_mem true (take 100 l) b;
          b ← print_mem "]}"%cs b;
          mret (0, Some (Some (p, sb_text b)), w)
      end
  end.

Definition build_initialize_response_mem x w : mem reply_h :=
  resp ← strdup (init_resp_fill (mx_config x)); mret (0, Some resp, w).

Definition route_method_mem `{AiryErr} `{AiryString} `{CJson} `{Handlers} x (method : bytes)
    (params_json : option bytes) w : mem (reply_h * @mcp_v1_context_t W) :=
  let keep (m : mem reply_h) := r ← m; mret (r, x) in
  let param key size := or_unknown (mcp_v1_extract_string_param params_json key size) in
  if streq method "tools/list"%cs then keep (handle_tools_list_mem x w)
  else if streq method "tools/call"%cs then
    keep (handle_tools_call_mem x (param "name"%cs 256%nat) params_json w)
  else if streq method "resources/list"%cs then keep (handle_resources_list_mem x w)
  else if streq method "resources/read"%cs then
    keep (handle_resources_read_mem x (param "uri"%cs 512%nat) w)
  else if streq method "resources/templates/list"%cs then keep (handle_resources_templates_mem x w)
  else if streq method "prompts/list"%cs then keep (handle_prompts_list_mem x w)
  else if streq method "prompts/get"%cs then
    keep (handle_prompts_get_mem x (param "name"%cs 256%nat) params_json w)
  else if streq method "logging/setLogLevel"%cs then
    let '(rc, x') := mcp_v1_set_log_level (Some x) (mcp_v1_parse_log_level params_json) in
    mret ((rc, None, w), default x x')
  else if streq method "initialize"%cs then keep (build_initialize_response_mem x w)
  else resp ← strdup method_not_found; mret ((AIRY_ERR_INVALID_PARAM, Some resp, w), x).

Definition route_request_mem `{AiryErr} `{AiryString} `{CJson} `{Handlers} x (method : bytes)
    (params_json : option bytes) w : mem (reply_h * @mcp_v1_context_t W) :=
  route_method_mem (x <| mx_request_counter ::= (fun n => u64 (n + 1)) |>) method params_json w.

(** The response, if the request stored one. *)
Definition response_str (out : option hstr) : hstr := from_option id None out.

(** A response with an error code is dropped. *)
Definition adapter_encode_mem `{AiryErr} `{AiryString} `{CJson} `{Handlers} x
    (msg : unified_message_t) w : mem (Z * hstr * Z * @mcp_v1_context_t W * W) :=
  params ← lift (opt_str (um_payload msg));
  '((result, out, w), x) ← route_request_mem x (um_endpoint msg) params w;
  match response_str out with
  | Some r => if result =? 0 then mret (0, Some r, strlen r.2, x, w)
              else mret (result, None, 0, x, w)
  | None => mret (result, None, 0, x, w)
  end.

(** The message's payload and the code; a response with an error code is
    dropped. *)
Definition adapter_decode_mem `{AiryErr} `{AiryString} `{CJson} `{Handlers} x (d : bytes)
    (data_size : Z) w : mem (Z * hstr * @mcp_v1_context_t W * W) :=
  if data_size =? 0 then mret (AIRY_ERR_INVALID_PARAM, None, x, w)
  else if lenZ d <? data_size then fault
  else
    copy ← malloc;
    match copy with
    | None => mret (AIRY_ERR_NULL_POINTER, None, x, w)
    | Some copy =>
        let input := cstr_of (take (Z.to_nat data_size) d) in
        method ← strdup_opt (request_method input);
        '((result, out, w), x) ←
          route_request_mem x (default "tools/call"%cs (str method)) (Some input) w;
        _ ← free_str method;
        _ ← free (Some copy);
        mret (result, if result =? 0 then response_str out else None, x, w)
    end.

Definition adapter_handle_request_mem `{AiryErr} `{AiryString} `{CJson} `{Handlers} x
    (msg : unified_message_t) w : mem (Z * hstr * @mcp_v1_context_t W * W) :=
  let method := if streq (um_method msg) [] then "tools/call"%cs else um_method msg in
  params ← lift (opt_str (um_payload msg));
  '((result, out, w), x) ← route_request_mem x method (Some (default "{}"%cs params)) w;
  match response_str out, result =? 0 with
  | Some r, true => mret (0, Some r, x, w)
  | r, _ =>
      _ ← free_str r;
      failed ← strdup mcp_request_failed;
      mret (-1, failed, x, w)
  end.
End requests.

(** ** Streaming *)

(** An event as the callback sees it, and the copy of its data. *)
Definition event_init_mem (type : mcp_stream_event_type_t) (data : option bytes)
    : mem (mcp_stream_event_t * hstr) :=
  event_data ← strdup_opt data;
  mret ((mcp_stream_event_init type data) <| se_event_data := str event_data |>, event_data).

(** The callback is called before the copy is released. *)
Definition progress_event_mem (type : mcp_stream_event_type_t) (data : option bytes) (p : double)
    : mem (list mcp_stream_event_t) :=
  '(event, event_data) ← event_init_mem type data;
  _ ← free_str event_data;
  mret [event <| se_progress := p |> <| se_total := f64_of_Z 100 |>].

(** The line is released; the copy of it the event holds is not. *)
Definition emit_sse_line_mem (field : bytes) (value : option bytes) : mem (list mcp_stream_event_t) :=
  let len := strlen field + (match value with Some v => strlen v | None => 0 end) + 16 in
  sse_line ← malloc;
  match sse_line with
  | None => mret []
  | Some p =>
      let text := take (Z.to_nat (len - 1)) (field ++ ": "%cs ++ default [] value ++ "\n"%cs) in
      '(event, _) ← event_init_mem MCP_STREAM_EVENT_CONTENT (Some text);
      _ ← free (Some p);
      mret [event]
  end.

Definition emit_sse_event_mem (event_type json_data : bytes) : mem (list mcp_stream_event_t) :=
  e1 ← emit_sse_line_mem "event"%cs (Some event_type);
  e2 ← emit_sse_line_mem "data"%cs (Some json_data);
  e3 ← emit_sse_line_mem []%cs None;
  mret (e1 ++ e2 ++ e3).

(** The loop over the chunks of one result. *)
Fixpoint tool_chunks_mem (chunk_json : bytes) (text_len : Z) (l : list (Z * bytes))
    : mem (list mcp_stream_event_t) :=
  match l with
  | [] => mret []
  | (offset, chunk) :: r =>
      escaped_chunk ← escape_mem (Some chunk);
      let sse_data := fits 1024 ((if offset =? 0 then chunk_json else []) ++ "{'delta':{'text':'"%cs
                                 ++ printed_str escaped_chunk ++ "'}}"%cs) in
      _ ← free_str escaped_chunk;
      e ← emit_sse_event_mem "tools/call/chunk"%cs sse_data;
      p ← progress_event_mem MCP_STREAM_EVENT_PROGRESS None (percent (offset + lenZ chunk) text_len 80);
      rest ← tool_chunks_mem chunk_json text_len r;
      mret (e ++ p ++ rest)
  end.

Fixpoint result_chunks_mem (i : nat) (results : list content_h) : mem (list mcp_stream_event_t) :=
  match results with
  | [] => mret []
  | c :: r =>
      buf ← malloc;
      e ← match buf with
          | None => mret []
          | Some p =>
              let chunk_json := "{'index':"%cs ++ dec (Z.of_nat i) ++ ",'type':'"%cs
                                ++ mcp_type_str (ch_type c) ++ "','partial':true}"%cs in
              let text := default [] (str (ch_text c)) in
              e ← tool_chunks_mem chunk_json (strlen text) (text_chunks text);
              _ ← free (Some p);
              mret e
          end;
      rest ← result_chunks_mem (S i) r;
      mret (e ++ rest)
  end.

Section streaming_calls.
Context {W : Type} `{AiryErr} `{Handlers}.
Implicit Types (x : @mcp_v1_context_t W) (w : W).

Definition handle_tools_call_streaming_mem x (name : bytes) (arguments_json : option bytes) w
    : mem (Z * W * list mcp_stream_event_t) :=
  start ← progress_event_mem MCP_STREAM_EVENT_PROGRESS (Some "{'status':'started'}"%cs) f64_zero;
  found ← lift (find_named (fun e => tl_name (te_tool e)) name (mx_tools x));
  match found with
  | None =>
      name_esc ← escape_mem (Some name);
      let error_json := fits 512 ("{'isError':true,'content':[{'type':'text','text':'Tool not found: "%cs
                                  ++ printed_str name_esc ++ "'}]}"%cs) in
      _ ← free_str name_esc;
      e ← emit_sse_event_mem "tools/call/result"%cs error_json;
      d ← progress_event_mem MCP_STREAM_EVENT_ERROR (Some "Tool not found"%cs) f64_zero;
      mret (AIRY_ERR_INVALID_PARAM, w, start ++ e ++ d)
  | Some e =>
      match te_handler e with
      | None => fault
      | Some handler =>
          let '(w, (results, is_error)) := handler name arguments_json w in
          results ← hand_contents results;
          let l := contents_of results in
          chunks ← result_chunks_mem 0 l;
          final_json ← if lenZ l <=? (SIZE_MAX - 4096) / 1024 then malloc else mret None;
          final ← match final_json with
                  | None => mret []
                  | Some p =>
                      text ← pieces_mem (4096 + lenZ l * 1024)
                               ("{'isError':"%cs ++ bool_text is_error ++ ",'content':["%cs)
                               content_item_mem l;
                      e ← emit_sse_event_mem "tools/call/result"%cs text;
                      _ ← free (Some p);
                      mret e
                  end;
          d ← (if is_error : bool
               then progress_event_mem MCP_STREAM_EVENT_ERROR (Some "completed with errors"%cs)
                      (f64_of_Z 100)
               else progress_event_mem MCP_STREAM_EVENT_DONE (Some "completed successfully"%cs)
                      (f64_of_Z 100));
          _ ← mcp_content_destroy results;
          mret (0, w, start ++ chunks ++ final ++ d)
      end
  end.

Fixpoint sampling_chunks_mem (model : option bytes) (index text_len : Z) (l : list (Z * bytes))
    : mem (list mcp_stream_event_t) :=
  match l with
  | [] => mret []
  | (offset, chunk) :: r =>
      escaped_chunk ← escape_mem (Some chunk);
      model_esc ← escape_mem (Some (default "unknown"%cs model));
      let sse_data := fits 512 ("{'model':"%cs ++ printed_str model_esc
                                ++ ",'delta':{'type':'text','text':'"%cs ++ printed_str escaped_chunk
                                ++ "'},'index':"%cs ++ dec index ++ "}"%cs) in
      _ ← free_str escaped_chunk;
      _ ← free_str model_esc;
      e ← emit_sse_event_mem "sampling/chunk"%cs sse_data;
      p ← progress_event_mem MCP_STREAM_EVENT_PROGRESS None (percent (offset + lenZ chunk) text_len 90);
      rest ← sampling_chunks_mem model index text_len r;
      mret (e ++ p ++ rest)
  end.

Fixpoint sampling_contents_mem (model : option bytes) (i : nat) (contents : list content_h)
    : mem (list mcp_stream_event_t) :=
  match contents with
  | [] => mret []
  | c :: r =>
      let text := default [] (str (ch_text c)) in
      e ← sampling_chunks_mem model (Z.of_nat i) (strlen text) (text_chunks text);
      rest ← sampling_contents_mem model (S i) r;
      mret (e ++ rest)
  end.

Definition handle_sampling_streaming_mem x (p : mcp_sampling_params_t) w
    : mem (Z * W * list mcp_stream_event_t) :=
  match mx_sampling_handler x with
  | None => mret (AIRY_ERR_INVALID_PARAM, w, [])
  | Some handler =>
      if negb (has_cap (mc_capabilities (mx_config x)) MCP_CAP_SAMPLING)
      then mret (AIRY_ERR_NULL_POINTER, w, [])
      else
        start ← progress_event_mem MCP_STREAM_EVENT_PROGRESS (Some "{'status':'sampling_started'}"%cs)
                  f64_zero;
        let '(w, v) := handler p empty_result w in
        r ← hand_sampling v;
        let model := str (sh_model r) in
        chunks ← sampling_contents_mem model 0 (contents_of (sh_content r));
        model_esc ← escape_mem (Some (default "unknown"%cs model));
        stop_esc ← escape_mem (Some (default "end_turn"%cs (str (sh_stop_reason r))));
        let final_result := fits 2048
          ("{'model':"%cs ++ printed_str model_esc ++ ",'stopReason':"%cs ++ printed_str stop_esc
           ++ ",'stoppedEarly':"%cs ++ bool_text (sr_stopped_early v) ++ "}"%cs) in
        _ ← free_str model_esc;
        _ ← free_str stop_esc;
        e ← emit_sse_event_mem "sampling/result"%cs final_result;
        d ← progress_event_mem MCP_STREAM_EVENT_DONE (Some "Sampling complete"%cs) (f64_of_Z 100);
        _ ← mcp_sampling_result_destroy (Some r);
        mret (0, w, start ++ chunks ++ e ++ d)
  end.
End streaming_calls.

(** ** Printing into a buffer *)

Section printing.
Context `{Grants}.
Implicit Types (X Y : gmultiset addr) (b : sbuf).

Lemma spec_print s b X :
  sb_off b <= sb_cap b ->
  spec (print_mem s b) X (fun b' Y => Y = X /\ sn_put s b = Done b' /\
    sb_cap b' = sb_cap b /\ sb_off b' = sb_off b + lenZ s).
Proof.
  intros Hb. unfold print_mem. rewrite sn_put_room by done. by apply spec_ret.
Qed.

(** An escape prints as it is, or as 6 characters. *)
Lemma spec_escape s :
  constructs (escape_mem s) (fun e =>
    lenZ (printed_str e) <= lenZ (json_string_escape s) + 4 /\
    (grants -> str e = Some (json_string_escape s))).
Proof.
  eapply spec_conseq; [apply spec_strdup|done|]. intros e Y [-> [He Hg]]. split; [done|].
  split; [|done]. unfold printed_str. destruct He as [->| ->]; cbn [default from_option id].
  - change (lenZ "(null)"%cs) with 6. destruct s as [s|]; cbn [json_string_escape]; [|by vm_compute].
    rewrite lenZ_cons, lenZ_app. change (lenZ [QUOTE]) with 1.
    pose proof (lenZ_nonneg (concat (escape_char <$> s))). lia.
  - lia.
Qed.

Lemma printed_str_granted e s : str e = Some s -> printed_str e = s.
Proof. unfold printed_str. by intros ->. Qed.

(** [m] prints a text at most [k] characters longer than [t], and [t] when
    every request is granted, and leaves no block. *)
Definition prints (m : sbuf -> mem sbuf) (k : Z) (t : bytes) : Prop :=
  forall b X, sb_off b <= sb_cap b ->
  spec (m b) X (fun b' Y => Y = X /\ sb_cap b' = sb_cap b /\
    exists s, sn_put s b = Done b' /\ sb_off b' = sb_off b + lenZ s /\ lenZ s <= lenZ t + k /\
      (grants -> s = t)).

(** The pieces of the loop from an entry on. *)
Definition pieces_from {A} (text : A -> bytes) (first : bool) (l : list A) : list bytes :=
  if first then comma_sep text l else concat ((fun a => [","%cs; text a]) <$> l).

Lemma spec_items {A} (item : A -> sbuf -> mem sbuf) (text : A -> bytes) k n l :
  Forall (fun a => prints (item a) k (text a) /\ lenZ (text a) + k < n) l ->
  forall first b X, sb_off b + n * lenZ l <= sb_cap b -> 0 <= k ->
  spec (items_mem item first l b) X (fun b' Y => Y = X /\ sb_cap b' = sb_cap b /\
    sb_off b' <= sb_off b + n * lenZ l /\
    (grants -> sn_puts (pieces_from text first l) b = Done b')).
Proof.
  induction 1 as [|a l [Ha Hn] _ IH]; intros first b X Hb Hpos; cbn [items_mem].
  { apply spec_ret. split; [done|]. split; [done|]. split; [rewrite lenZ_nil; lia|]. by destruct first. }
  rewrite lenZ_cons in Hb. pose proof (lenZ_nonneg l) as Hl. pose proof (lenZ_nonneg (text a)) as Ht.
  eapply (spec_bind _ _ _ (fun b1 Y => Y = X /\ sb_cap b1 = sb_cap b /\ sb_off b1 <= sb_off b + 1 /\
    (if first then b1 = b else sn_put ","%cs b = Done b1))).
  { destruct first; [apply spec_ret; split_and!; [done|done|lia|done]|].
    eapply spec_conseq; [apply spec_print; nia|done|]. intros b1 Y (-> & Hp & Hc & Ho).
    change (lenZ ","%cs) with 1 in Ho. split_and!; [done|done|lia|done]. }
  intros b1 Y1 (-> & Hc1 & Ho1 & Hcomma).
  eapply spec_bind; [apply Ha; rewrite Hc1; nia|].
  intros b2 Y2 (-> & Hc2 & s & Hs & Ho2 & Hls & Hg).
  eapply spec_conseq; [apply (IH false b2 X); [rewrite Hc2, Hc1; nia|lia]|done|].
  intros b3 Y3 (-> & Hc3 & Ho3 & Hrest). split; [done|]. split; [congruence|].
  split; [rewrite lenZ_cons; nia|]. intros HG. specialize (Hg HG). specialize (Hrest HG). subst s.
  destruct first; cbn [pieces_from comma_sep fmap list_fmap concat app sn_puts] in *.
  - subst b1. rewrite Hs. cbn [mbind outcome_bind]. exact Hrest.
  - rewrite Hcomma. cbn [mbind outcome_bind]. rewrite Hs. cbn [mbind outcome_bind]. exact Hrest.
Qed.
End printing.

(** [release] frees the value the program frees next, out of the blocks it
    owns. *)
Ltac without X a :=
  lazymatch X with
  | own a ⊎ ?R => R
  | ?L ⊎ own a => L
  | ?L ⊎ ?R => match constr:(tt) with
               | _ => let R' := without R a in constr:(L ⊎ R')
               | _ => let L' := without L a in constr:(L' ⊎ R)
               end
  end.
Ltac release :=
  cbv zeta;
  lazymatch goal with
  | |- spec (mbind _ (_ ?a)) ?X _ =>
      let R := without X a in
      eapply (spec_destroy _ a _ _ R);
        [repeat match goal with |- context [@own ?A ?I ?x] => generalize (@own A I x) end;
         intros; multiset_solver|]
  end.

(** What is left is what the result owns. *)
Lemma own_response (p : addr) (s : bytes) : own (Some (p, s) : hstr) = own (Some p).
Proof. done. Qed.
Ltac left_owned :=
  cbn [fst snd response_str from_option id]; rewrite ?own_response, ?own_str_none;
  repeat rewrite own_none; first [done | names_blocks].

Section items.
Context `{Grants} {W : Type}.

(** The escapes of an entry, the text, and the releases. *)
Ltac item_prints :=
  intros b X Hb;
  repeat (eapply spec_new; [apply spec_escape|]; intros ? [? ?]);
  eapply spec_bind; [apply spec_print; exact Hb|];
  intros b' Y (-> & Hs & Hc & Ho);
  repeat release; apply spec_ret; split; [done|]; split; [done|];
  eexists; split; [exact Hs|]; split; [exact Ho|]; split;
  [rewrite !lenZ_app; lia|];
  let Hg := fresh in intros Hg;
  repeat match goal with H : grants -> str _ = _ |- _ => rewrite (printed_str_granted _ _ (H Hg)); clear H end.

Lemma prints_tool (e : @mcp_tool_entry_t W) : prints (tool_item_mem e) 8 (tool_item e).
Proof. unfold tool_item_mem, tool_item. item_prints. done. Qed.

Lemma prints_resource (e : @mcp_resource_entry_t W) : prints (resource_item_mem e) 16 (resource_item e).
Proof. unfold resource_item_mem, resource_item. item_prints. done. Qed.

Lemma prints_template t : prints (template_item_mem t) 12 (template_item t).
Proof. unfold template_item_mem, template_item. item_prints. done. Qed.

Lemma prints_prompt (e : @mcp_prompt_entry_t W) : prints (prompt_item_mem e) 8 (prompt_item e).
Proof. unfold prompt_item_mem, prompt_item. item_prints. done. Qed.

Lemma prints_content c : prints (content_item_mem c) 4 (content_item (erase_content c)).
Proof. unfold content_item_mem, content_item. cbn [erase_content ct_text ct_type]. item_prints. done. Qed.

Lemma prints_message m t :
  message_item (erase_smessage m) = Done t -> prints (message_item_mem m) 8 t.
Proof.
  unfold message_item_mem, message_item. intros (text & Ht & <-%Done_inj)%outcome_bind_inv.
  intros b X Hb. eapply spec_new; [apply spec_escape|]. intros role [Hr Hrg].
  eapply spec_bind; [by apply spec_lift|]. intros ? Y [-> ->].
  eapply spec_new; [apply spec_escape|]. intros content [Hco Hcg].
  eapply spec_bind; [apply spec_print; exact Hb|]. intros b' Y (-> & Hs & Hc & Ho).
  release. release. apply spec_ret. split; [done|]. split; [done|].
  eexists. split; [exact Hs|]. split; [exact Ho|]. split.
  - cbn [erase_smessage sm_role] in *. rewrite !lenZ_app. lia.
  - intros Hg. by rewrite (printed_str_granted _ _ (Hrg Hg)), (printed_str_granted _ _ (Hcg Hg)).
Qed.
End items.

(** ** The handlers keep nothing but the response *)

Definition erased_reply {W} (r : @reply_h W) : @reply W :=
  let '(rc, out, w) := r in (rc, str <$> out, w).

(** Every entry has the name it is looked up by, tools have handlers, and an
    entry renders to fewer than 512 characters even when its escapes are
    refused. *)
Record server_short {W} (x : @mcp_v1_context_t W) : Prop := {
  short_tools : lenZ (mx_tools x) < 2 ^ 32 /\
    Forall (fun e => is_Some (tl_name (te_tool e)) /\ lenZ (tool_item e) + 8 < 512) (mx_tools x);
  short_resources : lenZ (mx_resources x) < 2 ^ 32 /\
    Forall (fun e => is_Some (rs_uri (rn_resource e)) /\ lenZ (resource_item e) + 16 < 512) (mx_resources x);
  short_templates : lenZ (mx_templates x) < 2 ^ 32 /\
    Forall (fun t => lenZ (template_item t) + 12 < 512) (mx_templates x);
  short_prompts : lenZ (mx_prompts x) < 2 ^ 32 /\
    Forall (fun e => is_Some (pt_name (pe_prompt e)) /\ lenZ (prompt_item e) + 8 < 512) (mx_prompts x);
  short_results_of : Forall (fun e => exists h, te_handler e = Some h /\
    forall name args w, short_contents (h name args w).2.1) (mx_tools x);
  short_messages_of : Forall (fun e => forall h, pe_handler e = Some h ->
    forall name args w, short_messages (h name args w).2) (mx_prompts x)
}.

(** [m] answers what [v] answers when every request is granted, and owns its
    response and nothing else. *)
Definition answers `{Grants} {W} (m : mem (@reply_h W)) (v : outcome reply) : Prop :=
  spec m ∅ (fun r Y => Y = own (response_str r.1.2) /\ (grants -> v = Done (erased_reply r))).

Section handlers.
Context `{Grants} {W : Type} `{AiryErr}.
Implicit Types (x : @mcp_v1_context_t W) (w : W) (X Y : gmultiset addr).

Lemma sn_puts_pieces {A} header (text : A -> bytes) l b :
  sn_puts (list_pieces header text l) b
  = (b ← sn_put header b; b ← sn_puts (comma_sep text l) b; sn_put "]}"%cs b).
Proof.
  unfold list_pieces. change ([header] ++ ?r) with (header :: r). cbn [sn_puts].
  destruct (sn_put header b) as [b1|]; [|done]. cbn [mbind outcome_bind]. rewrite sn_puts_app.
  destruct (sn_puts _ b1) as [b2|]; [|done]. cbn [mbind outcome_bind sn_puts]. by destruct (sn_put _ b2).
Qed.

Lemma spec_pieces {A} (item : A -> sbuf -> mem sbuf) (text : A -> bytes) k n size header l X :
  Forall (fun a => prints (item a) k (text a) /\ lenZ (text a) + k < n) l -> 0 <= k ->
  lenZ header + n * lenZ l <= size ->
  spec (pieces_mem size header item l) X (fun s Y => Y = X /\
    (grants -> sn_run size (list_pieces header text l) = Done s)).
Proof.
  intros Hl Hk Hsize. pose proof (lenZ_nonneg l) as Hnn. pose proof (lenZ_nonneg header) as Hh.
  assert (0 <= n * lenZ l) as Hpos.
  { destruct Hl as [|a l [_ Ha] _]; [change (lenZ (@nil A)) with 0; lia|]. pose proof (lenZ_nonneg (text a)). nia. }
  unfold pieces_mem. eapply spec_bind; [apply spec_print; cbn; lia|].
  intros b Y (-> & Hp & Hc & Ho). cbn [sb_new sb_cap sb_off] in Hc, Ho.
  eapply spec_bind; [apply (spec_items item text k n l Hl true b X); [rewrite Hc, Ho; lia|done]|].
  intros b1 Y (-> & Hc1 & Ho1 & Hg).
  eapply spec_bind; [apply spec_print; rewrite Hc1, Hc; lia|].
  intros b2 Y (-> & Hp2 & _ & _). apply spec_ret. split; [done|]. intros HG.
  unfold sn_run. rewrite sn_puts_pieces, Hp. cbn [mbind outcome_bind].
  specialize (Hg HG). cbn [pieces_from] in Hg. rewrite Hg. cbn [mbind outcome_bind]. by rewrite Hp2.
Qed.

Lemma answers_list {A} header (item : A -> sbuf -> mem sbuf) (text : A -> bytes) k (l : list A) w :
  Forall (fun a => prints (item a) k (text a) /\ lenZ (text a) + k < 512) l -> 0 <= k ->
  lenZ header <= 4096 -> lenZ l < 2 ^ 32 ->
  answers (render_list_mem header item l w) (render_list true header text l w).
Proof.
  intros Hl Hk Hh Hn. pose proof (lenZ_nonneg l). unfold answers, render_list_mem.
  eapply spec_new; [apply spec_malloc|]. intros [p|] Hp.
  - eapply spec_bind; [apply (spec_pieces item text k 512); [done|done|]|].
    { unfold list_buf_size. rewrite u64_small by lia. lia. }
    intros s Y [-> Hs]. apply spec_ret. split; [apply (right_id_L ∅ (⊎))|]. intros Hg.
    unfold render_list. cbn [negb]. by rewrite (Hs Hg).
  - apply spec_ret. split; [apply (right_id_L ∅ (⊎))|]. intros Hg. by destruct (Hp Hg).
Qed.

Lemma answers_tools_list x w :
  server_short x -> answers (handle_tools_list_mem x w) (mcp_v1_handle_tools_list true (Some x) true w).
Proof.
  intros [[Hn Hl] _ _ _ _ _]. apply (answers_list _ _ _ 8); [|lia|by vm_compute|done].
  eapply Forall_impl; [exact Hl|]. intros e [_ He]. split; [apply prints_tool|exact He].
Qed.

Lemma answers_resources_list x w :
  server_short x ->
  answers (handle_resources_list_mem x w) (mcp_v1_handle_resources_list true (Some x) true w).
Proof.
  intros [_ [Hn Hl] _ _ _ _]. apply (answers_list _ _ _ 16); [|lia|by vm_compute|done].
  eapply Forall_impl; [exact Hl|]. intros e [_ He]. split; [apply prints_resource|exact He].
Qed.

Lemma answers_templates_list x w :
  server_short x ->
  answers (handle_resources_templates_mem x w) (mcp_v1_handle_resources_templates true (Some x) true w).
Proof.
  intros [_ _ [Hn Hl] _ _ _]. apply (answers_list _ _ _ 12); [|lia|by vm_compute|done].
  eapply Forall_impl; [exact Hl|]. intros e He. split; [apply prints_template|exact He].
Qed.

Lemma answers_prompts_list x w :
  server_short x -> answers (handle_prompts_list_mem x w) (mcp_v1_handle_prompts_list true (Some x) true w).
Proof.
  intros [_ _ _ [Hn Hl] _ _]. apply (answers_list _ _ _ 8); [|lia|by vm_compute|done].
  eapply Forall_impl; [exact Hl|]. intros e [_ He]. split; [apply prints_prompt|exact He].
Qed.

(** Looking a name up does not fail, and finds an entry of the list. *)
Lemma find_named_in {A} (name_of : A -> option bytes) name l :
  Forall (fun a => is_Some (name_of a)) l ->
  exists o, find_named name_of name l = Done o /\ forall a, o = Some a -> a ∈ l.
Proof.
  intros Hl. eexists. split; [by apply find_named_spec|]. intros a.
  destruct (find_idx _ l) as [i|]; [|done]. apply list_elem_of_lookup_2.
Qed.
End handlers.

Section calls.
Context `{Grants} `{Handlers} `{!HandlersOk} {W : Type} `{AiryErr}.
Implicit Types (x : @mcp_v1_context_t W) (w : W) (X Y : gmultiset addr).

Lemma printed_result (l : list content_h) :
  short_contents (erase_content <$> l) ->
  Forall (fun c => prints (content_item_mem c) 4 (content_item (erase_content c)) /\
                   lenZ (content_item (erase_content c)) + 4 < 1024) l.
Proof.
  intros [_ Hl]. rewrite Forall_fmap in Hl. eapply Forall_impl; [exact Hl|]. intros c Hc.
  split; [apply prints_content|exact Hc].
Qed.

Lemma comma_sep_fmap {A B} (f : A -> B) (text : B -> bytes) l :
  comma_sep text (f <$> l) = comma_sep (text ∘ f) l.
Proof. destruct l as [|a l]; [done|]. cbn. by rewrite <- list_fmap_compose. Qed.

Lemma answers_tools_call x name args w :
  server_short x ->
  answers (handle_tools_call_mem x name args w)
    (mcp_v1_handle_tools_call true (Some x) (Some name) args true w).
Proof.
  intros [[_ Hl] _ _ _ Hr _]. unfold handle_tools_call_mem, mcp_v1_handle_tools_call. cbn [negb].
  destruct (find_named_in (fun e : @mcp_tool_entry_t W => tl_name (te_tool e)) name (mx_tools x))
    as (found & Hf & Hin).
  { eapply Forall_impl; [exact Hl|]. by intros e [He _]. }
  unfold answers. rewrite Hf. cbn [mbind outcome_bind]. eapply spec_lift_bind; [done|].
  destruct found as [e|].
  2:{ eapply spec_new; [apply spec_escape|]. intros name_esc [_ Hn].
      eapply spec_new; [apply spec_strdup|]. intros resp [_ Hresp]. release. apply spec_ret.
      split; [left_owned|]. intros Hg. unfold tool_not_found, erased_reply. cbn [fmap option_fmap option_map].
      by rewrite (Hresp Hg), (Hn Hg). }
  rewrite Forall_forall in Hr. destruct (Hr e (Hin e eq_refl)) as (handler & -> & Hshort).
  specialize (Hshort name args w). destruct (handler name args w) as [w' [results is_error]]. cbn [fst snd] in Hshort.
  eapply spec_new; [apply hand_contents_ok|]. intros a [Ha Hag]. specialize (Ha Hshort).
  pose proof (proj1 Ha) as Hlen. unfold erase_contents in Hlen. rewrite lenZ_fmap in Hlen.
  change ((SIZE_MAX - 4096) / 1024) with 18014398509481979.
  rewrite (proj2 (Z.ltb_ge _ _)) by lia.
  eapply spec_new; [apply spec_malloc|]. intros [p|] Hp.
  - eapply spec_bind; [eapply (spec_pieces _ _ 4 1024); [by apply printed_result|lia|]|].
    { rewrite Z.mul_comm. apply Z.add_le_mono_r. by destruct is_error. }
    intros s Y [-> Hs].
    eapply (spec_destroy mcp_content_destroy a _ _ (own (Some p))); [names_blocks|].
    apply spec_ret. split; [left_owned|]. intros Hg. specialize (Hag Hg). subst results.
    unfold erase_contents. rewrite lenZ_fmap, (proj2 (Z.ltb_ge _ _)) by lia. cbn [negb].
    specialize (Hs Hg). unfold result_buf_size, result_pieces, list_pieces in *.
    rewrite comma_sep_fmap, lenZ_fmap. refine (eq_trans (f_equal (mbind _) Hs) _). done.
  - release. apply spec_ret. split; [left_owned|]. intros Hg. by destruct (Hp Hg).
Qed.

Lemma answers_resources_read x uri w :
  server_short x ->
  answers (handle_resources_read_mem x uri w)
    (mcp_v1_handle_resources_read true (Some x) (Some uri) true w).
Proof.
  intros [_ [_ Hl] _ _ _ _]. unfold handle_resources_read_mem, mcp_v1_handle_resources_read. cbn [negb].
  destruct (find_named_in (fun e : @mcp_resource_entry_t W => rs_uri (rn_resource e)) uri (mx_resources x))
    as (found & Hf & Hin).
  { eapply Forall_impl; [exact Hl|]. by intros e [He _]. }
  unfold answers. rewrite Hf. cbn [mbind outcome_bind]. eapply spec_lift_bind; [done|].
  change (@option_bind _ _ rn_handler found) with (found ≫= rn_handler).
  destruct (found ≫= rn_handler) as [handler|].
  - destruct (handler uri w) as [w' [content mime_type]].
    eapply spec_new; [apply hand_string_ok|]. intros c [_ Hc].
    eapply spec_new; [apply hand_string_ok|]. intros m [_ Hm].
    eapply spec_new; [apply spec_escape|]. intros ue [_ Hu].
    eapply spec_new; [apply spec_escape|]. intros ce [_ Hce].
    eapply spec_new; [apply spec_escape|]. intros me [_ Hme].
    eapply spec_new; [apply spec_strdup|]. intros resp [_ Hr].
    do 5 release. apply spec_ret. split; [left_owned|]. intros Hg.
    unfold erased_reply, resource_contents. cbn [fmap option_fmap option_map].
    rewrite (Hr Hg), (printed_str_granted _ _ (Hu Hg)), (printed_str_granted _ _ (Hce Hg)),
      (printed_str_granted _ _ (Hme Hg)), (Hc Hg), (Hm Hg). done.
  - eapply spec_new; [apply spec_escape|]. intros ue [_ Hu].
    eapply spec_new; [apply spec_strdup|]. intros resp [_ Hr]. release. apply spec_ret.
    split; [left_owned|]. intros Hg. unfold erased_reply, resource_not_found. cbn [fmap option_fmap option_map].
    by rewrite (Hr Hg), (printed_str_granted _ _ (Hu Hg)).
Qed.

(** The handler [prompts/get] runs for a name. *)
Definition prompt_handler x (name : bytes) : option mcp_prompt_handler_t :=
  (i ← find_idx (fun e => bool_decide (pt_name (pe_prompt e) = Some name)) (mx_prompts x);
   mx_prompts x !! i) ≫= pe_handler.

Definition message_text (m : mcp_sampling_message_t) : bytes :=
  match message_item m with Done t => t | Fault => [] end.

Lemma message_items_short l :
  Forall short_message l -> message_items l = Done (message_text <$> l).
Proof.
  induction 1 as [|m l Hm _ IH]; [done|]. cbn [message_items fmap list_fmap]. rewrite IH.
  unfold short_message in Hm. unfold message_text. by destruct (message_item m).
Qed.

(** Next to the response, the messages of the handler stay. *)
Lemma spec_prompts_get x name args w :
  server_short x -> lenZ name <= 1000 ->
  spec (handle_prompts_get_mem x name args w) ∅ (fun r Y => exists m : smessage_array,
    Y = own (response_str r.1.2) ⊎ own m /\
    (grants ->
       mcp_v1_handle_prompts_get true (Some x) (Some name) args true w = Done (erased_reply r) /\
       erase_messages m = match prompt_handler x name with Some h => (h name args w).2 | None => [] end)).
Proof.
  intros [_ _ _ [_ Hl] _ Hr] Hname. unfold handle_prompts_get_mem, mcp_v1_handle_prompts_get, prompt_handler.
  cbn [negb]. rewrite find_named_spec by (eapply Forall_impl; [exact Hl|]; by intros e [He _]).
  match goal with |- context [lift (Done ?o)] =>
    assert (forall e, o = Some e -> e ∈ mx_prompts x) as Hin; [|set (found := o) in *] end.
  { intros e. destruct (find_idx _ _) as [i|]; [|done]. apply list_elem_of_lookup_2. }
  eapply spec_lift_bind; [done|]. cbn [mbind outcome_bind].
  change (@option_bind _ _ pe_handler found) with (found ≫= pe_handler).
  destruct (found ≫= pe_handler) as [handler|] eqn:Hh.
  2:{ eapply spec_new; [apply spec_strdup|]. intros resp [_ Hresp]. apply spec_ret. exists None.
      split; [left_owned|]. intros Hg. split; [|done]. unfold erased_reply. cbn [fmap option_fmap option_map].
      by rewrite (Hresp Hg). }
  destruct found as [e|]; [|done]. rewrite Forall_forall in Hr.
  specialize (Hr e (Hin e eq_refl) handler Hh name args w). destruct (handler name args w) as [w' messages].
  cbn [fst snd] in *. eapply spec_new; [apply hand_messages_ok|]. intros m [Hm Hmg]. specialize (Hm Hr).
  destruct Hm as [Hlen Hshort]. unfold erase_messages in Hlen, Hshort. rewrite lenZ_fmap in Hlen.
  pose proof (lenZ_nonneg (messages_of m)) as Hnn.
  eapply spec_new; [apply spec_malloc|]. intros [p|] Hp.
  2:{ apply spec_ret. exists m. split; [left_owned|]. intros Hg. by destruct (Hp Hg). }
  eapply spec_new; [apply spec_escape|]. intros ne [Hne Hng].
  rewrite u64_small by lia.
  assert (lenZ (printed_str ne) <= 2 * lenZ name + 6) as Hpn.
  { pose proof (json_string_escape_length name). lia. }
  eapply spec_bind; [apply spec_print; cbn; lia|]. intros b Y (-> & Hb & Hc & Ho).
  cbn [sb_new sb_cap sb_off] in Hc, Ho. rewrite !lenZ_app in Ho. change (lenZ "{'description':'Prompt: "%cs) with 24 in Ho.
  change (lenZ "','messages':["%cs) with 14 in Ho. release.
  assert (lenZ (take 100 (messages_of m)) <= lenZ (messages_of m)) as Htake.
  { unfold lenZ. rewrite length_take. lia. }
  eapply spec_bind; [apply (spec_items message_item_mem (message_text ∘ erase_smessage) 8 1024)|].
  { rewrite Forall_fmap in Hshort. apply Forall_take.
    eapply Forall_impl; [exact Hshort|]. intros a Ha. cbn in Ha. unfold short_message in Ha. cbn [compose].
    unfold message_text. destruct (message_item (erase_smessage a)) eqn:Ht; [|done].
    split; [by apply prints_message|exact Ha]. }
  { rewrite Hc, Ho. lia. }
  { lia. }
  intros b1 Y (-> & Hc1 & Ho1 & Hg1).
  eapply spec_bind; [apply spec_print; rewrite Hc1, Hc; lia|]. intros b2 Y (-> & Hb2 & _ & _).
  apply spec_ret. exists m. split; [left_owned|]. intros Hg. specialize (Hg1 Hg). split; [|by apply Hmg].
  rewrite <- (Hmg Hg). unfold erase_messages. rewrite <- fmap_take, message_items_short by
    (rewrite Forall_fmap in *; by apply Forall_take).
  cbn [mbind outcome_bind]. rewrite lenZ_fmap, u64_small by lia. rewrite <- list_fmap_compose.
  unfold sn_run. rewrite sn_puts_pieces, comma_sep_fmap. rewrite <- (printed_str_granted _ _ (Hng Hg)), Hb.
  cbn [mbind outcome_bind]. cbn [pieces_from] in Hg1.
  change (id ∘ (message_text ∘ erase_smessage)) with (message_text ∘ erase_smessage).
  rewrite Hg1. cbn [mbind outcome_bind]. by rewrite Hb2.
Qed.
End calls.

(** ** Routing *)

(** The messages a request makes a handler hand over. *)
Definition prompt_messages {W} `{AiryString} `{CJson} (x : @mcp_v1_context_t W) (method : bytes)
    (params_json : option bytes) (w : W) : list mcp_sampling_message_t :=
  if streq method "prompts/get"%cs then
    let name := or_unknown (mcp_v1_extract_string_param params_json "name"%cs 256) in
    match prompt_handler x name with Some h => (h name params_json w).2 | None => [] end
  else [].

Section routing.
Context `{Grants} `{Handlers} `{!HandlersOk} {W : Type} `{AiryErr} `{AiryString} `{CJson}.
Implicit Types (x : @mcp_v1_context_t W) (w : W) (X Y : gmultiset addr).

Lemma extract_param_length params_json key size :
  (8 <= size)%nat -> lenZ (or_unknown (mcp_v1_extract_string_param params_json key size)) < Z.of_nat size.
Proof.
  intros Hs. unfold or_unknown. destruct (streq _ []).
  { change (lenZ "unknown"%cs) with 7. lia. }
  unfold mcp_v1_extract_string_param. destruct (params_json ≫= cJSON_Parse) as [tree|]; [|rewrite lenZ_nil; lia].
  destruct (json_string _) as [s|]; [|rewrite lenZ_nil; lia].
  rewrite strncpy_term_spec by lia. unfold lenZ. rewrite length_take. lia.
Qed.

(** What a request leaves: its response, and the messages of a prompt. *)
Definition routed x (method : bytes) (params_json : option bytes) w
    (v : outcome (@reply W * @mcp_v1_context_t W)) (r : @reply_h W * @mcp_v1_context_t W) Y : Prop :=
  exists m : smessage_array,
    Y = own (response_str r.1.1.2) ⊎ own m /\ (method <> "prompts/get"%cs -> m = None) /\
    (grants -> v = Done (erased_reply r.1, r.2) /\ erase_messages m = prompt_messages x method params_json w).

Lemma answers_routed x method params_json w (m : mem (@reply_h W)) (v : outcome (@reply W)) :
  streq method "prompts/get"%cs = false -> answers m v ->
  spec (r ← m; mret (r, x)) ∅ (routed x method params_json w (r ← v; Done (r, x))).
Proof.
  intros Hm Hv. eapply spec_bind; [exact Hv|]. intros r Y [-> Hg]. apply spec_ret. exists None.
  split; [left_owned|]. split; [done|]. intros HG. rewrite (Hg HG). split; [done|].
  unfold prompt_messages. by rewrite Hm.
Qed.

Lemma spec_route_method x method params_json w :
  server_short x ->
  spec (route_method_mem x method params_json w) ∅
    (routed x method params_json w (route_method true x method params_json w)).
Proof.
  intros Hx.
  assert (forall m : bytes, streq method m = true -> m <> "prompts/get"%cs ->
            streq method "prompts/get"%cs = false) as Hne.
  { intros m ->%streq_true Hm. unfold streq. by apply bool_decide_eq_false_2. }
  unfold route_method_mem, route_method.
  destruct (streq method "tools/list"%cs) eqn:E1.
  { apply answers_routed; [by eapply Hne|]. by apply answers_tools_list. }
  destruct (streq method "tools/call"%cs) eqn:E2.
  { apply answers_routed; [by eapply Hne|]. by apply answers_tools_call. }
  destruct (streq method "resources/list"%cs) eqn:E3.
  { apply answers_routed; [by eapply Hne|]. by apply answers_resources_list. }
  destruct (streq method "resources/read"%cs) eqn:E4.
  { apply answers_routed; [by eapply Hne|]. by apply answers_resources_read. }
  destruct (streq method "resources/templates/list"%cs) eqn:E5.
  { apply answers_routed; [by eapply Hne|]. by apply answers_templates_list. }
  destruct (streq method "prompts/list"%cs) eqn:E6.
  { apply answers_routed; [by eapply Hne|]. by apply answers_prompts_list. }
  destruct (streq method "prompts/get"%cs) eqn:E7.
  { pose proof (extract_param_length params_json "name"%cs 256 ltac:(lia)) as Hlen.
    eapply spec_bind; [apply spec_prompts_get; [done|lia]|]. intros r Y (m & -> & Hg).
    apply spec_ret. exists m. split; [done|]. split; [by intros []; apply streq_true|].
    intros HG. destruct (Hg HG) as [Hv Hm]. split; [|unfold prompt_messages; by rewrite E7].
    refine (eq_trans (f_equal (mbind _) Hv) _). done. }
  destruct (streq method "logging/setLogLevel"%cs) eqn:E8.
  { cbn [mcp_v1_set_log_level]. apply spec_ret. exists None. split; [left_owned|]. split; [done|].
    intros _. split; [done|]. unfold prompt_messages. by rewrite E7. }
  destruct (streq method "initialize"%cs) eqn:E9.
  { change (Done (mcp_v1_build_initialize_response true x w, x))
      with (r ← Done (mcp_v1_build_initialize_response true x w); Done (r, x)).
    apply answers_routed; [done|]. eapply spec_new; [apply spec_strdup|]. intros resp [_ Hr].
    apply spec_ret. split; [left_owned|]. intros Hg. unfold mcp_v1_build_initialize_response, erased_reply.
    cbn [fmap option_fmap option_map]. by rewrite (Hr Hg). }
  eapply spec_new; [apply spec_strdup|]. intros resp [_ Hr]. apply spec_ret. exists None.
  split; [left_owned|]. split; [done|]. intros Hg. unfold prompt_messages, erased_reply. rewrite E7.
  cbn [fst snd fmap option_fmap option_map]. by rewrite (Hr Hg).
Qed.

Lemma spec_route_request x method params_json w :
  server_short x ->
  spec (route_request_mem x method params_json w) ∅ (fun r Y => exists m : smessage_array,
    Y = own (response_str r.1.1.2) ⊎ own m /\ (method <> "prompts/get"%cs -> m = None) /\
    (grants ->
       mcp_v1_route_request true (Some x) (Some method) params_json true w
         = Done (erased_reply r.1, Some r.2) /\
       erase_messages m = prompt_messages x method params_json w)).
Proof.
  intros Hx. unfold route_request_mem, mcp_v1_route_request. cbn [negb].
  set (x' := x <| mx_request_counter ::= _ |>).
  eapply spec_conseq; [apply (spec_route_method x')|done|].
  { destruct Hx. by constructor. }
  intros [r y] Y (m & -> & Hm & Hg). exists m. split; [done|]. split; [done|]. intros HG.
  destruct (Hg HG) as [Hv He]. split; [|exact He]. by rewrite Hv.
Qed.

(** *** The adapter's callbacks *)

Lemma response_erased (out : option hstr) : response_of (str <$> out) = str (response_str out).
Proof. by destruct out as [[[]|]|]. Qed.

(** The method and the parameters of a request through the adapter. *)
Definition request_of (msg : unified_message_t) : bytes :=
  if streq (um_method msg) [] then "tools/call"%cs else um_method msg.

Lemma handle_request_value x msg params w result out w' y :
  opt_str (um_payload msg) = Done params ->
  mcp_v1_route_request true (Some x) (Some (request_of msg)) (Some (default "{}"%cs params)) true w
    = Done (erased_reply (result, out, w'), Some y) ->
  mcp_adapter_handle_request true (Some x) (Some msg) true w
  = Done match response_str out, result =? 0 with
         | Some r, true => (0, Some r.2, Some y, w')
         | _, _ => (-1, Some mcp_request_failed, Some y, w')
         end.
Proof.
  intros Hp Hv. unfold mcp_adapter_handle_request. cbn [negb]. fold (request_of msg). rewrite Hp.
  cbn [mbind outcome_bind]. refine (eq_trans (f_equal (mbind _) Hv) _).
  cbn [mbind outcome_bind erased_reply]. rewrite response_erased.
  destruct (response_str out) as [[p s]|]; [|done]. destruct (Z.eqb_spec result 0) as [->|Hrc]; done.
Qed.

Lemma spec_handle_request x msg params w :
  server_short x -> opt_str (um_payload msg) = Done params ->
  spec (adapter_handle_request_mem x msg w) ∅ (fun r Y =>
    let '(rc, out, y, w') := r in exists m : smessage_array,
    Y = own out ⊎ own m /\ (request_of msg <> "prompts/get"%cs -> m = None) /\
    (grants ->
       mcp_adapter_handle_request true (Some x) (Some msg) true w = Done (rc, str out, Some y, w') /\
       erase_messages m = prompt_messages x (request_of msg) (Some (default "{}"%cs params)) w /\
       counted x y)).
Proof.
  intros Hx Hp. unfold adapter_handle_request_mem. fold (request_of msg).
  rewrite Hp. eapply spec_lift_bind; [done|]. eapply spec_bind; [by apply spec_route_request|].
  intros [[[result out] w'] y] Y (m & -> & Hm & Hg). cbn [fst snd] in *.
  assert (grants -> mcp_adapter_handle_request true (Some x) (Some msg) true w
    = Done match response_str out, result =? 0 with
         | Some r, true => (0, Some r.2, Some y, w')
         | _, _ => (-1, Some mcp_request_failed, Some y, w')
         end) as Hv.
  { intros HG. eapply handle_request_value; [done|]. by apply Hg. }
  assert (grants -> counted x y) as Hcount.
  { intros HG. destruct (Hg HG) as [Hr _]. by apply route_request_counted in Hr as (y' & [= <-] & Hy). }
  destruct (response_str out) as [[p s]|]; destruct (result =? 0).
  1: { apply spec_ret. exists m. split; [left_owned|]. split; [done|]. intros HG. rewrite (Hv HG).
       split; [done|]. by split; [apply Hg|apply Hcount]. }
  all: eapply (spec_destroy free_str _ _ _ (own m)); [reflexivity|];
    (eapply spec_new; [apply spec_strdup|]); intros failed [_ Hf]; apply spec_ret; exists m;
    (split; [left_owned|]); (split; [done|]); intros HG; rewrite (Hv HG), (Hf HG);
    (split; [done|]); by split; [apply Hg|apply Hcount].
Qed.

(** The response of a refused request stays, with nothing that points to it. *)
Lemma spec_encode x msg params w :
  server_short x -> opt_str (um_payload msg) = Done params ->
  spec (adapter_encode_mem x msg w) ∅ (fun r Y =>
    let '(rc, out, size, y, w') := r in exists (dropped : hstr) (m : smessage_array),
    Y = own out ⊎ own dropped ⊎ own m /\ (rc = 0 -> dropped = None) /\
    (um_endpoint msg <> "prompts/get"%cs -> m = None) /\
    (grants -> exists o,
       mcp_v1_route_request true (Some x) (Some (um_endpoint msg)) params true w = Done ((rc, o, w'), Some y) /\
       (rc <> 0 -> str dropped = response_of o) /\
       mcp_adapter_encode true (Some x) (Some msg) true w = Done (rc, str out, size, Some y, w') /\
       erase_messages m = prompt_messages x (um_endpoint msg) params w)).
Proof.
  intros Hx Hp. unfold adapter_encode_mem. rewrite Hp. eapply spec_lift_bind; [done|].
  eapply spec_bind; [by apply spec_route_request|].
  intros [[[result out] w'] y] Y (m & -> & Hm & Hg). cbn [fst snd] in *.
  assert (grants -> mcp_adapter_encode true (Some x) (Some msg) true w
    = match response_str out with
      | Some r => if result =? 0 then Done (0, Some r.2, strlen r.2, Some y, w')
                  else Done (result, None, 0, Some y, w')
      | None => Done (result, None, 0, Some y, w')
      end) as Hv.
  { intros HG. unfold mcp_adapter_encode. cbn [negb]. rewrite Hp. cbn [mbind outcome_bind].
    refine (eq_trans (f_equal (mbind _) (proj1 (Hg HG))) _).
    cbn [mbind outcome_bind erased_reply]. rewrite response_erased.
    by destruct (response_str out) as [[p s]|]. }
  pose proof (response_erased out) as Ho.
  destruct (response_str out) as [[p s]|]; [destruct (Z.eqb_spec result 0) as [->|Hrc]|].
  - apply spec_ret. exists None, m. split; [left_owned|]. split; [done|]. split; [done|].
    intros HG. exists (str <$> out). destruct (Hg HG) as [Hr He]. split_and!; [exact Hr|done|by apply Hv|exact He].
  - apply spec_ret. exists (Some (p, s)), m. split; [left_owned|]. split; [done|]. split; [done|].
    intros HG. exists (str <$> out). destruct (Hg HG) as [Hr He].
    split_and!; [exact Hr|by rewrite Ho|by apply Hv|exact He].
  - apply spec_ret. exists None, m. split; [left_owned|]. split; [done|]. split; [done|].
    intros HG. exists (str <$> out). destruct (Hg HG) as [Hr He].
    split_and!; [exact Hr|by rewrite Ho|by apply Hv|exact He].
Qed.

(** What decoding stores into the message. *)
Definition decoded (now : Z) (out : hstr) (msg : unified_message_t) : unified_message_t :=
  match str out with
  | Some r => msg <| um_payload := Some (r ++ [NUL]) |> <| um_payload_size := strlen r |>
                  <| um_protocol := AIRY_PROTOCOL_MCP |> <| um_direction := DIRECTION_RESPONSE |>
                  <| um_timestamp := now |>
  | None => msg
  end.

Lemma spec_decode now x d data_size msg w :
  server_short x -> data_size <> 0 -> data_size <= lenZ d ->
  let input := cstr_of (take (Z.to_nat data_size) d) in
  let method := default "tools/call"%cs (request_method input) in
  spec (adapter_decode_mem x d data_size w) ∅ (fun r Y =>
    let '(rc, out, y, w') := r in exists (dropped : hstr) (m : smessage_array),
    Y = own out ⊎ own dropped ⊎ own m /\ (rc = 0 -> dropped = None) /\
    (grants -> exists o,
       mcp_v1_route_request true (Some x) (Some method) (Some input) true w = Done ((rc, o, w'), Some y) /\
       (rc <> 0 -> str dropped = response_of o) /\
       mcp_adapter_decode (fun _ => true) now (Some x) (Some d) data_size (Some msg) w
         = Done (rc, Some (decoded now out msg), Some y, w') /\
       erase_messages m = prompt_messages x method (Some input) w)).
Proof.
  intros Hx Hz Hle input method. unfold adapter_decode_mem.
  rewrite (proj2 (Z.eqb_neq _ _)), (proj2 (Z.ltb_ge _ _)) by done.
  eapply spec_new; [apply spec_malloc|]. intros [copy|] Hc.
  2:{ apply spec_ret. exists None, None. split; [left_owned|]. split; [done|]. intros HG. by destruct (Hc HG). }
  fold input. eapply spec_new; [apply spec_strdup_opt|]. intros meth [_ Hmeth].
  eapply (spec_step _ _ _ ∅); [by apply spec_route_request|symmetry; apply (left_id_L ∅ (⊎))|].
  intros [[[result out] w'] y] Z (m & -> & _ & Hg). cbn [fst snd] in *.
  eapply (spec_destroy free_str meth _ _ (own (Some copy) ⊎ (own (response_str out) ⊎ own m))); [names_blocks|].
  eapply (spec_destroy free (Some copy) _ _ (own (response_str out) ⊎ own m)); [reflexivity|].
  apply spec_ret.
  exists (if result =? 0 then None else response_str out), m.
  split; [destruct (result =? 0); left_owned|]. split; [intros ->; done|].
  intros HG. rewrite (Hmeth HG) in Hg. destruct (Hg HG) as [Hr He]. exists (str <$> out).
  split; [exact Hr|]. split; [intros Hn; rewrite (proj2 (Z.eqb_neq _ _)) by done; by rewrite response_erased|].
  split; [|exact He]. unfold mcp_adapter_decode.
  rewrite (proj2 (Z.eqb_neq _ _)), (proj2 (Z.ltb_ge _ _)) by done. cbn [negb]. fold input.
  refine (eq_trans (f_equal (mbind _) Hr) _). cbn [mbind outcome_bind erased_reply].
  rewrite response_erased. unfold decoded. destruct (response_str out) as [[p s]|].
  - cbn. by destruct (result =? 0).
  - cbn. by destruct (result =? 0).
Qed.
End routing.

(** ** Streaming calls leave a block per line *)

(** An event that is a line with its data. *)
Definition sse_line (e : mcp_stream_event_t) : bool :=
  match se_type e, se_event_data e with MCP_STREAM_EVENT_CONTENT, Some _ => true | _, _ => false end.

Definition lines (l : list mcp_stream_event_t) : nat := length (filter (fun e => sse_line e = true) l).

Lemma lines_app l k : lines (l ++ k) = (lines l + lines k)%nat.
Proof. unfold lines. by rewrite filter_app, length_app. Qed.

(** [m] calls the callback with as many lines as it leaves blocks, and with the
    events [v] when every request is granted. *)
Definition emits `{Grants} (m : mem (list mcp_stream_event_t)) (v : list mcp_stream_event_t) : Prop :=
  spec m ∅ (fun l Y => size Y = lines l /\ (grants -> l = v)).

(** The blocks so far are those of the lines so far. *)
Ltac counted_lines :=
  rewrite ?gmultiset_size_disj_union, ?gmultiset_size_empty, ?lines_app in *; lia.

Section emitting.
Context `{Grants}.
Implicit Types (X Y : gmultiset addr).

Lemma emits_nil : emits (mret []) [].
Proof. by apply spec_ret. Qed.

(** Events, then more. *)
Lemma spec_emit {B} (m : mem (list mcp_stream_event_t)) v (f : list mcp_stream_event_t -> mem B) X Q :
  emits m v ->
  (forall l L, size L = lines l -> (grants -> l = v) -> spec (f l) (L ⊎ X) Q) ->
  spec (m ≫= f) X Q.
Proof.
  intros Hm Hf. eapply (spec_step _ _ X ∅ X); [exact Hm|symmetry; apply (left_id_L ∅ (⊎))|].
  intros l L [HL Hg]. by apply Hf.
Qed.

Lemma spec_event_init type data X :
  spec (event_init_mem type data) X (fun r Y => Y = own r.2 ⊎ X /\
    r.1 = (mcp_stream_event_init type data) <| se_event_data := str r.2 |> /\ (grants -> str r.2 = data)).
Proof.
  eapply spec_new; [apply spec_strdup_opt|]. intros d [_ Hd]. by apply spec_ret.
Qed.

Lemma event_data_same type data : (mcp_stream_event_init type data) <| se_event_data := data |> = mcp_stream_event_init type data.
Proof. done. Qed.

Lemma emits_progress type data p :
  type <> MCP_STREAM_EVENT_CONTENT -> emits (progress_event_mem type data p) [progress_event type data p].
Proof.
  intros Ht. eapply spec_bind; [apply spec_event_init|]. intros [e d] Y (-> & He & Hd).
  cbn [fst snd] in *. subst e.
  release. apply spec_ret. split.
  - rewrite gmultiset_size_empty. unfold lines, sse_line. by destruct type.
  - intros Hg. by rewrite (Hd Hg).
Qed.

Lemma emits_line field value : emits (emit_sse_line_mem field value) (emit_sse_line field value).
Proof.
  eapply spec_new; [apply spec_malloc|]. intros [p|] Hp.
  - eapply spec_bind; [apply spec_event_init|]. intros [e d] Y (-> & He & Hd).
  cbn [fst snd] in *. subst e.
    eapply (spec_destroy free (Some p) _ _ (own d)); [names_blocks|]. apply spec_ret. split.
    + destruct d as [[q s]|]; [apply gmultiset_size_singleton|apply gmultiset_size_empty].
    + intros Hg. by rewrite (Hd Hg).
  - apply spec_ret. split; [by rewrite (right_id_L ∅ (⊎)), own_none|]. intros Hg. by destruct (Hp Hg).
Qed.

Lemma emits_event event_type json_data :
  emits (emit_sse_event_mem event_type json_data) (emit_sse_event event_type json_data).
Proof.
  eapply spec_emit; [apply emits_line|]. intros e1 L1 H1 G1.
  eapply spec_emit; [apply emits_line|]. intros e2 L2 H2 G2.
  eapply spec_emit; [apply emits_line|]. intros e3 L3 H3 G3. apply spec_ret. split; [counted_lines|].
  intros Hg. by rewrite (G1 Hg), (G2 Hg), (G3 Hg).
Qed.

Lemma emits_tool_chunks index type text_len l :
  let chunk_json := "{'index':"%cs ++ dec index ++ ",'type':'"%cs ++ mcp_type_str type
                    ++ "','partial':true}"%cs in
  emits (tool_chunks_mem chunk_json text_len l)
    (concat ((fun '(offset, chunk) =>
       emit_sse_event "tools/call/chunk"%cs (tool_chunk_data index type offset chunk)
       ++ [progress_event MCP_STREAM_EVENT_PROGRESS None (percent (offset + lenZ chunk) text_len 80)]) <$> l)).
Proof.
  intros chunk_json. induction l as [|[offset chunk] l IH]; [apply emits_nil|].
  eapply spec_new; [apply spec_escape|]. intros esc [_ Hesc]. release.
  eapply spec_emit; [apply emits_event|]. intros e L1 H1 G1.
  eapply spec_emit; [by apply emits_progress|]. intros p L2 H2 G2.
  eapply spec_emit; [exact IH|]. intros rest L3 H3 G3. apply spec_ret. split; [counted_lines|].
  intros Hg. rewrite (G1 Hg), (G2 Hg), (G3 Hg), (printed_str_granted _ _ (Hesc Hg)).
  cbn [fmap list_fmap concat]. by rewrite <- app_assoc.
Qed.

Lemma emits_result_chunks i l :
  emits (result_chunks_mem i l) (result_chunk_events (fun _ => true) i (erase_content <$> l)).
Proof.
  revert i. induction l as [|c l IH]; intros i; [apply emits_nil|]. cbn [result_chunks_mem].
  eapply spec_new; [apply spec_malloc|]. intros buf Hb. rewrite (right_id_L ∅ (⊎)).
  eapply (spec_bind _ _ _ (fun e Y => size Y = lines e /\
    (grants -> e = tool_chunk_events (Z.of_nat i) (erase_content c)))).
  { destruct buf as [p|].
    - eapply spec_emit; [apply emits_tool_chunks|]. intros e L HL Hg.
      eapply (spec_destroy free (Some p) _ _ L); [apply (comm_L (⊎))|]. apply spec_ret. by split.
    - apply spec_ret. split; [by rewrite own_none|]. intros Hg. by destruct (Hb Hg). }
  intros e Y [HY Hg]. eapply spec_emit; [apply IH|]. intros rest L HL Hr. apply spec_ret.
  split; [counted_lines|]. intros HG. by rewrite (Hg HG), (Hr HG).
Qed.

Lemma emits_sampling_chunks model index text_len l :
  emits (sampling_chunks_mem model index text_len l)
    (concat ((fun '(offset, chunk) =>
       emit_sse_event "sampling/chunk"%cs (sampling_chunk_data model index chunk)
       ++ [progress_event MCP_STREAM_EVENT_PROGRESS None (percent (offset + lenZ chunk) text_len 90)]) <$> l)).
Proof.
  induction l as [|[offset chunk] l IH]; [apply emits_nil|].
  eapply spec_new; [apply spec_escape|]. intros esc [_ Hesc].
  eapply spec_new; [apply spec_escape|]. intros mesc [_ Hmesc]. release. release.
  eapply spec_emit; [apply emits_event|]. intros e L1 H1 G1.
  eapply spec_emit; [by apply emits_progress|]. intros p L2 H2 G2.
  eapply spec_emit; [exact IH|]. intros rest L3 H3 G3. apply spec_ret. split; [counted_lines|].
  intros Hg. rewrite (G1 Hg), (G2 Hg), (G3 Hg), (printed_str_granted _ _ (Hesc Hg)), (printed_str_granted _ _ (Hmesc Hg)).
  cbn [fmap list_fmap concat]. by rewrite <- app_assoc.
Qed.

Lemma emits_sampling_contents model i l :
  emits (sampling_contents_mem model i l)
    (concat (imap (fun k c => sampling_chunk_events model (Z.of_nat (i + k)) (erase_content c)) l)).
Proof.
  revert i. induction l as [|c l IH]; intros i; [apply emits_nil|]. cbn [sampling_contents_mem].
  eapply spec_emit; [apply emits_sampling_chunks|]. intros e L1 H1 G1.
  eapply spec_emit; [apply (IH (S i))|]. intros rest L2 H2 G2. apply spec_ret. split; [counted_lines|].
  intros Hg. rewrite (G1 Hg), (G2 Hg), imap_cons. cbn [concat]. rewrite Nat.add_0_r. f_equal. f_equal.
  apply imap_ext. intros k d _. cbn. by rewrite Nat.add_succ_r.
Qed.
End emitting.

Section streams.
Context `{Grants} `{Handlers} `{!HandlersOk} {W : Type} `{AiryErr}.
Implicit Types (x : @mcp_v1_context_t W) (w : W) (X Y : gmultiset addr).

(** The final text of a streaming tool call, in a buffer of its own. *)
Lemma emits_final (buf : option addr) (l : list content_h) is_error :
  short_contents (erase_content <$> l) -> (grants -> is_Some buf) ->
  spec (match buf with
        | None => mret []
        | Some p =>
            text ← pieces_mem (4096 + lenZ l * 1024)
                     ("{'isError':"%cs ++ bool_text is_error ++ ",'content':["%cs) content_item_mem l;
            e ← emit_sse_event_mem "tools/call/result"%cs text;
            _ ← free (Some p);
            mret e
        end) (own buf) (fun e Y => size Y = lines e /\
    (grants -> exists text,
       sn_run (result_buf_size (erase_content <$> l)) (result_pieces is_error (erase_content <$> l)) = Done text /\
       e = emit_sse_event "tools/call/result"%cs text)).
Proof.
  intros Hshort Hb. destruct buf as [p|].
  - eapply spec_bind; [eapply (spec_pieces _ _ 4 1024); [by apply printed_result|lia|]|].
    { rewrite Z.mul_comm. apply Z.add_le_mono_r. by destruct is_error. }
    intros text Y [-> Ht]. eapply spec_emit; [apply emits_event|]. intros e L HL Hg.
    eapply (spec_destroy free (Some p) _ _ L); [apply (comm_L (⊎))|]. apply spec_ret. split; [done|].
    intros HG. exists text. split; [|by apply Hg]. rewrite <- (Ht HG).
    unfold result_buf_size, result_pieces, list_pieces. by rewrite comma_sep_fmap, lenZ_fmap.
  - apply spec_ret. split; [by rewrite own_none|]. intros Hg. by destruct (Hb Hg).
Qed.

(** A streaming call leaves a block for every line it sent. *)
Definition streams (m : mem (Z * W * list mcp_stream_event_t)) (v : outcome (Z * W * list mcp_stream_event_t))
    : Prop :=
  spec m ∅ (fun r Y => size Y = lines r.2 /\ (grants -> v = Done r)).

Lemma streams_tools_call x name args w :
  server_short x ->
  streams (handle_tools_call_streaming_mem x name args w)
    (mcp_v1_handle_tools_call_streaming (fun _ => true) true (Some x) (Some name) args true w).
Proof.
  intros [[_ Hl] _ _ _ Hr _]. unfold handle_tools_call_streaming_mem, mcp_v1_handle_tools_call_streaming.
  cbn [negb].
  destruct (find_named_in (fun e : @mcp_tool_entry_t W => tl_name (te_tool e)) name (mx_tools x))
    as (found & Hf & Hin).
  { eapply Forall_impl; [exact Hl|]. by intros e [He _]. }
  unfold streams. rewrite Hf. cbn [mbind outcome_bind].
  eapply spec_emit; [by apply emits_progress|]. intros start L0 H0' G0.
  eapply spec_lift_bind; [done|]. destruct found as [e|].
  2:{ eapply spec_new; [apply spec_escape|]. intros esc [_ Hesc]. release.
      eapply spec_emit; [apply emits_event|]. intros e L1 H1' G1.
      eapply spec_emit; [by apply emits_progress|]. intros d L2 H2' G2. apply spec_ret.
      split; [cbn [snd]; counted_lines|]. intros Hg. unfold tool_not_found.
      by rewrite (G0 Hg), (G1 Hg), (G2 Hg), (printed_str_granted _ _ (Hesc Hg)). }
  rewrite Forall_forall in Hr. destruct (Hr e (Hin e eq_refl)) as (handler & -> & Hshort).
  specialize (Hshort name args w). destruct (handler name args w) as [w' [results is_error]]. cbn [fst snd] in Hshort.
  eapply spec_new; [apply hand_contents_ok|]. intros a [Ha Hag]. specialize (Ha Hshort).
  pose proof (proj1 Ha) as Hlen. unfold erase_contents in Hlen. rewrite lenZ_fmap in Hlen.
  eapply spec_emit; [apply emits_result_chunks|]. intros chunks L1 H1' G1.
  change ((SIZE_MAX - 4096) / 1024) with 18014398509481979.
  rewrite (proj2 (Z.leb_le _ _)) by lia.
  eapply spec_new; [apply spec_malloc|]. intros buf Hb.
  eapply spec_step; [by apply emits_final|reflexivity|]. intros final L2 [H2' G2]. cbn beta.
  eapply (spec_emit _ [if is_error
       then progress_event MCP_STREAM_EVENT_ERROR (Some "completed with errors"%cs) (f64_of_Z 100)
       else progress_event MCP_STREAM_EVENT_DONE (Some "completed successfully"%cs) (f64_of_Z 100)]).
  { destruct is_error; by apply emits_progress. }
  intros d L3 H3' G3.
  eapply (spec_destroy mcp_content_destroy a _ _ (L3 ⊎ (L2 ⊎ (L1 ⊎ L0)))).
  { generalize (own a). intros. clear. multiset_solver. }
  apply spec_ret. split; [cbn [snd]; counted_lines|]. intros Hg. destruct (G2 Hg) as (text & Ht & ->).
  specialize (Hag Hg). subst results. unfold erase_contents in Ht |- *.
  rewrite lenZ_fmap, (proj2 (Z.ltb_ge _ _)) by lia. cbn [negb andb]. rewrite Ht.
  cbn [mbind outcome_bind]. by rewrite (G0 Hg), (G1 Hg), (G3 Hg).
Qed.

(** The messages of the result are not released either. *)
Lemma streams_sampling x p w :
  spec (handle_sampling_streaming_mem x p w) ∅ (fun r Y => exists (messages : option addr) L,
    Y = L ⊎ own messages /\ size L = lines r.2 /\ (r.1.1 <> 0 -> messages = None) /\
    (grants -> mcp_v1_handle_sampling_streaming (Some x) (Some p) true w = r)).
Proof.
  unfold handle_sampling_streaming_mem, mcp_v1_handle_sampling_streaming. cbn [negb].
  assert (forall rc v, (grants -> v = (rc, w, [])) -> spec (mret (rc, w, [])) ∅ (fun r Y =>
    exists (messages : option addr) L, Y = L ⊎ own messages /\ size L = lines r.2 /\
      (r.1.1 <> 0 -> messages = None) /\ (grants -> v = r))) as Hno.
  { intros rc v Hv. apply spec_ret. exists None, ∅. split; [symmetry; apply (right_id_L ∅ (⊎))|].
    split; [apply gmultiset_size_empty|]. by split. }
  destruct (mx_sampling_handler x) as [handler|]; [|by apply Hno].
  destruct (negb (has_cap _ _)); [by apply Hno|].
  eapply spec_emit; [by apply emits_progress|]. intros start L0 H0' G0.
  destruct (handler p empty_result w) as [w' v].
  eapply spec_new; [apply hand_sampling_ok|]. intros r Hr.
  eapply spec_emit; [apply emits_sampling_contents|]. intros chunks L1 H1' G1.
  eapply spec_new; [apply spec_escape|]. intros me [_ Hme].
  eapply spec_new; [apply spec_escape|]. intros se [_ Hse]. cbv zeta.
  eapply (spec_destroy free_str me _ _ (own se ⊎ (L1 ⊎ (own r ⊎ (L0 ⊎ ∅))))).
  { generalize (own me), (own se), (own r). intros. clear. multiset_solver. }
  eapply (spec_destroy free_str se _ _ (L1 ⊎ (own r ⊎ (L0 ⊎ ∅)))); [done|].
  eapply spec_emit; [apply emits_event|]. intros e L2 H2' G2.
  eapply spec_emit; [by apply emits_progress|]. intros d L3 H3' G3.
  eapply (spec_step _ _ _ _ (L3 ⊎ (L2 ⊎ (L1 ⊎ (own (sh_messages r) ⊎ L0))))); [apply spec_sampling_destroy|..].
  { change (own r) with (own (sh_model r) ⊎ (own (sh_stop_reason r) ⊎ (own (sh_content r) ⊎ own (sh_messages r)))).
    generalize (own (sh_model r)), (own (sh_stop_reason r)), (own (sh_content r)), (own (sh_messages r)).
    intros. clear. multiset_solver. }
  intros _ Z ->. apply spec_ret. exists (sh_messages r), (L3 ⊎ (L2 ⊎ (L1 ⊎ L0))).
  split; [generalize (own (sh_messages r)); intros; clear; multiset_solver|].
  split; [cbn [snd]; counted_lines|]. split; [done|]. intros Hg.
  destruct (Hr Hg) as (Hm & Hs & Hc).
  rewrite (G0 Hg), (G1 Hg), (G2 Hg), (G3 Hg), (printed_str_granted _ _ (Hme Hg)), (printed_str_granted _ _ (Hse Hg)).
  rewrite <- Hm, <- Hs, <- Hc.
  assert (default [] ((fun _ => erase_contents (sh_content r)) <$> sh_content r) = erase_contents (sh_content r)) as ->.
  { by destruct (sh_content r) as [[q l]|]. }
  do 3 f_equal. unfold erase_contents. f_equal. rewrite imap_fmap. by apply imap_ext.
Qed.
End streams.

(** ** Requests, from the heap they start with to the one they leave *)


(** C18. Responses that are dropped.  When the adapter encodes or decodes a
    message and the server refuses the request with a text (an unknown method,
    tool, resource or prompt), that text is neither handed out nor released:
    its block stays live with nothing that points to it.  Nothing else stays
    but what was live, the response handed out and the messages of a prompt;
    a request that succeeds drops nothing; and when nothing is refused, code,
    response and world are those of the adapter on values. *)
Theorem dropped_responses {W} `{Handlers} `{AiryErr} `{AiryString} `{CJson}
    now (x : @mcp_v1_context_t W) msg params d data_size w h :
  heap_wf h -> (forall G : Grants, HandlersOk) -> server_short x ->
  opt_str (um_payload msg) = Done params -> data_size <> 0 -> data_size <= lenZ d ->
  (exists rc out size y w' (dropped : hstr) (m : smessage_array) h',
    adapter_encode_mem x msg w h = Done (rc, out, size, y, w', h') /\
    hp_live h' = own out ⊎ own dropped ⊎ own m ⊎ hp_live h /\ (rc = 0 -> dropped = None) /\
    ((forall p, hp_oracle h p = true) -> exists o,
       mcp_v1_route_request true (Some x) (Some (um_endpoint msg)) params true w
         = Done ((rc, o, w'), Some y) /\
       (rc <> 0 -> str dropped = response_of o) /\
       mcp_adapter_encode true (Some x) (Some msg) true w = Done (rc, str out, size, Some y, w') /\
       erase_messages m = prompt_messages x (um_endpoint msg) params w)) /\
  (let input := cstr_of (take (Z.to_nat data_size) d) in
   let method := default "tools/call"%cs (request_method input) in
   exists rc out y w' (dropped : hstr) (m : smessage_array) h',
    adapter_decode_mem x d data_size w h = Done (rc, out, y, w', h') /\
    hp_live h' = own out ⊎ own dropped ⊎ own m ⊎ hp_live h /\ (rc = 0 -> dropped = None) /\
    ((forall p, hp_oracle h p = true) -> exists o,
       mcp_v1_route_request true (Some x) (Some method) (Some input) true w
         = Done ((rc, o, w'), Some y) /\
       (rc <> 0 -> str dropped = response_of o) /\
       mcp_adapter_decode (fun _ => true) now (Some x) (Some d) data_size (Some msg) w
         = Done (rc, Some (decoded now out msg), Some y, w') /\
       erase_messages m = prompt_messages x method (Some input) w)).
Proof.
  intros Hwf Hh Hx Hp Hz Hle. split.
  - destruct (spec_run _ _ h Hwf (spec_encode (H1 := Hh _) x msg params w Hx Hp))
      as ([[[[rc out] size] y] w'] & h' & Y & Hr & _ & Hl & dropped & m & -> & Hd & _ & Hv).
    exists rc, out, size, y, w', dropped, m, h'. by split_and!.
  - destruct (spec_run _ _ h Hwf (spec_decode (H1 := Hh _) now x d data_size msg w Hx Hz Hle))
      as ([[[rc out] y] w'] & h' & Y & Hr & _ & Hl & dropped & m & -> & Hd & Hv).
    exists rc, out, y, w', dropped, m, h'. by split_and!.
Qed.


(** *** Where requests do fault *)

Lemma find_named_null {A} (name_of : A -> option bytes) name l a r :
  none_named name_of name l -> name_of a = None -> find_named name_of name (l ++ a :: r) = Fault.
Proof.
  induction 1 as [|b l (n & Hb & Hne) _ IH]; intros Ha; cbn [app find_named]; [by rewrite Ha|].
  rewrite Hb. unfold streq. rewrite bool_decide_eq_false_2 by done. by apply IH.
Qed.

Lemma strdup_opt_done s h : exists r h', strdup_opt s h = Done (r, h').
Proof. destruct s as [s|]; [|by eexists _, _]. cbn. unfold strdup, mbind, mem_bind, malloc. cbn.
  destruct (hp_oracle h (hp_next h)); eexists _, _; reflexivity. Qed.

(** A tool registered while the copy of its name is refused is registered all
    the same, with code 0 and a null name.  From then on every call of a name
    that no tool before it has compares with that null pointer. *)
Theorem refused_name_faults {W} `{Handlers} `{AiryErr} (m : mcp_mem W) tool handler name args w h :
  lenZ (ar_items (pm_tools m)) < mc_max_tools (mx_config (pm_fields m)) ->
  lenZ (ar_items (pm_tools m)) < ar_capacity (pm_tools m) ->
  is_Some (tl_name tool) -> hp_oracle h (hp_next h) = false ->
  none_named (fun e => tl_name (te_tool e)) name (mx_tools (erase_mcp m)) ->
  exists m' h', register_tool_mem m tool handler h = Done (0, m', h') /\
    forall h2, handle_tools_call_mem (erase_mcp m') name args w h2 = Fault.
Proof.
  intros Hmax Hroom [n Hn] Ho Hnone. unfold register_tool_mem. rewrite (proj2 (Z.leb_gt _ _)) by done.
  assert (exists t h1, fill_tool tool handler h = Done (t, h1) /\ tg_name t = None) as (t & h1 & Hf & Hname).
  { unfold fill_tool. erewrite mem_bind_done.
    2:{ rewrite Hn. cbn. unfold strdup, mbind, mem_bind, malloc. rewrite Ho. reflexivity. }
    set (h0 := mkHeap _ _ _). destruct (strdup_opt_done (tl_description tool) h0) as (d & h2 & Hd).
    erewrite mem_bind_done by exact Hd.
    destruct (strdup_opt_done (tl_input_schema_json tool) h2) as (i & h3 & Hi).
    erewrite mem_bind_done by exact Hi. by eexists _, _. }
  assert (push_mem (fill_tool tool handler) (pm_tools m) h
    = Done (Some (mkArray _ (ar_block (pm_tools m)) (ar_items (pm_tools m) ++ [t]) (ar_capacity (pm_tools m))), h1))
    as Hpush.
  { unfold push_mem. rewrite (proj2 (Z.leb_gt _ _)) by done. erewrite mem_bind_done by reflexivity. cbn beta iota.
    rewrite (proj2 (Z.ltb_lt _ _)) by done. by erewrite mem_bind_done by exact Hf. }
  erewrite mem_bind_done by exact Hpush.
  eexists _, h1. split; [reflexivity|]. intros h2.
  unfold handle_tools_call_mem, erase_mcp. cbn [mx_tools pm_tools pm_fields ar_items].
  cbn. rewrite fmap_app. cbn [fmap list_fmap].
  rewrite find_named_null; [done|exact Hnone|]. cbn. by rewrite Hname.
Qed.

(** ** Handlers that copy what they hand over *)

Definition copy_content (c : mcp_content_t) : mem content_h :=
  text ← strdup_opt (ct_text c);
  mime_type ← strdup_opt (ct_mime_type c);
  uri ← strdup_opt (ct_uri c);
  data ← strdup_opt (ct_data c);
  mret (mkContentH (ct_type c) text mime_type uri data (ct_data_size c)).

Fixpoint copy_all {A B} (f : A -> mem B) (l : list A) : mem (list B) :=
  match l with [] => mret [] | a :: r => b ← f a; bs ← copy_all f r; mret (b :: bs) end.

(** An array and its elements, or nothing. *)
Definition copy_array {A B} (f : A -> mem B) (l : list A) : mem (option (addr * list B)) :=
  p ← malloc;
  match p with None => mret None | Some p => bs ← copy_all f l; mret (Some (p, bs)) end.

Definition copy_smessage (m : mcp_sampling_message_t) : mem smessage_h :=
  role ← strdup_opt (sm_role m);
  content ← match sm_content m with Some l => copy_array copy_content l | None => mret None end;
  mret (mkSMessageH role content).

Definition copy_sampling (r : mcp_sampling_result_t) : mem sampling_result_h :=
  model ← strdup_opt (sr_model r);
  content ← match sr_content r with Some l => copy_array copy_content l | None => mret None end;
  messages ← match sr_messages r with [] => mret None | _ => malloc end;
  stop ← strdup_opt (sr_stop_reason r);
  mret (mkSamplingH model content messages stop).

Definition inst_handlers : Handlers :=
  Build_Handlers strdup_opt (copy_array copy_content) (copy_array copy_smessage) copy_sampling.

Section copies.
Context `{Grants}.

(** Each copy has the property, and is the original when memory suffices. *)
Lemma spec_copy_array {A B} `{Owns B} (f : A -> mem B) (erase : B -> A) (P : A -> B -> Prop) l :
  (forall a, constructs (f a) (fun b => P a b /\ (grants -> erase b = a))) ->
  constructs (copy_array f l) (fun o =>
    (o = None \/ Forall2 P l (from_option snd [] o)) /\
    (grants -> is_Some o /\ erase <$> from_option snd [] o = l)).
Proof.
  intros Hf.
  assert (constructs (copy_all f l) (fun bs => Forall2 P l bs /\ (grants -> erase <$> bs = l))) as Hall.
  { induction l as [|a l IH]; [by apply spec_ret|]. cbn [copy_all].
    eapply spec_new; [apply Hf|]. intros b [Hb Hg]. eapply spec_new; [exact IH|]. intros bs [Hbs Hgs].
    apply spec_ret. split; [rewrite own_cons; names_blocks|]. split; [by constructor|].
    intros HG. cbn. by rewrite (Hg HG), (Hgs HG). }
  eapply spec_new; [apply spec_malloc|]. intros [p|] Hp.
  - eapply spec_new; [exact Hall|]. intros bs [Hbs Hg]. apply spec_ret.
    split; [rewrite !own_some, own_pair_eq; names_blocks|]. split; [by right|]. intros HG. split; [done|by apply Hg].
  - apply spec_ret. split; [by rewrite (right_id_L ∅ (⊎))|]. split; [by left|]. intros HG. by destruct (Hp HG).
Qed.

(** A copy has the type of the original, and its text if it has one. *)
Definition content_copy (c : mcp_content_t) (b : content_h) : Prop :=
  ch_type b = ct_type c /\ (str (ch_text b) = None \/ str (ch_text b) = ct_text c).

Lemma own_content_eq t a b c d n : own (mkContentH t a b c d n) = own [a; b; c; d].
Proof. done. Qed.

Lemma spec_copy_content c :
  constructs (copy_content c) (fun b => content_copy c b /\ (grants -> erase_content b = c)).
Proof.
  eapply spec_new; [apply spec_strdup_opt|]. intros t [Ht Htg].
  eapply spec_new; [apply spec_strdup_opt|]. intros m [_ Hm].
  eapply spec_new; [apply spec_strdup_opt|]. intros u [_ Hu].
  eapply spec_new; [apply spec_strdup_opt|]. intros d [_ Hd]. apply spec_ret.
  split; [rewrite own_content_eq; blocks|]. split; [by split|]. intros Hg. unfold erase_content. cbn.
  rewrite (Htg Hg), (Hm Hg), (Hu Hg), (Hd Hg). by destruct c.
Qed.

Lemma short_contents_copy l bs :
  Forall2 content_copy l bs -> short_contents l -> short_contents (erase_content <$> bs).
Proof.
  intros Hc [Hn Hl]. split; [rewrite lenZ_fmap; unfold lenZ in *; by rewrite <- (Forall2_length _ _ _ Hc)|].
  clear Hn. induction Hc as [|c b l bs [Ht Htext] _ IH]; [constructor|].
  apply Forall_cons in Hl as [Hcl Hl]. apply Forall_cons. split; [|by apply IH]. clear IH Hl.
  unfold content_item in *. cbn [erase_content ct_type ct_text]. rewrite Ht.
  destruct Htext as [-> | ->]; [|exact Hcl]. by destruct (ct_type c).
Qed.

Definition message_copy (m : mcp_sampling_message_t) (b : smessage_h) : Prop :=
  (str (xh_role b) = None \/ str (xh_role b) = sm_role m) /\
  match xh_content b with
  | None => True
  | Some (_, bs) => exists l, sm_content m = Some l /\ Forall2 content_copy l bs
  end.

Lemma spec_copy_smessage m :
  constructs (copy_smessage m) (fun b => message_copy m b /\ (grants -> erase_smessage b = m)).
Proof.
  eapply spec_new; [apply spec_strdup_opt|]. intros role [Hr Hrg].
  eapply (spec_new _ _ _ (fun o : content_array =>
    match o with None => True | Some (_, bs) => exists l, sm_content m = Some l /\ Forall2 content_copy l bs end /\
    (grants -> (fun _ => erase_contents o) <$> o = sm_content m))).
  { destruct (sm_content m) as [l|]; [|by apply spec_ret].
    eapply spec_conseq; [apply spec_copy_array, spec_copy_content|done|].
    intros o Y (-> & Ho & Hg). split; [done|]. split.
    - destruct o as [[q bs]|]; [|done]. destruct Ho as [|Ho]; [done|]. by exists l.
    - intros HG. destruct (Hg HG) as [[[q bs] ->] He]. unfold erase_contents, contents_of. cbn in *. by rewrite He. }
  intros o [Ho Hog]. apply spec_ret.
  split; [change (own (mkSMessageH role o)) with (own role ⊎ own o); names_blocks|].
  split; [by split|]. intros Hg. unfold erase_smessage. cbn [xh_role xh_content].
  rewrite (Hrg Hg), (Hog Hg). by destruct m.
Qed.

Lemma short_message_copy m b : message_copy m b -> short_message m -> short_message (erase_smessage b).
Proof.
  intros [Hr Hc]. unfold short_message, message_item. cbn [erase_smessage sm_role sm_content].
  destruct (content_as_string (sm_content m)) as [s|] eqn:Hs; [|done]. cbn [mbind outcome_bind].
  intros Hlen.
  assert (exists t, content_as_string ((fun _ => erase_contents (xh_content b)) <$> xh_content b) = Done t /\
    (lenZ (json_string_escape (Some t)) <= 3) /\
    lenZ (json_string_escape (Some t)) <= lenZ (json_string_escape (Some s))) as (t & -> & Ht & Hts).
  { assert (2 <= lenZ (json_string_escape (Some s))) as H2.
    { cbn [json_string_escape]. rewrite lenZ_cons, lenZ_app. change (lenZ [QUOTE]) with 1.
      pose proof (lenZ_nonneg (concat (escape_char <$> s))). lia. }
    destruct (xh_content b) as [[q bs]|]; [|by exists []].
    destruct Hc as (l & Hl & Hf). rewrite Hl in Hs. destruct Hf as [|c d l bs [Ht _] _]; [done|].
    exists s. unfold erase_contents, contents_of. cbn in *. rewrite Ht. injection Hs as <-.
    by destruct (ct_type c). }
  cbn [mbind outcome_bind]. destruct Hr as [-> | ->].
  - cbn [json_string_escape] in Ht |- *. rewrite !lenZ_app. cbn [json_string_escape] in *.
    change (lenZ "{'role':"%cs) with 8. change (lenZ "null"%cs) with 4.
    change (lenZ ",'content':{'type':'text','text':'"%cs) with 34. change (lenZ "'}}"%cs) with 3. lia.
  - rewrite !lenZ_app in Hlen |- *. lia.
Qed.

Lemma handlers_ok : HandlersOk (H0 := inst_handlers).
Proof.
  split.
  - apply spec_strdup_opt.
  - intros l. eapply spec_conseq; [apply spec_copy_array, spec_copy_content|done|].
    intros o Y (-> & Ho & Hg). split; [done|]. split; [|intros HG; by apply Hg].
    intros Hl. destruct Ho as [->|Ho]; [split; [by vm_compute|constructor]|].
    by eapply short_contents_copy.
  - intros l. eapply spec_conseq; [apply spec_copy_array, spec_copy_smessage|done|].
    intros o Y (-> & Ho & Hg). split; [done|]. split; [|intros HG; by apply Hg].
    intros [Hn Hl]. destruct Ho as [->|Ho]; [split; [by vm_compute|constructor]|].
    unfold erase_messages, messages_of. split; [rewrite lenZ_fmap; unfold lenZ in *; by rewrite <- (Forall2_length _ _ _ Ho)|].
    clear Hn Hg. induction Ho as [|m b l bs Hm _ IH]; [constructor|]. apply Forall_cons in Hl as [Hml Hl].
    apply Forall_cons. split; [by eapply short_message_copy|by apply IH].
  - intros r. eapply spec_new; [apply spec_strdup_opt|]. intros model [_ Hm].
    eapply (spec_new _ _ _ (fun o : content_array => grants -> (fun _ => erase_contents o) <$> o = sr_content r)).
    { destruct (sr_content r) as [l|]; [|by apply spec_ret].
      eapply spec_conseq; [apply spec_copy_array, spec_copy_content|done|].
      intros o Y (-> & _ & Hg). split; [done|]. intros HG. destruct (Hg HG) as [[[q bs] ->] He].
      unfold erase_contents, contents_of. cbn in *. by rewrite He. }
    intros content Hc.
    eapply (spec_new _ _ _ (fun _ : option addr => True)).
    { destruct (sr_messages r); [by apply spec_ret|]. eapply spec_conseq; [apply spec_malloc|done|].
      by intros o Y [-> _]. }
    intros messages _. eapply spec_new; [apply spec_strdup_opt|]. intros stop [_ Hs]. apply spec_ret.
    split.
    + change (own (mkSamplingH model content messages stop))
        with (own model ⊎ (own stop ⊎ (own content ⊎ own messages))). names_blocks.
    + intros Hg. split_and!; [by apply Hm|by apply Hs|by apply Hc].
Qed.
End copies.

(** ** Samples *)

Lemma test_context_short : server_short (test_context [hello_tool]).
Proof.
  split.
  - split; [by vm_compute|]. by repeat constructor.
  - split; [by vm_compute|]. by repeat constructor.
  - split; [by vm_compute|]. constructor.
  - split; [by vm_compute|]. constructor.
  - constructor; [|constructor]. eexists. split; [reflexivity|]. intros name args w.
    split; [by vm_compute|]. by repeat constructor.
  - constructor.
Qed.


Lemma dropped_responses_witness :
  let x := test_context [hello_tool] in
  let msg := um_zero <| um_endpoint := "tools/delete"%cs |> <| um_payload := Some ("{}"%cs ++ [NUL]) |> in
  let h := heap_init (fun _ => true) in
  exists rc out size y w' (dropped : hstr) (m : smessage_array) h',
    @adapter_encode_mem Z inst_err inst_string inst_cjson inst_handlers x msg 5 h
      = Done (rc, out, size, y, w', h') /\
    hp_live h' = own out ⊎ own dropped ⊎ own m ⊎ hp_live h /\ str dropped = Some method_not_found.
Proof.
  intros x msg h.
  destruct (@dropped_responses Z inst_handlers inst_err inst_string inst_cjson 9 x msg (Some "{}"%cs)
    "{}"%cs 2 5 h) as [(rc & out & size & y & w' & dropped & m & h' & Hr & Hl & Hd & Hv) _].
  - apply heap_init_wf.
  - intros G. apply handlers_ok.
  - apply test_context_short.
  - by vm_compute.
  - done.
  - by vm_compute.
  - destruct (Hv (fun _ => eq_refl)) as (o & Ho & Hdo & _).
    exists rc, out, size, y, w', dropped, m, h'. split; [exact Hr|]. split; [exact Hl|].
    vm_compute in Ho. injection Ho as <- <- _ _. by apply Hdo.
Defined.


Lemma refused_name_faults_witness :
  exists m h1 m' h', @context_create_mcp Z (Some mcp_v1_config_default) (heap_init (fun p => negb (p =? 7)%nat))
      = Done (Some m, h1) /\
    @register_tool_mem Z inst_err m (te_tool hello_tool) (te_handler hello_tool) h1 = Done (0, m', h') /\
    forall h2, @handle_tools_call_mem Z inst_err inst_handlers (erase_mcp m') "hello"%cs None 5 h2 = Fault.
Proof.
  eexists _, _.
  match goal with |- exists m' h', ?c = Done (Some ?m, ?h) /\ _ =>
    assert (c = Done (Some m, h)) as Hc by (vm_compute; reflexivity) end.
  edestruct (@refused_name_faults Z inst_handlers inst_err) as (m' & h' & Hr & Hf);
    [..|exists m', h'; split; [exact Hc|]; split; [exact Hr|exact Hf]];
    first [by vm_compute | by eexists | constructor].
Defined.
