(* ===== verification/ServerLife.v ===== *)
(** * The life of an MCP server and its memory

    No code of its own: a context created on the heap, the registrations,
    connections and requests of any session with it, and its destruction,
    composed from McpMem and ServerMem as a daemon that serves MCP does. *)

From S2P Require Export ServerMem.
From S2P Require Import EnvInst.
#[local] Open Scope Z_scope.

Inductive sv_op {W : Type} :=
| SvCall (op : mcp_op W)
| SvRequest (msg : unified_message_t).
Arguments sv_op : clear implicits.

(** The code and the response. *)
Definition sv_out : Type := Z * option bytes.

Section life.
Context {W : Type} `{AiryErr} `{AiryString} `{CJson} `{Handlers}.
Implicit Types (m : mcp_mem W) (x : @mcp_v1_context_t W) (w : W).

(** A request changes the counter and the log level. *)
Definition with_counters m (y : @mcp_v1_context_t W) : mcp_mem W :=
  m <| pm_fields := (pm_fields m) <| mx_request_counter := mx_request_counter y |>
                                  <| mx_log_level := mx_log_level y |> |>.

(** The caller releases the response of a request. *)
Definition sv_step (op : sv_op W) m w : mem (sv_out * mcp_mem W * W) :=
  match op with
  | SvCall op => '(rc, m) ← mcp_step op m; mret (rc, None, m, w)
  | SvRequest msg =>
      '(rc, out, y, w) ← adapter_handle_request_mem (erase_mcp m) msg w;
      _ ← free_str out;
      mret (rc, str out, with_counters m y, w)
  end.

Fixpoint sv_run (ops : list (sv_op W)) m w : mem (list sv_out * mcp_mem W * W) :=
  match ops with
  | [] => mret ([], m, w)
  | op :: ops =>
      '(out, m, w) ← sv_step op m w;
      '(outs, m, w) ← sv_run ops m w;
      mret (out :: outs, m, w)
  end.

Definition server_life (config : mcp_v1_config_t) (ops : list (sv_op W)) w
    : mem (option (list sv_out * W)) :=
  ctx ← context_create_mcp (Some config);
  match ctx with
  | None => mret None
  | Some m =>
      '(outs, m, w) ← sv_run ops m w;
      _ ← context_destroy_mcp (Some m);
      mret (Some (outs, w))
  end.

(** The same on values, with the messages each request makes a handler hand
    over. *)
Definition sv_value_step (op : sv_op W) x w
    : outcome (sv_out * list (list mcp_sampling_message_t) * option (@mcp_v1_context_t W) * W) :=
  match op with
  | SvCall op => '(rc, y) ← mcp_value_step op x; Done (rc, None, [], y, w)
  | SvRequest msg =>
      params ← opt_str (um_payload msg);
      let messages := prompt_messages x (request_of msg) (Some (default "{}"%cs params)) w in
      '(rc, out, y, w) ← mcp_adapter_handle_request true (Some x) (Some msg) true w;
      Done (rc, out, [messages], y, w)
  end.

Fixpoint sv_value_run (ops : list (sv_op W)) x w
    : outcome (list sv_out * list (list mcp_sampling_message_t) * @mcp_v1_context_t W * W) :=
  match ops with
  | [] => Done ([], [], x, w)
  | op :: ops =>
      '(out, messages, y, w) ← sv_value_step op x w;
      '(outs, rest, x, w) ← sv_value_run ops (default x y) w;
      Done (out :: outs, messages ++ rest, x, w)
  end.
End life.

(** ** What keeps a server short *)

Section short.
Context {W : Type} `{AiryErr}.
Implicit Types (x y : @mcp_v1_context_t W).

(** Entries are named, render short and come with handlers whose results are
    short. *)
Definition short_registration (op : @registration W) : Prop :=
  match op with
  | RegTool _ t h => is_Some (tl_name t) /\ lenZ (tool_item (mkToolEntry t h)) + 8 < 512 /\
      exists f, h = Some f /\ forall name args w, short_contents (f name args w).2.1
  | RegResource _ r h => is_Some (rs_uri r) /\ lenZ (resource_item (mkResourceEntry r h)) + 16 < 512
  | RegTemplate _ t => lenZ (template_item t) + 12 < 512
  | RegPrompt _ p h => is_Some (pt_name p) /\ lenZ (prompt_item (mkPromptEntry p h)) + 8 < 512 /\
      forall f, h = Some f -> forall name args w, short_messages (f name args w).2
  end.

Definition short_op (op : sv_op W) : Prop :=
  match op with
  | SvCall (PmRegister op) => short_registration op
  | SvCall _ => True
  | SvRequest msg => exists params, opt_str (um_payload msg) = Done params
  end.

(** Shortness, the number of entries apart. *)
Definition short_entries x : Prop :=
  Forall (fun e => short_registration (RegTool true (te_tool e) (te_handler e))) (mx_tools x) /\
  Forall (fun e => short_registration (RegResource true (rn_resource e) (rn_handler e))) (mx_resources x) /\
  Forall (fun t => short_registration (RegTemplate true t)) (mx_templates x) /\
  Forall (fun e => short_registration (RegPrompt true (pe_prompt e) (pe_handler e))) (mx_prompts x).

Lemma short_entries_server x n : short_entries x -> at_most n x -> n < 2 ^ 32 -> server_short x.
Proof.
  intros (Ht & Hr & Hm & Hp) (Lt & Lr & Lm & Lp) Hn. split.
  - split; [lia|]. eapply Forall_impl; [exact Ht|]. intros [t h] (Hname & Hlen & _). by split.
  - split; [lia|]. eapply Forall_impl; [exact Hr|]. intros [r h] [Hname Hlen]. by split.
  - split; [lia|exact Hm].
  - split; [lia|]. eapply Forall_impl; [exact Hp|]. intros [p h] (Hname & Hlen & _). by split.
  - eapply Forall_impl; [exact Ht|]. by intros [t h] (_ & _ & Hf).
  - eapply Forall_impl; [exact Hp|]. by intros [p h] (_ & _ & Hf).
Qed.

Lemma push_items {A} alloc (l k : list A) cap cap' a :
  push alloc l cap a = Done (Some (k, cap')) -> k = l ++ [a].
Proof. unfold push. repeat case_match; by intros [= <- <-]. Qed.

(** A registration adds its entry or changes nothing. *)
Lemma register_short op x rc y :
  short_entries x -> short_registration op -> register op x = Done (rc, Some y) -> short_entries y.
Proof.
  intros (Ht & Hr & Hm & Hp) Hop. destruct op as [a t h|a r h|a t|a p h]; cbn [register];
    unfold mcp_v1_register_tool, mcp_v1_register_resource, mcp_v1_register_resource_template,
      mcp_v1_register_prompt; rewrite ?tool_eta, ?resource_eta, ?template_eta, ?prompt_eta;
    try (destruct (_ <=? _); [by intros [= <- <-]|]);
    intros ([[l cap]|] & Hpush & [= <- <-])%outcome_bind_inv; try done;
    apply push_items in Hpush as ->; unfold short_entries; cbn; (split_and!; try done);
    (apply Forall_app; split; [done|by apply Forall_singleton]).
Qed.

Lemma value_step_short op x rc y :
  short_entries x -> short_op (SvCall op) -> mcp_value_step op x = Done (rc, Some y) -> short_entries y.
Proof.
  intros Hx Hop. destruct op as [op|address|]; cbn [mcp_value_step].
  - apply register_short; [done|]. by destruct op.
  - intros [= _ <-]. by destruct address.
  - by intros [= _ <-].
Qed.

Lemma counted_short x y : counted x y -> short_entries x -> short_entries y.
Proof. by intros ->. Qed.

Lemma create_short c x : mcp_v1_context_create true (Some c) = Some x -> short_entries x.
Proof. intros [= <-]. unfold short_entries. by repeat constructor. Qed.

Lemma counted_ok x y n : counted x y -> context_ok x -> at_most n x -> context_ok y /\ at_most (n + 1) y.
Proof. intros ->. unfold context_ok, at_most. cbn. intros ? (? & ? & ? & ?). split; [done|]. lia. Qed.
End short.

(** ** The whole life *)

Section life_spec.
Context `{Grants} `{Handlers} `{!HandlersOk} {W : Type} `{AiryErr} `{AiryString} `{CJson}.
Context (Hg : grants).
Implicit Types (m : mcp_mem W) (w : W) (X Y : gmultiset addr).

(** The state of a session: the context, what requests have left so far. *)
Definition session_ok (n : Z) m : Prop :=
  context_ok (erase_mcp m) /\ at_most n (erase_mcp m) /\ short_entries (erase_mcp m).

Lemma erase_with_counters m y : counted (erase_mcp m) y -> erase_mcp (with_counters m y) = y.
Proof. intros Hy. rewrite Hy. done. Qed.

Lemma own_with_counters m y : own (with_counters m y) = own m.
Proof. done. Qed.

Definition not_prompt (op : sv_op W) : Prop :=
  match op with SvRequest msg => request_of msg <> "prompts/get"%cs | SvCall _ => True end.

Lemma spec_sv_step op m w n :
  session_ok n m -> short_op op -> n < 2 ^ 32 ->
  spec (sv_step op m w) (own m) (fun r Y =>
    let '(out, m', w') := r in exists ms : list smessage_array,
    Y = own m' ⊎ own ms /\ session_ok (n + 1) m' /\ (not_prompt op -> own ms = ∅) /\
    sv_value_step op (erase_mcp m) w = Done (out, erase_messages <$> ms, Some (erase_mcp m'), w')).
Proof.
  intros (Hok & Hn & Hx) Hop Hlt. destruct op as [op|msg]; cbn [sv_step sv_value_step].
  - eapply spec_bind; [by apply mcp_step_spec|]. intros [rc m'] Y (-> & Hok' & Hn' & Hv). cbn [fst snd] in *.
    specialize (Hv Hg). apply spec_ret. exists [].
    split; [rewrite own_nil; symmetry; apply (right_id_L ∅ (⊎))|]. split.
    { split; [done|]. split; [done|]. by eapply value_step_short. }
    split; [done|]. by rewrite Hv.
  - destruct Hop as [params Hp].
    eapply (spec_step _ _ _ ∅ (own m)); [apply spec_handle_request; [by eapply short_entries_server|done]
      |symmetry; apply (left_id_L ∅ (⊎))|].
    intros [[[rc out] y] w'] Z (ms & -> & Hms & Hv). destruct (Hv Hg) as (Hr & He & Hc).
    eapply (spec_destroy free_str out _ _ (own m ⊎ own ms)); [names_blocks|]. apply spec_ret. exists [ms].
    rewrite erase_with_counters by done.
    split; [rewrite own_with_counters, own_cons, own_nil; names_blocks|]. split; [|split].
    + unfold session_ok. rewrite erase_with_counters by done.
      destruct (counted_ok _ _ _ Hc Hok Hn) as [??]. split_and!; [done|done|by eapply counted_short].
    + intros Hnp. by rewrite (Hms Hnp).
    + rewrite Hp. cbn [mbind outcome_bind]. rewrite Hr. cbn [mbind outcome_bind fmap list_fmap]. by rewrite He.
Qed.

Lemma spec_sv_run ops m w n :
  session_ok n m -> Forall short_op ops -> n + lenZ ops < 2 ^ 32 ->
  spec (sv_run ops m w) (own m) (fun r Y =>
    let '(outs, m', w') := r in exists ms : list smessage_array,
    Y = own m' ⊎ own ms /\ (Forall not_prompt ops -> own ms = ∅) /\
    sv_value_run ops (erase_mcp m) w = Done (outs, erase_messages <$> ms, erase_mcp m', w')).
Proof.
  intros Hm Hops. revert m w n Hm. induction Hops as [|op ops Hop _ IH]; intros m w n Hm Hlt.
  { apply spec_ret. exists []. split; [rewrite own_nil; symmetry; apply (right_id_L ∅ (⊎))|done]. }
  rewrite lenZ_cons in Hlt. pose proof (lenZ_nonneg ops). cbn [sv_run sv_value_run].
  eapply spec_bind; [eapply spec_sv_step; [done|done|lia]|].
  intros [[out m1] w1] Y (ms1 & -> & Hm1 & Hp1 & Hv1).
  eapply (spec_step _ _ _ (own m1) (own ms1)); [eapply (IH m1 w1 (n + 1)); [done|lia]|done|].
  intros [[outs m2] w2] Z (ms2 & -> & Hp2 & Hv2). apply spec_ret. exists (ms1 ++ ms2).
  split; [rewrite own_app; names_blocks|]. split.
  - intros [Hop1 Hops1]%Forall_cons. rewrite own_app, (Hp1 Hop1), (Hp2 Hops1). apply (left_id_L ∅ (⊎)).
  - rewrite Hv1. cbn [mbind outcome_bind default from_option id]. rewrite Hv2.
    cbn [mbind outcome_bind]. by rewrite fmap_app.
Qed.

Lemma spec_server_life c ops w :
  0 <= mc_max_tools c -> 0 <= mc_max_resources c -> Forall short_op ops -> lenZ ops < 2 ^ 32 ->
  spec (server_life c ops w) ∅ (fun r Y => exists outs w' (ms : list smessage_array) x0 x,
    r = Some (outs, w') /\ Y = own ms /\ (Forall not_prompt ops -> own ms = ∅) /\
    mcp_v1_context_create true (Some c) = Some x0 /\
    sv_value_run ops x0 w = Done (outs, erase_messages <$> ms, x, w')).
Proof.
  intros Hmt Hmr Hops Hlt. eapply spec_bind; [by apply spec_create|].
  intros [m|] Y HY; [|by destruct HY]. destruct HY as (-> & Hok & Hn & Hv).
  pose proof (create_short _ _ (Hv Hg)) as Hx.
  eapply spec_bind; [eapply (spec_sv_run ops m w 0); [by split|done|lia]|].
  intros [[outs m'] w'] Y (ms & -> & Hp & Hr).
  eapply (spec_step _ _ _ (own m') (own ms)); [apply spec_context_destroy_mcp|done|].
  intros _ Z ->. apply spec_ret. exists outs, w', ms, (erase_mcp m), (erase_mcp m').
  split; [done|]. split; [apply (left_id_L ∅ (⊎))|]. split; [done|]. by split; [apply Hv|].
Qed.
End life_spec.


