(* ===== verification/TransportMem.v ===== *)
(** * Memory of the server's transports: standards/mcp/src/mcp_transport.c

    A transport over the heap of [Heap]: its block, its receive buffer and the
    copies of its addresses; the copy of the address a start parses; and the
    messages that are received.  Erasing the blocks gives the transport of
    [McpTransport]. *)

From S2P Require Export Heap McpTransport.
From S2P Require Import EnvInst McpHttp.
#[local] Open Scope Z_scope.

(** [struct mcp_transport] *)
Record transport_h := mkTransportH {
  th_block : addr;
  th_fields : mcp_transport;
  th_recv_buffer : addr;
  th_base_url : hstr;
  th_host_header : hstr;
  th_api_key : hstr;
  th_sse_endpoint : hstr;
  th_post_endpoint : hstr
}.

#[export] Instance eta_transport_h : Eta transport_h := fun t =>
  mkTransportH (th_block t) (th_fields t) (th_recv_buffer t) (th_base_url t) (th_host_header t)
    (th_api_key t) (th_sse_endpoint t) (th_post_endpoint t).

Definition transport_strs (t : transport_h) : list hstr :=
  [th_base_url t; th_host_header t; th_api_key t; th_sse_endpoint t; th_post_endpoint t].

#[export] Instance own_transport : Owns transport_h := fun t =>
  own (transport_strs t) ⊎ (own (th_recv_buffer t) ⊎ own (th_block t)).

Definition erase_transport (t : transport_h) : mcp_transport :=
  (th_fields t) <| tr_base_url := str (th_base_url t) |>
                <| tr_host_header := str (th_host_header t) |>
                <| tr_api_key := str (th_api_key t) |>
                <| tr_sse_endpoint := str (th_sse_endpoint t) |>
                <| tr_post_endpoint := str (th_post_endpoint t) |>.

(** The transport with the state, the socket and the flag of [f]. *)
Definition with_state (t : transport_h) (f : mcp_transport) : transport_h :=
  t <| th_fields := (th_fields t) <| tr_state := tr_state f |> <| tr_http_socket := tr_http_socket f |>
                                  <| tr_running := tr_running f |> |>.

(** ** Creation and destruction *)

(** The fields that are not pointers. *)
Definition transport_fields (c : mcp_transport_config_t) : mcp_transport :=
  mkTransport (tc_type c) MCP_TRANSPORT_DISCONNECTED (tc_on_error c) (tc_on_state_change c)
    (or_default (tc_read_timeout_ms c) 30000) (or_default (tc_write_timeout_ms c) 30000)
    (or_default (tc_max_message_size c) (10 * 1024 * 1024)) 0 0 None None None None None 0 0 0 false.

(** A refused copy of an address leaves a null pointer. *)
Definition transport_create_mem (config : option mcp_transport_config_t) : mem (option transport_h) :=
  match config with
  | None => mret None
  | Some c =>
      t ← malloc;
      match t with
      | None => mret None
      | Some p =>
          recv_buffer ← malloc;
          match recv_buffer with
          | None => _ ← free (Some p); mret None
          | Some b =>
              let f := transport_fields c in
              match tc_type c, tc_config c with
              | MCP_TRANSPORT_STDIO, UStdio i o =>
                  mret (Some (mkTransportH p (f <| tr_input_fd := or_default i 0 |>
                                                <| tr_output_fd := or_default o 1 |>)
                                b None None None None None))
              | MCP_TRANSPORT_HTTP_SSE, UHttp url key sse post interval attempts =>
                  base_url ← strdup_opt url;
                  host_header ← strdup_opt (upto "/" ∘ strip_scheme <$> url);
                  api_key ← strdup_opt key;
                  sse_endpoint ← strdup (default "/sse"%cs sse);
                  post_endpoint ← strdup (default "/messages"%cs post);
                  mret (Some (mkTransportH p
                    (f <| tr_reconnect_interval_ms := or_default interval 5000 |>
                       <| tr_max_reconnect_attempts := or_default attempts 10 |>
                       <| tr_http_socket := -1 |>)
                    b base_url host_header api_key sse_endpoint post_endpoint))
              | _, _ => mret (Some (mkTransportH p f b None None None None None))
              end
          end
      end
  end.

Definition free_transport (t : transport_h) : mem unit :=
  _ ← each free_str (transport_strs t);
  _ ← free (Some (th_recv_buffer t));
  free (Some (th_block t)).

Section transport_mem.
Context `{AiryErr}.

(** The sockets that are closed, and the blocks. *)
Definition transport_destroy_mem (t : transport_h) : mem (list tr_effect) :=
  _ ← free_transport t;
  mret (mcp_transport_destroy (Some (erase_transport t))).

(** Of what a start does, only the copy of the address it parses is memory;
    without it the transport fails. *)
Definition transport_start_mem (lookup : bytes -> Z -> start_event) (t : transport_h)
    : mem (Z * transport_h * list tr_effect) :=
  let v := erase_transport t in
  let '(rc, f, e) := mcp_transport_start lookup (Some v) in
  let started := (rc, with_state t (default v f), e) in
  match tr_type v, tr_base_url v with
  | MCP_TRANSPORT_HTTP_SSE, Some url | MCP_TRANSPORT_STREAMABLE_HTTP, Some url =>
      if bool_decide (tr_state v = MCP_TRANSPORT_CONNECTED) then mret started
      else
        url_copy ← strdup url;
        match url_copy with
        | None =>
            let '(f, e1) := set_state MCP_TRANSPORT_CONNECTING v in
            let '(f, e2) := set_state MCP_TRANSPORT_ERROR f in
            mret (AIRY_EINVAL, with_state t f, e1 ++ e2)
        | Some _ => _ ← free_str url_copy; mret started
        end
  | _, _ => mret started
  end.

Definition transport_stop_mem (t : transport_h) : Z * transport_h * list tr_effect :=
  let v := erase_transport t in
  let '(rc, f, e) := mcp_transport_stop (Some v) in (rc, with_state t (default v f), e).

(** The body is read into the block that is handed out. *)
Definition recv_stdio_mem (evs : list tr_read) (t : mcp_transport)
    : mem (option (Z * hstr * list tr_effect * list tr_read)) :=
  match read_line 256 [] evs with
  | None => mret None
  | Some (hdr_result, header_buf, evs) =>
      if hdr_result <? 0 then
        mret (Some (if hdr_result =? -2 then (AIRY_ERR_IO, None, [], evs)
                    else (AIRY_EINVAL, None, notify_error t (-20) "Failed to read message header"%cs, evs)))
      else
        let header := cstr_of header_buf in
        if negb (strneq 15 header "Content-Length: "%cs) then mret (Some (AIRY_EINVAL, None, [], evs))
        else
          let content_length := u64 (atol (drop 15 header)) in
          match read_line 4 [] evs with
          | None => mret None
          | Some (_, _, evs) =>
              if (content_length =? 0) || (tr_max_message_size t <? content_length)
              then mret (Some (AIRY_EINVAL, None, notify_error t (-21) "Invalid content length"%cs, evs))
              else
                body ← malloc;
                match body with
                | None => mret (Some (AIRY_ERR_OUT_OF_MEMORY, None, [], evs))
                | Some p =>
                    match read_body (Z.to_nat content_length) [] evs with
                    | None => mret None
                    | Some (rc, body, evs) =>
                        if rc =? 0 then mret (Some (0, Some (p, body), [], evs))
                        else _ ← free (Some p); mret (Some (rc, None, [], evs))
                    end
                end
          end
  end.

Fixpoint recv_http_mem (fuel : nat) (evs : list tr_read)
    : mem (option (Z * hstr * list tr_effect * list tr_read)) :=
  match fuel with
  | O => mret None
  | S f =>
      match read_line 8192 [] evs with
      | None => mret None
      | Some (line_result, line_buf, evs) =>
          if line_result <? 0 then mret (Some (AIRY_ERR_TIMEOUT, None, [], evs))
          else
            let line := cstr_of line_buf in
            if has_prefix "data: "%cs line then
              msg ← strdup (drop 6 line);
              mret (Some (match msg with
                          | None => (AIRY_ERR_OUT_OF_MEMORY, None, [], evs)
                          | Some _ => (0, msg, [], evs)
                          end))
            else if has_prefix "event: "%cs line then recv_http_mem f evs
            else if strlen line =? 0 then recv_http_mem f evs
            else mret (Some (AIRY_EINVAL, None, [], evs))
      end
  end.

Definition trans_receive_mem (evs : list tr_read) (t : transport_h)
    : mem (option (Z * hstr * list tr_effect * list tr_read)) :=
  let v := erase_transport t in
  if negb (bool_decide (tr_state v = MCP_TRANSPORT_CONNECTED))
  then mret (Some (AIRY_ERR_NOT_FOUND, None, [], evs))
  else match tr_type v with
  | MCP_TRANSPORT_STDIO => recv_stdio_mem evs v
  | _ =>
      if tr_http_socket v <? 0 then mret (Some (AIRY_ERR_NULL_POINTER, None, [], evs))
      else recv_http_mem (S (length (tr_bytes evs))) evs
  end.
End transport_mem.

(** ** Specifications *)

Section specs.
Context `{Grants} `{AiryErr}.
Implicit Types (t : transport_h) (X Y : gmultiset addr).

#[export] Instance destroys_transport : Destroys free_transport.
Proof.
  intros t. eapply (spec_destroy (each free_str) (transport_strs t)); [reflexivity|].
  eapply (spec_destroy free (Some (th_recv_buffer t))); [reflexivity|]. apply spec_free_block.
Qed.

Lemma own_transport_eq p f b s1 s2 s3 s4 s5 :
  own (mkTransportH p f b s1 s2 s3 s4 s5) = own [s1; s2; s3; s4; s5] ⊎ (own b ⊎ own p).
Proof. done. Qed.

Lemma own_with_state t f : own (with_state t f) = own t.
Proof. done. Qed.

(** No copy is taken for granted: each is null or what it copies. *)
Lemma spec_transport_create c :
  spec (transport_create_mem (Some c)) ∅ (fun o Y =>
    Y = own o /\ (grants -> mcp_transport_create true (Some c) = erase_transport <$> o)).
Proof.
  unfold transport_create_mem. eapply spec_new; [apply spec_malloc|]. intros [p|] Hp.
  2:{ apply spec_ret. split; [done|]. intros Hg. by destruct (Hp Hg). }
  eapply spec_new; [apply spec_malloc|]. intros [b|] Hb.
  2:{ eapply (spec_destroy free (Some p) _ _ ∅); [rewrite own_none, (left_id_L ∅ (⊎)); reflexivity|]. apply spec_ret. split; [done|].
      intros Hg. by destruct (Hb Hg). }
  destruct (tc_type c) eqn:Et; destruct (tc_config c) eqn:Ec.
  4:{ eapply spec_new; [apply spec_strdup_opt|]. intros u [_ Hu].
      eapply spec_new; [apply spec_strdup_opt|]. intros hh [_ Hh].
      eapply spec_new; [apply spec_strdup_opt|]. intros k [_ Hk].
      eapply spec_new; [apply spec_strdup|]. intros s [_ Hs].
      eapply spec_new; [apply spec_strdup|]. intros po [_ Hpo]. apply spec_ret.
      split; [rewrite !own_some, own_transport_eq; blocks|]. intros Hg.
      unfold mcp_transport_create. cbn [negb]. rewrite Et, Ec. unfold erase_transport. cbn.
      by rewrite (Hu Hg), (Hh Hg), (Hk Hg), (Hs Hg), (Hpo Hg), Et. }
  all: apply spec_ret; (split; [rewrite !own_some, own_transport_eq; blocks|]); intros Hg;
    unfold mcp_transport_create; cbn [negb]; rewrite Et, ?Ec; unfold erase_transport; cbn; by rewrite Et.
Qed.

(** A start and a stop change the state, the socket and the flag only. *)
Lemma start_fields lookup (t : mcp_transport) :
  exists f, (mcp_transport_start lookup (Some t)).1.2 = Some f /\
    f = t <| tr_state := tr_state f |> <| tr_http_socket := tr_http_socket f |>
          <| tr_running := tr_running f |>.
Proof.
  unfold mcp_transport_start, set_state. destruct t as [ty st oe os rt wt mm i o url hh key sse po ri ma sock run]. cbn.
  case_bool_decide; [by eexists|].
  destruct ty; [by eexists|..]; destruct url as [url|]; try (by eexists); cbn;
    destruct (url_endpoint url) as [host port]; destruct (lookup host port); by eexists.
Qed.

Lemma stop_fields (t : mcp_transport) :
  exists f, (mcp_transport_stop (Some t)).1.2 = Some f /\
    f = t <| tr_state := tr_state f |> <| tr_http_socket := tr_http_socket f |>
          <| tr_running := tr_running f |>.
Proof.
  unfold mcp_transport_stop, set_state. destruct t. cbn. by destruct (0 <=? _); eexists.
Qed.

Lemma spec_transport_start lookup t :
  spec (transport_start_mem lookup t) (own t) (fun r Y =>
    Y = own r.1.2 /\
    (grants -> mcp_transport_start lookup (Some (erase_transport t))
               = (r.1.1, Some (erase_transport r.1.2), r.2))).
Proof.
  unfold transport_start_mem. destruct (start_fields lookup (erase_transport t)) as (f & Hf & Hfields).
  destruct (mcp_transport_start lookup (Some (erase_transport t))) as [[rc f'] e].
  cbn [fst snd] in Hf. subst f'. cbn [default from_option id].
  assert (forall X, X = own t -> spec (mret (rc, with_state t f, e)) X (fun r Y =>
    Y = own r.1.2 /\ (grants -> (rc, Some f, e) = (r.1.1, Some (erase_transport r.1.2), r.2)))) as Hdone.
  { intros X ->. apply spec_ret. split; [done|]. intros _. cbn [fst snd]. do 3 f_equal. by rewrite Hfields. }
  assert (forall url, spec (if bool_decide (tr_state (erase_transport t) = MCP_TRANSPORT_CONNECTED)
      then mret (rc, with_state t f, e)
      else
        url_copy ← strdup url;
        match url_copy with
        | None =>
            let '(f, e1) := set_state MCP_TRANSPORT_CONNECTING (erase_transport t) in
            let '(f, e2) := set_state MCP_TRANSPORT_ERROR f in
            mret (AIRY_EINVAL, with_state t f, e1 ++ e2)
        | Some _ => _ ← free_str url_copy; mret (rc, with_state t f, e)
        end) (own t) (fun r Y =>
    Y = own r.1.2 /\ (grants -> (rc, Some f, e) = (r.1.1, Some (erase_transport r.1.2), r.2)))) as Hcopy.
  { intros url. destruct (bool_decide _); [by apply Hdone|].
    eapply spec_new; [apply spec_strdup|]. intros u [_ Hu].
    destruct u as [[q s]|].
    - eapply (spec_destroy free_str _ _ _ (own t)); [done|]. by apply Hdone.
    - apply spec_ret. split; [apply (left_id_L ∅ (⊎))|]. intros Hg. by specialize (Hu Hg). }
  destruct (tr_type (erase_transport t)); [by apply Hdone|..];
    (destruct (tr_base_url (erase_transport t)); [apply Hcopy|by apply Hdone]).
Qed.

Lemma stop_erased t :
  own (transport_stop_mem t).1.2 = own t /\
  mcp_transport_stop (Some (erase_transport t))
  = ((transport_stop_mem t).1.1, Some (erase_transport (transport_stop_mem t).1.2), (transport_stop_mem t).2).
Proof.
  unfold transport_stop_mem. destruct (stop_fields (erase_transport t)) as (f & Hf & Hfields).
  destruct (mcp_transport_stop _) as [[rc f'] e]. cbn [fst snd] in *. subst f'. split; [done|].
  cbn [default from_option id]. do 3 f_equal. by rewrite Hfields.
Qed.

(** What a call that receives leaves: a message exactly with the code 0. *)
Definition received (v : option recv_result) (o : option (Z * hstr * list tr_effect * list tr_read)) Y : Prop :=
  match o with
  | Some (rc, out, e, evs) => Y = own out /\ (grants -> v = Some (rc, str out, e, evs))
  | None => grants -> v = None
  end.

Lemma received_nothing rc e evs :
  spec (mret (Some (rc, None, e, evs))) ∅ (received (Some (rc, None, e, evs))).
Proof. by apply spec_ret. Qed.

Lemma received_waiting : spec (mret None) ∅ (received None).
Proof. by apply spec_ret. Qed.

Lemma spec_recv_stdio evs (t : mcp_transport) :
  spec (recv_stdio_mem evs t) ∅ (received (recv_stdio true evs t)).
Proof.
  unfold recv_stdio_mem, recv_stdio.
  destruct (read_line 256 [] evs) as [[[hr line] evs1]|]; [|apply received_waiting]. cbn [mbind option_bind].
  destruct (hr <? 0); [destruct (hr =? -2); apply received_nothing|].
  destruct (negb (strneq 15 _ _)); [apply received_nothing|].
  destruct (read_line 4 [] evs1) as [[[r4 l4] evs2]|]; [|apply received_waiting]. cbn [mbind option_bind].
  destruct (_ || _); [apply received_nothing|].
  eapply spec_new; [apply spec_malloc|]. intros [p|] Hp.
  - cbn [negb]. destruct (read_body _ [] evs2) as [[[rc body] evs3]|];
      [|apply spec_ret; intros _; reflexivity].
    cbn [mbind option_bind]. destruct (rc =? 0).
    + apply spec_ret. split; [apply (right_id_L ∅ (⊎))|intros _; reflexivity].
    + eapply (spec_destroy free (Some p) _ _ ∅); [done|]. apply received_nothing.
  - apply spec_ret. split; [apply (right_id_L ∅ (⊎))|]. intros Hg. by destruct (Hp Hg).
Qed.

Lemma spec_recv_http fuel evs : spec (recv_http_mem fuel evs) ∅ (received (recv_http fuel true evs)).
Proof.
  revert evs. induction fuel as [|fuel IH]; intros evs; [by apply spec_ret|]. cbn [recv_http_mem recv_http].
  destruct (read_line 8192 [] evs) as [[[r line] evs1]|]; [|apply received_waiting]. cbn [mbind option_bind].
  destruct (r <? 0); [apply received_nothing|].
  destruct (has_prefix "data: "%cs _).
  { eapply spec_new; [apply spec_strdup|]. intros msg [_ Hm]. apply spec_ret. destruct msg as [[p s]|].
    - split; [apply (right_id_L ∅ (⊎))|]. intros Hg. injection (Hm Hg) as ->. done.
    - split; [apply (right_id_L ∅ (⊎))|]. intros Hg. by specialize (Hm Hg). }
  destruct (has_prefix "event: "%cs _); [apply IH|]. destruct (strlen _ =? 0); [apply IH|apply received_nothing].
Qed.

Lemma spec_trans_receive evs t :
  spec (trans_receive_mem evs t) ∅ (received (mcp_trans_receive true evs (Some (erase_transport t)) true)).
Proof.
  unfold trans_receive_mem, mcp_trans_receive. cbn [negb].
  destruct (negb _); [apply received_nothing|].
  destruct (tr_type (erase_transport t)); [apply spec_recv_stdio|..];
    (destruct (_ <? 0); [apply received_nothing|apply spec_recv_http]).
Qed.
End specs.

(** ** A transport from its creation to its end *)

Inductive tp_op :=
| TpStart (lookup : bytes -> Z -> start_event)
| TpStop
| TpReceive (evs : list tr_read).

(** The code, the effects and the message of a call. *)
Definition tp_out : Type := Z * list tr_effect * option bytes.

Section life.
Context `{AiryErr}.

(** A message that is received is released by the caller. *)
Fixpoint transport_run_mem (ops : list tp_op) (t : transport_h)
    : mem (option (list tp_out * transport_h)) :=
  match ops with
  | [] => mret (Some ([], t))
  | op :: ops =>
      r ← match op with
          | TpStart lookup => '(rc, t, e) ← transport_start_mem lookup t; mret (Some (rc, e, None, t))
          | TpStop => let '(rc, t, e) := transport_stop_mem t in mret (Some (rc, e, None, t))
          | TpReceive evs =>
              o ← trans_receive_mem evs t;
              match o with
              | Some (rc, out, e, _) => _ ← free_str out; mret (Some (rc, e, str out, t))
              | None => mret None
              end
          end;
      match r with
      | None => mret None
      | Some (out, t) =>
          outs ← transport_run_mem ops t;
          mret ('(outs, t) ← outs; Some (out :: outs, t))
      end
  end.

(** Nothing: creation failed; [Some None]: a call still waits. *)
Definition transport_life (c : mcp_transport_config_t) (ops : list tp_op)
    : mem (option (option (list tp_out * list tr_effect))) :=
  t ← transport_create_mem (Some c);
  match t with
  | None => mret None
  | Some t =>
      r ← transport_run_mem ops t;
      match r with
      | None => mret (Some None)
      | Some (outs, t) => e ← transport_destroy_mem t; mret (Some (Some (outs, e)))
      end
  end.

(** The same calls on values. *)
Fixpoint transport_run (ops : list tp_op) (t : mcp_transport) : option (list tp_out * mcp_transport) :=
  match ops with
  | [] => Some ([], t)
  | op :: ops =>
      '(out, t) ← match op with
                  | TpStart lookup =>
                      let '(rc, t', e) := mcp_transport_start lookup (Some t) in
                      Some (rc, e, None, default t t')
                  | TpStop =>
                      let '(rc, t', e) := mcp_transport_stop (Some t) in Some (rc, e, None, default t t')
                  | TpReceive evs =>
                      '(rc, out, e, _) ← mcp_trans_receive true evs (Some t) true; Some (rc, e, out, t)
                  end;
      '(outs, t) ← transport_run ops t;
      Some (out :: outs, t)
  end.

Lemma spec_transport_run `{Grants} ops t :
  spec (transport_run_mem ops t) (own t) (fun o Y =>
    match o with
    | Some (outs, t') => Y = own t' /\
        (grants -> transport_run ops (erase_transport t) = Some (outs, erase_transport t'))
    | None => grants -> transport_run ops (erase_transport t) = None
    end).
Proof.
  revert t. induction ops as [|op ops IH]; intros t; [by apply spec_ret|]. cbn [transport_run_mem].
  assert (forall (r : option (tp_out * transport_h)) Y v,
    match r with
    | Some (out, t') => Y = own t' /\ (grants -> v = Some (out, erase_transport t'))
    | None => grants -> v = None
    end ->
    spec (match r with
          | None => mret None
          | Some (out, t) => outs ← transport_run_mem ops t; mret ('(outs, t) ← outs; Some (out :: outs, t))
          end) Y (fun o Y => match o with
    | Some (outs, t') => Y = own t' /\
        (grants -> ('(out, t) ← v; '(outs, t) ← transport_run ops t; Some (out :: outs, t))
                   = Some (outs, erase_transport t'))
    | None => grants -> ('(out, t) ← v; '(outs, t) ← transport_run ops t; Some (out :: outs, t)) = None
    end)) as Hrest.
  { intros [[out t']|] Y v; [intros [-> Hv]|intros Hv; apply spec_ret; intros Hg; by rewrite (Hv Hg)].
    eapply spec_bind; [apply IH|]. intros [[outs t2]|] Z HZ; apply spec_ret; cbn [mbind option_bind].
    - destruct HZ as [-> Hr]. split; [done|]. intros Hg. rewrite (Hv Hg). cbn. by rewrite (Hr Hg).
    - intros Hg. rewrite (Hv Hg). cbn. by rewrite (HZ Hg). }
  cbn [transport_run]. eapply spec_bind; [|intros r Y HY; eapply Hrest; exact HY].
  destruct op as [lookup| |evs].
  - eapply spec_bind; [apply spec_transport_start|]. intros [[rc t'] e] Y [-> Hv]. apply spec_ret.
    split; [done|]. intros Hg. by rewrite (Hv Hg).
  - destruct (stop_erased t) as [Ho Hs]. rewrite Hs. destruct (transport_stop_mem t) as [[rc t'] e].
    apply spec_ret. by split.
  - eapply (spec_step _ _ _ ∅ (own t)); [apply spec_trans_receive|symmetry; apply (left_id_L ∅ (⊎))|].
    intros [[[[rc out] e] evs']|] Z HZ.
    + destruct HZ as [-> Hv]. eapply (spec_destroy free_str out _ _ (own t)); [done|]. apply spec_ret.
      split; [done|]. intros Hg. by rewrite (Hv Hg).
    + apply spec_ret. intros Hg. by rewrite (HZ Hg).
Qed.

Lemma spec_transport_life `{Grants} c ops :
  spec (transport_life c ops) ∅ (fun o Y =>
    match o with
    | Some (Some (outs, closes)) => Y = ∅ /\ (grants -> exists v0 v,
        mcp_transport_create true (Some c) = Some v0 /\ transport_run ops v0 = Some (outs, v) /\
        mcp_transport_destroy (Some v) = closes)
    | Some None => grants -> exists v0,
        mcp_transport_create true (Some c) = Some v0 /\ transport_run ops v0 = None
    | None => Y = ∅ /\ ~ grants
    end).
Proof.
  eapply spec_bind; [apply spec_transport_create|]. intros [t|] Y [-> Hc].
  2:{ apply spec_ret. split; [done|]. intros Hg. specialize (Hc Hg). revert Hc. cbn.
      destruct (tc_type c), (tc_config c); done. }
  eapply spec_bind; [apply spec_transport_run|]. intros [[outs t']|] Y HY.
  - destruct HY as [-> Hr]. eapply spec_bind.
    { eapply (spec_destroy free_transport t' _ _ ∅); [symmetry; apply (right_id_L ∅ (⊎))|].
      apply (spec_ret _ _ (fun e Y => Y = ∅ /\ e = mcp_transport_destroy (Some (erase_transport t')))). done. }
    intros e Y [-> ->]. apply spec_ret. split; [done|]. intros Hg.
    exists (erase_transport t), (erase_transport t'). split; [by rewrite (Hc Hg)|]. by split; [apply Hr|].
  - apply spec_ret. intros Hg. exists (erase_transport t). split; [by rewrite (Hc Hg)|by apply HY].
Qed.
End life.

(** A server's transport and its memory.  Create a transport, start it, stop
    it and receive from it in any order, release the messages received, and
    destroy it.  Whatever requests for memory are refused, nothing faults and
    what is live at the end is what was live before: no copy of an address, no
    body that was cut short, no buffer stays or is released twice.  When
    nothing is refused the codes, effects and messages are those of the calls
    on values. *)
Theorem transport_memory_safe `{AiryErr} (c : mcp_transport_config_t) (ops : list tp_op) (h : heap) :
  heap_wf h ->
  exists r h', transport_life c ops h = Done (r, h') /\
    match r with
    | Some (Some (outs, closes)) => hp_live h' = hp_live h /\
        ((forall p, hp_oracle h p = true) -> exists v0 v,
           mcp_transport_create true (Some c) = Some v0 /\ transport_run ops v0 = Some (outs, v) /\
           mcp_transport_destroy (Some v) = closes)
    | Some None => (forall p, hp_oracle h p = true) -> exists v0,
        mcp_transport_create true (Some c) = Some v0 /\ transport_run ops v0 = None
    | None => hp_live h' = hp_live h /\ ~ (forall p, hp_oracle h p = true)
    end.
Proof.
  intros Hwf. destruct (spec_run _ _ h Hwf (spec_transport_life c ops)) as (r & h' & Y & Hr & _ & Hl & HQ).
  exists r, h'. split; [exact Hr|].
  destruct r as [[[outs closes]|]|]; [destruct HQ as [-> HQ]|exact HQ|destruct HQ as [-> HQ]];
    (split; [|exact HQ]); rewrite Hl; apply (left_id_L ∅ (⊎)).
Qed.

(** The copy of the API key is refused; the rest goes on. *)
Lemma transport_memory_safe_witness :
  let c := mcp_transport_config_http_default (Some "http://h:8080/x"%cs) in
  let ops := [TpStart (fun _ _ => SConnected 5); TpReceive [TRData "data: hi\n"%cs]; TpStop] in
  let h := heap_init (fun p => negb (p =? 3)%nat) in
  exists outs closes h', @transport_life inst_err c ops h = Done (Some (Some (outs, closes)), h') /\
    outs = [(0, [], None); (0, [], Some "hi"%cs); (0, [ETClose 5], None)] /\ hp_live h' = hp_live h.
Proof.
  intros c ops h.
  destruct (@transport_memory_safe inst_err c ops h (heap_init_wf _)) as (r & h' & Hr & HQ).
  assert (exists outs closes, r = Some (Some (outs, closes)) /\
    outs = [(0, [], None); (0, [], Some "hi"%cs); (0, [ETClose 5], None)]) as (outs & closes & -> & ->).
  { assert (fst <$> (@transport_life inst_err c ops h)
            = Done (Some (Some ([(0, [], None); (0, [], Some "hi"%cs); (0, [ETClose 5], None)], []))))
      as He by (vm_compute; reflexivity).
    rewrite Hr in He. injection He as ->. eauto. }
  eexists _, closes, h'. split; [exact Hr|]. split; [done|]. by destruct HQ.
Defined.
