(* ===== verification/UnifiedMem.v ===== *)
(** * Memory of unified messages: common/src/unified_protocol.c, common/src/unified_decode.c

    The texts and payloads the codec of [Unified] allocates, over the heap of
    [Heap].  The message itself is the caller's. *)

From S2P Require Export Heap Unified.
From S2P Require Import EnvInst.
#[local] Open Scope Z_scope.

Section codec.
Context `{AiryErr}.

Definition umsg_to_json_mem (umsg : unified_message_t) : mem (Z * hstr) :=
  let payload := match um_payload umsg with Some p => p | None => [NUL] end in
  let payload_len := um_payload_size umsg in
  let buf_size := u64 (256 + payload_len) in
  buf ← malloc;
  match buf with
  | None => mret (AIRY_ERR_OUT_OF_MEMORY, None)
  | Some q =>
      p ← lift (print_prec (to_int payload_len) payload);
      let text := umsg_text umsg p in
      let written := strlen text in
      if (INT_MAX <? written) || (buf_size <=? written)
      then _ ← free (Some q); mret (AIRY_ERR_IO, None)
      else mret (0, Some (q, text))
  end.

(** The payload the message gets, and its block.  A refused block leaves a null
    payload and, where the text has a payload, the size the message had. *)
Definition decode_payload_mem (copy : bytes) (m : unified_message_t) : mem (unified_message_t * option addr) :=
  match strstr copy "'payload':'"%cs with
  | Some p =>
      let p := drop 11 p in
      let plen := match strchr p QUOTE with Some k => k | None => length p end in
      payload ← malloc;
      mret (match payload with
            | Some _ => m <| um_payload := Some (take plen p ++ [NUL]) |>
                          <| um_payload_size := Z.of_nat plen |>
            | None => m <| um_payload := None |>
            end, payload)
  | None =>
      payload ← malloc;
      mret (m <| um_payload := (fun _ => [NUL]) <$> payload |> <| um_payload_size := 0 |>, payload)
  end.

(** The copy of the text is released; the payload is the caller's. *)
Definition unified_decode_mem (now : Z) (data : bytes) (size : Z) (m : unified_message_t)
    (default_protocol : airy_protocol_type_t) : mem (Z * unified_message_t * option addr) :=
  if size =? 0 then mret (AIRY_ERR_INVALID_PARAM, m, None)
  else
    copy_block ← malloc;
    match copy_block with
    | None => mret (AIRY_ERR_OUT_OF_MEMORY, m, None)
    | Some q =>
        let copy := cstr_of (take (Z.to_nat size) data) in
        let m := m <| um_protocol :=
          decode_number copy "'protocol':"%cs 11 (fun s => to_enum (strtol s)) default_protocol |> in
        let m := m <| um_direction :=
          decode_number copy "'direction':"%cs 12 (fun s => to_enum (strtol s)) DIRECTION_RESPONSE |> in
        let m := m <| um_timestamp :=
          decode_number copy "'timestamp':"%cs 12 strtoull (u64 now) |> in
        '(m, payload) ← decode_payload_mem copy m;
        _ ← free (Some q);
        mret (0, m, payload)
    end.
End codec.

Section codec_spec.
Context `{Grants} `{AiryErr}.

Lemma spec_umsg_to_json m p :
  print_prec (to_int (um_payload_size m)) (match um_payload m with Some p => p | None => [NUL] end) = Done p ->
  spec (umsg_to_json_mem m) ∅ (fun r Y =>
    Y = own r.2 /\ (r.2 = None \/ r.1 = 0) /\ (grants -> umsg_to_json true m = Done (r.1, str r.2))).
Proof.
  intros Hp. unfold umsg_to_json_mem, umsg_to_json. rewrite Hp. cbn [negb mbind outcome_bind].
  eapply spec_new; [apply spec_malloc|]. intros [q|] Hq.
  - eapply spec_lift_bind; [done|]. destruct (_ || _).
    + eapply (spec_destroy free (Some q) _ _ ∅); [done|]. apply spec_ret.
      split; [done|]. split; [by left|done].
    + apply spec_ret. split; [apply (right_id_L ∅ (⊎))|]. split; [by right|done].
  - apply spec_ret. split; [apply (right_id_L ∅ (⊎))|]. split; [by left|]. intros Hg. by destruct (Hq Hg).
Qed.

Lemma spec_decode_payload copy m :
  spec (decode_payload_mem copy m) ∅ (fun r Y =>
    Y = own r.2 /\ (grants -> decode_payload true copy m = r.1)).
Proof.
  unfold decode_payload_mem, decode_payload.
  destruct (strstr _ _) as [t|]; (eapply spec_new; [apply spec_malloc|]); intros [q|] Hq; apply spec_ret;
    (split; [apply (right_id_L ∅ (⊎))|]); try done; intros Hg; by destruct (Hq Hg).
Qed.

Lemma spec_unified_decode now data size m default_protocol :
  spec (unified_decode_mem now data size m default_protocol) ∅ (fun r Y =>
    Y = own r.2 /\ (r.2 = None \/ r.1.1 = 0) /\
    (grants -> unified_decode now (fun _ => true) (Some data) size (Some m) default_protocol
               = (r.1.1, Some r.1.2))).
Proof.
  unfold unified_decode_mem, unified_decode. destruct (size =? 0).
  { apply spec_ret. split; [done|]. split; [by left|done]. }
  eapply spec_new; [apply spec_malloc|]. intros [q|] Hq.
  - cbn [negb]. eapply (spec_step _ _ _ ∅); [apply spec_decode_payload|symmetry; apply (left_id_L ∅ (⊎))|].
    intros [m' payload] Z [-> Hm]. cbn [fst snd] in *.
    eapply (spec_destroy free (Some q) _ _ (own payload)); [names_blocks|]. apply spec_ret.
    split; [done|]. split; [by right|]. intros Hg. by rewrite (Hm Hg).
  - apply spec_ret. split; [apply (right_id_L ∅ (⊎))|]. split; [by left|]. intros Hg. by destruct (Hq Hg).
Qed.
End codec_spec.

(** The codec and its memory.  Whatever requests for memory are refused,
    encoding a message leaves the text it hands out and nothing else, and so
    does decoding with the payload; a failure hands out nothing and leaves
    nothing.  When nothing is refused the results are those on values. *)
Theorem unified_codec_memory `{AiryErr} m p now data size dflt (h : heap) :
  heap_wf h ->
  print_prec (to_int (um_payload_size m)) (match um_payload m with Some p => p | None => [NUL] end) = Done p ->
  (exists rc (out : hstr) h', umsg_to_json_mem m h = Done (rc, out, h') /\
     hp_live h' = own out ⊎ hp_live h /\ (out = None \/ rc = 0) /\
     ((forall p, hp_oracle h p = true) -> umsg_to_json true m = Done (rc, str out))) /\
  (exists rc m' (payload : option addr) h', unified_decode_mem now data size m dflt h = Done (rc, m', payload, h') /\
     hp_live h' = own payload ⊎ hp_live h /\ (payload = None \/ rc = 0) /\
     ((forall p, hp_oracle h p = true) ->
        unified_decode now (fun _ => true) (Some data) size (Some m) dflt = (rc, Some m'))).
Proof.
  intros Hwf Hp. split.
  - destruct (spec_run _ _ h Hwf (spec_umsg_to_json m p Hp)) as ([rc out] & h' & Y & Hr & _ & Hl & -> & Ho & Hv).
    exists rc, out, h'. by split_and!.
  - destruct (spec_run _ _ h Hwf (spec_unified_decode now data size m dflt))
      as ([[rc m'] payload] & h' & Y & Hr & _ & Hl & -> & Ho & Hv).
    exists rc, m', payload, h'. by split_and!.
Qed.

Lemma unified_codec_memory_witness :
  let m := um_zero <| um_payload := Some ("hi"%cs ++ [NUL]) |> <| um_payload_size := 2 |> in
  let h := heap_init (fun p => negb (p =? 1)%nat) in
  exists rc (out : hstr) h', @umsg_to_json_mem inst_err m h = Done (rc, out, h') /\
    hp_live h' = own out ⊎ hp_live h.
Proof.
  intros m h.
  destruct (@unified_codec_memory inst_err m "hi"%cs 7 "{}"%cs 2 1 h) as [(rc & out & h' & H1 & H2 & _) _].
  - apply heap_init_wf.
  - by vm_compute.
  - exists rc, out, h'. by split.
Defined.
