(* ===== verification/Types.v ===== *)
(** * Values stay in their C types

    A reachable A2A context inhabits the types of
    standards/a2a/src/a2a_v03_adapter_internal.h: strings fit their arrays with
    the NUL, masks and counters their widths, and the tables their sizes. *)

From S2P Require Export A2aMem.
From S2P Require Import EnvInst.
#[local] Open Scope Z_scope.

(** A C [int], a [uint32_t] and a [uint64_t]. *)
Definition is_int (z : Z) : Prop := - 2 ^ 31 <= z <= INT_MAX.
Definition is_u32 (z : Z) : Prop := 0 <= z < 2 ^ 32.
Definition is_u64 (z : Z) : Prop := 0 <= z < 2 ^ 64.

(** A string in an array of [n] bytes. *)
Definition in_array (n : nat) (s : bytes) : Prop := (length s < n)%nat.

(** [a2a_internal_card_t] *)
Definition internal_typed (c : a2a_internal_card_t) : Prop :=
  in_array 64 (ic_id c) /\ in_array 128 (ic_name c) /\ in_array 512 (ic_url c) /\
  in_array 1024 (ic_capabilities c) /\ is_int (ic_version c) /\
  is_u32 (ic_capabilities_mask c).

(** [a2a_task_t]; the identifier has a buffer of its own. *)
Definition task_typed (t : a2a_task_t) : Prop :=
  in_array A2A_TASK_ID_SIZE (tk_id t) /\ is_int (tk_state t) /\
  is_u64 (tk_created_at t) /\ is_u64 (tk_updated_at t).

(** [struct a2a_v03_adapter_s] *)
Definition a2a_typed {W} (a : @a2a_v03_adapter_s W) : Prop :=
  Forall internal_typed (aa_slots a) /\ (length (aa_slots a) <= 256)%nat /\
  (aa_agent_count a <= length (aa_slots a))%nat /\
  is_u64 (aa_task_counter a) /\
  Forall task_typed (aa_tasks a) /\ lenZ (aa_tasks a) <= 4096 /\
  (forall h, aa_task_handler a = Some h -> forall t w, is_int (h t w).2.1).

(** The arguments a C caller can give, and a handler that stores a state of its
    type. *)
Definition args_typed {W} (op : mem_op W) : Prop :=
  match op with
  | MemRegister card => is_int (ca_protocol_version card)
  | MemSetTask (Some h) => forall t w, is_int (h t w).2.1
  | MemCreate now now' _ _ _ => is_u64 now'
  | MemUpdate now _ state _ _ => is_u64 now /\ is_int state
  | MemCancel now _ _ | MemStream now _ _ _ _ => is_u64 now
  | _ => True
  end.

Lemma u32_typed z : is_u32 (u32 z).
Proof. unfold is_u32, u32. apply Z.mod_pos_bound. lia. Qed.

Lemma u64_typed z : is_u64 (u64 z).
Proof. unfold is_u64, u64. apply Z.mod_pos_bound. lia. Qed.

Lemma fits_typed n s : (0 < n)%nat -> in_array n (fits n s).
Proof. intros Hn. unfold in_array, fits. rewrite length_take. lia. Qed.

Lemma strncpy_typed `{AiryString} n s : (0 < n)%nat -> in_array n (AIRY_STRNCPY_TERM s n).
Proof. intros Hn. rewrite strncpy_term_spec by done. unfold in_array. rewrite length_take. lia. Qed.

Create HintDb typed.
#[export] Hint Resolve u32_typed u64_typed fits_typed strncpy_typed : typed.

Section types.
Context {W : Type} `{AiryErr} `{AiryString}.
Implicit Types (a : @a2a_v03_adapter_s W).

Lemma internal_zero_typed : internal_typed internal_zero.
Proof. unfold internal_typed, in_array, is_int, is_u32. cbn. unfold INT_MAX. lia. Qed.

Lemma fill_card_typed card c :
  is_int (ca_protocol_version card) -> internal_typed c -> internal_typed (fill_card card c).
Proof.
  intros Hv (H1 & H2 & H3 & H4 & H5 & H6). unfold fill_card, internal_typed.
  assert (is_int (if 0 <? ca_protocol_version card then ca_protocol_version card else 3)) as Hver.
  { destruct (0 <? _); [done|]. unfold is_int, INT_MAX. lia. }
  destruct (ca_capabilities_json card); cbn; split_and!; first [done | apply strncpy_typed; lia].
Qed.

Lemma mask_typed c m : internal_typed c -> internal_typed (c <| ic_capabilities_mask := u32 m |>).
Proof. intros (H1 & H2 & H3 & H4 & H5 & H6). unfold internal_typed. cbn. auto 10 with typed. Qed.

Lemma id_typed c s : in_array 64 s -> internal_typed c -> internal_typed (c <| ic_id := s |>).
Proof. intros Hs (H1 & H2 & H3 & H4 & H5 & H6). unfold internal_typed. cbn. auto 10. Qed.

Lemma register_typed a card :
  a2a_typed a -> is_int (ca_protocol_version card) ->
  a2a_typed (default a (a2a_v03_register_agent (Some a) (Some card)).2).
Proof.
  intros Ha Hv. pose proof Ha as (Hs & Hl & Hc & Hk & Ht & Hn & Hh).
  unfold a2a_v03_register_agent. destruct (negb _); [done|].
  destruct (_ ≫= _) as [[i ic]|] eqn:Hex.
  - apply bind_Some in Hex as (id & _ & Hex). apply bind_Some in Hex as (j & _ & Hex).
    apply bind_Some in Hex as (c & Hj & [= -> ->]). unfold agents in Hj.
    apply lookup_take_Some in Hj as [Hj _]. rewrite Forall_lookup in Hs.
    unfold a2a_typed. cbn -[lenZ internal_typed fill_card u32]. rewrite length_insert.
    split; [|tauto]. apply Forall_insert; [by apply Forall_lookup|].
    apply (mask_typed (fill_card card ic)), fill_card_typed; [done|exact (Hs _ _ Hj)].
  - destruct (Z.leb_spec A2A_MAX_AGENTS (Z.of_nat (aa_agent_count a))) as [_|Hroom]; [done|].
    assert (internal_typed (default internal_zero (aa_slots a !! aa_agent_count a))) as Hd.
    { destruct (aa_slots a !! aa_agent_count a) eqn:Hl'; [|apply internal_zero_typed].
      rewrite Forall_lookup in Hs. cbn. eauto. }
    assert (exists id k, match usable_id card with
      | Some new_id => (AIRY_STRNCPY_TERM new_id 64, aa_task_counter a)
      | None => (fits 64 ("agent_"%cs ++ dec (Z.of_nat (aa_agent_count a) + 1) ++ "_"%cs
                          ++ dec (aa_task_counter a)), u64 (aa_task_counter a + 1))
      end = (id, k) /\ in_array 64 id /\ is_u64 k) as (id & k & -> & Hid & Hk').
    { destruct (usable_id card); do 2 eexists; (split; [reflexivity|]).
      - split; [apply strncpy_typed; lia|done].
      - split; [apply fits_typed; lia|apply u64_typed]. }
    set (c := _ <| ic_capabilities_mask := _ |>).
    assert (internal_typed c) as Hc' by (apply mask_typed, fill_card_typed, id_typed; done). clearbody c.
    unfold a2a_typed. cbn -[lenZ internal_typed]. unfold A2A_MAX_AGENTS in Hroom. unfold set_slot.
    case_decide as Hlt.
    + rewrite length_insert. split; [by apply Forall_insert|]. split_and!; first [done | lia].
    + rewrite length_app. cbn [length]. split; [apply Forall_app_2; [done|by apply Forall_singleton]|].
      split_and!; first [done | lia].
Qed.

Lemma unregister_typed a id :
  a2a_typed a -> a2a_typed (default a (a2a_v03_unregister_agent (Some a) (Some id)).2).
Proof.
  intros Ha. pose proof Ha as (Hs & Hl & Hc & Hk & Ht & Hn & Hh).
  unfold a2a_v03_unregister_agent. destruct (negb _); [done|].
  destruct (find_agent a id) as [i|]; [|done].
  case_decide; [destruct (aa_slots a !! _) as [c|] eqn:Hc'|];
    unfold a2a_typed; cbn -[lenZ internal_typed]; rewrite ?length_insert; split_and!; try first [done | lia].
  apply Forall_insert; [done|]. rewrite Forall_lookup in Hs. eauto.
Qed.

(** Changing a task of the table. *)
Lemma alter_typed a g i :
  a2a_typed a -> (forall t, task_typed t -> task_typed (g t)) ->
  a2a_typed (a <| aa_tasks ::= alter g i |>).
Proof.
  intros (Hs & Hl & Hc & Hk & Ht & Hn & Hh) Hg. unfold a2a_typed, lenZ in *.
  cbn -[internal_typed task_typed]. rewrite length_alter. split_and!; try done.
  apply Forall_alter; [done|]. intros t _. apply Hg.
Qed.

Lemma counter_typed a : a2a_typed a -> a2a_typed (bump_counter a).2.
Proof.
  intros (Hs & Hl & Hc & Hk & Ht & Hn & Hh). unfold a2a_typed.
  cbn -[internal_typed task_typed lenZ u64]. split_and!; auto with typed.
Qed.

Lemma handle_task_typed a t w : a2a_typed a -> task_typed t -> task_typed (handle_task a t w).2.
Proof.
  intros (_ & _ & _ & _ & _ & _ & Hh) (H1 & H2 & H3 & H4). unfold handle_task.
  destruct (aa_task_handler a) as [h|] eqn:He; [|done].
  specialize (Hh h eq_refl t w). destruct (h t w) as [w' [st [o|]]]; by split_and!.
Qed.

Lemma create_task_typed now now' a ag de inp w :
  a2a_typed a -> is_u64 now' ->
  a2a_typed (default a (a2a_v03_create_task (fun _ => true) now now' (Some a) ag de inp true w).2.1.2).
Proof.
  intros Ha Hnow. pose proof Ha as (Hs & Hl & Hc & Hk & Ht & Hn & Hh).
  unfold a2a_v03_create_task. cbn [negb orb]. destruct (negb _); [done|].
  destruct (Z.leb_spec A2A_V03_MAX_TASKS (lenZ (aa_tasks a))) as [_|Hroom]; [done|].
  assert (task_typed (new_task (lenZ (aa_tasks a)) now now' ag de inp)) as Hnew.
  { split_and!; [apply fits_typed; unfold A2A_TASK_ID_SIZE; lia| |done|done].
    unfold is_int, INT_MAX. cbn. unfold A2A_TASK_SUBMITTED. lia. }
  pose proof (handle_task_typed a _ w Ha Hnew) as Htask.
  destruct (handle_task a _ w) as [w' t]. cbn [fst snd default from_option Datatypes.id] in *.
  unfold a2a_typed, A2A_V03_MAX_TASKS in *. cbn -[internal_typed task_typed lenZ].
  split_and!; try done; [apply Forall_app_2; [done|by apply Forall_singleton]|autorewrite with airy; lia].
Qed.

Lemma update_task_typed now a id st out pr :
  a2a_typed a -> is_u64 now -> is_int st ->
  a2a_typed (default a (a2a_v03_update_task now (Some a) (Some id) st out pr).2).
Proof.
  intros Ha Hnow Hst. unfold a2a_v03_update_task. destruct (negb _); [done|].
  destruct (find_task a id); [|done]. apply alter_typed; [done|].
  intros t (H1 & H2 & H3 & H4). by destruct out; split_and!.
Qed.

Lemma cancel_task_typed now a id reason :
  a2a_typed a -> is_u64 now -> a2a_typed (default a (a2a_v03_cancel_task now (Some a) (Some id) reason).2).
Proof.
  intros Ha Hnow. unfold a2a_v03_cancel_task. destruct (negb _); [done|].
  destruct (find_task a id); [|done]. apply alter_typed; [done|].
  intros t (H1 & H2 & H3 & H4). assert (is_int A2A_TASK_CANCELED) by (unfold is_int, INT_MAX, A2A_TASK_CANCELED; lia).
  by destruct reason; split_and!.
Qed.

Lemma stream_update_typed now a id pr chunk final w :
  a2a_typed a -> is_u64 now ->
  a2a_typed (default a (a2a_v03_stream_task_update now (Some a) (Some id) pr chunk final w).2.2).
Proof.
  intros Ha Hnow. unfold a2a_v03_stream_task_update. destruct (negb _); [done|].
  destruct (find_task a id); cbn [fst snd default from_option Datatypes.id]; [|done].
  apply alter_typed; [done|]. intros t (H1 & H2 & H3 & H4).
  assert (is_int A2A_TASK_COMPLETED) by (unfold is_int, INT_MAX, A2A_TASK_COMPLETED; lia).
  by destruct final, chunk; split_and!.
Qed.

Lemma value_step_typed op (s : value_state (W:=W)) :
  a2a_typed s.2 -> args_typed op -> a2a_typed (value_step op s).2.2.
Proof.
  destruct s as [[w cache] a]. cbn [snd]. intros Ha Hop.
  destruct op as [card|id|id|cap|h|h|h|now now' ag de inp|now id st out pr|now id rs|now id pr ch fin
    |tg msg|rq|rq cb]; cbn [value_step args_typed snd] in *.
  - by apply register_typed.
  - by apply unregister_typed.
  - by destruct (a2a_v03_get_agent_card _ _ _).
  - done.
  - destruct Ha as (? & ? & ? & ? & ? & ? & ?). unfold a2a_typed. cbn -[internal_typed task_typed lenZ].
    split_and!; try done. by destruct h; [intros ? [= <-]|].
  - done.
  - done.
  - pose proof (create_task_typed now now' a ag de inp w Ha Hop) as Hc.
    destruct (a2a_v03_create_task _ _ _ _ _ _ _ _ _) as [w' [[rc ctx] p]]. exact Hc.
  - destruct Hop. by apply update_task_typed.
  - by apply cancel_task_typed.
  - pose proof (stream_update_typed now a id pr ch fin w Ha Hop) as Hc.
    destruct (a2a_v03_stream_task_update _ _ _ _ _ _ _) as [w' [rc ctx]]. exact Hc.
  - by destruct (a2a_v03_send_message _ _ _ _ _ _ _) as [w' [rc out]].
  - unfold a2a_v03_delegate_task. cbn [negb]. destruct (negb _); [done|].
    pose proof (counter_typed a Ha) as Hc. destruct (bump_counter a) as [k a'].
    by destruct (rq_description rq).
  - unfold a2a_v03_stream_task. destruct (negb _); [done|].
    pose proof (counter_typed a Ha) as Hc. by destruct (bump_counter a) as [k a'].
Qed.

Lemma value_run_typed ops (s : value_state (W:=W)) :
  a2a_typed s.2 -> Forall args_typed ops -> a2a_typed (value_run ops s).2.2.
Proof.
  revert s. induction ops as [|op ops IH]; intros s Hs Hops; [done|].
  apply Forall_cons in Hops as [Hop Hops]. cbn [value_run].
  pose proof (value_step_typed op s Hs Hop) as H1. destruct (value_step op s) as [r s1].
  specialize (IH s1 H1 Hops). by destruct (value_run ops s1).
Qed.

Lemma create_typed config a :
  a2a_v03_context_create (W:=W) true (Some config) = Some a -> a2a_typed a.
Proof.
  unfold a2a_v03_context_create, a2a_v03_create. cbn [negb].
  assert (is_u64 1) by (unfold is_u64; lia).
  destruct (0 <? af_default_timeout_ms config); cbn; intros [= <-];
    unfold a2a_typed; cbn; unfold lenZ; cbn; split_and!; first [done | lia | constructor].
Qed.
End types.

(** C20. An A2A context inhabits its C types.  After any sequence of calls on a
    new context, with arguments of the types the callers have, every string of
    an agent's entry and every task identifier fits its array with the NUL,
    versions and states are [int]s, masks and counters have their widths, there
    are at most 256 entries and 4096 tasks, and the count of agents stays within
    the entries written.  Nothing is assumed of the lengths of what is
    registered or of the values of masks. *)
Theorem a2a_context_typed {W} `{AiryErr} `{AiryString} config ops (w : W) cache a :
  a2a_v03_context_create true (Some config) = Some a -> Forall args_typed ops ->
  a2a_typed (value_run ops (w, cache, a)).2.2.
Proof. intros Hc Hops. apply value_run_typed; [|done]. by eapply create_typed. Qed.

Lemma a2a_context_typed_witness :
  let long := repeat "x"%char 2000 in
  let card := card_zero <| ca_id := Some long |> <| ca_name := Some long |>
                        <| ca_capabilities_json := Some long |> <| ca_capabilities := -1 |> in
  let ops : list (mem_op unit) :=
    [MemRegister card; MemRegister card; MemCreate 17 18 (Some long) None None] in
  exists a, @a2a_v03_context_create unit inst_err true (Some a2a_v03_config_default) = Some a /\
    a2a_typed (@value_run unit inst_err inst_string ops (tt, card_zero, a)).2.2.
Proof.
  intros long card ops. eexists. split; [reflexivity|].
  apply (@a2a_context_typed unit inst_err inst_string a2a_v03_config_default); [reflexivity|].
  repeat apply Forall_cons_2; try apply Forall_nil_2; cbn; unfold is_int, is_u64, INT_MAX; lia.
Defined.
