(* ===== verification/Adapters.v ===== *)
(** * The standard adapters in a protocol stack

    What the tables of A2aCb and McpCb promise to Stack through [NeedsContext],
    put together with what Stack does with such an adapter. *)

From S2P Require Import A2aCb McpCb EnvInst.
From stdpp Require Import gmap.
#[local] Open Scope Z_scope.

(** [protocol_stack_register_adapter] on adapter [a], and what the stack can do
    with the protocol of [a] afterwards. *)
Definition refused_by_stacks {W} `{AiryErr} (a : @protocol_adapter_t W) : Prop :=
  forall alloc (s s' : @protocol_stack_s W) w w' rc,
  null_contexts s ->
  protocol_stack_register_adapter alloc (Some s) a w = (rc, Some s', w') ->
  (find_adapter_node s (pa_type a) = None -> rc <> 0 /\ s' = s /\ w' = w) /\
  null_contexts s' /\ send_refused (pa_type a) s' w'.

(** C39. The standard adapters cannot be used through a protocol stack.
    Registration hands [init] a null context, which the A2A and the MCP adapter
    reject although their tables carry one: into a stack without an adapter for
    the protocol they are never added.  In a stack that has one they take its
    place without a context.  Either way every message of the protocol sent
    afterwards fails, without a frame being written, a request being run or the
    stack's counters changing. *)
Theorem standard_adapters_refused {V W} `{AiryErr} `{AiryString} `{CJson} repr overlay p q :
  refused_by_stacks (W := @a2a_world V) (a2a_v03_get_adapter repr overlay p) /\
  refused_by_stacks (W := @mcp_world W) (mcp_v1_get_adapter q).
Proof. split; intros alloc s s' w w' rc; exact (needs_context_unusable _ alloc s s' w w' rc). Qed.

(** A new stack holds no context, so the theorem applies to it. *)
Lemma standard_adapters_refused_witness :
  let s : @protocol_stack_s (@mcp_world unit) :=
    mkStack (@protocol_stack_config_default inst_string None) [] 0 true false 0 0 0 0 in
  let w := mkMcpWorld ∅ ∅ (fun _ _ => true) 1%nat 0 (fun _ _ => SNoSocket) [] [] [] [] Running tt in
  let m := um_zero <| um_protocol := AIRY_PROTOCOL_MCP |> in
  exists rc, @protocol_stack_send (@mcp_world unit) inst_err (Some s) (Some m) None w
             = (rc, Some s, w, []) /\ rc <> 0.
Proof.
  intros s w m.
  refine (proj2 (proj2 (proj2 (@standard_adapters_refused unit unit inst_err inst_string inst_cjson
    (fun _ => []) (fun _ m => m) 0%nat 0%nat) true s s w w (@AIRY_ERR_UNKNOWN inst_err) _ eq_refl))
    m None eq_refl).
  constructor.
Defined.
